(** * mlstatpy.ml.neural_tree: units, networks and the tree compiler

    A shallow embedding of [src/mlstatpy/ml/neural_tree.py].

    Conventions of the embedding.
    - [float64] values are idealised as real numbers ([R]); Python integers
      are [Z]; a Python exception is a constructor of [exn] and a call
      that may raise returns a [result].
    - A numpy array is an [ndarray] of rank 0, 1 or 2.
    - Units are Python objects that a network holds by reference and mutates
      ([nodeid], [coef]): they live in a heap and a network stores
      references, so that a unit appended twice is one shared object. The
      coefficient array of a unit is an object too, which two units may
      hold: the writes in place of [update_training_weights] reach every
      unit that holds the array ([arrays], [write_coef]).
    - Methods that mutate run in the monad [M] over a state; a raise leaves
      the state as it was at the point of the raise. *)

From Stdlib Require Import Reals Lra Lia ZArith List String Bool.
From stdpp Require Import base option list gmap strings pretty.
Import ListNotations.

Local Open Scope string_scope.
Local Open Scope list_scope.
Local Open Scope nat_scope.

(** ** Exceptions and results *)

(** The exceptions the module and numpy raise, one constructor per raise
    site or per kind of runtime error. *)
Inductive exn : Type :=
| UnknownActivation (kind : string)          (* ValueError, forward table *)
| UnknownActivationGradient (kind : string)  (* ValueError, gradient table *)
| UnknownActivationLoss (kind : string)      (* ValueError, loss tables *)
| UnsqueezedWeights                          (* RuntimeError, 1-row 2-D weights *)
| UnexpectedWeightsShape                     (* RuntimeError, rank not 1 or 2 *)
| DimensionMismatch (n_weights n_inputs : Z) (* RuntimeError, append *)
| BadCoefRank                                (* RuntimeError, append, last branch *)
| MultipleOutputUnits (found : nat)          (* RuntimeError, _get_output_node_attr *)
| NotAVector                                 (* ValueError, gradient *)
| NotImplementedError
| NotBinary                                  (* RuntimeError, create_from_tree *)
| NumpyValueError                            (* shapes that do not fit *)
| AmbiguousTruthValue                        (* ValueError, bool(array) *)
| IndexError
| KeyError (key : Z)
| TypeError
| OverflowError                              (* a value too large for int64 *)
| NoSuchObject.                              (* not a Python error: a reference outside the heap *)

Inductive result (A : Type) : Type :=
| Ok (a : A)
| Raise (e : exn).
Arguments Ok {A} a.
Arguments Raise {A} e.

Definition rbind {A B : Type} (m : result A) (k : A -> result B) : result B :=
  match m with
  | Ok a => k a
  | Raise e => Raise e
  end.

Declare Scope result_scope.
Delimit Scope result_scope with res.
Notation "'let*' x := m 'in' k" := (rbind m (fun x => k))
  (at level 10, x pattern, m at level 100, k at level 200) : result_scope.
Local Open Scope result_scope.

Definition is_ok {A : Type} (r : result A) : Prop :=
  match r with Ok _ => True | Raise _ => False end.

Definition raises {A : Type} (r : result A) : Prop :=
  match r with Ok _ => False | Raise _ => True end.

Definition of_option {A : Type} (e : exn) (o : option A) : result A :=
  match o with Some a => Ok a | None => Raise e end.

(** [for x in l: body] for a body that may raise. *)
Fixpoint rmap {A B : Type} (f : A -> result B) (l : list A) : result (list B) :=
  match l with
  | [] => Ok []
  | x :: l' => let* y := f x in let* ys := rmap f l' in Ok (y :: ys)
  end.

Fixpoint rfold {A S : Type} (f : S -> A -> result S) (l : list A) (s : S) : result S :=
  match l with
  | [] => Ok s
  | x :: l' => let* s' := f s x in rfold f l' s'
  end.

(** ** Python sequences and numpy arrays *)

(** Position designated by index [i] in a sequence of length [n]: Python
    and numpy count a negative index from the end. *)
Definition py_index (n : nat) (i : Z) : option nat :=
  if (0 <=? i)%Z then
    if (i <? Z.of_nat n)%Z then Some (Z.to_nat i) else None
  else if (- Z.of_nat n <=? i)%Z then Some (Z.to_nat (Z.of_nat n + i))
  else None.

(** [l[i]] *)
Definition getitem {A : Type} (l : list A) (i : Z) : result A :=
  match py_index (length l) i with
  | Some p => of_option IndexError (l !! p)
  | None => Raise IndexError
  end.

(** [l[i] = x] *)
Definition setitem {A : Type} (l : list A) (i : Z) (x : A) : result (list A) :=
  match py_index (length l) i with
  | Some p => Ok (<[p := x]> l)
  | None => Raise IndexError
  end.

(** Bounds of the slice [l[a:b]] clipped as Python does. *)
Definition clip (n : nat) (i : Z) : nat :=
  if (i <? 0)%Z then Z.to_nat (Z.max 0 (Z.of_nat n + i))
  else Nat.min n (Z.to_nat i).

(** [l[a:b]] *)
Definition slice {A : Type} (l : list A) (a b : Z) : list A :=
  let lo := clip (length l) a in
  let hi := clip (length l) b in
  take (hi - lo) (drop lo l).

(** [range(a, b)] *)
Definition range (a b : Z) : list Z :=
  map (fun i => (a + Z.of_nat i)%Z) (seq 0 (Z.to_nat (b - a))).

Inductive ndarray : Type :=
| A0 (x : R)                                 (* a scalar, shape () *)
| A1 (v : list R)                            (* shape (len v,) *)
| A2 (nc : nat) (rows : list (list R)).      (* shape (len rows, nc) *)

Definition rank (a : ndarray) : nat :=
  match a with A0 _ => 0 | A1 _ => 1 | A2 _ _ => 2 end.

Definition shape (a : ndarray) : list nat :=
  match a with
  | A0 _ => []
  | A1 v => [length v]
  | A2 nc rows => [length rows; nc]
  end.

(** [a.size] *)
Definition size_of (a : ndarray) : nat :=
  match a with
  | A0 _ => 1
  | A1 v => length v
  | A2 nc rows => length rows * nc
  end.

(** [a.ravel()] *)
Definition ravel (a : ndarray) : list R :=
  match a with
  | A0 x => [x]
  | A1 v => v
  | A2 _ rows => concat rows
  end.

(** Rows of [n] entries cut from a flat buffer. *)
Fixpoint chunks (fuel n : nat) (l : list R) : list (list R) :=
  match fuel with
  | O => []
  | S fuel' => take n l :: chunks fuel' n (drop n l)
  end.

(** [X.reshape(a.shape)] for a flat [X]. *)
Definition reshape_like (a : ndarray) (X : list R) : result ndarray :=
  if negb (length X =? size_of a) then Raise NumpyValueError
  else match a with
       | A0 _ => Ok (A0 (nth 0 X 0%R))
       | A1 _ => Ok (A1 X)
       | A2 nc rows => Ok (A2 nc (chunks (length rows) nc X))
       end.

Definition amap (f : R -> R) (a : ndarray) : ndarray :=
  match a with
  | A0 x => A0 (f x)
  | A1 v => A1 (map f v)
  | A2 nc rows => A2 nc (map (map f) rows)
  end.

Definition rsum (v : list R) : R := fold_right Rplus 0%R v.

Definition dot (u v : list R) : R := rsum (zip_with Rmult u v).

(** Column [j] of each row. *)
Definition column (rows : list (list R)) (j : nat) : list R :=
  map (fun r => nth j r 0%R) rows.

(** [a.T] *)
Definition transpose (a : ndarray) : ndarray :=
  match a with
  | A2 nc rows => A2 (length rows) (map (column rows) (seq 0 nc))
  | _ => a
  end.

(** [a @ b] *)
Definition matmul (a b : ndarray) : result ndarray :=
  match a, b with
  | A1 u, A1 v =>
      if length u =? length v then Ok (A0 (dot u v)) else Raise NumpyValueError
  | A2 nc rows, A1 v =>
      if nc =? length v then Ok (A1 (map (fun r => dot r v) rows))
      else Raise NumpyValueError
  | A1 u, A2 nc rows =>
      if length u =? length rows
      then Ok (A1 (map (fun j => dot u (column rows j)) (seq 0 nc)))
      else Raise NumpyValueError
  | A2 nc1 rows1, A2 nc2 rows2 =>
      if nc1 =? length rows2
      then Ok (A2 nc2 (map (fun r => map (fun j => dot r (column rows2 j)) (seq 0 nc2)) rows1))
      else Raise NumpyValueError
  | _, _ => Raise NumpyValueError
  end.

(** Broadcasting of one axis: equal lengths, or one of them 1. *)
Definition bdim (n m : nat) : result nat :=
  if n =? m then Ok n
  else if n =? 1 then Ok m
  else if m =? 1 then Ok n
  else Raise NumpyValueError.

Definition bzip {A B C : Type} (f : A -> B -> C) (u : list A) (v : list B) : list C :=
  if length u =? length v then zip_with f u v
  else match u, v with
       | [x], _ => map (f x) v
       | _, [y] => map (fun x => f x y) u
       | _, _ => []
       end.

(** An elementwise binary operation with numpy's broadcasting. *)
Definition broadcast (f : R -> R -> R) (a b : ndarray) : result ndarray :=
  match a, b with
  | A0 x, _ => Ok (amap (f x) b)
  | _, A0 y => Ok (amap (fun x => f x y) a)
  | A1 u, A1 v =>
      let* _ := bdim (length u) (length v) in Ok (A1 (bzip f u v))
  | A1 u, A2 nc rows =>
      let* n := bdim (length u) nc in Ok (A2 n (map (fun r => bzip f u r) rows))
  | A2 nc rows, A1 v =>
      let* n := bdim nc (length v) in Ok (A2 n (map (fun r => bzip f r v) rows))
  | A2 nc1 rows1, A2 nc2 rows2 =>
      let* _ := bdim (length rows1) (length rows2) in
      let* n := bdim nc1 nc2 in
      Ok (A2 n (bzip (bzip f) rows1 rows2))
  end.

Definition add := broadcast Rplus.
Definition sub := broadcast Rminus.
Definition mul := broadcast Rmult.

(** [numpy.diag]: the diagonal matrix of a vector, the diagonal of a matrix. *)
Definition diag (a : ndarray) : result ndarray :=
  match a with
  | A0 _ => Raise NumpyValueError
  | A1 v =>
      Ok (A2 (length v)
            (imap (fun i x => map (fun j => if i =? j then x else 0%R) (seq 0 (length v))) v))
  | A2 nc rows =>
      Ok (A1 (imap (fun i r => nth i r 0%R) (take nc rows)))
  end.

(** [res[idx]] for an integer index array. *)
Definition take_at (res : list R) (idx : list Z) : result (list R) :=
  rmap (getitem res) idx.

(** [m] values can be stored in [n] places: one for each, or one for all. *)
Definition fits (n m : nat) : bool := (m =? n) || (m =? 1).

(** [n] values taken from [v], which [fits]. *)
Definition spread (n : nat) (v : list R) : list R :=
  bzip (fun _ x => x) (seq 0 n) v.

(** [res[idx] = val] for an integer index list. *)
Definition put_at (res : list R) (idx : list Z) (val : ndarray) : result (list R) :=
  match val with
  | A2 _ _ => Raise NumpyValueError
  | _ =>
      let vs := ravel val in
      if negb (fits (length idx) (length vs)) then Raise NumpyValueError
      else rfold (fun acc '(i, x) => setitem acc i x)
                 (zip idx (spread (length idx) vs)) res
  end.

(** [res[o] = val] for one integer [o]: the value is a scalar or an array
    with a single entry. *)
Definition put_one (res : list R) (o : Z) (val : ndarray) : result (list R) :=
  match ravel val with
  | [x] => setitem res o x
  | _ => Raise NumpyValueError
  end.

(** [res[:k] = X] *)
Definition put_prefix (res : list R) (k : Z) (X : ndarray) : result (list R) :=
  let n := clip (length res) k in
  let* vs :=
    match X with
    | A0 x => Ok (replicate n x)
    | A1 v => if fits n (length v) then Ok (spread n v) else Raise NumpyValueError
    | A2 _ [v] => if fits n (length v) then Ok (spread n v) else Raise NumpyValueError
    | A2 _ _ => Raise NumpyValueError
    end in
  Ok (vs ++ drop n res).

(** [target[...] = val]: the values of [val] spread over the shape of
    [target]. *)
Definition assign (target val : ndarray) : result ndarray :=
  let val := match target, val with
             | A1 _, A2 _ [v] => A1 v
             | _, _ => val
             end in
  let* r := broadcast (fun _ v => v) target val in
  if bool_decide (shape r = shape target) then Ok r else Raise NumpyValueError.

(** [target *= f] *)
Definition imul (target f : ndarray) : result ndarray :=
  let* r := mul target f in
  if bool_decide (shape r = shape target) then Ok r else Raise NumpyValueError.

(** [f.reshape((-1, 1))] *)
Definition as_column (f : ndarray) : ndarray :=
  A2 1 (map (fun x => [x]) (ravel f)).

(** [numpy.sum(a, axis=0)] *)
Definition sum_axis0 (a : ndarray) : result ndarray :=
  match a with
  | A0 _ => Raise NumpyValueError
  | A1 v => Ok (A0 (rsum v))
  | A2 nc rows => Ok (A1 (map (fun j => rsum (column rows j)) (seq 0 nc)))
  end.

(** ** Activation catalog *)

(** What a Python function handed to [numpy.vectorize] returns: an [int]
    or a float. *)
Inductive pyscalar : Type :=
| PyInt (z : Z)
| PyFloat (r : R).

Definition as_float (p : pyscalar) : R :=
  match p with PyInt z => IZR z | PyFloat r => r end.

(** Python's [int(r)]: towards zero, an integer of any size. *)
Definition int_of_float (r : R) : Z :=
  if Rle_dec 0 r then Int_part r else (- Int_part (- r))%Z.

(** An integer stored with dtype [int64]: one that does not fit 64 bits is
    refused. *)
Definition to_int64 (z : Z) : result Z :=
  if ((- 2 ^ 63 <=? z) && (z <? 2 ^ 63))%Z then Ok z else Raise OverflowError.

(** Conversion of a float to the integer dtype: towards zero, within
    [int64]. *)
Definition truncate (r : R) : result Z := to_int64 (int_of_float r).

Definition as_int (p : pyscalar) : result R :=
  match p with
  | PyInt z => let* z := to_int64 z in Ok (IZR z)
  | PyFloat r => let* z := truncate r in Ok (IZR z)
  end.

(** [f] on every entry, the first failure wins. *)
Definition amap_result (f : R -> result R) (a : ndarray) : result ndarray :=
  match a with
  | A0 x => let* y := f x in Ok (A0 y)
  | A1 v => let* w := rmap f v in Ok (A1 w)
  | A2 nc rows => let* rs := rmap (rmap f) rows in Ok (A2 nc rs)
  end.

(** [numpy.vectorize(f)(a)]: the output dtype is the type of [f] at the
    first entry, every other output is converted to it; an array without
    entries is refused. *)
Definition vectorize (f : R -> pyscalar) (a : ndarray) : result ndarray :=
  match ravel a with
  | [] => Raise NumpyValueError
  | x0 :: _ =>
      match f x0 with
      | PyInt _ => amap_result (fun x => as_int (f x)) a
      | PyFloat _ => Ok (amap (fun x => as_float (f x)) a)
      end
  end.

(** [scipy.special.expit] *)
Definition expit (x : R) : R := (/ (1 + exp (- x)))%R.

(** [scipy.special.softmax(x)], over every entry: the exponential of each
    entry less the largest one, over the sum of these. The largest entry of
    an array without entries is refused. *)
Definition softmax (a : ndarray) : result ndarray :=
  match ravel a with
  | [] => Raise NumpyValueError
  | _ :: _ =>
      let s := rsum (map exp (ravel a)) in
      Ok (amap (fun x => (exp x / s)%R) a)
  end.

(** [scipy.special.softmax(x, axis=1)]: the softmax of each row. *)
Definition softmax_rows (a : ndarray) : result ndarray :=
  match a with
  | A2 nc rows =>
      let* rs := rmap (fun r => let* s := softmax (A1 r) in Ok (ravel s)) rows in
      Ok (A2 nc rs)
  | _ => Ok a
  end.

(** [numpy.finfo(numpy.float32).eps] *)
Definition cst : R := (/ IZR (2 ^ 23))%R.

(** Library functions whose values leave the real numbers (inf, nan):
    [scipy.special.rel_entr] and [numpy.log] are parameters of the model. *)
Class Special : Type := {
  kl_fct : R -> R -> R;
  np_log : R -> R
}.

(** The two functions where they are finite. *)
Definition real_special : Special :=
  {| kl_fct := fun x y => (x * ln (x / y))%R; np_log := ln |}.

Definition act_fn : Type := ndarray -> result ndarray.
Definition loss_fn : Type := ndarray -> ndarray -> ndarray -> result ndarray.

Definition elementwise (f : R -> R) : act_fn := fun a => Ok (amap f a).

Module NeuralTreeNode.

Definition _relu (x : R) : pyscalar :=
  if Rlt_dec 0 x then PyFloat x else PyInt 0.

Definition _leakyrelu (x : R) : pyscalar :=
  if Rlt_dec 0 x then PyFloat x else PyFloat (x * 0.01).

Definition _drelu (x : R) : pyscalar :=
  if Rlt_dec 0 x then PyInt 1 else PyInt 0.

Definition _dleakyrelu (x : R) : pyscalar :=
  if Rlt_dec 0 x then PyInt 1 else PyFloat 0.01.

Definition _dsigmoid (x : R) : R :=
  let y := expit x in (y * (1 - y))%R.

Definition _softmax : act_fn := fun x =>
  if rank x =? 2 then softmax_rows x else softmax x.

Definition _dsoftmax : act_fn := fun x =>
  let* soft := softmax x in
  let* grad := matmul (amap Ropp soft) (transpose soft) in
  let* diag := diag soft in
  add diag grad.

(** [lambda x: expit(x * 4)] *)
Definition sigmoid4 (x : R) : R := expit (x * 4).

(** [lambda x: NeuralTreeNode._dsigmoid(x) * 4] *)
Definition dsigmoid4 (x : R) : R := (_dsigmoid x * 4)%R.

(** [lambda x: NeuralTreeNode._softmax(x * 4)] *)
Definition softmax4 : act_fn := fun x => _softmax (amap (fun v => v * 4)%R x).

(** [lambda x: NeuralTreeNode._dsoftmax(x) * 4] *)
Definition dsoftmax4 : act_fn := fun x =>
  let* d := _dsoftmax x in Ok (amap (fun v => v * 4)%R d).

Definition logistic_names : list string := ["logistic"; "expit"; "sigmoid"].

Definition get_activation_function (activation : string) : result act_fn :=
  if String.eqb activation "softmax" then Ok _softmax
  else if String.eqb activation "softmax4" then Ok softmax4
  else if existsb (String.eqb activation) logistic_names then Ok (elementwise expit)
  else if String.eqb activation "sigmoid4" then Ok (elementwise sigmoid4)
  else if String.eqb activation "relu" then Ok (vectorize _relu)
  else if String.eqb activation "leakyrelu" then Ok (vectorize _leakyrelu)
  else if String.eqb activation "identity" then Ok (fun x => Ok x)
  else Raise (UnknownActivation activation).

Definition get_activation_gradient_function (activation : string) : result act_fn :=
  if String.eqb activation "softmax" then Ok _dsoftmax
  else if String.eqb activation "softmax4" then Ok dsoftmax4
  else if existsb (String.eqb activation) logistic_names then Ok (elementwise _dsigmoid)
  else if String.eqb activation "sigmoid4" then Ok (elementwise dsigmoid4)
  else if String.eqb activation "relu" then Ok (vectorize _drelu)
  else if String.eqb activation "leakyrelu" then Ok (vectorize _dleakyrelu)
  else if String.eqb activation "identity" then Ok (vectorize (fun _ => PyInt 1))
  else Raise (UnknownActivationGradient activation).

Section Losses.
Context {special : Special}.

(** [(x - y) ** 2] *)
Definition squared_error (x y : ndarray) : result ndarray :=
  let* d := sub x y in Ok (amap (fun v => v ^ 2)%R d).

Definition get_activation_loss_function (activation : string) : result loss_fn :=
  if existsb (String.eqb activation) (logistic_names ++ ["sigmoid4"]) then
    Ok (fun w x y =>
          let* e := squared_error x y in
          let* ww := matmul w (transpose w) in
          add e (amap (fun v => v * 0.01)%R ww))
  else if existsb (String.eqb activation) ["softmax"; "softmax4"] then
    Ok (fun w x y =>
          broadcast kl_fct (amap (fun v => v + cst)%R x) (amap (fun v => v + cst)%R y))
  else if existsb (String.eqb activation) ["identity"; "relu"; "leakyrelu"] then
    Ok (fun w x y => squared_error x y)
  else Raise (UnknownActivationLoss activation).

(** [(x - y) * 2] *)
Definition dregdx : loss_fn := fun w x y =>
  let* d := sub x y in Ok (amap (fun v => v * 2)%R d).

(** [numpy.zeros(w.shape)] *)
Definition zeros_like : loss_fn := fun w x y => Ok (amap (fun _ => 0%R) w).

Definition get_activation_dloss_function (activation : string)
  : result (loss_fn * loss_fn) :=
  if existsb (String.eqb activation) (logistic_names ++ ["sigmoid4"]) then
    Ok (dregdx, fun w x y => Ok (amap (fun v => v * 0.02)%R w))
  else if existsb (String.eqb activation) ["softmax"; "softmax4"] then
    Ok (fun w x y =>
          let* d := sub (amap (fun v => np_log (v + cst)) x)
                        (amap (fun v => np_log (v + cst)) y) in
          Ok (amap (fun v => v + 1)%R d),
        zeros_like)
  else if existsb (String.eqb activation) ["identity"; "relu"; "leakyrelu"] then
    Ok (dregdx, zeros_like)
  else Raise (UnknownActivationLoss activation).
End Losses.

(** A unit. The five function attributes are the ones [_set_fcts] looks
    up from [activation]. *)
Record t : Type := mk {
  tag : option string;
  n_outputs : Z;
  coef : ndarray;
  activation : string;
  nodeid : Z;
  activation_ : act_fn;
  gradient_ : act_fn;
  loss_ : loss_fn;
  dlossds_ : loss_fn;
  dlossdw_ : loss_fn
}.

Definition set_nodeid (i : Z) (n : t) : t :=
  mk (tag n) (n_outputs n) (coef n) (activation n) i
     (activation_ n) (gradient_ n) (loss_ n) (dlossds_ n) (dlossdw_ n).

Definition set_coef (c : ndarray) (n : t) : t :=
  mk (tag n) (n_outputs n) c (activation n) (nodeid n)
     (activation_ n) (gradient_ n) (loss_ n) (dlossds_ n) (dlossdw_ n).

(** The [weights] argument of the constructor: a width, a list of floats
    or an array. *)
Inductive weights_arg : Type :=
| WInt (n : Z)
| WList (l : list R)
| WArray (a : ndarray).

(** The [bias] argument when it is given: a float or a vector. *)
Inductive bias_arg : Type :=
| BScalar (b : R)
| BArray (b : list R).

(** [rnd.randn(n)] from the position [from] of the stream of draws. *)
Definition randn (draws : nat -> R) (from n : nat) : list R :=
  map draws (seq from n).

Section Construction.
Context {special : Special}.

(** The first two statements of [__init__] on [weights]: the array and
    the number of draws consumed. *)
Definition weights_array (draws : nat -> R) (activation : string)
           (weights : weights_arg) : result (ndarray * nat) :=
  match weights with
  | WInt n =>
      if (n <? 0)%Z then Raise NumpyValueError
      else
        let k := Z.to_nat n in
        if String.prefix "softmax" activation
        then Ok (A2 k [randn draws 0 k; randn draws k k], 2 * k)
        else Ok (A1 (randn draws 0 k), k)
  | WList l => Ok (A1 l, 0)
  | WArray a => Ok (a, 0)
  end.

Definition __init__ (draws : nat -> R) (weights : weights_arg)
           (bias : option bias_arg) (activation : string) (nodeid : Z)
           (tag : option string) : result t :=
  let* (w, used) := weights_array draws activation weights in
  let* (n_out, c) :=
    match w with
    | A1 v =>
        let* b :=
          match bias with
          | None => Ok (draws used)
          | Some (BScalar b) => Ok b
          | Some (BArray [b]) => Ok b
          | Some (BArray _) => Raise NumpyValueError
          end in
        Ok (1%Z, A1 (b :: v))
    | A2 nc rows =>
        let n := length rows in
        if n =? 1 then Raise UnsqueezedWeights
        else
          let* bs :=
            match bias with
            | None => Ok (randn draws used n)
            | Some (BScalar b) => Ok (replicate n b)
            | Some (BArray [b]) => Ok (replicate n b)
            | Some (BArray bs) =>
                if length bs =? n then Ok bs else Raise NumpyValueError
            end in
          Ok (Z.of_nat n, A2 (S nc) (zip_with cons bs rows))
    | A0 _ => Raise UnexpectedWeightsShape
    end in
  let* f := get_activation_function activation in
  let* g := get_activation_gradient_function activation in
  let* l := get_activation_loss_function activation in
  let* (ds, dw) := get_activation_dloss_function activation in
  Ok (mk tag n_out c activation nodeid f g l ds dw).
End Construction.

(** [coef[1:]] *)
Definition coef_tail (c : ndarray) : result ndarray :=
  match c with
  | A0 _ => Raise IndexError
  | A1 v => Ok (A1 (drop 1 v))
  | A2 nc rows => Ok (A2 nc (drop 1 rows))
  end.

(** [coef[0]] *)
Definition coef_head (c : ndarray) : result ndarray :=
  match c with
  | A0 _ => Raise IndexError
  | A1 v => let* x := getitem v 0 in Ok (A0 x)
  | A2 nc rows => let* r := getitem rows 0 in Ok (A1 r)
  end.

(** [coef[:, 1:]] *)
Definition coef_cols_tail (c : ndarray) : result ndarray :=
  match c with
  | A2 nc rows => Ok (A2 (nc - 1) (map (drop 1) rows))
  | _ => Raise IndexError
  end.

(** [coef[:, 0]] *)
Definition coef_col0 (c : ndarray) : result ndarray :=
  match c with
  | A2 nc rows => if nc =? 0 then Raise IndexError else Ok (A1 (column rows 0))
  | _ => Raise IndexError
  end.

Definition input_weights (n : t) : result ndarray :=
  if (n_outputs n =? 1)%Z then coef_tail (coef n) else coef_cols_tail (coef n).

Definition bias (n : t) : result ndarray :=
  if (n_outputs n =? 1)%Z then coef_head (coef n) else coef_col0 (coef n).

(** [bool(a)] for an array of booleans. *)
Definition truth (bs : list bool) : result bool :=
  match bs with
  | [] => Ok false
  | [b] => Ok b
  | _ => Raise AmbiguousTruthValue
  end.

(** [any(...)] over a lazy sequence: it stops at the first true entry. *)
Fixpoint any (l : list (result bool)) : result bool :=
  match l with
  | [] => Ok false
  | r :: l' => let* b := r in if b then Ok true else any l'
  end.

Definition ne (x y : R) : bool := if Req_dec_T x y then false else true.

(** [map(lambda xy: xy[0] != xy[1], zip(a, b))], each entry read as a
    truth value: iterating a vector yields floats, iterating a matrix
    yields its rows. *)
Definition differences (a b : ndarray) : result (list (result bool)) :=
  match a, b with
  | A1 u, A1 v => Ok (zip_with (fun x y => Ok (ne x y)) u v)
  | A2 _ rows1, A2 _ rows2 =>
      Ok (zip_with (fun r1 r2 => truth (zip_with ne r1 r2)) rows1 rows2)
  | _, _ => Raise TypeError
  end.

Definition __eq__ (self obj : t) : result bool :=
  if negb (bool_decide (shape (coef self) = shape (coef obj))) then Ok false
  else
    let* ds := differences (coef self) (coef obj) in
    let* d := any ds in
    if d then Ok false
    else if negb (String.eqb (activation self) (activation obj)) then Ok false
    else Ok true.

(** [X.reshape((1, -1))] *)
Definition as_row (X : ndarray) : ndarray :=
  A2 (size_of X) [ravel X].

(** [X.ravel()] as an array. *)
Definition flat (X : ndarray) : ndarray := A1 (ravel X).

Definition _predict (self : t) (X : ndarray) : result ndarray :=
  if (n_outputs self =? 1)%Z then
    let* w := coef_tail (coef self) in
    let* b := coef_head (coef self) in
    let* p := matmul X w in
    add p b
  else
    let* w := coef_cols_tail (coef self) in
    let* b := coef_col0 (coef self) in
    let* p := matmul (as_row X) (transpose w) in
    let* s := add p b in
    Ok (flat s).

Definition predict (self : t) (X : ndarray) : result ndarray :=
  if (n_outputs self =? 1)%Z then
    let* w := coef_tail (coef self) in
    let* b := coef_head (coef self) in
    let* p := matmul X w in
    let* s := add p b in
    activation_ self s
  else if rank X =? 2 then
    let* w := coef_cols_tail (coef self) in
    let* b := coef_col0 (coef self) in
    let* p := matmul X (transpose w) in
    let* s := add p b in
    activation_ self s
  else
    let* w := coef_cols_tail (coef self) in
    let* b := coef_col0 (coef self) in
    let* p := matmul (as_row X) (transpose w) in
    let* s := add p b in
    activation_ self (flat s).

(** [coef.shape[0] - 1] *)
Definition ndim (self : t) : result Z :=
  match shape (coef self) with
  | n :: _ => Ok (Z.of_nat n - 1)%Z
  | [] => Raise IndexError
  end.

Definition training_weights (self : t) : list R := ravel (coef self).

(** The coefficients after [update_training_weights(X, add)]. *)
Definition updated_coef (self : t) (X : ndarray) (add_ : bool) : result ndarray :=
  let* d := reshape_like (coef self) (ravel X) in
  if add_ then add (coef self) d else Ok d.

(** The cache of a unit: a dictionary with the keys [lX] and [aX]. *)
Definition fill_cache (self : t) (X : ndarray) : result (gmap string ndarray) :=
  let* lX := _predict self X in
  let* aX := activation_ self lX in
  Ok (<["aX" := aX]> {["lX" := lX]}).

Definition _common_loss_dloss (self : t) (X y : ndarray)
           (cache : option (gmap string ndarray)) : result ndarray :=
  match cache with
  | Some c => match c !! "aX" with
              | Some act => Ok act
              | None => predict self X
              end
  | None => predict self X
  end.

Definition loss (self : t) (X y : ndarray) (cache : option (gmap string ndarray))
  : result ndarray :=
  let* act := _common_loss_dloss self X y cache in
  loss_ self (coef self) act y.

Definition dlossds (self : t) (X y : ndarray) (cache : option (gmap string ndarray))
  : result ndarray :=
  let* act := _common_loss_dloss self X y cache in
  dlossds_ self (coef self) act y.

Definition dlossdw (self : t) (X y : ndarray) (cache : option (gmap string ndarray))
  : result ndarray :=
  let* act := _common_loss_dloss self X y cache in
  dlossdw_ self (coef self) act y.

Definition gradient_backward (self : t) (graddx graddw X : ndarray) (inputs : bool)
           (cache : option (gmap string ndarray)) : result ndarray :=
  let* cache := match cache with
                | None => fill_cache self X
                | Some c => Ok c
                end in
  let* pred := of_option TypeError (cache !! "aX") in
  let* ga := gradient_ self pred in
  let* f := if rank ga =? 2 then matmul graddx ga else mul graddx ga in
  if inputs then
    if rank (coef self) =? 1 then
      let* w := coef_tail (coef self) in
      let* rgrad := assign (amap (fun _ => 0%R) X) w in
      imul rgrad f
    else
      let* w := coef_cols_tail (coef self) in
      let* p := mul w (as_column f) in
      sum_axis0 p
  else
    let* rgrad :=
      match coef self with
      | A0 _ => Raise IndexError
      | A1 c =>
          let* _ := getitem c 0 in
          let* (xs : ndarray) := assign (A1 (drop 1 c)) X in
          imul (A1 (1%R :: ravel xs)) f
      | A2 nc rows =>
          if nc =? 0 then Raise IndexError
          else
            let* (xs : ndarray) := assign (A2 (nc - 1) (map (drop 1) rows)) X in
            match xs with
            | A2 _ xrows => imul (A2 nc (map (cons 1%R) xrows)) (as_column f)
            | _ => Raise NumpyValueError
            end
      end in
    let* g := reshape_like rgrad (ravel graddw) in
    add rgrad g.

End NeuralTreeNode.

(** ** Mutation: a state and error monad *)

Definition M (S A : Type) : Type := S -> result A * S.

Definition ret {S A : Type} (a : A) : M S A := fun s => (Ok a, s).

Definition bind {S A B : Type} (m : M S A) (k : A -> M S B) : M S B :=
  fun s => match m s with
           | (Ok a, s') => k a s'
           | (Raise e, s') => (Raise e, s')
           end.

Definition raise {S A : Type} (e : exn) : M S A := fun s => (Raise e, s).

(** A computation that reads nothing and changes nothing. *)
Definition lift {S A : Type} (r : result A) : M S A := fun s => (r, s).

Definition gets {S A : Type} (f : S -> A) : M S A := fun s => (Ok (f s), s).

Definition modify {S : Type} (f : S -> S) : M S unit := fun s => (Ok tt, f s).

Declare Scope monad_scope.
Delimit Scope monad_scope with monad.
Notation "'do' x <- m ; k" := (bind m (fun x => k))
  (at level 10, x pattern, m at level 100, k at level 200) : monad_scope.
Notation "m ;; k" := (bind m (fun _ => k))
  (at level 100, k at level 200, right associativity) : monad_scope.

(** A reference to a unit: its position in the heap. *)
Abbreviation ref := nat (only parsing).

(** The heap: the units that exist. *)
Abbreviation heap_t := (list NeuralTreeNode.t) (only parsing).

(** [NeuralTreeNode(...)]: a new object. *)
Definition alloc (n : result NeuralTreeNode.t) : M heap_t ref :=
  fun h => match n with
           | Ok node => (Ok (length h), h ++ [node])
           | Raise e => (Raise e, h)
           end.

Definition deref (h : heap_t) (r : ref) : result NeuralTreeNode.t :=
  of_option NoSuchObject (h !! r).

(** [res[a:b] = v] for a vector [v] with as many values as the slice has
    entries, or with one value. *)
Definition put_slice (res : list R) (a b : Z) (v : list R) : result (list R) :=
  let lo := clip (length res) a in
  let hi := clip (length res) b in
  let n := hi - lo in
  if negb (fits n (length v)) then Raise NumpyValueError
  else Ok (take lo res ++ spread n v ++ drop (lo + n) res).

(** ** Networks *)

Module NeuralTreeNet.

(** The [output] entry of the metadata: one slot, or the list of slots
    of a unit with several outputs. *)
Inductive output_t : Type :=
| OInt (o : Z)
| OList (os : list Z).

(** The [inputs] argument of [append]: a Python list of integers or an
    integer array. *)
Inductive inputs_arg : Type :=
| PyList (l : list Z)
| IntArray (l : list Z).

Definition values (a : inputs_arg) : list Z :=
  match a with PyList l => l | IntArray l => l end.

(** [numpy.array(inputs)]: an empty Python list becomes an array of
    floats, which numpy refuses as an index. *)
Record index_array : Type := mk_index {
  indices : list Z;
  integer_dtype : bool
}.

Definition numpy_array (a : inputs_arg) : index_array :=
  match a with
  | PyList l => mk_index l (negb (bool_decide (l = [])))
  | IntArray l => mk_index l true
  end.

(** The placement metadata of a unit (a dictionary with four keys). *)
Record attr : Type := mk_attr {
  inputs : index_array;
  output : output_t;
  coef_size : Z;
  first_coef : Z
}.

Record t : Type := mk {
  dim : Z;
  nodes : list ref;
  nodes_attr : list attr;
  size_ : Z;
  output_to_node_ : gmap Z (ref * attr);
  input_to_node_ : gmap Z (ref * attr)
}.

(** The state a method runs in: the units and the network itself. *)
Record world : Type := mk_world {
  heap : heap_t;
  self : t
}.

Definition read (r : ref) : M world NeuralTreeNode.t :=
  fun w => (deref (heap w) r, w).

Definition write (r : ref) (n : NeuralTreeNode.t) : M world unit :=
  modify (fun w => mk_world (<[r := n]> (heap w)) (self w)).

Definition update_self (f : t -> t) : M world unit :=
  modify (fun w => mk_world (heap w) (f (self w))).

Definition slots (o : output_t) : list Z :=
  match o with OInt o => [o] | OList os => os end.

(** The two loops that enter a unit in the lookup maps. *)
Definition register (node : ref) (a : attr) (net : t) : t :=
  mk (dim net) (nodes net) (nodes_attr net) (size_ net)
     (foldl (fun m o => <[o := (node, a)]> m) (output_to_node_ net) (slots (output a)))
     (foldl (fun m i => <[i := (node, a)]> m) (input_to_node_ net) (indices (inputs a))).

(** [max(d['output'] for d in self.nodes_attr) + 1]: defined for integer
    entries; a list among them is a [TypeError]. *)
Definition next_slot (attrs : list attr) : result Z :=
  let* os := rmap (fun a => match output a with
                            | OInt o => Ok o
                            | OList _ => Raise TypeError
                            end) attrs in
  match os with
  | [] => Raise NumpyValueError
  | o :: os' => Ok (fold_left Z.max os' o + 1)%Z
  end.

(** [_update_members()] without arguments: everything recomputed. *)
Definition rebuilt (net : t) : result t :=
  let* size :=
    match nodes_attr net with
    | [] => Ok (dim net)
    | _ => next_slot (nodes_attr net)
    end in
  Ok (foldl (fun acc '(node2, attr2) => register node2 attr2 acc)
            (mk (dim net) (nodes net) (nodes_attr net) size ∅ ∅)
            (zip (nodes net) (nodes_attr net))).

(** What [_update_members(node, attr)] adds to [size_]: 1 for a vector of
    input weights, [input_weights.shape[0]] otherwise. *)
Definition slots_taken (iw : ndarray) : result Z :=
  match iw with
  | A1 _ => Ok 1%Z
  | A2 _ rows => Ok (Z.of_nat (length rows))
  | A0 _ => Raise IndexError
  end.

Definition _update_members (arg : option (ref * attr)) : M world unit :=
  match arg with
  | None =>
      fun w => match rebuilt (self w) with
               | Ok net => (Ok tt, mk_world (heap w) net)
               | Raise e => (Raise e, w)
               end
  | Some (node, a) =>
      (do n <- read node ;
       do iw <- lift (NeuralTreeNode.input_weights n) ;
       do step <- lift (slots_taken iw) ;
       update_self (fun net =>
         register node a
           (mk (dim net) (nodes net) (nodes_attr net) (size_ net + step)%Z
               (output_to_node_ net) (input_to_node_ net))))%monad
  end.

(** [NeuralTreeNet(dim, empty)] *)
Definition __init__ {special : Special} (dim : Z) (empty : bool) : M heap_t t :=
  if empty then
    fun h =>
      match rebuilt (mk dim [] [] 0 ∅ ∅) with
      | Ok net => (Ok net, h)
      | Raise e => (Raise e, h)
      end
  else
    (do node <- alloc
         (if (dim <? 0)%Z then Raise NumpyValueError
          else NeuralTreeNode.__init__ (fun _ => 0%R)
                 (NeuralTreeNode.WArray (A1 (replicate (Z.to_nat dim) 1%R)))
                 (Some (NeuralTreeNode.BScalar 0)) "identity" 0 None) ;
     fun h =>
       match
         (let* n := deref h node in
          rebuilt (mk dim [node]
                      [mk_attr (mk_index (range 0 dim) true) (OInt dim)
                               (Z.of_nat (size_of (NeuralTreeNode.coef n))) 0]
                      0 ∅ ∅))
       with
       | Ok net => (Ok net, h)
       | Raise e => (Raise e, h)
       end)%monad.

Definition clear : M world unit :=
  (update_self (fun net =>
     mk (dim net) [] (nodes_attr net) (size_ net)
        (output_to_node_ net) (input_to_node_ net)) ;;
   update_self (fun net =>
     mk (dim net) (nodes net) [] (size_ net)
        (output_to_node_ net) (input_to_node_ net)) ;;
   _update_members None)%monad.

(** [self.nodes.append(node)] *)
Definition push_node (node : ref) : M world unit :=
  update_self (fun net =>
    mk (dim net) (nodes net ++ [node]) (nodes_attr net) (size_ net)
       (output_to_node_ net) (input_to_node_ net)).

(** [self.nodes_attr.append(attr)] *)
Definition push_attr (a : attr) : M world unit :=
  update_self (fun net =>
    mk (dim net) (nodes net) (nodes_attr net ++ [a]) (size_ net)
       (output_to_node_ net) (input_to_node_ net)).

(** [0 if len(self.nodes_attr) == 0 else
     self.nodes_attr[-1]['first_coef'] + self.nodes_attr[-1]['coef_size']] *)
Definition next_first_coef (net : t) : Z :=
  match last (nodes_attr net) with
  | None => 0%Z
  | Some a => (first_coef a + coef_size a)%Z
  end.

(** The statements shared by the two accepting branches of [append],
    [output] being what the branch computes from [size_]. *)
Definition attach (node : ref) (inputs : inputs_arg) (output : Z -> output_t)
  : M world attr :=
  (do len_nodes <- gets (fun w => Z.of_nat (length (nodes (self w)))) ;
   do n <- read node ;
   write node (NeuralTreeNode.set_nodeid len_nodes n) ;;
   push_node node ;;
   do first_coef <- gets (fun w => next_first_coef (self w)) ;
   do size <- gets (fun w => size_ (self w)) ;
   do n' <- read node ;
   let a := mk_attr (numpy_array inputs) (output size)
                    (Z.of_nat (size_of (NeuralTreeNode.coef n'))) first_coef in
   push_attr a ;;
   ret a)%monad.

Definition append (node : ref) (inputs : inputs_arg) : M world unit :=
  (do n <- read node ;
   do iw <- lift (NeuralTreeNode.input_weights n) ;
   do a <-
     match iw with
     | A1 v =>
         if negb (length v =? length (values inputs))
         then raise (DimensionMismatch (Z.of_nat (length v))
                                       (Z.of_nat (length (values inputs))))
         else attach node inputs OInt
     | A2 nc rows =>
         if negb (nc =? length (values inputs))
         then raise (DimensionMismatch (Z.of_nat nc)
                                       (Z.of_nat (length (values inputs))))
         else attach node inputs
                (fun size => OList (range size (size + Z.of_nat (length rows))))
     | A0 _ => raise BadCoefRank
     end ;
   _update_members (Some (node, a)))%monad.

(** [self[i]] *)
Definition __getitem__ (net : t) (i : Z) : result (ref * attr) :=
  let* n := getitem (nodes net) i in
  let* a := getitem (nodes_attr net) i in
  Ok (n, a).

Definition __len__ (net : t) : Z := Z.of_nat (length (nodes net)).

(** [res[attr['inputs']]] *)
Definition gather (res : list R) (idx : index_array) : result (list R) :=
  if integer_dtype idx then take_at res (indices idx) else Raise IndexError.

(** [res[attr['output']] = val] *)
Definition scatter (res : list R) (o : output_t) (val : ndarray) : result (list R) :=
  match o with
  | OInt o => put_one res o val
  | OList os => put_at res os val
  end.

(** [numpy.zeros((n,))] *)
Definition zeros (n : Z) : result (list R) :=
  if (n <? 0)%Z then Raise NumpyValueError else Ok (replicate (Z.to_nat n) 0%R).

(** The body of the loop of [_predict_one]:
    [res[attr['output']] = node.predict(res[attr['inputs']])]. *)
Definition evaluate (h : heap_t) (res : list R) (unit : ref * attr)
  : result (list R) :=
  let* n := deref h (fst unit) in
  let* x := gather res (inputs (snd unit)) in
  let* y := NeuralTreeNode.predict n (A1 x) in
  scatter res (output (snd unit)) y.

Definition _predict_one (h : heap_t) (net : t) (X : ndarray) : result (list R) :=
  let* res := zeros (size_ net) in
  let* res := put_prefix res (dim net) X in
  rfold (evaluate h) (zip (nodes net) (nodes_attr net)) res.

Definition predict (h : heap_t) (net : t) (X : ndarray) : result ndarray :=
  match X with
  | A2 _ rows =>
      let* _ := zeros (size_ net) in
      let* out := rmap (fun x => _predict_one h net (A1 x)) rows in
      Ok (A2 (Z.to_nat (size_ net)) out)
  | _ => let* res := _predict_one h net X in Ok (A1 res)
  end.

(** [sum(n.coef.size for n in self.nodes)] *)
Definition shape0 (h : heap_t) (net : t) : result nat :=
  let* sizes := rmap (fun r => let* n := deref h r in
                               Ok (size_of (NeuralTreeNode.coef n))) (nodes net) in
  Ok (foldr Nat.add 0 sizes).

Definition training_weights (h : heap_t) (net : t) : result (list R) :=
  let* sh := shape0 h net in
  let* (res, _) :=
    rfold (fun '(res, pos) r =>
             let* n := deref h r in
             let s := Z.of_nat (size_of (NeuralTreeNode.coef n)) in
             let* res := put_slice res pos (pos + s) (ravel (NeuralTreeNode.coef n)) in
             Ok (res, (pos + s)%Z))
          (nodes net) (replicate sh 0%R, 0%Z) in
  Ok res.

(** A unit holds its coefficients by reference. The constructor makes a
    new array, but [__setstate__] stores the array of the state it is given,
    the one [__getstate__] took from another unit: two units of the heap may
    hold one and the same array. [array_of r] names the array that the unit
    at [r] holds; a heap whose units were all made by the constructor has a
    one-to-one [array_of]. *)
Definition arrays : Type := ref -> nat.

(** [n.coef += ...] and [numpy.copyto(n.coef, ...)] for the unit at [r]:
    the array is written in place, so that every unit of the heap that
    holds it has the new coefficients. *)
Definition write_coef (array_of : arrays) (r : ref) (c : ndarray) : M world unit :=
  modify (fun w =>
    mk_world (imap (fun r' n' => if array_of r' =? array_of r
                                 then NeuralTreeNode.set_coef c n' else n')
                   (heap w))
             (self w)).

(** The loop of [update_training_weights] from the unit at [pos]. *)
Fixpoint update_loop (array_of : arrays) (X : list R) (add_ : bool) (l : list ref)
         (pos : Z) : M world unit :=
  match l with
  | [] => ret tt
  | r :: l' =>
      (do n <- read r ;
       let s := Z.of_nat (size_of (NeuralTreeNode.coef n)) in
       do c <- lift (NeuralTreeNode.updated_coef n (A1 (slice X pos (pos + s))) add_) ;
       write_coef array_of r c ;;
       update_loop array_of X add_ l' (pos + s)%Z)%monad
  end.

Definition update_training_weights (array_of : arrays) (X : list R) (add_ : bool)
  : M world unit :=
  (do l <- gets (fun w => nodes (self w)) ;
   update_loop array_of X add_ l 0)%monad.

(** An entry of the cache of a network: the cache of a unit under its
    identifier, the state buffer under [-1]. *)
Inductive cache_entry : Type :=
| UnitCache (c : gmap string ndarray)
| StateBuffer (res : ndarray).

Definition fill_cache (h : heap_t) (net : t) (X : ndarray)
  : result (gmap Z cache_entry) :=
  let* res := zeros (size_ net) in
  let* res := put_prefix res (dim net) X in
  let* (big_cache, res) :=
    rfold (fun '(big_cache, res) '(node, a) =>
             let* n := deref h node in
             let* x := gather res (inputs a) in
             let* cache := NeuralTreeNode.fill_cache n (A1 x) in
             let* aX := of_option TypeError (cache !! "aX") in
             let* res := scatter res (output a) aX in
             Ok (<[NeuralTreeNode.nodeid n := UnitCache cache]> big_cache, res))
          (zip (nodes net) (nodes_attr net)) (∅, res) in
  Ok (<[(-1)%Z := StateBuffer (A1 res)]> big_cache).

Definition _get_output_node_attr (h : heap_t) (net : t) (nb_last : Z)
  : result (ref * attr) :=
  let len_nodes := Z.of_nat (length (nodes net)) in
  let* ids :=
    rmap (fun i =>
            let* r := getitem (nodes net) i in
            let* n := deref h r in
            let k := NeuralTreeNode.nodeid n in
            let* (owner, _) := of_option (KeyError k) (output_to_node_ net !! k) in
            let* n' := deref h owner in
            Ok (NeuralTreeNode.nodeid n'))
         (range (len_nodes - nb_last) len_nodes) in
  let neurones : gset Z := list_to_set ids in
  if negb (size neurones =? 1) then Raise (MultipleOutputUnits (size neurones))
  else of_option (KeyError (len_nodes - 1)) (output_to_node_ net !! (len_nodes - 1)%Z).

(** [res[-last:]] or [res[:, -last:]] *)
Definition last_columns (res : ndarray) (last : Z) : result ndarray :=
  let tail (v : list R) := slice v (- last) (Z.of_nat (length v)) in
  match res with
  | A0 _ => Raise IndexError
  | A1 v => Ok (A1 (tail v))
  | A2 nc rows => Ok (A2 (length (tail (replicate nc 0%R))) (map tail rows))
  end.

Definition _common_loss_dloss (h : heap_t) (net : t) (X y : ndarray)
           (cache : option (gmap Z cache_entry))
  : result (ndarray * ndarray * ref * attr) :=
  let last := match shape y with
              | _ :: n :: _ => Z.of_nat n
              | _ => 1%Z
              end in
  let* res :=
    match cache with
    | Some c => match c !! (-1)%Z with
                | Some (StateBuffer res) => Ok res
                | Some (UnitCache _) => Raise TypeError
                | None => predict h net X
                end
    | None => predict h net X
    end in
  let* pred := last_columns res last in
  let* (last_node, last_attr) := _get_output_node_attr h net last in
  Ok (res, pred, last_node, last_attr).

(** [res[last_attr['inputs']]] or [res[:, last_attr['inputs']]] *)
Definition inputs_of (res : ndarray) (idx : index_array) : result ndarray :=
  match res with
  | A0 _ => Raise IndexError
  | A1 v => let* x := gather v idx in Ok (A1 x)
  | A2 _ rows => let* xs := rmap (fun r => gather r idx) rows in
                 Ok (A2 (length (indices idx)) xs)
  end.

Definition loss (h : heap_t) (net : t) (X y : ndarray)
           (cache : option (gmap Z cache_entry)) : result ndarray :=
  let* (res, _, last_node, last_attr) := _common_loss_dloss h net X y cache in
  let* n := deref h last_node in
  let* x := inputs_of res (inputs last_attr) in
  NeuralTreeNode.loss n x y None.

Definition dlossds (h : heap_t) (net : t) (X y : ndarray)
           (cache : option (gmap Z cache_entry)) : result ndarray :=
  let* (res, _, last_node, last_attr) := _common_loss_dloss h net X y cache in
  let* n := deref h last_node in
  let* x := inputs_of res (inputs last_attr) in
  NeuralTreeNode.dlossds n x y None.

Definition dlossdw (h : heap_t) (net : t) (X y : ndarray)
           (cache : option (gmap Z cache_entry)) : result ndarray :=
  let* (res, _, _, _) := _common_loss_dloss h net X y cache in
  if rank res <=? 1 then
    let* w := training_weights h net in
    let* dw :=
      rfold (fun dw '(node, a) =>
               let* n := deref h node in
               let* x := inputs_of res (inputs a) in
               let* d := NeuralTreeNode.dlossdw n x y None in
               put_slice dw (first_coef a) (first_coef a + coef_size a) (ravel d))
            (zip (nodes net) (nodes_attr net)) (replicate (length w) 0%R) in
    Ok (A1 dw)
  else Raise NotImplementedError.

Definition gradient_backward (h : heap_t) (net : t) (graddx graddw X : ndarray)
           (inputs : bool) (cache : option (gmap Z cache_entry)) : result ndarray :=
  Raise NotImplementedError.

(** *** The tree compiler *)

(** What [create_from_tree] reads of a fitted decision tree; [value] is
    the buffer of [tree_.value] in row-major order. *)
Record tree_t : Type := mk_tree {
  n_classes_ : Z;
  node_count : Z;
  children_left : list Z;
  children_right : list Z;
  feature : list Z;
  threshold : list R;
  value : list R;
  max_features_ : Z
}.

(** [value.reshape((-1, 2))] *)
Fixpoint pairs (l : list R) : result (list (R * R)) :=
  match l with
  | [] => Ok []
  | [_] => Raise NumpyValueError
  | a :: b :: l' => let* ps := pairs l' in Ok ((a, b) :: ps)
  end.

(** [(value[:, 1] > value[:, 0]).astype(numpy.int64)] *)
Definition classes_of (ps : list (R * R)) : list Z :=
  map (fun '(v0, v1) => if Rlt_dec v0 v1 then 1%Z else 0%Z) ps.

(** [NeuralTreeNode(...)] inside a method of the network. *)
Definition new_node (n : result NeuralTreeNode.t) : M world ref :=
  fun w => match alloc n (heap w) with
           | (r, h') => (r, mk_world h' (self w))
           end.

(** [root[n.nodeid][1]] *)
Definition attr_of (node : ref) : M world attr :=
  (do n <- read node ;
   do net <- gets self ;
   do (_, a) <- lift (__getitem__ net (NeuralTreeNode.nodeid n)) ;
   ret a)%monad.

(** [a['output']] where an integer is expected. *)
Definition output_slot (a : attr) : result Z :=
  match output a with
  | OInt o => Ok o
  | OList _ => Raise TypeError
  end.

(** ["N%d-..." % i] *)
Definition tag_of (i : Z) (suffix : string) : option string :=
  Some (String.append "N" (String.append (pretty i) suffix)).

Section Compiler.
Context {special : Special}.

(** The constructor called with explicit weights and bias: no random
    draw is made. *)
Definition unit_of (weights : ndarray) (bias : R) (activation : string)
           (tag : option string) : result NeuralTreeNode.t :=
  NeuralTreeNode.__init__ (fun _ => 0%R) (NeuralTreeNode.WArray weights)
    (Some (NeuralTreeNode.BScalar bias)) activation (-1) tag.

(** The local dictionaries [predecessor] and [outputs]. *)
Definition locals : Type := gmap Z ref * gmap Z (list ref).

(** The body of the loop over the nodes of the tree. *)
Definition visit (tree : tree_t) (k : R) (output_class : list Z) (i : Z)
           (loc : locals) : M world locals :=
  let '(predecessor, outputs) := loc in
  (do child_left <- lift (getitem (children_left tree) i) ;
   do child_right <- lift (getitem (children_right tree) i) ;
   if negb (child_left =? child_right)%Z then
     do coef <- lift (zeros (max_features_ tree)) ;
     do f <- lift (getitem (feature tree) i) ;
     do coef <- lift (setitem coef f (- k)%R) ;
     do th <- lift (getitem (threshold tree) i) ;
     do node_th <- new_node (unit_of (A1 coef) (k * th) "sigmoid4" (tag_of i "-th")) ;
     append node_th (IntArray (range 0 (max_features_ tree))) ;;
     match predecessor !! i with
     | Some pred =>
         do attr1 <- attr_of pred ;
         do attr2 <- attr_of node_th ;
         do node_true <- new_node (unit_of (A1 [1 * k; 1 * k]%R) (- k * 1.5)
                                           "sigmoid4" (tag_of i "-T")) ;
         do ins <- lift (rmap output_slot [attr1; attr2]) ;
         append node_true (PyList ins) ;;
         do node_false <- new_node (unit_of (A1 [k; - k]%R) (- k * 0.25)
                                            "sigmoid4" (tag_of i "-F")) ;
         do ins <- lift (rmap output_slot [attr1; attr2]) ;
         append node_false (PyList ins) ;;
         ret (<[child_right := node_false]> (<[child_left := node_true]> predecessor), outputs)
     | None =>
         do node_false <- new_node (unit_of (A1 [1 * -1]%R) 1
                                            "identity" (tag_of i "-F")) ;
         do a <- attr_of node_th ;
         do ins <- lift (rmap output_slot [a]) ;
         append node_false (PyList ins) ;;
         ret (<[child_right := node_false]> (<[child_left := node_th]> predecessor), outputs)
     end
   else
     match predecessor !! i with
     | Some pred =>
         do c <- lift (getitem output_class i) ;
         do bucket <- lift (of_option (KeyError c) (outputs !! c)) ;
         ret (predecessor, <[c := bucket ++ [pred]]> outputs)
     | None => ret loc
     end)%monad.

(** [for i in range(n_nodes)] *)
Fixpoint visit_all (tree : tree_t) (k : R) (output_class : list Z) (l : list Z)
         (loc : locals) : M world locals :=
  match l with
  | [] => ret loc
  | i :: l' =>
      bind (visit tree k output_class i loc)
           (fun loc' => visit_all tree k output_class l' loc')
  end.

(** The first loop of the final part: [output], [index] and [nb]. *)
Definition gather_leaves (n_classes : Z) (outputs : gmap Z (list ref))
  : result (list ref * list Z * list Z) :=
  rfold (fun '(output, index, nb) i =>
           let* o := of_option (KeyError i) (outputs !! i) in
           let* prev := getitem index (-1) in
           Ok (output ++ o, index ++ [(Z.of_nat (length o) + prev)%Z],
               nb ++ [Z.of_nat (length o)]))
        (range 0 n_classes) ([], [0%Z], []).

(** The second loop: [coef[i, index[i]:index[i + 1]] = k]. *)
Definition block_weights (n_classes : Z) (k : R) (index : list Z)
           (rows cols : nat) : result (list (list R)) :=
  rfold (fun coef i =>
           let* a := getitem index i in
           let* b := getitem index (i + 1) in
           let* row := getitem coef i in
           let* row := put_slice row a b [k] in
           setitem coef i row)
        (range 0 n_classes) (replicate rows (replicate cols 0%R)).

Definition final_node (tree : tree_t) (k : R) (outputs : gmap Z (list ref))
  : M world unit :=
  (do (output, index, nb) <- lift (gather_leaves (n_classes_ tree) outputs) ;
   do coef <- lift (block_weights (n_classes_ tree) k index (length nb) (length output)) ;
   do feat <- (fix each (l : list ref) : M world (list Z) :=
                 match l with
                 | [] => ret []
                 | n :: l' => do a <- attr_of n ;
                              do o <- lift (output_slot a) ;
                              do os <- each l' ;
                              ret (o :: os)
                 end) output ;
   do node <- new_node (unit_of (A2 (length output) coef) (- k / 2)
                                "softmax4" (Some "Nfinal")) ;
   append node (PyList feat))%monad.

Definition create_from_tree (tree : tree_t) (k : R) : M heap_t t :=
  if (2 <? n_classes_ tree)%Z then raise NotBinary
  else
    (do ps <- lift (pairs (value tree)) ;
     do root <- __init__ (max_features_ tree) true ;
     fun h =>
       match
         (do loc <- visit_all tree k (classes_of ps) (range 0 (node_count tree))
                      (∅, list_to_map (map (fun i => (i, [])) (range 0 (n_classes_ tree)))) ;
          final_node tree k (snd loc)) (mk_world h root)
       with
       | (Ok _, w) => (Ok (self w), heap w)
       | (Raise e, w) => (Raise e, heap w)
       end)%monad.
End Compiler.

End NeuralTreeNet.

(** ** The training interface *)

(** The methods [_TrainingAPI] declares and [gradient] calls, for a
    trainable [T] with caches [C]. *)
Class TrainingAPI (T C : Type) : Type := {
  fill_cache : T -> ndarray -> result (option C);
  loss : T -> ndarray -> ndarray -> option C -> result ndarray;
  dlossds : T -> ndarray -> ndarray -> option C -> result ndarray;
  dlossdw : T -> ndarray -> ndarray -> option C -> result ndarray;
  gradient_backward : T -> ndarray -> ndarray -> ndarray -> bool -> option C -> result ndarray
}.

(** [_TrainingAPI.gradient] *)
Definition gradient {T C : Type} `{TrainingAPI T C} (self : T) (X y : ndarray)
           (inputs : bool) : result ndarray :=
  if negb (length (shape X) =? 1) then Raise NotAVector
  else
    let* cache := fill_cache self X in
    let* dlossds := dlossds self X y cache in
    let* dlossdw := dlossdw self X y cache in
    gradient_backward self dlossds dlossdw X inputs cache.

#[export] Instance node_api : TrainingAPI NeuralTreeNode.t (gmap string ndarray) := {
  fill_cache self X := let* c := NeuralTreeNode.fill_cache self X in Ok (Some c);
  loss := NeuralTreeNode.loss;
  dlossds := NeuralTreeNode.dlossds;
  dlossdw := NeuralTreeNode.dlossdw;
  gradient_backward := NeuralTreeNode.gradient_backward
}.

(** A network is trained through the same interface; it is read together
    with the units it refers to. *)
#[export] Instance net_api
  : TrainingAPI (heap_t * NeuralTreeNet.t) (gmap Z NeuralTreeNet.cache_entry) := {
  fill_cache self X :=
    let* c := NeuralTreeNet.fill_cache (fst self) (snd self) X in Ok (Some c);
  loss self := NeuralTreeNet.loss (fst self) (snd self);
  dlossds self := NeuralTreeNet.dlossds (fst self) (snd self);
  dlossdw self := NeuralTreeNet.dlossdw (fst self) (snd self);
  gradient_backward self := NeuralTreeNet.gradient_backward (fst self) (snd self)
}.

(** * Properties *)

(** ** Notions used in the statements *)

(** The activation names the two tables accept. *)
Definition known_kinds : list string :=
  ["softmax"; "softmax4"; "logistic"; "expit"; "sigmoid"; "sigmoid4";
   "relu"; "leakyrelu"; "identity"].

(** The number of inputs a unit expects: [input_weights.shape[0]] for a
    vector of weights, [input_weights.shape[1]] for a matrix. *)
Definition input_width (n : NeuralTreeNode.t) : result nat :=
  let* iw := NeuralTreeNode.input_weights n in
  match iw with
  | A1 v => Ok (length v)
  | A2 nc _ => Ok nc
  | A0 _ => Raise BadCoefRank
  end.

(** The reference [node] designates the unit [n] in the state [w]. *)
Definition heap_lookup_ok (w : NeuralTreeNet.world) (node : ref) (n : NeuralTreeNode.t) : Prop :=
  NeuralTreeNet.heap w !! node = Some n.

(** The unit [NeuralTreeNode(ws, bias=b, activation='identity')]. *)
Definition identity_unit (ws : list R) (b : R) : NeuralTreeNode.t :=
  NeuralTreeNode.mk None 1 (A1 (b :: ws)) "identity" (-1)
    (fun x => Ok x) (vectorize (fun _ => PyInt 1))
    (fun w x y => NeuralTreeNode.squared_error x y)
    NeuralTreeNode.dregdx NeuralTreeNode.zeros_like.

(** [NeuralTreeNet(d)], without units. *)
Definition empty_net (d : Z) : NeuralTreeNet.t := NeuralTreeNet.mk d [] [] d ∅ ∅.

(** Every input slot of every unit is a slot of the external input or of
    a unit whose output slots all come before the unit's own: it is not
    negative and it is smaller than each output slot of the unit. *)
Definition inputs_precede_outputs (net : NeuralTreeNet.t) : Prop :=
  Forall (fun a =>
            Forall (fun i => (0 <= i)%Z /\
                             Forall (fun o => (i < o)%Z)
                                    (NeuralTreeNet.slots (NeuralTreeNet.output a)))
                   (NeuralTreeNet.indices (NeuralTreeNet.inputs a)))
         (NeuralTreeNet.nodes_attr net).

(** The unit [n] has one output, the activation [act], the input weights
    [ws], the bias [b] and the identifier [id]. *)
Definition is_unit (n : NeuralTreeNode.t) (act : string) (ws : list R) (b : R) (id : Z)
  : Prop :=
  NeuralTreeNode.coef n = A1 (b :: ws) /\
  NeuralTreeNode.activation n = act /\
  NeuralTreeNode.n_outputs n = 1%Z /\
  NeuralTreeNode.nodeid n = id.

(** The state after a new unit [n] with one output has been created and
    appended on [inputs]. *)
Definition emitted (w : NeuralTreeNet.world) (n : NeuralTreeNode.t)
           (inputs : NeuralTreeNet.inputs_arg) : NeuralTreeNet.world :=
  let net := NeuralTreeNet.self w in
  let node := length (NeuralTreeNet.heap w) in
  let a := NeuralTreeNet.mk_attr (NeuralTreeNet.numpy_array inputs)
             (NeuralTreeNet.OInt (NeuralTreeNet.size_ net))
             (Z.of_nat (size_of (NeuralTreeNode.coef n)))
             (NeuralTreeNet.next_first_coef net) in
  NeuralTreeNet.mk_world
    (NeuralTreeNet.heap w
     ++ [NeuralTreeNode.set_nodeid (Z.of_nat (length (NeuralTreeNet.nodes net))) n])
    (NeuralTreeNet.register node a
       (NeuralTreeNet.mk (NeuralTreeNet.dim net)
          (NeuralTreeNet.nodes net ++ [node]) (NeuralTreeNet.nodes_attr net ++ [a])
          (NeuralTreeNet.size_ net + 1)%Z
          (NeuralTreeNet.output_to_node_ net) (NeuralTreeNet.input_to_node_ net))).

(** The unit at [node] is a unit of the network, and its metadata gives
    it the single output slot [o]. *)
Definition registered (w : NeuralTreeNet.world) (node : nat) (o : Z) : Prop :=
  exists n r a,
    NeuralTreeNet.heap w !! node = Some n /\
    (0 <= NeuralTreeNode.nodeid n)%Z /\
    NeuralTreeNet.nodes (NeuralTreeNet.self w) !! Z.to_nat (NeuralTreeNode.nodeid n) = Some r /\
    NeuralTreeNet.nodes_attr (NeuralTreeNet.self w) !! Z.to_nat (NeuralTreeNode.nodeid n) = Some a /\
    NeuralTreeNet.output a = NeuralTreeNet.OInt o.

(** The array holds as many values as its shape announces. *)
Definition well_shaped (a : ndarray) : Prop := length (ravel a) = size_of a.

(** Every unit of the network exists and its coefficients are well shaped. *)
Definition units_ok (h : list NeuralTreeNode.t) (l : list nat) : Prop :=
  Forall (fun r => exists n, h !! r = Some n /\ well_shaped (NeuralTreeNode.coef n)) l.

(** The coefficients of the units [l], flattened, one unit after the other. *)
Definition flat_coefs (h : list NeuralTreeNode.t) (l : list nat) : list R :=
  concat (map (fun r => match h !! r with
                        | Some n => ravel (NeuralTreeNode.coef n)
                        | None => []
                        end) l).

(** [sum(n.coef.size for n in nodes)] *)
Definition total_size (h : list NeuralTreeNode.t) (l : list nat) : nat :=
  foldr Nat.add 0 (map (fun r => match h !! r with
                                 | Some n => size_of (NeuralTreeNode.coef n)
                                 | None => 0
                                 end) l).

(** A unit with two outputs and one input, as the constructor builds it
    from the weights [[w1], [w2]] and the bias [b]. *)
Definition two_output_unit (w1 w2 b : R) : result NeuralTreeNode.t :=
  NeuralTreeNode.__init__ (special := real_special) (fun _ => 0%R)
    (NeuralTreeNode.WArray (A2 1 [[w1]; [w2]]))
    (Some (NeuralTreeNode.BScalar b)) "identity" (-1) None.

(** The network of the end-to-end scenario: two inputs and one identity
    unit with weights [1, 1] and bias 0 appended on the two input slots. *)
Definition passthrough_world : NeuralTreeNet.world :=
  snd (NeuralTreeNet.append 0 (NeuralTreeNet.PyList [0; 1]%Z)
         (NeuralTreeNet.mk_world [identity_unit [1; 1]%R 0] (empty_net 2))).

(** A chain over one input: unit 0 doubles slot 0 into slot 1, unit 1
    triples slot 1 into slot 2, the output of the network. *)
Definition chain_world : NeuralTreeNet.world :=
  snd (NeuralTreeNet.append 1 (NeuralTreeNet.PyList [1%Z])
         (snd (NeuralTreeNet.append 0 (NeuralTreeNet.PyList [0%Z])
                 (NeuralTreeNet.mk_world
                    [identity_unit [2%R] 0; identity_unit [3%R] 0] (empty_net 1))))).

(** The state after [append] has accepted the unit [n] found at [node]:
    [a] is the metadata and [step] the number of slots the unit takes. *)
Definition appended (w : NeuralTreeNet.world) (node : ref) (n : NeuralTreeNode.t)
           (a : NeuralTreeNet.attr) (step : Z) : NeuralTreeNet.world :=
  let net := NeuralTreeNet.self w in
  NeuralTreeNet.mk_world
    (<[node := NeuralTreeNode.set_nodeid
                 (Z.of_nat (length (NeuralTreeNet.nodes net))) n]> (NeuralTreeNet.heap w))
    (NeuralTreeNet.register node a
       (NeuralTreeNet.mk (NeuralTreeNet.dim net)
          (NeuralTreeNet.nodes net ++ [node]) (NeuralTreeNet.nodes_attr net ++ [a])
          (NeuralTreeNet.size_ net + step)%Z
          (NeuralTreeNet.output_to_node_ net) (NeuralTreeNet.input_to_node_ net))).

(** The metadata [append] computes. *)
Definition attr_for (w : NeuralTreeNet.world) (n : NeuralTreeNode.t)
           (inputs : NeuralTreeNet.inputs_arg) (output : NeuralTreeNet.output_t)
  : NeuralTreeNet.attr :=
  NeuralTreeNet.mk_attr (NeuralTreeNet.numpy_array inputs) output
    (Z.of_nat (size_of (NeuralTreeNode.coef n)))
    (NeuralTreeNet.next_first_coef (NeuralTreeNet.self w)).

(** A tree with a root splitting on feature 0 at 0.5 and two leaves. *)
Definition stump : NeuralTreeNet.tree_t :=
  NeuralTreeNet.mk_tree 2 3 [1; -1; -1]%Z [2; -1; -1]%Z [0; -2; -2]%Z
    [0.5; -2; -2]%R [5; 5; 5; 0; 0; 5]%R 2.

(** A network that holds the same unit twice: [append] is called two times
    with one unit. *)
Definition shared_world : NeuralTreeNet.world :=
  snd (NeuralTreeNet.append 0 (NeuralTreeNet.PyList [0; 1]%Z)
         (snd (NeuralTreeNet.append 0 (NeuralTreeNet.PyList [0; 1]%Z)
                 (NeuralTreeNet.mk_world [identity_unit [1; 1]%R 0] (empty_net 2))))).

(** Two units with the weights of the end-to-end scenario, appended one
    after the other on the two inputs. *)
Definition twin_world : NeuralTreeNet.world :=
  snd (NeuralTreeNet.append 1 (NeuralTreeNet.PyList [0; 1]%Z)
         (snd (NeuralTreeNet.append 0 (NeuralTreeNet.PyList [0; 1]%Z)
                 (NeuralTreeNet.mk_world [identity_unit [1; 1]%R 0; identity_unit [1; 1]%R 0]
                    (empty_net 2))))).

(** The states a program reaches from a new empty network by creating
    units, appending them on slots that exist, updating weights and
    clearing. *)
Inductive built : NeuralTreeNet.world -> Prop :=
| built_empty (h : heap_t) (d : Z) :
    built (NeuralTreeNet.mk_world h (empty_net d))
| built_new_unit (w : NeuralTreeNet.world) (n : NeuralTreeNode.t) :
    built w ->
    built (NeuralTreeNet.mk_world (NeuralTreeNet.heap w ++ [n]) (NeuralTreeNet.self w))
| built_append (w w' : NeuralTreeNet.world) (node : ref)
               (inputs : NeuralTreeNet.inputs_arg) :
    built w ->
    Forall (fun i => (0 <= i < NeuralTreeNet.size_ (NeuralTreeNet.self w))%Z)
           (NeuralTreeNet.values inputs) ->
    NeuralTreeNet.append node inputs w = (Ok tt, w') ->
    built w'
| built_update (w : NeuralTreeNet.world) (array_of : NeuralTreeNet.arrays)
               (X : list R) (add_ : bool) :
    built w ->
    built (snd (NeuralTreeNet.update_training_weights array_of X add_ w))
| built_clear (w : NeuralTreeNet.world) :
    built w ->
    built (snd (NeuralTreeNet.clear w)).

(** The arrays of the tree answer at node [i], and the feature of an
    internal node is a position of the input. *)
Definition node_ok (tree : NeuralTreeNet.tree_t) (i : Z) : Prop :=
  exists cl cr f th,
    getitem (NeuralTreeNet.children_left tree) i = Ok cl /\
    getitem (NeuralTreeNet.children_right tree) i = Ok cr /\
    getitem (NeuralTreeNet.feature tree) i = Ok f /\
    getitem (NeuralTreeNet.threshold tree) i = Ok th /\
    (cl <> cr ->
     (- NeuralTreeNet.max_features_ tree <= f < NeuralTreeNet.max_features_ tree)%Z).

(** The invariant of the loop of the compiler: units and metadata go in
    pairs and every recorded predecessor is a unit of the network with one
    output slot. *)
Definition loop_invariant (w : NeuralTreeNet.world) (predecessor : gmap Z nat) : Prop :=
  length (NeuralTreeNet.nodes (NeuralTreeNet.self w))
  = length (NeuralTreeNet.nodes_attr (NeuralTreeNet.self w)) /\
  forall i p, predecessor !! i = Some p -> exists o, registered w p o.

(** A binary decision tree as [create_from_tree] reads it: two classes,
    the arrays answer at every node, every internal node splits on a
    feature that is a position of an input of [max_features_] entries, and
    [value] holds two numbers for each node. *)
Definition binary_tree (tree : NeuralTreeNet.tree_t) : Prop :=
  NeuralTreeNet.n_classes_ tree = 2%Z /\
  Forall (node_ok tree) (range 0 (NeuralTreeNet.node_count tree)) /\
  exists ps, NeuralTreeNet.pairs (NeuralTreeNet.value tree) = Ok ps /\
             (NeuralTreeNet.node_count tree <= Z.of_nat (length ps))%Z.

(** The state [w'] keeps the units of [w], their order and their
    metadata. *)
Definition extends (w w' : NeuralTreeNet.world) : Prop :=
  NeuralTreeNet.heap w `prefix_of` NeuralTreeNet.heap w' /\
  NeuralTreeNet.nodes (NeuralTreeNet.self w)
    `prefix_of` NeuralTreeNet.nodes (NeuralTreeNet.self w') /\
  NeuralTreeNet.nodes_attr (NeuralTreeNet.self w)
    `prefix_of` NeuralTreeNet.nodes_attr (NeuralTreeNet.self w').

(** The dictionary [outputs] of the compiler has a bucket for each of the
    two classes, and the buckets hold units of the network with one output
    slot. *)
Definition buckets_ok (w : NeuralTreeNet.world) (outputs : gmap Z (list nat)) : Prop :=
  exists b0 b1,
    outputs !! 0%Z = Some b0 /\ outputs !! 1%Z = Some b1 /\
    forall p, p ∈ b0 ++ b1 -> exists o, registered w p o.

(** A tree of depth 2 over two features: the root splits on feature 0,
    its left child, node 1, splits on feature 1; the nodes 2, 3 and 4 are
    leaves. *)
Definition sapling : NeuralTreeNet.tree_t :=
  NeuralTreeNet.mk_tree 2 5 [1; 2; -1; -1; -1]%Z [4; 3; -1; -1; -1]%Z
    [0; 1; -2; -2; -2]%Z [0.5; 0.5; -2; -2; -2]%R
    [5; 5; 3; 2; 3; 0; 0; 2; 2; 3]%R 2.

(** The same tree fitted with [max_features=1]: every split looks at one
    feature drawn among the two, and [max_features_] is 1. *)
Definition narrow_sapling : NeuralTreeNet.tree_t :=
  NeuralTreeNet.mk_tree 2 5 [1; 2; -1; -1; -1]%Z [4; 3; -1; -1; -1]%Z
    [0; 1; -2; -2; -2]%Z [0.5; 0.5; -2; -2; -2]%R
    [5; 5; 3; 2; 3; 0; 0; 2; 2; 3]%R 1.

(** The loop [[root[n.nodeid][1]['output'] for n in output]] of the final
    part of the compiler. *)
Abbreviation output_slots :=
  (fix each (l : list nat) : M NeuralTreeNet.world (list Z) :=
     match l with
     | [] => ret []
     | n :: l' => (do a <- NeuralTreeNet.attr_of n ;
                   do o <- lift (NeuralTreeNet.output_slot a) ;
                   do os <- each l' ;
                   ret (o :: os))%monad
     end).

(** An activation function read at a scalar. *)
Definition on_scalar (f : act_fn) (x : R) : R :=
  match f (A0 x) with
  | Ok (A0 y) => y
  | _ => 0%R
  end.

(** The entry of index 0, or (0, 0), of an array. *)
Definition entry00 (r : result ndarray) : R :=
  match r with
  | Ok (A1 (x :: _)) => x
  | Ok (A2 _ ((x :: _) :: _)) => x
  | _ => 0%R
  end.

(** ** Notions used in the statements on the rest of the module *)

(** The value of a computation that returns a scalar. *)
Definition scalar_of (r : result ndarray) : R :=
  match r with
  | Ok (A0 y) => y
  | _ => 0%R
  end.

(** Entry [j] of a computation that returns a vector. *)
Definition entry_of (r : result ndarray) (j : nat) : R :=
  match r with
  | Ok (A1 v) => nth j v 0%R
  | _ => 0%R
  end.







(** The kinds whose loss is a squared error. *)
Definition regression_kinds : list string :=
  ["logistic"; "expit"; "sigmoid"; "sigmoid4"; "identity"; "relu"; "leakyrelu"].

(** The methods of [NeuralTreeNode] that change the unit in place. *)
Module NeuralTreeNodeState.

(** [update_training_weights(X, add)] *)
Definition update_training_weights (X : ndarray) (add_ : bool) : M NeuralTreeNode.t unit :=
  (do c <- (fun self => (NeuralTreeNode.updated_coef self X add_, self)) ;
   modify (NeuralTreeNode.set_coef c))%monad.

(** The dictionary [__getstate__] returns and [__setstate__] reads. *)
Record state : Type := mk_state {
  state_coef : ndarray;
  state_activation : string;
  state_nodeid : Z;
  state_n_outputs : Z;
  state_tag : option string
}.

Definition __getstate__ (self : NeuralTreeNode.t) : state :=
  mk_state (NeuralTreeNode.coef self) (NeuralTreeNode.activation self)
           (NeuralTreeNode.nodeid self) (NeuralTreeNode.n_outputs self)
           (NeuralTreeNode.tag self).

Section Functions.
Context {special : Special}.

(** [_set_fcts]: four lookups, each assigned when it has succeeded. *)
Definition _set_fcts : M NeuralTreeNode.t unit :=
  (do f <- (fun self => (NeuralTreeNode.get_activation_function
                           (NeuralTreeNode.activation self), self)) ;
   modify (fun self =>
     NeuralTreeNode.mk (NeuralTreeNode.tag self) (NeuralTreeNode.n_outputs self)
       (NeuralTreeNode.coef self) (NeuralTreeNode.activation self)
       (NeuralTreeNode.nodeid self) f (NeuralTreeNode.gradient_ self)
       (NeuralTreeNode.loss_ self) (NeuralTreeNode.dlossds_ self)
       (NeuralTreeNode.dlossdw_ self)) ;;
   do g <- (fun self => (NeuralTreeNode.get_activation_gradient_function
                           (NeuralTreeNode.activation self), self)) ;
   modify (fun self =>
     NeuralTreeNode.mk (NeuralTreeNode.tag self) (NeuralTreeNode.n_outputs self)
       (NeuralTreeNode.coef self) (NeuralTreeNode.activation self)
       (NeuralTreeNode.nodeid self) (NeuralTreeNode.activation_ self) g
       (NeuralTreeNode.loss_ self) (NeuralTreeNode.dlossds_ self)
       (NeuralTreeNode.dlossdw_ self)) ;;
   do l <- (fun self => (NeuralTreeNode.get_activation_loss_function
                           (NeuralTreeNode.activation self), self)) ;
   modify (fun self =>
     NeuralTreeNode.mk (NeuralTreeNode.tag self) (NeuralTreeNode.n_outputs self)
       (NeuralTreeNode.coef self) (NeuralTreeNode.activation self)
       (NeuralTreeNode.nodeid self) (NeuralTreeNode.activation_ self)
       (NeuralTreeNode.gradient_ self) l (NeuralTreeNode.dlossds_ self)
       (NeuralTreeNode.dlossdw_ self)) ;;
   do (ds, dw) <- (fun self => (NeuralTreeNode.get_activation_dloss_function
                                  (NeuralTreeNode.activation self), self)) ;
   modify (fun self =>
     NeuralTreeNode.mk (NeuralTreeNode.tag self) (NeuralTreeNode.n_outputs self)
       (NeuralTreeNode.coef self) (NeuralTreeNode.activation self)
       (NeuralTreeNode.nodeid self) (NeuralTreeNode.activation_ self)
       (NeuralTreeNode.gradient_ self) (NeuralTreeNode.loss_ self) ds dw))%monad.

Definition __setstate__ (st : state) : M NeuralTreeNode.t unit :=
  (modify (NeuralTreeNode.set_coef (state_coef st)) ;;
   modify (fun self =>
     NeuralTreeNode.mk (NeuralTreeNode.tag self) (NeuralTreeNode.n_outputs self)
       (NeuralTreeNode.coef self) (state_activation st)
       (NeuralTreeNode.nodeid self) (NeuralTreeNode.activation_ self)
       (NeuralTreeNode.gradient_ self) (NeuralTreeNode.loss_ self)
       (NeuralTreeNode.dlossds_ self) (NeuralTreeNode.dlossdw_ self)) ;;
   modify (NeuralTreeNode.set_nodeid (state_nodeid st)) ;;
   modify (fun self =>
     NeuralTreeNode.mk (NeuralTreeNode.tag self) (state_n_outputs st)
       (NeuralTreeNode.coef self) (NeuralTreeNode.activation self)
       (NeuralTreeNode.nodeid self) (NeuralTreeNode.activation_ self)
       (NeuralTreeNode.gradient_ self) (NeuralTreeNode.loss_ self)
       (NeuralTreeNode.dlossds_ self) (NeuralTreeNode.dlossdw_ self)) ;;
   modify (fun self =>
     NeuralTreeNode.mk (state_tag st) (NeuralTreeNode.n_outputs self)
       (NeuralTreeNode.coef self) (NeuralTreeNode.activation self)
       (NeuralTreeNode.nodeid self) (NeuralTreeNode.activation_ self)
       (NeuralTreeNode.gradient_ self) (NeuralTreeNode.loss_ self)
       (NeuralTreeNode.dlossds_ self) (NeuralTreeNode.dlossdw_ self)) ;;
   _set_fcts)%monad.
End Functions.

End NeuralTreeNodeState.

(** Every row of a matrix has the announced number of columns. *)
Definition rectangular (a : ndarray) : Prop :=
  match a with
  | A2 nc rows => Forall (fun r => length r = nc) rows
  | _ => True
  end.

(** The states reached from an empty network over [d] inputs by creating
    units and by appending units with one output, each at most once and on
    slots that exist at the time of the call. *)
Inductive assembled : NeuralTreeNet.world -> Prop :=
| assembled_empty (h : list NeuralTreeNode.t) (d : Z) :
    (0 <= d)%Z ->
    assembled (NeuralTreeNet.mk_world h (empty_net d))
| assembled_new_unit (w : NeuralTreeNet.world) (n : NeuralTreeNode.t) :
    assembled w ->
    assembled (NeuralTreeNet.mk_world (NeuralTreeNet.heap w ++ [n]) (NeuralTreeNet.self w))
| assembled_append (w w' : NeuralTreeNet.world) (node : nat)
                   (inputs : NeuralTreeNet.inputs_arg) (n : NeuralTreeNode.t)
                   (b : R) (ws : list R) :
    assembled w ->
    NeuralTreeNet.heap w !! node = Some n ->
    NeuralTreeNode.n_outputs n = 1%Z ->
    NeuralTreeNode.coef n = A1 (b :: ws) ->
    node ∉ NeuralTreeNet.nodes (NeuralTreeNet.self w) ->
    Forall (fun i => (0 <= i < NeuralTreeNet.size_ (NeuralTreeNet.self w))%Z)
           (NeuralTreeNet.values inputs) ->
    NeuralTreeNet.append node inputs w = (Ok tt, w') ->
    assembled w'.

(** The unit of position [j]: the reference [r], the object [n] it
    designates and the metadata [a]. *)
Definition unit_at (w : NeuralTreeNet.world) (j : nat) (r : nat) (n : NeuralTreeNode.t)
           (a : NeuralTreeNet.attr) : Prop :=
  NeuralTreeNet.nodes (NeuralTreeNet.self w) !! j = Some r /\
  NeuralTreeNet.nodes_attr (NeuralTreeNet.self w) !! j = Some a /\
  NeuralTreeNet.heap w !! r = Some n.

(** How the units of a network of units with one output are laid out:
    the unit of position [j] has the identifier [j], writes the slot
    [dim + j], reads slots before it, and its coefficients start in the
    flattened weights where the coefficients of the units before it end. *)
Definition laid_out (w : NeuralTreeNet.world) : Prop :=
  let net := NeuralTreeNet.self w in
  (0 <= NeuralTreeNet.dim net)%Z /\
  length (NeuralTreeNet.nodes net) = length (NeuralTreeNet.nodes_attr net) /\
  NeuralTreeNet.size_ net
  = (NeuralTreeNet.dim net + Z.of_nat (length (NeuralTreeNet.nodes net)))%Z /\
  NoDup (NeuralTreeNet.nodes net) /\
  (forall (j : nat) (r : nat),
      NeuralTreeNet.nodes net !! j = Some r ->
      exists (n : NeuralTreeNode.t) (a : NeuralTreeNet.attr) (b : R) (ws : list R),
        unit_at w j r n a /\
        NeuralTreeNode.nodeid n = Z.of_nat j /\
        NeuralTreeNode.n_outputs n = 1%Z /\
        NeuralTreeNode.coef n = A1 (b :: ws) /\
        length ws = length (NeuralTreeNet.indices (NeuralTreeNet.inputs a)) /\
        NeuralTreeNet.output a = NeuralTreeNet.OInt (NeuralTreeNet.dim net + Z.of_nat j) /\
        NeuralTreeNet.coef_size a = Z.of_nat (S (length ws)) /\
        NeuralTreeNet.first_coef a
        = Z.of_nat (total_size (NeuralTreeNet.heap w) (take j (NeuralTreeNet.nodes net))) /\
        Forall (fun i => (0 <= i < NeuralTreeNet.dim net + Z.of_nat j)%Z)
               (NeuralTreeNet.indices (NeuralTreeNet.inputs a)) /\
        NeuralTreeNet.output_to_node_ net !! (NeuralTreeNet.dim net + Z.of_nat j)%Z
        = Some (r, a)) /\
  (forall k : Z,
      is_Some (NeuralTreeNet.output_to_node_ net !! k) ->
      (NeuralTreeNet.dim net <= k < NeuralTreeNet.size_ net)%Z).

(** The loop of [_update_members()] over the units and their metadata. *)
Definition register_all (init : NeuralTreeNet.t) (l : list (nat * NeuralTreeNet.attr))
  : NeuralTreeNet.t :=
  foldl (fun acc '(node2, attr2) => NeuralTreeNet.register node2 attr2 acc) init l.

(** ** Results and the monad *)

Lemma raises_rbind {A B : Type} (m : result A) (k : A -> result B) :
  (forall a, raises (k a)) -> raises (rbind m k).
Proof.
  intros Hk. destruct m as [a|e]; simpl; [apply Hk | exact I].
Qed.

Lemma rbind_ok {A B : Type} (m : result A) (k : A -> result B) (b : B) :
  rbind m k = Ok b -> exists a, m = Ok a /\ k a = Ok b.
Proof.
  destruct m as [a|e]; simpl; intros H; [eauto | discriminate].
Qed.

Ltac run :=
  unfold bind, ret, raise, lift, gets, modify,
    NeuralTreeNet.read, NeuralTreeNet.write, NeuralTreeNet.update_self,
    NeuralTreeNet.push_node, NeuralTreeNet.push_attr in *;
  simpl in *.

(** ** The activation catalog *)

Lemma eqb_known (s k : string) :
  ~ In s known_kinds -> In k known_kinds -> String.eqb s k = false.
Proof.
  intros Hs Hk. apply String.eqb_neq. intros ->. contradiction.
Qed.

Lemma unknown_forward (s : string) :
  ~ In s known_kinds ->
  NeuralTreeNode.get_activation_function s = Raise (UnknownActivation s).
Proof.
  intros Hs. unfold NeuralTreeNode.get_activation_function,
    NeuralTreeNode.logistic_names. simpl.
  rewrite !(eqb_known s) by (assumption || (simpl; tauto)).
  reflexivity.
Qed.

Lemma unknown_gradient (s : string) :
  ~ In s known_kinds ->
  NeuralTreeNode.get_activation_gradient_function s = Raise (UnknownActivationGradient s).
Proof.
  intros Hs. unfold NeuralTreeNode.get_activation_gradient_function,
    NeuralTreeNode.logistic_names. simpl.
  rewrite !(eqb_known s) by (assumption || (simpl; tauto)).
  reflexivity.
Qed.

Lemma known_lookups (s : string) :
  In s known_kinds ->
  is_ok (NeuralTreeNode.get_activation_function s) /\
  is_ok (NeuralTreeNode.get_activation_gradient_function s).
Proof.
  simpl. intros H.
  repeat (destruct H as [<- | H]; [split; exact I |]).
  contradiction.
Qed.

(** C8. A name outside the nine recognised ones makes the forward lookup
    and the gradient lookup raise, and with them the constructor of a unit,
    whatever its other arguments; a recognised name makes both lookups
    succeed. *)
Theorem activation_lookup_known_or_error (s : string) :
  (In s known_kinds ->
     is_ok (NeuralTreeNode.get_activation_function s) /\
     is_ok (NeuralTreeNode.get_activation_gradient_function s)) /\
  (~ In s known_kinds ->
     NeuralTreeNode.get_activation_function s = Raise (UnknownActivation s) /\
     NeuralTreeNode.get_activation_gradient_function s
       = Raise (UnknownActivationGradient s) /\
     forall (special : Special) draws weights bias nodeid tag,
       raises (NeuralTreeNode.__init__ draws weights bias s nodeid tag)).
Proof.
  split; [apply known_lookups |].
  intros Hs. split; [apply unknown_forward, Hs |].
  split; [apply unknown_gradient, Hs |].
  intros special draws weights bias nodeid tag.
  unfold NeuralTreeNode.__init__.
  apply raises_rbind. intros [w used].
  apply raises_rbind. intros [n_out c].
  rewrite (unknown_forward s Hs). exact I.
Qed.

Lemma activation_lookup_witness :
  (is_ok (NeuralTreeNode.get_activation_function "sigmoid4") /\
   is_ok (NeuralTreeNode.get_activation_gradient_function "sigmoid4")) /\
  raises (NeuralTreeNode.__init__ (special := real_special) (fun _ => 0%R)
            (NeuralTreeNode.WList [1%R]) None "tanh" 0 None).
Proof.
  split.
  - apply (proj1 (activation_lookup_known_or_error "sigmoid4")).
    simpl. tauto.
  - apply (proj2 (activation_lookup_known_or_error "tanh")).
    simpl. intros H.
    repeat (destruct H as [H | H]; [discriminate H |]). exact H.
Defined.

(** ** The training interface *)

(** C10. Whatever the trainable, [gradient] on an input whose rank is not
    1 raises before any method of the trainable is called: the result is
    the error for every implementation of the interface. *)
Theorem gradient_rejects_non_vectors :
  forall (T C : Type) (api : TrainingAPI T C) (self : T) (X y : ndarray) (inputs : bool),
    rank X <> 1 ->
    gradient self X y inputs = Raise NotAVector.
Proof.
  intros T C api self X y inputs HX. unfold gradient.
  destruct X as [x|v|nc rows]; simpl in *; try reflexivity.
  contradiction HX. reflexivity.
Qed.

Lemma gradient_rejects_batch_witness :
  gradient (([] : heap_t), NeuralTreeNet.mk 2 [] [] 2 ∅ ∅)
           (A2 2 [[1; 2]; [3; 4]]%R) (A1 [0%R]) false = Raise NotAVector.
Proof.
  apply (gradient_rejects_non_vectors _ _ net_api). simpl. lia.
Defined.

(** ** Construction of the examples *)

Lemma identity_unit_init (special : Special) (draws : nat -> R) (ws : list R) (b : R) :
  NeuralTreeNode.__init__ draws (NeuralTreeNode.WList ws)
    (Some (NeuralTreeNode.BScalar b)) "identity" (-1) None
  = Ok (identity_unit ws b).
Proof. reflexivity. Qed.

Lemma empty_net_init (special : Special) (d : Z) (h : heap_t) :
  NeuralTreeNet.__init__ d true h = (Ok (empty_net d), h).
Proof. reflexivity. Qed.

(** ** Append *)

Lemma append_read (w : NeuralTreeNet.world) (node : ref) (n : NeuralTreeNode.t) :
  heap_lookup_ok w node n -> NeuralTreeNet.read node w = (Ok n, w).
Proof.
  unfold heap_lookup_ok, NeuralTreeNet.read, deref. intros ->. reflexivity.
Qed.

(** The dimension test of [append] comes before its first assignment. *)
Lemma append_width_mismatch (w : NeuralTreeNet.world) (node : ref) (n : NeuralTreeNode.t)
      (inputs : NeuralTreeNet.inputs_arg) (width : nat) :
  heap_lookup_ok w node n ->
  input_width n = Ok width ->
  width <> length (NeuralTreeNet.values inputs) ->
  NeuralTreeNet.append node inputs w
  = (Raise (DimensionMismatch (Z.of_nat width)
              (Z.of_nat (length (NeuralTreeNet.values inputs)))), w).
Proof.
  intros Hn Hw Hne.
  unfold NeuralTreeNet.append, bind. rewrite (append_read _ _ _ Hn).
  unfold input_width in Hw. unfold lift.
  destruct (NeuralTreeNode.input_weights n) as [iw|e]; simpl in Hw; [|discriminate].
  destruct iw as [x|v|nc rows]; try discriminate; injection Hw as <-.
  - apply Nat.eqb_neq in Hne. rewrite Hne. reflexivity.
  - apply Nat.eqb_neq in Hne. rewrite Hne. reflexivity.
Qed.

(** C3. When the width a unit expects differs from the number of input
    slots supplied, [append] raises the dimension error and the state after
    the call is the state before it; in particular the number of units,
    [size_], the metadata and the flattened weights are what they were. *)
Theorem append_mismatch_leaves_graph_unchanged :
  forall (w : NeuralTreeNet.world) (node : ref) (n : NeuralTreeNode.t)
         (inputs : NeuralTreeNet.inputs_arg) (width : nat),
    heap_lookup_ok w node n ->
    input_width n = Ok width ->
    width <> length (NeuralTreeNet.values inputs) ->
    exists w' : NeuralTreeNet.world,
      NeuralTreeNet.append node inputs w
      = (Raise (DimensionMismatch (Z.of_nat width)
                  (Z.of_nat (length (NeuralTreeNet.values inputs)))), w') /\
      w' = w /\
      NeuralTreeNet.__len__ (NeuralTreeNet.self w')
      = NeuralTreeNet.__len__ (NeuralTreeNet.self w) /\
      NeuralTreeNet.size_ (NeuralTreeNet.self w')
      = NeuralTreeNet.size_ (NeuralTreeNet.self w) /\
      NeuralTreeNet.nodes_attr (NeuralTreeNet.self w')
      = NeuralTreeNet.nodes_attr (NeuralTreeNet.self w) /\
      NeuralTreeNet.training_weights (NeuralTreeNet.heap w') (NeuralTreeNet.self w')
      = NeuralTreeNet.training_weights (NeuralTreeNet.heap w) (NeuralTreeNet.self w).
Proof.
  intros w node n inputs width Hn Hw Hne. exists w.
  split; [apply (append_width_mismatch w node n inputs width Hn Hw Hne) |].
  repeat split.
Qed.

Lemma append_mismatch_witness :
  exists w' : NeuralTreeNet.world,
    NeuralTreeNet.append 0 (NeuralTreeNet.PyList [0%Z])
      (NeuralTreeNet.mk_world [identity_unit [1; 1]%R 0] (empty_net 2))
    = (Raise (DimensionMismatch 2 1), w') /\
    w' = NeuralTreeNet.mk_world [identity_unit [1; 1]%R 0] (empty_net 2) /\
    NeuralTreeNet.__len__ (NeuralTreeNet.self w') = 0%Z /\
    NeuralTreeNet.size_ (NeuralTreeNet.self w') = 2%Z /\
    NeuralTreeNet.nodes_attr (NeuralTreeNet.self w') = [] /\
    NeuralTreeNet.training_weights (NeuralTreeNet.heap w') (NeuralTreeNet.self w')
    = Ok [].
Proof.
  apply (append_mismatch_leaves_graph_unchanged
           (NeuralTreeNet.mk_world [identity_unit [1; 1]%R 0] (empty_net 2))
           0 (identity_unit [1; 1]%R 0) (NeuralTreeNet.PyList [0%Z]) 2).
  - reflexivity.
  - reflexivity.
  - simpl. lia.
Defined.

(** ** Equality of units *)

Lemma ne_spec (x y : R) : NeuralTreeNode.ne x y = false <-> x = y.
Proof.
  unfold NeuralTreeNode.ne. destruct (Req_dec_T x y); split; intros; congruence.
Qed.

Lemma any_differences_vectors (u v : list R) :
  length u = length v ->
  exists b, NeuralTreeNode.any (zip_with (fun x y => Ok (NeuralTreeNode.ne x y)) u v) = Ok b
            /\ (b = false <-> u = v).
Proof.
  revert v. induction u as [|x u IH]; intros [|y v] Hlen; simpl in *; try discriminate.
  - exists false. split; [reflexivity | tauto].
  - injection Hlen as Hlen. destruct (IH v Hlen) as (b & Hb & Hiff).
    destruct (NeuralTreeNode.ne x y) eqn:Hxy.
    + exists true. split; [reflexivity |]. split; [discriminate |].
      intros [= -> _]. rewrite (proj2 (ne_spec y y) eq_refl) in Hxy. discriminate.
    + exists b. split; [exact Hb |]. apply ne_spec in Hxy. subst y.
      rewrite Hiff. split; [intros -> | intros [= ->]]; reflexivity.
Qed.

(** For units with one output the comparison is the one the specification
    describes. *)
Lemma eq_single_output (self obj : NeuralTreeNode.t) (u v : list R) :
  NeuralTreeNode.coef self = A1 u ->
  NeuralTreeNode.coef obj = A1 v ->
  exists b, NeuralTreeNode.__eq__ self obj = Ok b /\
            (b = true <-> u = v /\
                          NeuralTreeNode.activation self = NeuralTreeNode.activation obj).
Proof.
  intros Hu Hv. unfold NeuralTreeNode.__eq__. rewrite Hu, Hv. simpl.
  destruct (bool_decide ([length u] = [length v])) eqn:Hshape; simpl.
  - apply bool_decide_eq_true in Hshape. injection Hshape as Hlen.
    destruct (any_differences_vectors u v Hlen) as (b & -> & Hiff). simpl.
    destruct b.
    + exists false. split; [reflexivity |]. split; [discriminate |].
      intros [Huv _]. apply Hiff in Huv. discriminate.
    + destruct (String.eqb (NeuralTreeNode.activation self)
                           (NeuralTreeNode.activation obj)) eqn:Hact; simpl.
      * exists true. split; [reflexivity |]. split; [|reflexivity].
        intros _. split; [apply Hiff; reflexivity | apply String.eqb_eq, Hact].
      * exists false. split; [reflexivity |]. split; [discriminate |].
        intros [_ Heq]. apply String.eqb_neq in Hact. contradiction.
  - apply bool_decide_eq_false in Hshape.
    exists false. split; [reflexivity |]. split; [discriminate |].
    intros [-> _]. contradiction Hshape. reflexivity.
Qed.

(** For units with several outputs and at least one input the comparison
    of two rows is an array of more than one truth value, and [any] raises
    on the first pair of rows. *)
Lemma eq_multi_output_raises (self obj : NeuralTreeNode.t) (nc : nat)
      (rows1 rows2 : list (list R)) (x1 y1 x2 y2 : R) (t1 t2 : list R) :
  NeuralTreeNode.coef self = A2 nc ((x1 :: y1 :: t1) :: rows1) ->
  NeuralTreeNode.coef obj = A2 nc ((x2 :: y2 :: t2) :: rows2) ->
  length rows1 = length rows2 ->
  NeuralTreeNode.__eq__ self obj = Raise AmbiguousTruthValue.
Proof.
  intros H1 H2 Hlen. unfold NeuralTreeNode.__eq__. rewrite H1, H2. simpl.
  rewrite Hlen. rewrite (bool_decide_eq_true_2 _ eq_refl). reflexivity.
Qed.

(** C7, at the failing input: a unit with two outputs compared with
    itself. The comparison does not return: it raises. *)
Theorem eq_two_output_unit_raises :
  exists u : NeuralTreeNode.t,
    two_output_unit 1 1 0 = Ok u /\
    NeuralTreeNode.coef u = A2 2 [[0; 1]; [0; 1]]%R /\
    NeuralTreeNode.__eq__ u u = Raise AmbiguousTruthValue.
Proof.
  eexists. split; [reflexivity |]. split; [reflexivity |].
  eapply eq_multi_output_raises; exact eq_refl.
Qed.

(** ** Forward evaluation *)

Lemma rfold_invariant {A S : Type} (P : S -> Prop) (f : S -> A -> result S) (l : list A) :
  forall s s',
    (forall s x s', In x l -> P s -> f s x = Ok s' -> P s') ->
    P s -> rfold f l s = Ok s' -> P s'.
Proof.
  induction l as [|x l IH]; simpl; intros s s' Hstep Hs Hrun.
  - injection Hrun as <-. exact Hs.
  - apply rbind_ok in Hrun as (s1 & H1 & Hrun).
    apply (IH s1 s'); [| eapply Hstep; eauto | exact Hrun].
    intros; eapply Hstep; eauto.
Qed.

Lemma spread_length (n : nat) (v : list R) :
  fits n (length v) = true -> length (spread n v) = n.
Proof.
  unfold fits, spread, bzip. rewrite length_seq. intros H.
  destruct (n =? length v) eqn:Hn.
  - apply Nat.eqb_eq in Hn. rewrite length_zip_with, length_seq. lia.
  - apply Nat.eqb_neq in Hn. apply orb_true_iff in H as [H | H];
      apply Nat.eqb_eq in H; [lia |].
    destruct v as [|y [|z v]]; simpl in H; try discriminate.
    destruct (seq 0 n) as [|a [|b l]] eqn:Hseq;
      rewrite <- (length_seq n 0), Hseq; simpl; rewrite ?length_map; reflexivity.
Qed.

Lemma spread_all (v : list R) : spread (length v) v = v.
Proof.
  unfold spread, bzip. rewrite length_seq, Nat.eqb_refl.
  generalize 0. induction v as [|x v IH]; intros k; simpl; [reflexivity |].
  f_equal. apply IH.
Qed.

Lemma setitem_length {A : Type} (l : list A) (i : Z) (x : A) (l' : list A) :
  setitem l i x = Ok l' -> length l' = length l.
Proof.
  unfold setitem. destruct (py_index (length l) i); intros H; [|discriminate].
  injection H as <-. apply length_insert.
Qed.

Lemma py_index_nonneg (n : nat) (i : Z) (p : nat) :
  (0 <= i)%Z -> py_index n i = Some p -> p = Z.to_nat i.
Proof.
  unfold py_index. intros Hi. destruct (0 <=? i)%Z eqn:H0; [| lia].
  destruct (i <? Z.of_nat n)%Z; intros H; [| discriminate]. congruence.
Qed.

Lemma setitem_take {A : Type} (l : list A) (i : Z) (x : A) (l' : list A) (d : nat) :
  (Z.of_nat d <= i)%Z -> setitem l i x = Ok l' -> take d l' = take d l.
Proof.
  unfold setitem. intros Hd. destruct (py_index (length l) i) as [p|] eqn:Hp;
    intros H; [|discriminate].
  injection H as <-. apply py_index_nonneg in Hp; [| lia].
  apply take_insert_ge. lia.
Qed.

Lemma put_at_length (res : list R) (idx : list Z) (val : ndarray) (res' : list R) :
  put_at res idx val = Ok res' -> length res' = length res.
Proof.
  unfold put_at. intros H.
  assert (Hfold : forall vs, rfold (fun acc '(i, x) => setitem acc i x)
                               (zip idx vs) res = Ok res' ->
                             length res' = length res).
  { intros vs. apply (rfold_invariant (fun r => length r = length res));
      [| reflexivity].
    intros s [i x] s' _ Hs Hset. rewrite <- Hs. eapply setitem_length, Hset. }
  destruct val; try discriminate;
    destruct (negb _); try discriminate; eapply Hfold, H.
Qed.

Lemma put_at_take (res : list R) (idx : list Z) (val : ndarray) (res' : list R) (d : nat) :
  Forall (fun o => (Z.of_nat d <= o)%Z) idx ->
  put_at res idx val = Ok res' -> take d res' = take d res.
Proof.
  unfold put_at. intros Hidx H.
  assert (Hfold : forall vs, rfold (fun acc '(i, x) => setitem acc i x)
                               (zip idx vs) res = Ok res' ->
                             take d res' = take d res).
  { intros vs. apply (rfold_invariant (fun r => take d r = take d res));
      [| reflexivity].
    intros s [i x] s' Hin Hs Hset. rewrite <- Hs.
    eapply setitem_take; [| exact Hset].
    apply list_elem_of_In, elem_of_zip_l in Hin.
    rewrite Forall_forall in Hidx. apply Hidx. exact Hin. }
  destruct val; try discriminate;
    destruct (negb _); try discriminate; eapply Hfold, H.
Qed.

Lemma scatter_length (res : list R) (o : NeuralTreeNet.output_t) (val : ndarray)
      (res' : list R) :
  NeuralTreeNet.scatter res o val = Ok res' -> length res' = length res.
Proof.
  destruct o as [o|os]; simpl.
  - unfold put_one. destruct (ravel val) as [|x [|y l]]; try discriminate.
    apply setitem_length.
  - apply put_at_length.
Qed.

Lemma scatter_take (res : list R) (o : NeuralTreeNet.output_t) (val : ndarray)
      (res' : list R) (d : nat) :
  Forall (fun o => (Z.of_nat d <= o)%Z) (NeuralTreeNet.slots o) ->
  NeuralTreeNet.scatter res o val = Ok res' -> take d res' = take d res.
Proof.
  destruct o as [o|os]; simpl; intros Ho.
  - unfold put_one. destruct (ravel val) as [|x [|y l]]; try discriminate.
    apply setitem_take. inversion Ho; assumption.
  - apply put_at_take, Ho.
Qed.

Lemma put_prefix_length (res : list R) (k : Z) (X : ndarray) (res' : list R) :
  put_prefix res k X = Ok res' -> length res' = length res.
Proof.
  unfold put_prefix. intros H. apply rbind_ok in H as (vs & Hvs & H).
  injection H as <-. rewrite length_app, length_drop.
  assert (Hclip : clip (length res) k <= length res).
  { unfold clip. destruct (k <? 0)%Z eqn:Hk; lia. }
  assert (Hlen : length vs = clip (length res) k).
  { destruct X as [x|v|nc rows].
    - injection Hvs as <-. apply length_replicate.
    - destruct (fits _ _) eqn:Hf; [| discriminate]. injection Hvs as <-.
      apply spread_length, Hf.
    - destruct rows as [|v [|v' rows]]; try discriminate.
      destruct (fits _ _) eqn:Hf; [| discriminate]. injection Hvs as <-.
      apply spread_length, Hf. }
  lia.
Qed.

Lemma zeros_length (n : Z) (res : list R) :
  NeuralTreeNet.zeros n = Ok res -> length res = Z.to_nat n.
Proof.
  unfold NeuralTreeNet.zeros. destruct (n <? 0)%Z; intros H; [discriminate |].
  injection H as <-. apply length_replicate.
Qed.

(** The state buffer has [size_] entries. *)
Lemma predict_one_length (h : heap_t) (net : NeuralTreeNet.t) (X : ndarray) (res : list R) :
  NeuralTreeNet._predict_one h net X = Ok res ->
  length res = Z.to_nat (NeuralTreeNet.size_ net).
Proof.
  unfold NeuralTreeNet._predict_one. intros H.
  apply rbind_ok in H as (res0 & H0 & H).
  apply rbind_ok in H as (res1 & H1 & H).
  apply zeros_length in H0. apply put_prefix_length in H1.
  revert H.
  apply (rfold_invariant (fun r => length r = Z.to_nat (NeuralTreeNet.size_ net)));
    [| lia].
  intros s [node a] s' _ Hs Hstep. unfold NeuralTreeNet.evaluate in Hstep.
  apply rbind_ok in Hstep as (n & _ & Hstep).
  apply rbind_ok in Hstep as (x & _ & Hstep).
  apply rbind_ok in Hstep as (y & _ & Hstep).
  apply scatter_length in Hstep. lia.
Qed.

(** The first [dim] slots hold the sample when every unit writes at or
    after slot [dim]. *)
Lemma predict_one_seeds (h : heap_t) (net : NeuralTreeNet.t) (X res : list R) :
  (0 <= NeuralTreeNet.dim net <= NeuralTreeNet.size_ net)%Z ->
  length X = Z.to_nat (NeuralTreeNet.dim net) ->
  Forall (fun a => Forall (fun o => (NeuralTreeNet.dim net <= o)%Z)
                          (NeuralTreeNet.slots (NeuralTreeNet.output a)))
         (NeuralTreeNet.nodes_attr net) ->
  NeuralTreeNet._predict_one h net (A1 X) = Ok res ->
  take (Z.to_nat (NeuralTreeNet.dim net)) res = X.
Proof.
  intros Hdim HX Hout. unfold NeuralTreeNet._predict_one. intros H.
  apply rbind_ok in H as (res0 & H0 & H).
  apply rbind_ok in H as (res1 & H1 & H).
  apply zeros_length in H0.
  assert (Hseed : take (Z.to_nat (NeuralTreeNet.dim net)) res1 = X).
  { unfold put_prefix in H1.
    assert (Hclip : clip (length res0) (NeuralTreeNet.dim net) = length X).
    { unfold clip. destruct (NeuralTreeNet.dim net <? 0)%Z eqn:Hneg; lia. }
    rewrite Hclip in H1. simpl in H1.
    unfold fits in H1. rewrite Nat.eqb_refl in H1. simpl in H1.
    injection H1 as <-. rewrite spread_all, <- HX.
    rewrite take_app_length. reflexivity. }
  revert H.
  apply (rfold_invariant (fun r => take (Z.to_nat (NeuralTreeNet.dim net)) r = X));
    [| exact Hseed].
  intros s [node a] s' Hin Hs Hstep. unfold NeuralTreeNet.evaluate in Hstep.
  apply rbind_ok in Hstep as (n & _ & Hstep).
  apply rbind_ok in Hstep as (x & _ & Hstep).
  apply rbind_ok in Hstep as (y & _ & Hstep).
  rewrite <- Hs. eapply scatter_take; [| exact Hstep].
  apply list_elem_of_In, elem_of_zip_r in Hin.
  rewrite Forall_forall in Hout. specialize (Hout a Hin).
  eapply Forall_impl; [exact Hout |]. simpl. intros o Ho. lia.
Qed.

Lemma rfold_app {A S : Type} (f : S -> A -> result S) (l1 l2 : list A) (s : S) :
  rfold f (l1 ++ l2) s = let* s1 := rfold f l1 s in rfold f l2 s1.
Proof.
  revert s. induction l1 as [|x l1 IH]; intros s; simpl; [reflexivity |].
  destruct (f s x); simpl; [apply IH | reflexivity].
Qed.













(** ** Loss at the level of the network *)

(** C2, at the failing input: in the chain the last output slot, 2, belongs
    to unit 1, yet [_get_output_node_attr] answers with unit 0 (it reads
    [output_to_node_] at the identifiers of the units, not at their output
    slots), and [loss] is the loss of unit 0 on slot 0 instead of the loss
    of unit 1 on slot 1. In the network of the end-to-end scenario the same
    lookup raises [KeyError]. *)
Theorem loss_delegates_to_wrong_unit :
  NeuralTreeNet.nodes (NeuralTreeNet.self chain_world) = [0; 1] /\
  NeuralTreeNet.size_ (NeuralTreeNet.self chain_world) = 3%Z /\
  fst <$> (NeuralTreeNet.output_to_node_ (NeuralTreeNet.self chain_world) !! 2%Z)
    = Some 1 /\
  fst <$> (NeuralTreeNet.output_to_node_ (NeuralTreeNet.self chain_world) !! 1%Z)
    = Some 0 /\
  match NeuralTreeNet._get_output_node_attr (NeuralTreeNet.heap chain_world)
          (NeuralTreeNet.self chain_world) 1 with
  | Ok (node, a) => node = 0 /\ NeuralTreeNet.output a = NeuralTreeNet.OInt 1
  | Raise _ => False
  end /\
  NeuralTreeNet.predict (NeuralTreeNet.heap chain_world)
    (NeuralTreeNet.self chain_world) (A1 [1%R]) = Ok (A1 [1; 2; 6]%R) /\
  NeuralTreeNet.loss (NeuralTreeNet.heap chain_world)
    (NeuralTreeNet.self chain_world) (A1 [1%R]) (A1 [0%R]) None = Ok (A1 [4%R]) /\
  (let* unit1 := deref (NeuralTreeNet.heap chain_world) 1 in
   NeuralTreeNode.loss unit1 (A1 [2%R]) (A1 [0%R]) None) = Ok (A1 [36%R]) /\
  NeuralTreeNet.loss (NeuralTreeNet.heap passthrough_world)
    (NeuralTreeNet.self passthrough_world) (A1 [1; 2]%R) (A1 [3%R]) None
  = Raise (KeyError 0).
Proof.
  split; [reflexivity |].
  split; [reflexivity |].
  split; [vm_compute; reflexivity |].
  split; [vm_compute; reflexivity |].
  split; [vm_compute; split; reflexivity |].
  split; [cbv; do 2 apply f_equal; repeat (apply f_equal2; [lra |]); reflexivity |].
  split; [vm_compute; do 2 apply f_equal; apply (f_equal (fun x => [x])); lra |].
  split; [vm_compute; do 2 apply f_equal; apply (f_equal (fun x => [x])); lra |].
  vm_compute. reflexivity.
Qed.

(** ** Derivatives of the activation functions *)

Section Derivatives.
Local Open Scope R_scope.

Lemma expit_derivative (x : R) :
  derivable_pt_lim expit x (expit x * (1 - expit x)).
Proof.
  assert (Hpos : 0 < 1 + exp (- x)) by (pose proof (exp_pos (- x)); lra).
  assert (Hexp : derivable_pt_lim (fun t => exp (- t)) x (exp (- x) * -1)).
  { apply (derivable_pt_lim_comp (fun t => - t) exp).
    - apply (derivable_pt_lim_opp id x 1), derivable_pt_lim_id.
    - apply derivable_pt_lim_exp. }
  assert (Hden : derivable_pt_lim (fun t => 1 + exp (- t)) x (0 + exp (- x) * -1)).
  { apply (derivable_pt_lim_plus (fun _ => 1) (fun t => exp (- t))).
    - apply derivable_pt_lim_const.
    - exact Hexp. }
  assert (Hdiv : derivable_pt_lim (fun t => 1 / (1 + exp (- t))) x
                    ((0 * (1 + exp (- x)) - (0 + exp (- x) * -1) * 1)
                     / Rsqr (1 + exp (- x)))).
  { apply (derivable_pt_lim_div (fun _ => 1) (fun t => 1 + exp (- t))).
    - apply derivable_pt_lim_const.
    - exact Hden.
    - lra. }
  replace (expit x * (1 - expit x))
    with ((0 * (1 + exp (- x)) - (0 + exp (- x) * -1) * 1) / Rsqr (1 + exp (- x))).
  - apply (derivable_pt_lim_ext (fun t => 1 / (1 + exp (- t)))); [| exact Hdiv].
    intros z. unfold expit. field. pose proof (exp_pos (- z)). lra.
  - unfold expit, Rsqr. field. lra.
Qed.

Lemma sigmoid4_derivative (x : R) :
  derivable_pt_lim NeuralTreeNode.sigmoid4 x
    (4 * (expit (x * 4) * (1 - expit (x * 4)))).
Proof.
  replace (4 * (expit (x * 4) * (1 - expit (x * 4))))
    with ((expit (x * 4) * (1 - expit (x * 4))) * (1 * 4 + x * 0)) by ring.
  apply (derivable_pt_lim_comp (fun t => t * 4) expit).
  - apply (derivable_pt_lim_mult id (fun _ => 4)).
    + apply derivable_pt_lim_id.
    + apply derivable_pt_lim_const.
  - apply expit_derivative.
Qed.

Lemma dsigmoid_closed (x : R) :
  expit x * (1 - expit x) = exp (- x) / ((1 + exp (- x)) * (1 + exp (- x))).
Proof.
  unfold expit. pose proof (exp_pos (- x)). field. lra.
Qed.

Lemma exp_neg4 :
  exp (- (1 * 4)) = exp (- (1)) * exp (- (1)) * exp (- (1)) * exp (- (1)).
Proof.
  rewrite <- !exp_plus. f_equal. lra.
Qed.

Lemma dsigmoid4_differs :
  NeuralTreeNode.dsigmoid4 1 <> 4 * (expit (1 * 4) * (1 - expit (1 * 4))).
Proof.
  unfold NeuralTreeNode.dsigmoid4, NeuralTreeNode._dsigmoid. cbv zeta.
  rewrite !dsigmoid_closed, exp_neg4.
  pose proof (exp_pos (- (1))) as Hpos.
  assert (Hlt : exp (- (1)) < 1).
  { pose proof (exp_increasing (- (1)) 0) as Hinc. rewrite exp_0 in Hinc.
    apply Hinc. lra. }
  set (a := exp (- (1))) in *.
  set (b := a * a * a * a).
  assert (Hb : 0 < b < a).
  { unfold b.
    assert (H2 : 0 < a * a < a) by nra.
    assert (H3 : 0 < a * a * a < a) by nra.
    nra. }
  intros H.
  assert (Hcross : a * ((1 + b) * (1 + b)) = b * ((1 + a) * (1 + a))).
  { apply (Rmult_eq_reg_r (/ ((1 + a) * (1 + a)) * / ((1 + b) * (1 + b)))).
    - transitivity (a / ((1 + a) * (1 + a))); [field; lra |].
      transitivity (b / ((1 + b) * (1 + b))); [lra | field; lra].
    - apply Rmult_integral_contrapositive_currified; apply Rinv_neq_0_compat; nra. }
  assert (Hfact : (a - b) * (1 - a * b) = 0) by nra.
  apply Rmult_integral in Hfact as [Hfact | Hfact]; nra.
Qed.

(** The first output of [softmax4] as a function of the first of two
    inputs, the second being 0, is [sigmoid4]. *)
Lemma softmax4_first_component (t : R) :
  entry00 (NeuralTreeNode.softmax4 (A1 [t; 0])) = NeuralTreeNode.sigmoid4 t.
Proof.
  cbv [entry00 NeuralTreeNode.softmax4 NeuralTreeNode._softmax rank Nat.eqb amap map
       softmax ravel rsum fold_right NeuralTreeNode.sigmoid4 expit].
  replace (0 * 4) with 0 by ring. rewrite exp_0, exp_Ropp.
  pose proof (exp_pos (t * 4)). field. lra.
Qed.

Lemma dsoftmax4_at_origin :
  NeuralTreeNode.dsoftmax4 (A1 [0; 0]) = Ok (A2 2 [[0; -2]; [-2; 0]]).
Proof.
  cbv -[exp Rplus Rmult Rdiv Rinv Ropp Rminus IZR]. rewrite exp_0.
  apply f_equal, f_equal.
  repeat (apply f_equal2; [repeat (apply f_equal2; [lra |]); reflexivity |]).
  reflexivity.
Qed.

(** Where the claim holds: the logistic and the identity kinds at every
    point. *)
Lemma logistic_gradient_is_derivative (kind : string) (x : R) :
  In kind NeuralTreeNode.logistic_names ->
  exists f g,
    NeuralTreeNode.get_activation_function kind = Ok f /\
    NeuralTreeNode.get_activation_gradient_function kind = Ok g /\
    derivable_pt_lim (on_scalar f) x (on_scalar g x).
Proof.
  intros Hk. exists (elementwise expit), (elementwise NeuralTreeNode._dsigmoid).
  assert (Hlookup :
    NeuralTreeNode.get_activation_function kind = Ok (elementwise expit) /\
    NeuralTreeNode.get_activation_gradient_function kind
      = Ok (elementwise NeuralTreeNode._dsigmoid)).
  { simpl in Hk. destruct Hk as [<- | [<- | [<- | []]]]; split; reflexivity. }
  destruct Hlookup as [-> ->]. split; [reflexivity |]. split; [reflexivity |].
  apply (expit_derivative x).
Qed.

Lemma identity_gradient_is_derivative (x : R) :
  exists f g,
    NeuralTreeNode.get_activation_function "identity" = Ok f /\
    NeuralTreeNode.get_activation_gradient_function "identity" = Ok g /\
    derivable_pt_lim (on_scalar f) x (on_scalar g x).
Proof.
  eexists _, _. split; [reflexivity |]. split; [reflexivity |].
  apply (derivable_pt_lim_id x).
Qed.

(** C1, at the failing input: for the kind ['sigmoid4'] the derivative
    of the registered forward function at 1 is [4 * logistic(4) *
    (1 - logistic(4))], and the registered gradient function, whose
    value at 1 is [4 * logistic(1) * (1 - logistic(1))], is not that
    derivative. For ['softmax4'] the derivative of the first output in
    the first input at the origin of the plane is 1, and the registered
    gradient has 0 there. *)
Theorem sigmoid4_gradient_is_not_the_derivative :
  NeuralTreeNode.get_activation_function "sigmoid4"
    = Ok (elementwise NeuralTreeNode.sigmoid4) /\
  NeuralTreeNode.get_activation_gradient_function "sigmoid4"
    = Ok (elementwise NeuralTreeNode.dsigmoid4) /\
  derivable_pt_lim NeuralTreeNode.sigmoid4 1 (4 * (expit 4 * (1 - expit 4))) /\
  NeuralTreeNode.dsigmoid4 1 = 4 * (expit 1 * (1 - expit 1)) /\
  ~ derivable_pt_lim NeuralTreeNode.sigmoid4 1 (NeuralTreeNode.dsigmoid4 1) /\
  NeuralTreeNode.get_activation_function "softmax4" = Ok NeuralTreeNode.softmax4 /\
  NeuralTreeNode.get_activation_gradient_function "softmax4"
    = Ok NeuralTreeNode.dsoftmax4 /\
  derivable_pt_lim (fun t => entry00 (NeuralTreeNode.softmax4 (A1 [t; 0]))) 0 1 /\
  entry00 (NeuralTreeNode.dsoftmax4 (A1 [0; 0])) = 0.
Proof.
  split; [reflexivity |]. split; [reflexivity |].
  split.
  { pose proof (sigmoid4_derivative 1) as H.
    replace (1 * 4) with 4 in H by ring. exact H. }
  split.
  { unfold NeuralTreeNode.dsigmoid4, NeuralTreeNode._dsigmoid. cbv zeta. ring. }
  split.
  { intros H. apply dsigmoid4_differs.
    apply (uniqueness_limite NeuralTreeNode.sigmoid4 1); [exact H |].
    apply sigmoid4_derivative. }
  split; [reflexivity |]. split; [reflexivity |].
  split.
  { apply (derivable_pt_lim_ext NeuralTreeNode.sigmoid4).
    - intros z. symmetry. apply softmax4_first_component.
    - pose proof (sigmoid4_derivative 0) as H.
      replace (4 * (expit (0 * 4) * (1 - expit (0 * 4)))) with 1 in H; [exact H |].
      replace (0 * 4) with 0 by ring. unfold expit.
      replace (- 0) with 0 by ring. rewrite exp_0. field. }
  rewrite dsoftmax4_at_origin. reflexivity.
Qed.

End Derivatives.

(** ** The effect of a successful append *)

Lemma deref_insert (h : heap_t) (r : ref) (n n' : NeuralTreeNode.t) :
  h !! r = Some n -> deref (<[r := n']> h) r = Ok n'.
Proof.
  intros H. unfold deref. rewrite list_lookup_insert_eq; [reflexivity |].
  eapply lookup_lt_Some, H.
Qed.

Lemma input_weights_set_nodeid (i : Z) (n : NeuralTreeNode.t) :
  NeuralTreeNode.input_weights (NeuralTreeNode.set_nodeid i n)
  = NeuralTreeNode.input_weights n.
Proof. reflexivity. Qed.

Lemma attach_ok (w : NeuralTreeNet.world) (node : ref) (n : NeuralTreeNode.t)
      (inputs : NeuralTreeNet.inputs_arg) (output : Z -> NeuralTreeNet.output_t) :
  heap_lookup_ok w node n ->
  let a := attr_for w n inputs (output (NeuralTreeNet.size_ (NeuralTreeNet.self w))) in
  NeuralTreeNet.attach node inputs output w
  = (Ok a,
     NeuralTreeNet.mk_world
       (<[node := NeuralTreeNode.set_nodeid
                    (Z.of_nat (length (NeuralTreeNet.nodes (NeuralTreeNet.self w)))) n]>
          (NeuralTreeNet.heap w))
       (NeuralTreeNet.mk (NeuralTreeNet.dim (NeuralTreeNet.self w))
          (NeuralTreeNet.nodes (NeuralTreeNet.self w) ++ [node])
          (NeuralTreeNet.nodes_attr (NeuralTreeNet.self w) ++ [a])
          (NeuralTreeNet.size_ (NeuralTreeNet.self w))
          (NeuralTreeNet.output_to_node_ (NeuralTreeNet.self w))
          (NeuralTreeNet.input_to_node_ (NeuralTreeNet.self w)))).
Proof.
  intros Hn a. unfold NeuralTreeNet.attach. run.
  unfold deref at 1. rewrite Hn. simpl.
  rewrite (deref_insert _ _ n _ Hn). reflexivity.
Qed.

Lemma update_members_ok (w : NeuralTreeNet.world) (node : ref) (n : NeuralTreeNode.t)
      (a : NeuralTreeNet.attr) (iw : ndarray) (step : Z) :
  heap_lookup_ok w node n ->
  NeuralTreeNode.input_weights n = Ok iw ->
  NeuralTreeNet.slots_taken iw = Ok step ->
  NeuralTreeNet._update_members (Some (node, a)) w
  = (Ok tt,
     NeuralTreeNet.mk_world (NeuralTreeNet.heap w)
       (NeuralTreeNet.register node a
          (NeuralTreeNet.mk (NeuralTreeNet.dim (NeuralTreeNet.self w))
             (NeuralTreeNet.nodes (NeuralTreeNet.self w))
             (NeuralTreeNet.nodes_attr (NeuralTreeNet.self w))
             (NeuralTreeNet.size_ (NeuralTreeNet.self w) + step)%Z
             (NeuralTreeNet.output_to_node_ (NeuralTreeNet.self w))
             (NeuralTreeNet.input_to_node_ (NeuralTreeNet.self w))))).
Proof.
  intros Hn Hiw Hstep. unfold NeuralTreeNet._update_members. run.
  unfold deref. rewrite Hn. simpl. rewrite Hiw, Hstep. reflexivity.
Qed.

(** A unit with a vector of weights, accepted. *)
Lemma append_single_output (w : NeuralTreeNet.world) (node : ref) (n : NeuralTreeNode.t)
      (inputs : NeuralTreeNet.inputs_arg) (v : list R) :
  heap_lookup_ok w node n ->
  NeuralTreeNode.input_weights n = Ok (A1 v) ->
  length v = length (NeuralTreeNet.values inputs) ->
  NeuralTreeNet.append node inputs w
  = (Ok tt,
     appended w node n
       (attr_for w n inputs
          (NeuralTreeNet.OInt (NeuralTreeNet.size_ (NeuralTreeNet.self w)))) 1).
Proof.
  intros Hn Hiw Hlen. unfold NeuralTreeNet.append, bind.
  rewrite (append_read _ _ _ Hn). unfold lift. rewrite Hiw.
  apply Nat.eqb_eq in Hlen. rewrite Hlen. cbn [negb].
  rewrite (attach_ok w node n inputs NeuralTreeNet.OInt Hn).
  rewrite (update_members_ok _ node
             (NeuralTreeNode.set_nodeid
                (Z.of_nat (length (NeuralTreeNet.nodes (NeuralTreeNet.self w)))) n)
             _ (A1 v) 1%Z);
    [reflexivity | eapply list_lookup_insert_eq, lookup_lt_Some, Hn | exact Hiw
     | reflexivity].
Qed.

(** A unit with a matrix of weights, accepted. *)
Lemma append_multi_output (w : NeuralTreeNet.world) (node : ref) (n : NeuralTreeNode.t)
      (inputs : NeuralTreeNet.inputs_arg) (nc : nat) (rows : list (list R)) :
  heap_lookup_ok w node n ->
  NeuralTreeNode.input_weights n = Ok (A2 nc rows) ->
  nc = length (NeuralTreeNet.values inputs) ->
  NeuralTreeNet.append node inputs w
  = (Ok tt,
     appended w node n
       (attr_for w n inputs
          (NeuralTreeNet.OList
             (range (NeuralTreeNet.size_ (NeuralTreeNet.self w))
                    (NeuralTreeNet.size_ (NeuralTreeNet.self w) + Z.of_nat (length rows)))))
       (Z.of_nat (length rows))).
Proof.
  intros Hn Hiw Hlen. unfold NeuralTreeNet.append, bind.
  rewrite (append_read _ _ _ Hn). unfold lift. rewrite Hiw.
  apply Nat.eqb_eq in Hlen. rewrite Hlen. cbn [negb].
  rewrite (attach_ok w node n inputs _ Hn).
  rewrite (update_members_ok _ node
             (NeuralTreeNode.set_nodeid
                (Z.of_nat (length (NeuralTreeNet.nodes (NeuralTreeNet.self w)))) n)
             _ (A2 nc rows) (Z.of_nat (length rows)));
    [reflexivity | eapply list_lookup_insert_eq, lookup_lt_Some, Hn | exact Hiw
     | reflexivity].
Qed.

Lemma elem_of_range (a b o : Z) : o ∈ range a b <-> (a <= o < b)%Z.
Proof.
  unfold range. rewrite list_elem_of_fmap. split.
  - intros (i & -> & Hi). apply elem_of_seq in Hi. lia.
  - intros Ho. exists (Z.to_nat (o - a)). split; [lia |].
    apply elem_of_seq. lia.
Qed.

Lemma indices_numpy_array (inputs : NeuralTreeNet.inputs_arg) :
  NeuralTreeNet.indices (NeuralTreeNet.numpy_array inputs) = NeuralTreeNet.values inputs.
Proof. destruct inputs; reflexivity. Qed.

(** What a successful [append] does to the state. *)
Lemma append_ok (w w' : NeuralTreeNet.world) (node : ref)
      (inputs : NeuralTreeNet.inputs_arg) :
  NeuralTreeNet.append node inputs w = (Ok tt, w') ->
  exists n a step,
    heap_lookup_ok w node n /\
    w' = appended w node n a step /\
    NeuralTreeNet.indices (NeuralTreeNet.inputs a) = NeuralTreeNet.values inputs /\
    NeuralTreeNet.coef_size a = Z.of_nat (size_of (NeuralTreeNode.coef n)) /\
    NeuralTreeNet.first_coef a = NeuralTreeNet.next_first_coef (NeuralTreeNet.self w) /\
    (0 <= step)%Z /\
    (forall o, o ∈ NeuralTreeNet.slots (NeuralTreeNet.output a) <->
               (NeuralTreeNet.size_ (NeuralTreeNet.self w) <= o
                < NeuralTreeNet.size_ (NeuralTreeNet.self w) + step)%Z).
Proof.
  intros H.
  destruct (NeuralTreeNet.heap w !! node) as [n|] eqn:Hn.
  2:{ unfold NeuralTreeNet.append, bind, NeuralTreeNet.read, deref in H.
      rewrite Hn in H. discriminate. }
  destruct (NeuralTreeNode.input_weights n) as [[x|v|nc rows]|e] eqn:Hiw.
  - unfold NeuralTreeNet.append, bind in H. rewrite (append_read _ _ _ Hn) in H.
    unfold lift in H. rewrite Hiw in H. discriminate.
  - destruct (Nat.eq_dec (length v) (length (NeuralTreeNet.values inputs))) as [Hlen|Hlen].
    + rewrite (append_single_output w node n inputs v Hn Hiw Hlen) in H.
      injection H as <-. eexists n, _, 1%Z.
      split; [exact Hn |]. split; [reflexivity |].
      split; [apply indices_numpy_array |].
      split; [reflexivity |]. split; [reflexivity |]. split; [lia |].
      intros o. simpl. rewrite list_elem_of_singleton. lia.
    + rewrite (append_width_mismatch w node n inputs (length v)) in H;
        [discriminate | exact Hn | unfold input_width; rewrite Hiw; reflexivity | exact Hlen].
  - destruct (Nat.eq_dec nc (length (NeuralTreeNet.values inputs))) as [Hlen|Hlen].
    + rewrite (append_multi_output w node n inputs nc rows Hn Hiw Hlen) in H.
      injection H as <-. eexists n, _, (Z.of_nat (length rows)).
      split; [exact Hn |]. split; [reflexivity |].
      split; [apply indices_numpy_array |].
      split; [reflexivity |]. split; [reflexivity |]. split; [lia |].
      intros o. simpl. apply elem_of_range.
    + rewrite (append_width_mismatch w node n inputs nc) in H;
        [discriminate | exact Hn | unfold input_width; rewrite Hiw; reflexivity | exact Hlen].
  - unfold NeuralTreeNet.append, bind in H. rewrite (append_read _ _ _ Hn) in H.
    unfold lift in H. rewrite Hiw in H. discriminate.
Qed.

(** [clear] leaves the network without units. *)
Lemma clear_ok (w : NeuralTreeNet.world) :
  NeuralTreeNet.clear w
  = (Ok tt, NeuralTreeNet.mk_world (NeuralTreeNet.heap w)
              (empty_net (NeuralTreeNet.dim (NeuralTreeNet.self w)))).
Proof. reflexivity. Qed.

Lemma update_loop_keeps_self (array_of : NeuralTreeNet.arrays) (X : list R)
      (add_ : bool) (l : list ref) :
  forall (pos : Z) (w : NeuralTreeNet.world),
    NeuralTreeNet.self (snd (NeuralTreeNet.update_loop array_of X add_ l pos w))
    = NeuralTreeNet.self w.
Proof.
  induction l as [|r l IH]; intros pos w; simpl; [reflexivity |].
  unfold bind, NeuralTreeNet.read, lift.
  destruct (deref (NeuralTreeNet.heap w) r) as [n|e]; simpl; [| reflexivity].
  destruct (NeuralTreeNode.updated_coef n _ add_) as [c|e]; simpl; [| reflexivity].
  rewrite IH. reflexivity.
Qed.

(** Updating the weights changes coefficients only. *)
Lemma update_training_weights_keeps_self (array_of : NeuralTreeNet.arrays)
      (X : list R) (add_ : bool) (w : NeuralTreeNet.world) :
  NeuralTreeNet.self (snd (NeuralTreeNet.update_training_weights array_of X add_ w))
  = NeuralTreeNet.self w.
Proof.
  unfold NeuralTreeNet.update_training_weights, bind, gets.
  apply update_loop_keeps_self.
Qed.

(** What holds in every state of [built]: units and metadata go in pairs,
    the output slots of the units lie between [dim] and [size_], and the
    inputs of every unit come before its outputs. *)
Lemma built_invariants (w : NeuralTreeNet.world) :
  built w ->
  length (NeuralTreeNet.nodes (NeuralTreeNet.self w))
  = length (NeuralTreeNet.nodes_attr (NeuralTreeNet.self w)) /\
  (NeuralTreeNet.dim (NeuralTreeNet.self w) <= NeuralTreeNet.size_ (NeuralTreeNet.self w))%Z /\
  Forall (fun a => Forall (fun o => (NeuralTreeNet.dim (NeuralTreeNet.self w) <= o
                                     < NeuralTreeNet.size_ (NeuralTreeNet.self w))%Z)
                          (NeuralTreeNet.slots (NeuralTreeNet.output a)))
         (NeuralTreeNet.nodes_attr (NeuralTreeNet.self w)) /\
  inputs_precede_outputs (NeuralTreeNet.self w).
Proof.
  induction 1 as [h d | w n _ IH | w w' node inputs _ IH Hin Happ | w array_of X add_ _ IH
                 | w _ IH].
  - simpl. split; [reflexivity |]. split; [lia |]. split; constructor.
  - exact IH.
  - destruct IH as (Hlen & Hdim & Hout & Hwf).
    apply append_ok in Happ as (n & a & step & _ & -> & Hidx & _ & _ & Hstep & Hslots).
    simpl. split; [rewrite !length_app, Hlen; reflexivity |].
    split; [lia |]. split.
    + apply Forall_app. split.
      * eapply Forall_impl; [exact Hout |]. simpl. intros a' Ha'.
        eapply Forall_impl; [exact Ha' |]. simpl. intros o Ho. lia.
      * constructor; [| constructor]. apply Forall_forall. intros o Ho.
        apply Hslots in Ho. lia.
    + unfold inputs_precede_outputs in *. simpl.
      apply Forall_app. split; [exact Hwf |].
      constructor; [| constructor]. rewrite Hidx.
      eapply Forall_impl; [exact Hin |]. simpl. intros i Hi. split; [lia |].
      apply Forall_forall. intros o Ho. apply Hslots in Ho. lia.
  - rewrite update_training_weights_keeps_self. exact IH.
  - rewrite clear_ok. simpl. split; [reflexivity |]. split; [lia |]. split; constructor.
Qed.

(** C4, as stated, fails twice on the network of the end-to-end scenario:
    [clear] removes the unit that was appended, and [append] accepts a unit
    whose input slots, 7 and 8, are produced by nothing (the network has
    the slots 0, 1 and 2). *)
Lemma topology_counterexample :
  NeuralTreeNet.nodes (NeuralTreeNet.self passthrough_world) = [0] /\
  NeuralTreeNet.nodes
    (NeuralTreeNet.self (snd (NeuralTreeNet.clear passthrough_world))) = [] /\
  fst (NeuralTreeNet.clear passthrough_world) = Ok tt /\
  (let w := snd (NeuralTreeNet.append 0 (NeuralTreeNet.PyList [7; 8]%Z)
                   (NeuralTreeNet.mk_world [identity_unit [1; 1]%R 0] (empty_net 2))) in
   fst (NeuralTreeNet.append 0 (NeuralTreeNet.PyList [7; 8]%Z)
          (NeuralTreeNet.mk_world [identity_unit [1; 1]%R 0] (empty_net 2))) = Ok tt /\
   NeuralTreeNet.size_ (NeuralTreeNet.self w) = 3%Z /\
   (NeuralTreeNet.indices ∘ NeuralTreeNet.inputs) <$> NeuralTreeNet.nodes_attr (NeuralTreeNet.self w)
   = [[7; 8]%Z]).
Proof.
  repeat split; reflexivity.
Qed.

(** C4, amended. [append] and [clear] are the operations that change the
    topology. A successful [append] removes and reorders nothing: it puts
    the unit at the end of the units and its metadata at the end of the
    metadata, with the input slots the caller supplied; it does not check
    them, and the inputs of every unit come before its outputs as long as
    each call supplies slots that exist at the time of the call, which
    makes it an invariant of the states of [built]. [clear] removes every
    unit. [update_training_weights] leaves the network record as it is. *)
Theorem append_extends_and_clear_empties :
  (forall (w w' : NeuralTreeNet.world) (node : ref) (inputs : NeuralTreeNet.inputs_arg),
      NeuralTreeNet.append node inputs w = (Ok tt, w') ->
      NeuralTreeNet.nodes (NeuralTreeNet.self w')
        = NeuralTreeNet.nodes (NeuralTreeNet.self w) ++ [node] /\
      exists a,
        NeuralTreeNet.nodes_attr (NeuralTreeNet.self w')
          = NeuralTreeNet.nodes_attr (NeuralTreeNet.self w) ++ [a] /\
        NeuralTreeNet.indices (NeuralTreeNet.inputs a) = NeuralTreeNet.values inputs /\
        (Forall (fun i => (0 <= i < NeuralTreeNet.size_ (NeuralTreeNet.self w))%Z)
                (NeuralTreeNet.values inputs) ->
         inputs_precede_outputs (NeuralTreeNet.self w) ->
         inputs_precede_outputs (NeuralTreeNet.self w'))) /\
  (forall w : NeuralTreeNet.world,
      NeuralTreeNet.clear w
      = (Ok tt, NeuralTreeNet.mk_world (NeuralTreeNet.heap w)
                  (empty_net (NeuralTreeNet.dim (NeuralTreeNet.self w))))) /\
  (forall (array_of : NeuralTreeNet.arrays) (X : list R) (add_ : bool)
          (w : NeuralTreeNet.world),
      NeuralTreeNet.self (snd (NeuralTreeNet.update_training_weights array_of X add_ w))
      = NeuralTreeNet.self w) /\
  (forall w : NeuralTreeNet.world,
      built w -> inputs_precede_outputs (NeuralTreeNet.self w)).
Proof.
  split; [| split; [exact clear_ok |
                    split; [exact update_training_weights_keeps_self |
                            intros w Hw; apply (built_invariants w Hw)]]].
  intros w w' node inputs H.
  apply append_ok in H as (n & a & step & Hn & -> & Hidx & _ & _ & Hstep & Hslots).
  split; [reflexivity |]. exists a. split; [reflexivity |]. split; [exact Hidx |].
  intros Hin Hwf. unfold inputs_precede_outputs in *. simpl.
  apply Forall_app. split; [exact Hwf |].
  constructor; [| constructor]. rewrite Hidx.
  eapply Forall_impl; [exact Hin |]. simpl. intros i Hi. split; [lia |].
  apply Forall_forall. intros o Ho. apply Hslots in Ho. lia.
Qed.

Lemma append_extends_witness :
  NeuralTreeNet.nodes (NeuralTreeNet.self passthrough_world) = [] ++ [0] /\
  exists a,
    NeuralTreeNet.nodes_attr (NeuralTreeNet.self passthrough_world) = [] ++ [a] /\
    NeuralTreeNet.indices (NeuralTreeNet.inputs a) = [0; 1]%Z /\
    (Forall (fun i => (0 <= i < 2)%Z) [0; 1]%Z ->
     inputs_precede_outputs (empty_net 2) ->
     inputs_precede_outputs (NeuralTreeNet.self passthrough_world)).
Proof.
  apply (proj1 append_extends_and_clear_empties
           (NeuralTreeNet.mk_world [identity_unit [1; 1]%R 0] (empty_net 2))
           passthrough_world 0 (NeuralTreeNet.PyList [0; 1]%Z)).
  reflexivity.
Defined.

(** ** The tree compiler *)

Lemma getitem_nonneg {A : Type} (l : list A) (i : Z) (x : A) :
  (0 <= i)%Z -> l !! Z.to_nat i = Some x -> getitem l i = Ok x.
Proof.
  intros Hi Hx. unfold getitem, py_index.
  pose proof (lookup_lt_Some _ _ _ Hx) as Hlt.
  destruct (0 <=? i)%Z eqn:H0; [| lia].
  destruct (i <? Z.of_nat (length l))%Z eqn:H1; [| lia].
  rewrite Hx. reflexivity.
Qed.

Lemma new_node_ok (n : NeuralTreeNode.t) (w : NeuralTreeNet.world) :
  NeuralTreeNet.new_node (Ok n) w
  = (Ok (length (NeuralTreeNet.heap w)),
     NeuralTreeNet.mk_world (NeuralTreeNet.heap w ++ [n]) (NeuralTreeNet.self w)).
Proof. reflexivity. Qed.

Lemma attr_of_ok (w : NeuralTreeNet.world) (node : nat) (n : NeuralTreeNode.t)
      (r : nat) (a : NeuralTreeNet.attr) :
  NeuralTreeNet.heap w !! node = Some n ->
  (0 <= NeuralTreeNode.nodeid n)%Z ->
  NeuralTreeNet.nodes (NeuralTreeNet.self w) !! Z.to_nat (NeuralTreeNode.nodeid n) = Some r ->
  NeuralTreeNet.nodes_attr (NeuralTreeNet.self w) !! Z.to_nat (NeuralTreeNode.nodeid n) = Some a ->
  NeuralTreeNet.attr_of node w = (Ok a, w).
Proof.
  intros Hn Hid Hr Ha. unfold NeuralTreeNet.attr_of, bind, NeuralTreeNet.read, gets, lift, ret, deref.
  rewrite Hn. simpl. unfold NeuralTreeNet.__getitem__.
  rewrite (getitem_nonneg _ _ _ Hid Hr), (getitem_nonneg _ _ _ Hid Ha). reflexivity.
Qed.

Lemma sigmoid4_unit_init (special : Special) (ws : list R) (b : R) (tag : option string) :
  exists n, NeuralTreeNet.unit_of (A1 ws) b "sigmoid4" tag = Ok n /\
            is_unit n "sigmoid4" ws b (-1) /\ NeuralTreeNode.tag n = tag.
Proof.
  eexists. split; [reflexivity |]. repeat split.
Qed.

Lemma input_weights_unit (n : NeuralTreeNode.t) (act : string) (ws : list R) (b : R) (id : Z) :
  is_unit n act ws b id -> NeuralTreeNode.input_weights n = Ok (A1 ws).
Proof.
  intros (Hc & _ & Ho & _). unfold NeuralTreeNode.input_weights.
  rewrite Ho, Hc. reflexivity.
Qed.

Lemma insert_last {A : Type} (l : list A) (x y : A) :
  <[length l := y]> (l ++ [x]) = l ++ [y].
Proof.
  rewrite insert_app_r_alt by lia. rewrite Nat.sub_diag. reflexivity.
Qed.

Lemma append_fresh (w : NeuralTreeNet.world) (n : NeuralTreeNode.t)
      (inputs : NeuralTreeNet.inputs_arg) (act : string) (ws : list R) (b : R) (id : Z) :
  is_unit n act ws b id ->
  length ws = length (NeuralTreeNet.values inputs) ->
  NeuralTreeNet.append (length (NeuralTreeNet.heap w)) inputs
    (NeuralTreeNet.mk_world (NeuralTreeNet.heap w ++ [n]) (NeuralTreeNet.self w))
  = (Ok tt, emitted w n inputs).
Proof.
  intros Hu Hlen.
  rewrite (append_single_output _ _ n inputs ws).
  - unfold appended, emitted, attr_for. simpl. rewrite insert_last. reflexivity.
  - unfold heap_lookup_ok. simpl. apply list_lookup_middle. reflexivity.
  - eapply input_weights_unit, Hu.
  - exact Hlen.
Qed.

Lemma attr_of_registered (w : NeuralTreeNet.world) (node : nat) (o : Z) :
  registered w node o ->
  exists a, NeuralTreeNet.attr_of node w = (Ok a, w) /\
            NeuralTreeNet.output a = NeuralTreeNet.OInt o.
Proof.
  intros (n & r & a & Hn & Hid & Hr & Ha & Ho). exists a.
  split; [eapply attr_of_ok; eauto | exact Ho].
Qed.

Lemma registered_emitted (w : NeuralTreeNet.world) (n : NeuralTreeNode.t)
      (inputs : NeuralTreeNet.inputs_arg) (node : nat) (o : Z) :
  registered w node o -> registered (emitted w n inputs) node o.
Proof.
  intros (np & r & a & Hn & Hid & Hr & Ha & Ho). exists np, r, a. simpl.
  split; [apply lookup_app_l_Some, Hn |]. split; [exact Hid |].
  split; [apply lookup_app_l_Some, Hr |]. split; [apply lookup_app_l_Some, Ha | exact Ho].
Qed.

Lemma registered_new (w : NeuralTreeNet.world) (n : NeuralTreeNode.t)
      (inputs : NeuralTreeNet.inputs_arg) :
  length (NeuralTreeNet.nodes (NeuralTreeNet.self w))
  = length (NeuralTreeNet.nodes_attr (NeuralTreeNet.self w)) ->
  registered (emitted w n inputs) (length (NeuralTreeNet.heap w))
             (NeuralTreeNet.size_ (NeuralTreeNet.self w)).
Proof.
  intros Hlen. eexists _, _, _. simpl.
  split; [apply list_lookup_middle; reflexivity |]. simpl.
  split; [lia |]. rewrite Nat2Z.id.
  split; [apply list_lookup_middle; reflexivity |].
  split; [apply list_lookup_middle; exact Hlen | reflexivity].
Qed.

Lemma emitted_lengths (w : NeuralTreeNet.world) (n : NeuralTreeNode.t)
      (inputs : NeuralTreeNet.inputs_arg) :
  length (NeuralTreeNet.nodes (NeuralTreeNet.self w))
  = length (NeuralTreeNet.nodes_attr (NeuralTreeNet.self w)) ->
  length (NeuralTreeNet.nodes (NeuralTreeNet.self (emitted w n inputs)))
  = length (NeuralTreeNet.nodes_attr (NeuralTreeNet.self (emitted w n inputs))).
Proof. intros H. simpl. rewrite !length_app, H. reflexivity. Qed.

Lemma setitem_in_range {A : Type} (l : list A) (i : Z) (x : A) :
  (- Z.of_nat (length l) <= i < Z.of_nat (length l))%Z ->
  exists l', setitem l i x = Ok l' /\ length l' = length l.
Proof.
  intros Hi. unfold setitem, py_index.
  destruct (0 <=? i)%Z eqn:H0.
  - destruct (i <? Z.of_nat (length l))%Z eqn:H1; [| lia].
    eexists. split; [reflexivity | apply length_insert].
  - destruct (- Z.of_nat (length l) <=? i)%Z eqn:H1; [| lia].
    eexists. split; [reflexivity | apply length_insert].
Qed.

Lemma length_range (a b : Z) : length (range a b) = Z.to_nat (b - a).
Proof. unfold range. rewrite length_map, length_seq. reflexivity. Qed.

Lemma identity_unit_of (special : Special) (ws : list R) (b : R) (tag : option string) :
  exists n, NeuralTreeNet.unit_of (A1 ws) b "identity" tag = Ok n /\
            is_unit n "identity" ws b (-1).
Proof.
  eexists. split; [reflexivity |]. repeat split.
Qed.

Section Visit.
Context {special : Special}.


(** The root of the tree, or any internal node without a recorded
    predecessor: the threshold unit and its negation. *)
Lemma visit_internal_node_without_predecessor
      (tree : NeuralTreeNet.tree_t) (k : R) (output_class : list Z) (i : Z)
      (predecessor : gmap Z nat) (outputs : gmap Z (list nat))
      (w : NeuralTreeNet.world) (cl cr f : Z) (th : R) :
  getitem (NeuralTreeNet.children_left tree) i = Ok cl ->
  getitem (NeuralTreeNet.children_right tree) i = Ok cr ->
  cl <> cr ->
  getitem (NeuralTreeNet.feature tree) i = Ok f ->
  (- NeuralTreeNet.max_features_ tree <= f < NeuralTreeNet.max_features_ tree)%Z ->
  getitem (NeuralTreeNet.threshold tree) i = Ok th ->
  predecessor !! i = None ->
  length (NeuralTreeNet.nodes (NeuralTreeNet.self w))
  = length (NeuralTreeNet.nodes_attr (NeuralTreeNet.self w)) ->
  exists (n_th n_false : NeuralTreeNode.t),
    let h0 := length (NeuralTreeNet.heap w) in
    let w1 := emitted w n_th
                (NeuralTreeNet.IntArray (range 0 (NeuralTreeNet.max_features_ tree))) in
    NeuralTreeNet.visit tree k output_class i (predecessor, outputs) w
    = (Ok (<[cr := h0 + 1]> (<[cl := h0]> predecessor), outputs),
       emitted w1 n_false
         (NeuralTreeNet.PyList [NeuralTreeNet.size_ (NeuralTreeNet.self w)])) /\
    is_unit n_false "identity" [-1]%R 1 (-1).
Proof.
  intros Hcl Hcr Hne Hf Hfr Hth Hpred Hlen.
  set (mf := NeuralTreeNet.max_features_ tree) in *.
  assert (Hmf : (0 < mf)%Z) by lia.
  destruct (setitem_in_range (replicate (Z.to_nat mf) 0%R) f (- k)%R)
    as (coef & Hcoef & Hcoef_len).
  { rewrite length_replicate. lia. }
  rewrite length_replicate in Hcoef_len.
  destruct (sigmoid4_unit_init special coef (k * th) (NeuralTreeNet.tag_of i "-th"))
    as (n_th & Hinit_th & Hunit_th & _).
  destruct (identity_unit_of special [1 * -1]%R 1 (NeuralTreeNet.tag_of i "-F"))
    as (n_false & Hinit_f & Hunit_f).
  exists n_th, n_false. cbv zeta.
  set (w1 := emitted w n_th (NeuralTreeNet.IntArray (range 0 mf))).
  assert (Hreg_th : registered w1 (length (NeuralTreeNet.heap w))
                               (NeuralTreeNet.size_ (NeuralTreeNet.self w)))
    by (apply registered_new, Hlen).
  assert (Hreg_th' : registered
                       (NeuralTreeNet.mk_world (NeuralTreeNet.heap w1 ++ [n_false])
                                               (NeuralTreeNet.self w1))
                       (length (NeuralTreeNet.heap w))
                       (NeuralTreeNet.size_ (NeuralTreeNet.self w))).
  { destruct Hreg_th as (n & r & a & Hn & Hid & Hr & Ha & Ho).
    exists n, r, a. simpl. split; [apply lookup_app_l_Some, Hn |]. tauto. }
  destruct (attr_of_registered _ _ _ Hreg_th') as (attr2 & Hattr2 & Hout2).
  split.
  - unfold NeuralTreeNet.visit, bind, lift.
    rewrite Hcl, Hcr. apply Z.eqb_neq in Hne. rewrite Hne. cbn [negb].
    unfold NeuralTreeNet.zeros. fold mf.
    destruct (mf <? 0)%Z eqn:Hneg; [lia |].
    rewrite Hf, Hcoef, Hth, Hinit_th, new_node_ok.
    rewrite (append_fresh w n_th _ _ _ _ _ Hunit_th)
      by (simpl; rewrite length_range; lia).
    fold w1. rewrite Hpred, Hinit_f, new_node_ok. cbv beta iota.
    replace (length (NeuralTreeNet.heap w1) - 1) with (length (NeuralTreeNet.heap w))
      in * by (simpl; rewrite length_app; simpl; lia).
    rewrite Hattr2. simpl rmap. unfold NeuralTreeNet.output_slot. rewrite Hout2.
    simpl rbind. cbv beta iota.
    rewrite (append_fresh w1 n_false _ _ _ _ _ Hunit_f) by reflexivity.
    unfold ret. repeat f_equal; simpl; rewrite ?length_app; simpl; lia.
  - destruct Hunit_f as (Hc & Ha & Ho & Hi). repeat split; try assumption.
    rewrite Hc. f_equal. repeat (f_equal; try lra).
Qed.

(** The run of the loop body at an internal node whose predecessor is a
    unit of the network. *)
Lemma visit_with_predecessor_run
      (tree : NeuralTreeNet.tree_t) (k : R) (output_class : list Z) (i : Z)
      (predecessor : gmap Z nat) (outputs : gmap Z (list nat))
      (w : NeuralTreeNet.world) (cl cr f : Z) (th : R) (pred : nat) (o1 : Z) :
  getitem (NeuralTreeNet.children_left tree) i = Ok cl ->
  getitem (NeuralTreeNet.children_right tree) i = Ok cr ->
  cl <> cr ->
  getitem (NeuralTreeNet.feature tree) i = Ok f ->
  (- NeuralTreeNet.max_features_ tree <= f < NeuralTreeNet.max_features_ tree)%Z ->
  getitem (NeuralTreeNet.threshold tree) i = Ok th ->
  predecessor !! i = Some pred ->
  registered w pred o1 ->
  length (NeuralTreeNet.nodes (NeuralTreeNet.self w))
  = length (NeuralTreeNet.nodes_attr (NeuralTreeNet.self w)) ->
  exists (n_th n_true n_false : NeuralTreeNode.t),
    let h0 := length (NeuralTreeNet.heap w) in
    let combined :=
      NeuralTreeNet.PyList [o1; NeuralTreeNet.size_ (NeuralTreeNet.self w)] in
    let w1 := emitted w n_th
                (NeuralTreeNet.IntArray (range 0 (NeuralTreeNet.max_features_ tree))) in
    NeuralTreeNet.visit tree k output_class i (predecessor, outputs) w
    = (Ok (<[cr := h0 + 2]> (<[cl := h0 + 1]> predecessor), outputs),
       emitted (emitted w1 n_true combined) n_false combined) /\
    is_unit n_true "sigmoid4" [1 * k; 1 * k]%R (- k * 1.5)%R (-1) /\
    is_unit n_false "sigmoid4" [k; - k]%R (- k * 0.25)%R (-1).
Proof.
  intros Hcl Hcr Hne Hf Hfr Hth Hpred Hreg Hlen.
  set (mf := NeuralTreeNet.max_features_ tree) in *.
  assert (Hmf : (0 < mf)%Z) by lia.
  destruct (setitem_in_range (replicate (Z.to_nat mf) 0%R) f (- k)%R)
    as (coef & Hcoef & Hcoef_len).
  { rewrite length_replicate. lia. }
  rewrite length_replicate in Hcoef_len.
  destruct (sigmoid4_unit_init special coef (k * th) (NeuralTreeNet.tag_of i "-th"))
    as (n_th & Hinit_th & Hunit_th & _).
  destruct (sigmoid4_unit_init special [1 * k; 1 * k]%R (- k * 1.5)
              (NeuralTreeNet.tag_of i "-T")) as (n_true & Hinit_t & Hunit_t & _).
  destruct (sigmoid4_unit_init special [k; - k]%R (- k * 0.25)
              (NeuralTreeNet.tag_of i "-F")) as (n_false & Hinit_f & Hunit_f & _).
  exists n_th, n_true, n_false. cbv zeta.
  set (w1 := emitted w n_th (NeuralTreeNet.IntArray (range 0 mf))).
  assert (Hreg1 : registered w1 pred o1) by (apply registered_emitted, Hreg).
  assert (Hreg_th : registered w1 (length (NeuralTreeNet.heap w))
                               (NeuralTreeNet.size_ (NeuralTreeNet.self w)))
    by (apply registered_new, Hlen).
  destruct (attr_of_registered _ _ _ Hreg1) as (attr1 & Hattr1 & Hout1).
  destruct (attr_of_registered _ _ _ Hreg_th) as (attr2 & Hattr2 & Hout2).
  split; [| split; assumption].
  unfold NeuralTreeNet.visit, bind, lift.
  rewrite Hcl, Hcr. apply Z.eqb_neq in Hne. rewrite Hne. cbn [negb].
  unfold NeuralTreeNet.zeros. fold mf.
  destruct (mf <? 0)%Z eqn:Hneg; [lia |].
  rewrite Hf, Hcoef, Hth, Hinit_th, new_node_ok.
  rewrite (append_fresh w n_th _ _ _ _ _ Hunit_th)
    by (simpl; rewrite length_range; lia).
  fold w1. rewrite Hpred, Hattr1, Hattr2, Hinit_t, new_node_ok.
  simpl rmap. unfold NeuralTreeNet.output_slot. rewrite Hout1, Hout2. simpl rbind.
  cbv beta iota.
  rewrite (append_fresh w1 n_true _ _ _ _ _ Hunit_t) by reflexivity.
  rewrite Hinit_f, new_node_ok. cbv beta iota.
  rewrite (append_fresh _ n_false _ _ _ _ _ Hunit_f) by reflexivity.
  unfold ret. repeat f_equal; simpl; rewrite ?length_app; simpl; lia.
Qed.

(** At a leaf the network is left as it is, and so is [predecessor]. *)
Lemma visit_leaf (tree : NeuralTreeNet.tree_t) (k : R) (output_class : list Z) (i : Z)
      (predecessor : gmap Z nat) (outputs : gmap Z (list nat))
      (w : NeuralTreeNet.world) (c : Z) :
  getitem (NeuralTreeNet.children_left tree) i = Ok c ->
  getitem (NeuralTreeNet.children_right tree) i = Ok c ->
  snd (NeuralTreeNet.visit tree k output_class i (predecessor, outputs) w) = w /\
  forall loc',
    fst (NeuralTreeNet.visit tree k output_class i (predecessor, outputs) w) = Ok loc' ->
    fst loc' = predecessor.
Proof.
  intros Hcl Hcr. unfold NeuralTreeNet.visit, bind, lift.
  rewrite Hcl, Hcr, Z.eqb_refl. cbn [negb].
  destruct (predecessor !! i) as [pred|].
  - destruct (getitem output_class i) as [cls|e]; simpl.
    + destruct (outputs !! cls) as [bucket|]; simpl.
      * split; [reflexivity |]. intros loc' [= <-]. reflexivity.
      * split; [reflexivity |]. discriminate.
    + split; [reflexivity |]. discriminate.
  - simpl. split; [reflexivity |]. intros loc' [= <-]. reflexivity.
Qed.

Lemma new_predecessors (w : NeuralTreeNet.world) (predecessor : gmap Z nat)
      (cl cr : Z) (p1 p2 : nat) (o1 o2 : Z) :
  (forall i p, predecessor !! i = Some p -> exists o, registered w p o) ->
  registered w p1 o1 ->
  registered w p2 o2 ->
  forall i p, (<[cr := p2]> (<[cl := p1]> predecessor)) !! i = Some p ->
              exists o, registered w p o.
Proof.
  intros Hold H1 H2 i p. rewrite lookup_insert. destruct (decide (cr = i)).
  - intros [= <-]. eauto.
  - rewrite lookup_insert. destruct (decide (cl = i)).
    + intros [= <-]. eauto.
    + apply Hold.
Qed.

(** The body of the loop keeps the invariant. *)
Lemma visit_invariant (tree : NeuralTreeNet.tree_t) (k : R) (output_class : list Z)
      (i : Z) (loc loc' : NeuralTreeNet.locals) (w w' : NeuralTreeNet.world) :
  node_ok tree i ->
  loop_invariant w (fst loc) ->
  NeuralTreeNet.visit tree k output_class i loc w = (Ok loc', w') ->
  loop_invariant w' (fst loc').
Proof.
  intros (cl & cr & f & th & Hcl & Hcr & Hf & Hth & Hfr) [Hlen Hreg] Hrun.
  destruct loc as [predecessor outputs]. simpl in Hreg.
  destruct (Z.eq_dec cl cr) as [-> | Hne].
  - destruct (visit_leaf tree k output_class i predecessor outputs w cr Hcl Hcr)
      as [Hw Hloc].
    rewrite Hrun in Hw, Hloc. simpl in Hw, Hloc. subst w'.
    rewrite (Hloc loc' eq_refl). split; assumption.
  - specialize (Hfr Hne).
    destruct (predecessor !! i) as [pred|] eqn:Hpred.
    + destruct (Hreg i pred Hpred) as (o1 & Ho1).
      destruct (visit_with_predecessor_run tree k output_class i predecessor outputs
                  w cl cr f th pred o1 Hcl Hcr Hne Hf Hfr Hth Hpred Ho1 Hlen)
        as (n_th & n_true & n_false & Hrun' & _).
      cbv zeta in Hrun'. rewrite Hrun' in Hrun. injection Hrun as <- <-.
      set (w1 := emitted w n_th _).
      set (w2 := emitted w1 n_true _).
      split; [do 3 apply emitted_lengths; exact Hlen |].
      cbn [fst].
      assert (Hlen1 : length (NeuralTreeNet.nodes (NeuralTreeNet.self w1))
                      = length (NeuralTreeNet.nodes_attr (NeuralTreeNet.self w1)))
        by (apply emitted_lengths, Hlen).
      assert (Hlen2 : length (NeuralTreeNet.nodes (NeuralTreeNet.self w2))
                      = length (NeuralTreeNet.nodes_attr (NeuralTreeNet.self w2)))
        by (apply emitted_lengths, Hlen1).
      eapply new_predecessors.
      * intros j p Hj. destruct (Hreg j p Hj) as (o & Ho). exists o.
        do 3 apply registered_emitted. exact Ho.
      * apply registered_emitted.
        pose proof (registered_new w1 n_true
                      (NeuralTreeNet.PyList [o1; NeuralTreeNet.size_ (NeuralTreeNet.self w)])
                      Hlen1) as H1.
        replace (length (NeuralTreeNet.heap w1)) with (length (NeuralTreeNet.heap w) + 1)
          in H1 by (simpl; rewrite length_app; reflexivity).
        exact H1.
      * pose proof (registered_new w2 n_false
                      (NeuralTreeNet.PyList [o1; NeuralTreeNet.size_ (NeuralTreeNet.self w)])
                      Hlen2) as H2.
        replace (length (NeuralTreeNet.heap w2)) with (length (NeuralTreeNet.heap w) + 2)
          in H2 by (simpl; rewrite !length_app; simpl; lia).
        exact H2.
    + destruct (visit_internal_node_without_predecessor tree k output_class i
                  predecessor outputs w cl cr f th Hcl Hcr Hne Hf Hfr Hth Hpred Hlen)
        as (n_th & n_false & Hrun' & _).
      cbv zeta in Hrun'. rewrite Hrun' in Hrun. injection Hrun as <- <-.
      set (w1 := emitted w n_th _).
      assert (Hlen1 : length (NeuralTreeNet.nodes (NeuralTreeNet.self w1))
                      = length (NeuralTreeNet.nodes_attr (NeuralTreeNet.self w1)))
        by (apply emitted_lengths, Hlen).
      split; [apply emitted_lengths, Hlen1 |].
      cbn [fst].
      eapply new_predecessors.
      * intros j p Hj. destruct (Hreg j p Hj) as (o & Ho). exists o.
        do 2 apply registered_emitted. exact Ho.
      * apply registered_emitted. apply (registered_new w n_th), Hlen.
      * pose proof (registered_new w1 n_false
                      (NeuralTreeNet.PyList [NeuralTreeNet.size_ (NeuralTreeNet.self w)])
                      Hlen1) as H2.
        replace (length (NeuralTreeNet.heap w1)) with (length (NeuralTreeNet.heap w) + 1)
          in H2 by (simpl; rewrite length_app; reflexivity).
        exact H2.
Qed.

(** The invariant holds whenever the loop has run over some nodes. *)
Lemma visit_all_invariant (tree : NeuralTreeNet.tree_t) (k : R) (output_class : list Z)
      (l : list Z) :
  Forall (node_ok tree) l ->
  forall (loc loc' : NeuralTreeNet.locals) (w w' : NeuralTreeNet.world),
    loop_invariant w (fst loc) ->
    NeuralTreeNet.visit_all tree k output_class l loc w = (Ok loc', w') ->
    loop_invariant w' (fst loc').
Proof.
  induction 1 as [|i l Hi _ IH]; intros loc loc' w w' Hinv Hrun.
  - injection Hrun as <- <-. exact Hinv.
  - cbn [NeuralTreeNet.visit_all] in Hrun. unfold bind in Hrun.
    destruct (NeuralTreeNet.visit tree k output_class i loc w) as [[loc1|e] w1] eqn:Hvisit;
      [| discriminate].
    apply (IH loc1 loc' w1 w'); [| exact Hrun].
    eapply visit_invariant; eauto.
Qed.

(** It holds when the loop starts: the network is empty and no
    predecessor is recorded. *)
Lemma loop_invariant_start (h : list NeuralTreeNode.t) (d : Z) :
  loop_invariant (NeuralTreeNet.mk_world h (empty_net d)) ∅.
Proof.
  split; [reflexivity |]. intros i p H. rewrite lookup_empty in H. discriminate.
Qed.

(** The invariant holds in every state the loop of [create_from_tree]
    reaches from the empty network. *)
Lemma loop_invariant_reached (tree : NeuralTreeNet.tree_t) (k : R) (output_class : list Z)
      (l : list Z) (h : list NeuralTreeNode.t) (d : Z) (outputs : gmap Z (list nat))
      (loc : NeuralTreeNet.locals) (w : NeuralTreeNet.world) :
  Forall (node_ok tree) l ->
  NeuralTreeNet.visit_all tree k output_class l (∅, outputs)
    (NeuralTreeNet.mk_world h (empty_net d)) = (Ok loc, w) ->
  loop_invariant w (fst loc).
Proof.
  intros Hl Hrun.
  eapply visit_all_invariant; [exact Hl | | exact Hrun].
  apply loop_invariant_start.
Qed.

(** One turn of the loop at an internal node [i] (its two children
    differ) whose predecessor [pred] is recorded and whose feature is a
    position of the input, in a state the loop can be in
    ([loop_invariant]): it creates the threshold unit and then exactly two
    more units, in this order: the AND-unit with weights [k, k] and bias
    [-1.5 k], and the DIFFERENCE-unit with weights [k, -k] and bias
    [-0.25 k]. Both use the steepened sigmoid and are appended on the
    output slot of the predecessor followed by the output slot of the
    threshold unit; the first becomes the predecessor of the left child,
    the second the predecessor of the right child. *)
Lemma visit_internal_node_with_predecessor :
  forall (tree : NeuralTreeNet.tree_t) (k : R) (output_class : list Z) (i : Z)
         (predecessor : gmap Z nat) (outputs : gmap Z (list nat))
         (w : NeuralTreeNet.world) (cl cr f : Z) (th : R) (pred : nat),
    getitem (NeuralTreeNet.children_left tree) i = Ok cl ->
    getitem (NeuralTreeNet.children_right tree) i = Ok cr ->
    cl <> cr ->
    getitem (NeuralTreeNet.feature tree) i = Ok f ->
    (- NeuralTreeNet.max_features_ tree <= f < NeuralTreeNet.max_features_ tree)%Z ->
    getitem (NeuralTreeNet.threshold tree) i = Ok th ->
    predecessor !! i = Some pred ->
    loop_invariant w predecessor ->
    exists (o1 : Z) (n_th n_true n_false : NeuralTreeNode.t),
      let h0 := length (NeuralTreeNet.heap w) in
      let n0 := Z.of_nat (length (NeuralTreeNet.nodes (NeuralTreeNet.self w))) in
      let slot_th := NeuralTreeNet.size_ (NeuralTreeNet.self w) in
      let combined := NeuralTreeNet.PyList [o1; slot_th] in
      let w1 := emitted w n_th
                  (NeuralTreeNet.IntArray (range 0 (NeuralTreeNet.max_features_ tree))) in
      let w' := emitted (emitted w1 n_true combined) n_false combined in
      let predecessor' := <[cr := h0 + 2]> (<[cl := h0 + 1]> predecessor) in
      registered w pred o1 /\
      NeuralTreeNet.visit tree k output_class i (predecessor, outputs) w
      = (Ok (predecessor', outputs), w') /\
      is_unit n_true "sigmoid4" [k; k]%R (-1.5 * k)%R (-1) /\
      is_unit n_false "sigmoid4" [k; - k]%R (-0.25 * k)%R (-1) /\
      predecessor' !! cl = Some (h0 + 1) /\
      predecessor' !! cr = Some (h0 + 2) /\
      NeuralTreeNet.heap w'
      = NeuralTreeNet.heap w
        ++ [NeuralTreeNode.set_nodeid n0 n_th;
            NeuralTreeNode.set_nodeid (n0 + 1) n_true;
            NeuralTreeNode.set_nodeid (n0 + 2) n_false] /\
      NeuralTreeNet.nodes (NeuralTreeNet.self w')
      = NeuralTreeNet.nodes (NeuralTreeNet.self w) ++ [h0; h0 + 1; h0 + 2] /\
      (NeuralTreeNet.indices ∘ NeuralTreeNet.inputs)
        <$> drop (length (NeuralTreeNet.nodes_attr (NeuralTreeNet.self w)) + 1)
                 (NeuralTreeNet.nodes_attr (NeuralTreeNet.self w'))
      = [[o1; slot_th]; [o1; slot_th]] /\
      NeuralTreeNet.output
        <$> drop (length (NeuralTreeNet.nodes_attr (NeuralTreeNet.self w)))
                 (NeuralTreeNet.nodes_attr (NeuralTreeNet.self w'))
      = [NeuralTreeNet.OInt slot_th; NeuralTreeNet.OInt (slot_th + 1);
         NeuralTreeNet.OInt (slot_th + 1 + 1)].
Proof.
  intros tree k output_class i predecessor outputs w cl cr f th pred
         Hcl Hcr Hne Hf Hfr Hth Hpred [Hlen Hreg].
  destruct (Hreg i pred Hpred) as (o1 & Ho1).
  destruct (visit_with_predecessor_run tree k output_class i predecessor outputs
              w cl cr f th pred o1 Hcl Hcr Hne Hf Hfr Hth Hpred Ho1 Hlen)
    as (n_th & n_true & n_false & Hrun & Hunit_t & Hunit_f).
  exists o1, n_th, n_true, n_false. cbv zeta.
  split; [exact Ho1 |].
  split; [exact Hrun |].
  split.
  { destruct Hunit_t as (Hc & Ha & Ho & Hi). repeat split; try assumption.
    rewrite Hc. f_equal. repeat (f_equal; try lra). }
  split.
  { destruct Hunit_f as (Hc & Ha & Ho & Hi). repeat split; try assumption.
    rewrite Hc. f_equal. repeat (f_equal; try lra). }
  split; [rewrite lookup_insert_ne by congruence; apply lookup_insert_eq |].
  split; [apply lookup_insert_eq |].
  split.
  { simpl. rewrite !length_app. simpl. rewrite <- !app_assoc. simpl.
    rewrite !Nat2Z.inj_add, <- !Z.add_assoc. reflexivity. }
  split.
  { simpl. rewrite !length_app. simpl. rewrite <- !app_assoc. simpl.
    rewrite <- !Nat.add_assoc. reflexivity. }
  split.
  { simpl. rewrite <- !app_assoc. simpl.
    rewrite drop_app_add. reflexivity. }
  simpl. rewrite <- !app_assoc. simpl.
  rewrite drop_app_length. reflexivity.
Qed.
End Visit.

Lemma stump_nodes_ok : Forall (node_ok stump) (range 0 (NeuralTreeNet.node_count stump)).
Proof.
  change (range 0 (NeuralTreeNet.node_count stump)) with [0; 1; 2]%Z.
  apply List.Forall_cons.
  { exists 1%Z, 2%Z, 0%Z, 0.5%R. do 4 (split; [reflexivity |]). intros _. simpl. lia. }
  apply List.Forall_cons.
  { exists (-1)%Z, (-1)%Z, (-2)%Z, (-2)%R. do 4 (split; [reflexivity |]).
    intros _. simpl. lia. }
  apply List.Forall_cons; [| apply List.Forall_nil].
  exists (-1)%Z, (-1)%Z, (-2)%Z, (-2)%R. do 4 (split; [reflexivity |]).
  intros _. simpl. lia.
Qed.

(** ** The flattened weights *)

Lemma deref_some (h : list NeuralTreeNode.t) (r : nat) (n : NeuralTreeNode.t) :
  h !! r = Some n -> deref h r = Ok n.
Proof. unfold deref. intros ->. reflexivity. Qed.

Lemma rbind_eq {A B : Type} (m : result A) (k : A -> result B) (a : A) :
  m = Ok a -> rbind m k = k a.
Proof. intros ->. reflexivity. Qed.

Lemma clip_nat (n p : nat) : p <= n -> clip n (Z.of_nat p) = p.
Proof. intros H. unfold clip. destruct (Z.of_nat p <? 0)%Z eqn:E; lia. Qed.

Lemma slice_exact {A : Type} (X : list A) (p s : nat) :
  p + s <= length X ->
  slice X (Z.of_nat p) (Z.of_nat p + Z.of_nat s) = take s (drop p X).
Proof.
  intros H. unfold slice. rewrite <- Nat2Z.inj_add.
  rewrite !clip_nat by lia. f_equal. lia.
Qed.

Lemma put_slice_exact (pre mid v : list R) :
  length v <= length mid ->
  put_slice (pre ++ mid) (Z.of_nat (length pre))
            (Z.of_nat (length pre) + Z.of_nat (length v)) v
  = Ok (pre ++ v ++ drop (length v) mid).
Proof.
  intros H. unfold put_slice. rewrite <- Nat2Z.inj_add.
  rewrite !clip_nat by (rewrite length_app; lia).
  replace (length pre + length v - length pre) with (length v) by lia.
  unfold fits. rewrite Nat.eqb_refl. simpl. rewrite spread_all.
  rewrite take_app_length. rewrite drop_app_add. reflexivity.
Qed.

Lemma shape0_total (h : list NeuralTreeNode.t) (net : NeuralTreeNet.t) :
  units_ok h (NeuralTreeNet.nodes net) ->
  NeuralTreeNet.shape0 h net = Ok (total_size h (NeuralTreeNet.nodes net)).
Proof.
  unfold NeuralTreeNet.shape0, total_size, units_ok.
  generalize (NeuralTreeNet.nodes net) as l. intros l Hok.
  assert (H : rmap (fun r => let* n := deref h r in Ok (size_of (NeuralTreeNode.coef n))) l
              = Ok (map (fun r => match h !! r with
                                  | Some n => size_of (NeuralTreeNode.coef n)
                                  | None => 0
                                  end) l)).
  { induction Hok as [|r l (n & Hn & _) _ IH]; [reflexivity |].
    cbn [rmap map]. unfold deref at 1. rewrite Hn. cbn [of_option rbind].
    rewrite IH. reflexivity. }
  rewrite H. reflexivity.
Qed.

Lemma total_size_flat (h : list NeuralTreeNode.t) (l : list nat) :
  units_ok h l -> length (flat_coefs h l) = total_size h l.
Proof.
  unfold flat_coefs, total_size.
  induction 1 as [|r l (n & Hn & Hw) _ IH]; simpl; [reflexivity |].
  rewrite length_app, Hn, IH. unfold well_shaped in Hw. rewrite Hw. reflexivity.
Qed.

Lemma training_weights_loop (h : list NeuralTreeNode.t) (l : list nat) :
  units_ok h l ->
  forall pre mid : list R,
    total_size h l <= length mid ->
    rfold (fun '(res, pos) r =>
             let* n := deref h r in
             let s := Z.of_nat (size_of (NeuralTreeNode.coef n)) in
             let* res := put_slice res pos (pos + s) (ravel (NeuralTreeNode.coef n)) in
             Ok (res, (pos + s)%Z))
          l (pre ++ mid, Z.of_nat (length pre))
    = Ok (pre ++ flat_coefs h l ++ drop (total_size h l) mid,
          Z.of_nat (length pre + total_size h l)).
Proof.
  induction 1 as [|r l (n & Hn & Hw) Hok IH]; intros pre mid Hlen.
  - simpl. rewrite Nat.add_0_r. reflexivity.
  - unfold total_size in Hlen. simpl in Hlen. rewrite Hn in Hlen.
    fold (total_size h l) in Hlen. unfold well_shaped in Hw.
    cbn [rfold]. rewrite (deref_some _ _ _ Hn). cbn [rbind].
    rewrite <- Hw. rewrite put_slice_exact by lia. cbn [rbind].
    replace (Z.of_nat (length pre) + Z.of_nat (length (ravel (NeuralTreeNode.coef n))))%Z
      with (Z.of_nat (length (pre ++ ravel (NeuralTreeNode.coef n))))
      by (rewrite length_app; lia).
    rewrite app_assoc. rewrite IH by (rewrite length_drop; lia).
    unfold flat_coefs, total_size. simpl. rewrite Hn.
    rewrite drop_drop, length_app, <- !app_assoc, Hw.
    do 2 f_equal. lia.
Qed.

(** The flattened weights are the coefficients of the units, in the
    order of [append]. *)
Lemma training_weights_flat (h : list NeuralTreeNode.t) (net : NeuralTreeNet.t) :
  units_ok h (NeuralTreeNet.nodes net) ->
  NeuralTreeNet.training_weights h net = Ok (flat_coefs h (NeuralTreeNet.nodes net)).
Proof.
  intros Hok. unfold NeuralTreeNet.training_weights.
  rewrite (shape0_total h net Hok). cbn [rbind].
  assert (Hloop := training_weights_loop h _ Hok []
                     (replicate (total_size h (NeuralTreeNet.nodes net)) 0%R)).
  rewrite length_replicate in Hloop. specialize (Hloop (Nat.le_refl _)).
  rewrite (rbind_eq _ _ _ Hloop).
  rewrite drop_ge by (rewrite length_replicate; lia).
  rewrite app_nil_r. reflexivity.
Qed.

Lemma length_chunks (k nc : nat) (X : list R) : length (chunks k nc X) = k.
Proof.
  revert X. induction k as [|k IH]; intros X; simpl; [reflexivity |].
  rewrite IH. reflexivity.
Qed.

Lemma concat_chunks (k nc : nat) (X : list R) :
  length X = k * nc -> concat (chunks k nc X) = X.
Proof.
  revert X. induction k as [|k IH]; intros X HX; simpl.
  - destruct X; [reflexivity | discriminate].
  - rewrite IH by (rewrite length_drop; lia). apply take_drop.
Qed.

Lemma reshape_like_ok (a : ndarray) (X : list R) :
  length X = size_of a ->
  exists c, reshape_like a X = Ok c /\ ravel c = X /\ size_of c = size_of a.
Proof.
  intros HX. unfold reshape_like.
  apply Nat.eqb_eq in HX as Hb. rewrite Hb. simpl negb. cbv iota.
  destruct a as [x|v|nc rows]; simpl in *.
  - exists (A0 (nth 0 X 0%R)). split; [reflexivity |]. split; [| reflexivity].
    destruct X as [|y [|z X]]; try discriminate. reflexivity.
  - exists (A1 X). split; [reflexivity |]. split; [reflexivity | exact HX].
  - exists (A2 nc (chunks (length rows) nc X)). split; [reflexivity |].
    split; [apply concat_chunks, HX | simpl; rewrite length_chunks; reflexivity].
Qed.

Lemma total_size_agree (h h' : list NeuralTreeNode.t) (l : list nat) :
  (forall r, r ∈ l -> h' !! r = h !! r) -> total_size h' l = total_size h l.
Proof.
  unfold total_size. induction l as [|r l IH]; intros H; simpl; [reflexivity |].
  rewrite H by left. rewrite IH; [reflexivity |].
  intros r' Hr'. apply H. right. exact Hr'.
Qed.

Lemma flat_coefs_agree (h h' : list NeuralTreeNode.t) (l : list nat) :
  (forall r, r ∈ l -> h' !! r = h !! r) -> flat_coefs h' l = flat_coefs h l.
Proof.
  unfold flat_coefs. induction l as [|r l IH]; intros H; simpl; [reflexivity |].
  rewrite H by left. rewrite IH; [reflexivity |].
  intros r' Hr'. apply H. right. exact Hr'.
Qed.

Lemma write_coef_lookup (array_of : NeuralTreeNet.arrays) (r r' : nat) (c : ndarray)
      (h : list NeuralTreeNode.t) :
  imap (fun r' n' => if array_of r' =? array_of r
                     then NeuralTreeNode.set_coef c n' else n') h !! r'
  = (fun n' => if array_of r' =? array_of r then NeuralTreeNode.set_coef c n' else n')
      <$> h !! r'.
Proof. apply list_lookup_imap. Qed.

Lemma update_loop_replace (array_of : NeuralTreeNet.arrays) (X : list R)
      (net : NeuralTreeNet.t) (l : list nat) :
  NoDup (array_of <$> l) ->
  forall (p : nat) (h : list NeuralTreeNode.t),
    Forall (fun r => is_Some (h !! r)) l ->
    p + total_size h l <= length X ->
    exists h',
      NeuralTreeNet.update_loop array_of X false l (Z.of_nat p)
        (NeuralTreeNet.mk_world h net)
      = (Ok tt, NeuralTreeNet.mk_world h' net) /\
      (forall r, array_of r ∉ array_of <$> l -> h' !! r = h !! r) /\
      units_ok h' l /\
      total_size h' l = total_size h l /\
      flat_coefs h' l = take (total_size h l) (drop p X).
Proof.
  induction l as [|r l IH]; intros Hnd p h Hex Hlen.
  - exists h. split; [reflexivity |]. split; [reflexivity |].
    split; [constructor |]. split; reflexivity.
  - rewrite fmap_cons in Hnd. apply NoDup_cons in Hnd as [Hr Hnd].
    inversion Hex as [|? ? [n Hn] Hex']; subst.
    unfold total_size in Hlen. simpl in Hlen. rewrite Hn in Hlen.
    fold (total_size h l) in Hlen.
    set (s := size_of (NeuralTreeNode.coef n)) in *.
    destruct (reshape_like_ok (NeuralTreeNode.coef n) (take s (drop p X)))
      as (c & Hc & Hravel & Hsize).
    { rewrite length_take, length_drop. fold s. lia. }
    set (h1 := imap (fun r' n' => if array_of r' =? array_of r
                                  then NeuralTreeNode.set_coef c n' else n') h).
    assert (Hother : forall r', array_of r' <> array_of r -> h1 !! r' = h !! r').
    { intros r' Hr'. unfold h1. rewrite write_coef_lookup.
      apply Nat.eqb_neq in Hr'. rewrite Hr'. destruct (h !! r'); reflexivity. }
    assert (Hsame : forall r', r' ∈ l -> h1 !! r' = h !! r').
    { intros r' Hr'. apply Hother. intros Heq. apply Hr.
      rewrite <- Heq. apply list_elem_of_fmap. exists r'. split; [reflexivity | exact Hr']. }
    assert (Hself : h1 !! r = Some (NeuralTreeNode.set_coef c n)).
    { unfold h1. rewrite write_coef_lookup, Hn, Nat.eqb_refl. reflexivity. }
    destruct (IH Hnd (p + s) h1) as (h' & Hrun & Hout & Hok & Htot & Hflat).
    { apply Forall_forall. intros r' Hr'. rewrite (Hsame r' Hr').
      rewrite Forall_forall in Hex'. apply Hex', Hr'. }
    { rewrite (total_size_agree h h1 l Hsame). lia. }
    assert (Hr' : h' !! r = Some (NeuralTreeNode.set_coef c n)).
    { rewrite (Hout r Hr). exact Hself. }
    exists h'. split.
    { cbn [NeuralTreeNet.update_loop]. unfold bind, NeuralTreeNet.read, lift.
      cbn [NeuralTreeNet.heap]. rewrite (deref_some _ _ _ Hn).
      fold s. rewrite slice_exact by lia.
      unfold NeuralTreeNode.updated_coef. cbn [ravel]. rewrite Hc. cbn [rbind].
      unfold NeuralTreeNet.write_coef, modify.
      cbn [NeuralTreeNet.heap NeuralTreeNet.self].
      fold h1. rewrite <- Nat2Z.inj_add. exact Hrun. }
    split.
    { intros r' Hnot. rewrite fmap_cons in Hnot. apply not_elem_of_cons in Hnot as [Hne Hnot].
      rewrite (Hout r' Hnot). apply Hother, Hne. }
    split.
    { constructor; [| exact Hok]. exists (NeuralTreeNode.set_coef c n).
      split; [exact Hr' |]. unfold well_shaped. simpl.
      rewrite Hravel, Hsize, length_take, length_drop. fold s. lia. }
    split.
    { unfold total_size. simpl. rewrite Hr', Hn. simpl. rewrite Hsize.
      fold (total_size h' l) (total_size h l).
      rewrite Htot, (total_size_agree h h1 l Hsame). reflexivity. }
    unfold flat_coefs, total_size. simpl. rewrite Hr', Hn. simpl.
    fold (flat_coefs h' l) (total_size h l). rewrite Hflat, Hravel.
    rewrite (total_size_agree h h1 l Hsame). fold s.
    rewrite <- drop_drop. apply take_take_drop.
Qed.

Lemma units_exist (h : list NeuralTreeNode.t) (l : list nat) :
  units_ok h l -> Forall (fun r => is_Some (h !! r)) l.
Proof.
  intros H. eapply Forall_impl; [exact H |].
  simpl. intros r (n & Hn & _). exists n. exact Hn.
Qed.

(** C5, as stated, fails when a unit or a coefficient array is shared.
    In the network that holds one unit twice, the six weights written are
    not the six weights read back, since both entries of the network are
    the one unit that the second slice has overwritten. The same happens in
    a network of two distinct units that hold one coefficient array, the
    second having received the state of the first: the second slice
    overwrites the array of both; when the two units hold an array each,
    the six weights are read back. *)
Lemma roundtrip_counterexample :
  NeuralTreeNet.nodes (NeuralTreeNet.self shared_world) = [0; 0] /\
  NeuralTreeNet.shape0 (NeuralTreeNet.heap shared_world)
    (NeuralTreeNet.self shared_world) = Ok 6 /\
  fst (NeuralTreeNet.update_training_weights (fun r => r) [1; 2; 3; 4; 5; 6]%R false
         shared_world)
  = Ok tt /\
  (let w' := snd (NeuralTreeNet.update_training_weights (fun r => r)
                    [1; 2; 3; 4; 5; 6]%R false shared_world) in
   NeuralTreeNet.training_weights (NeuralTreeNet.heap w') (NeuralTreeNet.self w')
   = Ok [4; 5; 6; 4; 5; 6]%R /\
   NeuralTreeNet.training_weights (NeuralTreeNet.heap w') (NeuralTreeNet.self w')
   <> Ok [1; 2; 3; 4; 5; 6]%R) /\
  NeuralTreeNet.nodes (NeuralTreeNet.self twin_world) = [0; 1] /\
  NeuralTreeNet.shape0 (NeuralTreeNet.heap twin_world)
    (NeuralTreeNet.self twin_world) = Ok 6 /\
  fst (NeuralTreeNet.update_training_weights (fun _ => 0) [1; 2; 3; 4; 5; 6]%R false
         twin_world)
  = Ok tt /\
  (let w' := snd (NeuralTreeNet.update_training_weights (fun _ => 0)
                    [1; 2; 3; 4; 5; 6]%R false twin_world) in
   NeuralTreeNet.training_weights (NeuralTreeNet.heap w') (NeuralTreeNet.self w')
   = Ok [4; 5; 6; 4; 5; 6]%R /\
   NeuralTreeNet.training_weights (NeuralTreeNet.heap w') (NeuralTreeNet.self w')
   <> Ok [1; 2; 3; 4; 5; 6]%R) /\
  (let w' := snd (NeuralTreeNet.update_training_weights (fun r => r)
                    [1; 2; 3; 4; 5; 6]%R false twin_world) in
   NeuralTreeNet.training_weights (NeuralTreeNet.heap w') (NeuralTreeNet.self w')
   = Ok [1; 2; 3; 4; 5; 6]%R).
Proof.
  split; [reflexivity |]. split; [reflexivity |]. split; [reflexivity |].
  cbv zeta.
  assert (H : NeuralTreeNet.training_weights
                (NeuralTreeNet.heap
                   (snd (NeuralTreeNet.update_training_weights (fun r => r)
                           [1; 2; 3; 4; 5; 6]%R false shared_world)))
                (NeuralTreeNet.self
                   (snd (NeuralTreeNet.update_training_weights (fun r => r)
                           [1; 2; 3; 4; 5; 6]%R false shared_world)))
              = Ok [4; 5; 6; 4; 5; 6]%R) by reflexivity.
  assert (H' : NeuralTreeNet.training_weights
                 (NeuralTreeNet.heap
                    (snd (NeuralTreeNet.update_training_weights (fun _ => 0)
                            [1; 2; 3; 4; 5; 6]%R false twin_world)))
                 (NeuralTreeNet.self
                    (snd (NeuralTreeNet.update_training_weights (fun _ => 0)
                            [1; 2; 3; 4; 5; 6]%R false twin_world)))
               = Ok [4; 5; 6; 4; 5; 6]%R) by reflexivity.
  split; [split; [exact H |]; rewrite H; intros [= Habs]; lra |].
  split; [reflexivity |]. split; [reflexivity |]. split; [reflexivity |].
  split; [split; [exact H' |]; rewrite H'; intros [= Habs]; lra |].
  reflexivity.
Qed.

(** C5, amended. In a network whose units exist, with coefficient arrays
    that hold as many values as their shapes announce, [training_weights]
    has as many entries as the sum of the coefficient sizes of the appended
    units; if moreover the appended units hold pairwise distinct coefficient
    arrays (no unit is appended twice and no array is held by two of them),
    then for every vector [v] of that length
    [update_training_weights(v, add=False)] succeeds and [training_weights]
    then returns [v]. *)
Theorem training_weights_roundtrip :
  forall (array_of : NeuralTreeNet.arrays) (w : NeuralTreeNet.world),
    units_ok (NeuralTreeNet.heap w) (NeuralTreeNet.nodes (NeuralTreeNet.self w)) ->
    (exists tw,
        NeuralTreeNet.training_weights (NeuralTreeNet.heap w) (NeuralTreeNet.self w) = Ok tw /\
        NeuralTreeNet.shape0 (NeuralTreeNet.heap w) (NeuralTreeNet.self w) = Ok (length tw)) /\
    (forall v : list R,
        NoDup (array_of <$> NeuralTreeNet.nodes (NeuralTreeNet.self w)) ->
        NeuralTreeNet.shape0 (NeuralTreeNet.heap w) (NeuralTreeNet.self w) = Ok (length v) ->
        exists w',
          NeuralTreeNet.update_training_weights array_of v false w = (Ok tt, w') /\
          NeuralTreeNet.training_weights (NeuralTreeNet.heap w') (NeuralTreeNet.self w') = Ok v).
Proof.
  intros array_of [h net] Hok. simpl in *. split.
  - exists (flat_coefs h (NeuralTreeNet.nodes net)).
    split; [apply training_weights_flat, Hok |].
    rewrite (shape0_total h net Hok), (total_size_flat h _ Hok). reflexivity.
  - intros v Hnd Hshape. rewrite (shape0_total h net Hok) in Hshape.
    injection Hshape as Hshape.
    destruct (update_loop_replace array_of v net (NeuralTreeNet.nodes net) Hnd 0 h)
      as (h' & Hrun & _ & Hok' & _ & Hflat).
    { apply units_exist, Hok. }
    { lia. }
    exists (NeuralTreeNet.mk_world h' net). split.
    + unfold NeuralTreeNet.update_training_weights, bind, gets. exact Hrun.
    + simpl. rewrite (training_weights_flat h' net Hok'), Hflat, Hshape.
      rewrite drop_0, firstn_all. reflexivity.
Qed.

Lemma training_weights_roundtrip_witness :
  exists w',
    NeuralTreeNet.update_training_weights (fun r => r) [7; 8; 9]%R false passthrough_world
    = (Ok tt, w') /\
    NeuralTreeNet.training_weights (NeuralTreeNet.heap w') (NeuralTreeNet.self w')
    = Ok [7; 8; 9]%R.
Proof.
  assert (Hok : units_ok (NeuralTreeNet.heap passthrough_world)
                         (NeuralTreeNet.nodes (NeuralTreeNet.self passthrough_world))).
  { constructor; [| constructor]. eexists. split; reflexivity. }
  apply (proj2 (training_weights_roundtrip (fun r => r) passthrough_world Hok) [7; 8; 9]%R).
  - apply NoDup_singleton.
  - reflexivity.
Defined.

(** ** The loss tables *)

Lemma unknown_loss (special : Special) (s : string) :
  ~ In s known_kinds ->
  NeuralTreeNode.get_activation_loss_function s = Raise (UnknownActivationLoss s) /\
  NeuralTreeNode.get_activation_dloss_function s = Raise (UnknownActivationLoss s).
Proof.
  intros Hs. unfold NeuralTreeNode.get_activation_loss_function,
    NeuralTreeNode.get_activation_dloss_function, NeuralTreeNode.logistic_names. simpl.
  rewrite !(eqb_known s) by (assumption || (simpl; tauto)).
  split; reflexivity.
Qed.

(** X1. The two loss tables accept the nine names the activation tables
    accept and no other, so that the constructor, given a vector of weights
    and a bias, succeeds exactly on these names. *)
Theorem loss_lookup_known_or_error (special : Special) (s : string) :
  (In s known_kinds ->
     is_ok (NeuralTreeNode.get_activation_loss_function s) /\
     is_ok (NeuralTreeNode.get_activation_dloss_function s) /\
     forall draws ws b nodeid tag,
       is_ok (NeuralTreeNode.__init__ draws (NeuralTreeNode.WList ws)
                (Some (NeuralTreeNode.BScalar b)) s nodeid tag)) /\
  (~ In s known_kinds ->
     NeuralTreeNode.get_activation_loss_function s = Raise (UnknownActivationLoss s) /\
     NeuralTreeNode.get_activation_dloss_function s = Raise (UnknownActivationLoss s)).
Proof.
  split; [| apply unknown_loss].
  simpl. intros H.
  repeat (destruct H as [<- | H]; [repeat split |]).
  contradiction.
Qed.

(** ** [numpy.vectorize] and the rectifiers *)

Section Rectifiers.
Local Open Scope R_scope.

Lemma relu_float (x : R) : as_float (NeuralTreeNode._relu x) = Rmax 0 x.
Proof.
  unfold NeuralTreeNode._relu, Rmax. simpl.
  destruct (Rlt_dec 0 x), (Rle_dec 0 x); simpl; lra.
Qed.

Lemma int_of_float_floor (x : R) :
  0 <= x -> IZR (int_of_float x) <= x < IZR (int_of_float x) + 1.
Proof.
  intros Hx. unfold int_of_float. destruct (Rle_dec 0 x); [| contradiction].
  pose proof (base_Int_part x). lra.
Qed.

Lemma int_of_float_small : int_of_float 0.01 = 0%Z.
Proof.
  unfold int_of_float. destruct (Rle_dec 0 0.01); [| lra].
  symmetry. apply Int_part_spec. simpl. lra.
Qed.

Lemma truncate_small : truncate 0.01 = Ok 0%Z.
Proof. unfold truncate. rewrite int_of_float_small. reflexivity. Qed.

Lemma to_int64_fits (z : Z) :
  (- 2 ^ 63 <= z < 2 ^ 63)%Z -> to_int64 z = Ok z.
Proof.
  intros [Hl Hu]. unfold to_int64.
  apply Z.leb_le in Hl. apply Z.ltb_lt in Hu. rewrite Hl, Hu. reflexivity.
Qed.

(** A float from 0 to [2 ** 63] excluded has an integer part in [int64]. *)
Lemma truncate_fits (x : R) :
  0 <= x < IZR (2 ^ 63) -> truncate x = Ok (int_of_float x).
Proof.
  intros [Hl Hu]. unfold truncate. apply to_int64_fits.
  pose proof (int_of_float_floor x Hl) as [Hf1 Hf2].
  assert (H0 : (0 < int_of_float x + 1)%Z).
  { apply lt_IZR. rewrite plus_IZR. lra. }
  split; [lia |]. apply lt_IZR. lra.
Qed.

(** A float from [2 ** 63] on has none. *)
Lemma truncate_overflow (x : R) :
  IZR (2 ^ 63) <= x -> truncate x = Raise OverflowError.
Proof.
  intros Hx.
  assert (H0 : 0 <= x) by (apply Rle_trans with (IZR (2 ^ 63)); [apply IZR_le; lia | exact Hx]).
  pose proof (int_of_float_floor x H0) as [Hf1 Hf2].
  assert (Hz : (2 ^ 63 <= int_of_float x)%Z).
  { apply Z.lt_succ_r. apply lt_IZR. rewrite succ_IZR. lra. }
  unfold truncate, to_int64.
  apply Z.ltb_ge in Hz. rewrite Hz, andb_false_r. reflexivity.
Qed.

Lemma rmap_pointwise {A B : Type} (f : A -> result B) (g : A -> B) (l : list A) :
  (forall x, In x l -> f x = Ok (g x)) -> rmap f l = Ok (map g l).
Proof.
  induction l as [|a l IH]; intros H; simpl; [reflexivity |].
  rewrite (H a) by (left; reflexivity). simpl.
  rewrite IH by (intros x Hx; apply H; right; exact Hx). reflexivity.
Qed.

Lemma rmap_first_failure {A B : Type} (f : A -> result B) (e : exn) (l : list A) :
  (forall x, In x l -> f x = Raise e \/ exists y, f x = Ok y) ->
  Exists (fun x => f x = Raise e) l -> rmap f l = Raise e.
Proof.
  induction l as [|a l IH]; intros H Hex; [inversion Hex |].
  simpl. destruct (H a (or_introl eq_refl)) as [-> | [y Hy]]; [reflexivity |].
  rewrite Hy. simpl. rewrite IH; [reflexivity | |].
  - intros x Hx. apply H. right. exact Hx.
  - inversion Hex as [? ? Ha | ? ? Hl]; subst; [congruence | exact Hl].
Qed.

(** [vectorize] with an integer at the first entry, when every entry
    converts. *)
Lemma vectorize_integers (f : R -> pyscalar) (g : R -> R) (x0 : R) (v : list R) :
  (exists z, f x0 = PyInt z) ->
  (forall x, as_int (f x) = Ok (g x)) ->
  vectorize f (A1 (x0 :: v)) = Ok (A1 (map g (x0 :: v))).
Proof.
  intros [z Hz] Hg. unfold vectorize. cbn [ravel]. rewrite Hz.
  unfold amap_result. rewrite (rmap_pointwise _ g) by (intros x _; apply Hg).
  reflexivity.
Qed.

(** X2. [relu] is [numpy.vectorize(_relu)], and [_relu] returns its float
    argument or the integer 0: the type of the result array is the type
    returned at the first entry. On a vector whose first entry is positive
    the result is the positive part of each entry. On a vector whose first
    entry is not positive the result is an array of 64-bit integers: when
    every entry is below [2 ** 63] each positive entry is cut down to the
    integer below it, and when an entry reaches [2 ** 63] the call raises
    an overflow error. A vector without entries is refused. *)
Theorem relu_dtype_follows_first_entry :
  exists relu : act_fn,
    NeuralTreeNode.get_activation_function "relu" = Ok relu /\
    forall (x0 : R) (v : list R),
      (0 < x0 -> relu (A1 (x0 :: v)) = Ok (A1 (map (Rmax 0) (x0 :: v)))) /\
      (x0 <= 0 ->
       (Forall (fun x => x < IZR (2 ^ 63)) v ->
        exists ys, relu (A1 (x0 :: v)) = Ok (A1 ys) /\
                   Forall2 (fun x y => (x <= 0 -> y = 0) /\
                                       (0 < x -> exists z : Z, y = IZR z /\ IZR z <= x < IZR z + 1))
                           (x0 :: v) ys) /\
       (Exists (fun x => IZR (2 ^ 63) <= x) v ->
        relu (A1 (x0 :: v)) = Raise OverflowError)) /\
      relu (A1 []) = Raise NumpyValueError.
Proof.
  exists (vectorize NeuralTreeNode._relu). split; [reflexivity |].
  intros x0 v. split; [| split; [| reflexivity]].
  - intros H0. unfold vectorize. cbn [ravel].
    unfold NeuralTreeNode._relu at 1. destruct (Rlt_dec 0 x0); [| contradiction].
    cbn [amap]. do 2 f_equal. apply map_ext. intros x. apply relu_float.
  - intros H0.
    assert (Hint : forall x, x <= 0 ->
              as_int (NeuralTreeNode._relu x) = Ok 0).
    { intros x Hx. unfold NeuralTreeNode._relu.
      destruct (Rlt_dec 0 x); [lra | reflexivity]. }
    assert (Hpos : forall x, 0 < x -> x < IZR (2 ^ 63) ->
              as_int (NeuralTreeNode._relu x) = Ok (IZR (int_of_float x))).
    { intros x Hx Hb. unfold NeuralTreeNode._relu.
      destruct (Rlt_dec 0 x); [| contradiction]. cbn [as_int].
      rewrite truncate_fits by lra. reflexivity. }
    assert (Hbig : forall x, IZR (2 ^ 63) <= x ->
              as_int (NeuralTreeNode._relu x) = Raise OverflowError).
    { intros x Hx.
      assert (0 < x) by (apply Rlt_le_trans with (IZR (2 ^ 63)); [apply IZR_lt; lia | exact Hx]).
      unfold NeuralTreeNode._relu.
      destruct (Rlt_dec 0 x); [| contradiction]. cbn [as_int].
      rewrite truncate_overflow by exact Hx. reflexivity. }
    assert (Hhead : vectorize NeuralTreeNode._relu (A1 (x0 :: v))
                    = let* w := rmap (fun x => as_int (NeuralTreeNode._relu x)) (x0 :: v) in
                      Ok (A1 w)).
    { unfold vectorize. cbn [ravel].
      unfold NeuralTreeNode._relu at 1. destruct (Rlt_dec 0 x0); [lra |]. reflexivity. }
    rewrite Hhead. split.
    + intros Hall.
      set (g := fun x => if Rlt_dec 0 x then IZR (int_of_float x) else 0).
      rewrite (rmap_pointwise _ g).
      * eexists. split; [reflexivity |].
        apply Forall2_fmap_r, Forall_Forall2_diag, Forall_forall. intros x _.
        unfold compose, g. destruct (Rlt_dec 0 x).
        -- split; [lra |]. intros _. exists (int_of_float x). split; [reflexivity |].
           apply int_of_float_floor. lra.
        -- split; [reflexivity | lra].
      * intros x Hx. unfold g. destruct (Rlt_dec 0 x) as [Hp | Hn].
        -- apply Hpos; [exact Hp |]. destruct Hx as [<- | Hx]; [lra |].
           rewrite Forall_forall in Hall. apply Hall. apply list_elem_of_In. exact Hx.
        -- apply Hint. lra.
    + intros Hex.
      rewrite (rmap_first_failure _ OverflowError); [reflexivity | |].
      * intros x _. destruct (Rlt_dec 0 x) as [Hp | Hn].
        -- destruct (Rlt_dec x (IZR (2 ^ 63))) as [Hb | Hb].
           ++ right. eexists. apply Hpos; assumption.
           ++ left. apply Hbig. lra.
        -- right. eexists. apply Hint. lra.
      * apply Exists_cons_tl. eapply Exists_impl; [exact Hex |].
        intros x Hx. apply Hbig. exact Hx.
Qed.

(** X3. The gradient of [leakyrelu] is [numpy.vectorize(_dleakyrelu)], and
    [_dleakyrelu] returns the integer 1 or the float 0.01. On a vector whose
    first entry is positive the result is an array of integers, the slope
    0.01 of the entries that are not positive becomes 0, and the gradient
    is the one of [relu]; on a vector whose first entry is not positive the
    slopes are 1 and 0.01. *)
Theorem leakyrelu_gradient_on_vectors :
  exists dleaky drelu : act_fn,
    NeuralTreeNode.get_activation_gradient_function "leakyrelu" = Ok dleaky /\
    NeuralTreeNode.get_activation_gradient_function "relu" = Ok drelu /\
    forall (x0 : R) (v : list R),
      (0 < x0 ->
       dleaky (A1 (x0 :: v)) = drelu (A1 (x0 :: v)) /\
       dleaky (A1 (x0 :: v))
       = Ok (A1 (map (fun x => if Rlt_dec 0 x then 1 else 0) (x0 :: v)))) /\
      (x0 <= 0 ->
       dleaky (A1 (x0 :: v))
       = Ok (A1 (map (fun x => if Rlt_dec 0 x then 1 else 0.01) (x0 :: v)))).
Proof.
  exists (vectorize NeuralTreeNode._dleakyrelu), (vectorize NeuralTreeNode._drelu).
  split; [reflexivity |]. split; [reflexivity |].
  intros x0 v. split.
  - intros H0.
    assert (Hl : vectorize NeuralTreeNode._dleakyrelu (A1 (x0 :: v))
                 = Ok (A1 (map (fun x => if Rlt_dec 0 x then 1 else 0) (x0 :: v)))).
    { apply vectorize_integers.
      - exists 1%Z. unfold NeuralTreeNode._dleakyrelu.
        destruct (Rlt_dec 0 x0); [reflexivity | contradiction].
      - intros x. unfold NeuralTreeNode._dleakyrelu.
        destruct (Rlt_dec 0 x); cbn [as_int]; [reflexivity |].
        rewrite truncate_small. reflexivity. }
    split; [| exact Hl]. rewrite Hl. symmetry.
    apply (vectorize_integers _ (fun x => if Rlt_dec 0 x then 1 else 0)).
    + exists 1%Z. unfold NeuralTreeNode._drelu.
      destruct (Rlt_dec 0 x0); [reflexivity | contradiction].
    + intros x. unfold NeuralTreeNode._drelu. destruct (Rlt_dec 0 x); reflexivity.
  - intros H0. unfold vectorize. cbn [ravel].
    unfold NeuralTreeNode._dleakyrelu at 1. destruct (Rlt_dec 0 x0); [lra |].
    cbn [amap]. do 2 f_equal. apply map_ext. intros x.
    unfold NeuralTreeNode._dleakyrelu. destruct (Rlt_dec 0 x); reflexivity.
Qed.

End Rectifiers.

(** ** Derivatives: the rectifiers and the losses *)

Section MoreDerivatives.
Local Open Scope R_scope.

Lemma relu_on_scalar (t : R) :
  on_scalar (vectorize NeuralTreeNode._relu) t = (if Rlt_dec 0 t then t else 0).
Proof.
  unfold on_scalar, vectorize, NeuralTreeNode._relu. simpl.
  destruct (Rlt_dec 0 t); reflexivity.
Qed.

Lemma drelu_on_scalar (t : R) :
  on_scalar (vectorize NeuralTreeNode._drelu) t = (if Rlt_dec 0 t then 1 else 0).
Proof.
  unfold on_scalar, vectorize, NeuralTreeNode._drelu. simpl.
  destruct (Rlt_dec 0 t); reflexivity.
Qed.

Lemma leakyrelu_on_scalar (t : R) :
  on_scalar (vectorize NeuralTreeNode._leakyrelu) t = (if Rlt_dec 0 t then t else t * 0.01).
Proof.
  unfold on_scalar, vectorize, NeuralTreeNode._leakyrelu. simpl.
  destruct (Rlt_dec 0 t); reflexivity.
Qed.

Lemma dleakyrelu_on_scalar (t : R) :
  on_scalar (vectorize NeuralTreeNode._dleakyrelu) t = (if Rlt_dec 0 t then 1 else 0.01).
Proof.
  unfold on_scalar, vectorize, NeuralTreeNode._dleakyrelu. simpl.
  destruct (Rlt_dec 0 t); reflexivity.
Qed.

Lemma linear_derivative (a b x : R) :
  derivable_pt_lim (fun t => t * a + b) x a.
Proof.
  assert (H : derivable_pt_lim (fun t => t * a + b) x (1 * a + x * 0 + 0)).
  { apply (derivable_pt_lim_plus (fun t => t * a) (fun _ => b)).
    - apply (derivable_pt_lim_mult id (fun _ => a)).
      + apply derivable_pt_lim_id.
      + apply derivable_pt_lim_const.
    - apply derivable_pt_lim_const. }
  replace (1 * a + x * 0 + 0) with a in H by ring. exact H.
Qed.

(** Away from 0 a function with two linear pieces has the slope of the
    piece. *)
Lemma two_pieces_derivative (f : R -> R) (a b x : R) :
  (forall t, f t = if Rlt_dec 0 t then t * a else t * b) ->
  x <> 0 ->
  derivable_pt_lim f x (if Rlt_dec 0 x then a else b).
Proof.
  intros Hf Hx. destruct (Rlt_dec 0 x) as [Hpos | Hneg].
  - apply (derivable_pt_lim_locally_ext (fun t => t * a + 0) f x 0 (x + 1)); [lra | |].
    + intros z Hz. rewrite Hf. destruct (Rlt_dec 0 z); lra.
    + apply linear_derivative.
  - apply (derivable_pt_lim_locally_ext (fun t => t * b + 0) f x (x - 1) 0); [lra | |].
    + intros z Hz. rewrite Hf. destruct (Rlt_dec 0 z); lra.
    + apply linear_derivative.
Qed.

(** X4. Read at a scalar, the registered gradient of the kinds [logistic],
    [expit], [sigmoid], [identity], [relu] and [leakyrelu] is the derivative
    of the registered forward function; for the two rectifiers, at every
    point but 0, where they have no derivative. *)
Theorem scalar_gradients_are_derivatives (kind : string) (x : R) :
  In kind ["logistic"; "expit"; "sigmoid"; "identity"; "relu"; "leakyrelu"]%string ->
  (In kind ["relu"; "leakyrelu"]%string -> x <> 0) ->
  exists f g : act_fn,
    NeuralTreeNode.get_activation_function kind = Ok f /\
    NeuralTreeNode.get_activation_gradient_function kind = Ok g /\
    derivable_pt_lim (on_scalar f) x (on_scalar g x).
Proof.
  intros Hk Hx. simpl in Hk.
  destruct Hk as [<- | [<- | [<- | [<- | [<- | [<- | []]]]]]].
  - apply logistic_gradient_is_derivative. simpl. tauto.
  - apply logistic_gradient_is_derivative. simpl. tauto.
  - apply logistic_gradient_is_derivative. simpl. tauto.
  - apply identity_gradient_is_derivative.
  - eexists _, _. split; [reflexivity |]. split; [reflexivity |].
    rewrite drelu_on_scalar.
    apply two_pieces_derivative; [| apply Hx; simpl; tauto].
    intros t. rewrite relu_on_scalar. destruct (Rlt_dec 0 t); ring.
  - eexists _, _. split; [reflexivity |]. split; [reflexivity |].
    rewrite dleakyrelu_on_scalar.
    apply two_pieces_derivative; [| apply Hx; simpl; tauto].
    intros t. rewrite leakyrelu_on_scalar. destruct (Rlt_dec 0 t); ring.
Qed.

Lemma scalar_gradients_witness :
  exists f g : act_fn,
    NeuralTreeNode.get_activation_function "leakyrelu" = Ok f /\
    NeuralTreeNode.get_activation_gradient_function "leakyrelu" = Ok g /\
    derivable_pt_lim (on_scalar f) (-1) (on_scalar g (-1)).
Proof.
  apply (scalar_gradients_are_derivatives "leakyrelu" (-1)).
  - simpl. tauto.
  - intros _. lra.
Defined.

Lemma square_derivative (y c x : R) :
  derivable_pt_lim (fun t => (t - y) ^ 2 + c) x ((x - y) * 2).
Proof.
  apply (derivable_pt_lim_ext (fun t => (t * t + (t * (- 2 * y) + (y * y + c))))).
  { intros z. ring. }
  replace ((x - y) * 2) with ((1 * x + x * 1) + (- 2 * y)) by ring.
  apply (derivable_pt_lim_plus (fun t => t * t) (fun t => t * (- 2 * y) + (y * y + c))).
  - apply (derivable_pt_lim_mult id id); apply derivable_pt_lim_id.
  - apply linear_derivative.
Qed.

Lemma dot_insert (ws : list R) (j : nat) (wj t : R) :
  ws !! j = Some wj ->
  dot (<[j := t]> ws) (<[j := t]> ws) = t * t + (dot ws ws - wj * wj).
Proof.
  revert j. induction ws as [|w ws IH]; intros [|j] Hj; simpl in Hj; try discriminate.
  - injection Hj as ->. unfold dot. simpl. ring.
  - unfold dot in *. simpl. rewrite (IH j Hj). ring.
Qed.

(** X5. For the seven kinds whose loss is a squared error, with or without
    the penalty on the weights, the function the table of loss derivatives
    gives for the prediction is the derivative of the loss in the
    prediction. *)
Theorem dlossds_is_derivative_of_loss (special : Special) (kind : string)
        (ws : list R) (x y : R) :
  In kind regression_kinds ->
  exists (l ds dw : loss_fn),
    NeuralTreeNode.get_activation_loss_function kind = Ok l /\
    NeuralTreeNode.get_activation_dloss_function kind = Ok (ds, dw) /\
    derivable_pt_lim (fun t => scalar_of (l (A1 ws) (A0 t) (A0 y))) x
                     (scalar_of (ds (A1 ws) (A0 x) (A0 y))).
Proof.
  intros Hk. simpl in Hk.
  destruct Hk as [<- | [<- | [<- | [<- | [<- | [<- | [<- | []]]]]]]];
    eexists _, _, _; (split; [reflexivity |]); (split; [reflexivity |]);
    cbn [scalar_of NeuralTreeNode.dregdx NeuralTreeNode.squared_error sub broadcast
         amap rbind matmul transpose add];
    rewrite ?Nat.eqb_refl; cbn [rbind amap broadcast];
    first [ apply (square_derivative y (dot ws ws * 0.01) x)
          | apply (derivable_pt_lim_ext (fun t => (t - y) ^ 2 + 0));
            [intros z; ring | apply square_derivative] ].
Qed.

Lemma dlossds_witness :
  exists (l ds dw : loss_fn),
    NeuralTreeNode.get_activation_loss_function (special := real_special) "sigmoid4" = Ok l /\
    NeuralTreeNode.get_activation_dloss_function (special := real_special) "sigmoid4"
    = Ok (ds, dw) /\
    derivable_pt_lim (fun t => scalar_of (l (A1 [1; 2]) (A0 t) (A0 1))) 3
                     (scalar_of (ds (A1 [1; 2]) (A0 3) (A0 1))).
Proof.
  apply (dlossds_is_derivative_of_loss real_special "sigmoid4" [1; 2] 3 1).
  simpl. tauto.
Defined.

(** X6. For the same kinds the function the table gives for the weights is
    the gradient of the loss in the weights: its entry [j] is the
    derivative of the loss in the weight [j], 0.02 times the weight where
    the loss has the penalty and 0 where it has none. *)
Theorem dlossdw_is_gradient_of_loss (special : Special) (kind : string)
        (ws : list R) (x y : R) (j : nat) (wj : R) :
  In kind regression_kinds ->
  ws !! j = Some wj ->
  exists (l ds dw : loss_fn),
    NeuralTreeNode.get_activation_loss_function kind = Ok l /\
    NeuralTreeNode.get_activation_dloss_function kind = Ok (ds, dw) /\
    derivable_pt_lim (fun t => scalar_of (l (A1 (<[j := t]> ws)) (A0 x) (A0 y))) wj
                     (entry_of (dw (A1 ws) (A0 x) (A0 y)) j) /\
    entry_of (dw (A1 ws) (A0 x) (A0 y)) j
    = (if existsb (String.eqb kind) ["identity"; "relu"; "leakyrelu"]%string
       then 0 else wj * 0.02).
Proof.
  intros Hk Hj. simpl in Hk.
  assert (Hnth : forall f : R -> R, nth j (map f ws) 0 = f wj).
  { intros f. apply nth_lookup_Some with (d := 0).
    rewrite list_lookup_fmap, Hj. reflexivity. }
  assert (Hpen : derivable_pt_lim
                   (fun t => (x - y) ^ 2 + dot (<[j := t]> ws) (<[j := t]> ws) * 0.01)
                   wj (wj * 0.02)).
  { apply (derivable_pt_lim_ext
             (fun t => (t * t) * 0.01 + ((x - y) ^ 2 + (dot ws ws - wj * wj) * 0.01))).
    { intros z. rewrite (dot_insert ws j wj z Hj). ring. }
    replace (wj * 0.02) with ((1 * wj + wj * 1) * 0.01 + (wj * wj) * 0 + 0) by lra.
    apply (derivable_pt_lim_plus (fun t => t * t * 0.01) (fun _ => _)).
    - apply (derivable_pt_lim_mult (fun t => t * t) (fun _ => 0.01)).
      + apply (derivable_pt_lim_mult id id); apply derivable_pt_lim_id.
      + apply derivable_pt_lim_const.
    - apply derivable_pt_lim_const. }
  destruct Hk as [<- | [<- | [<- | [<- | [<- | [<- | [<- | []]]]]]]];
    eexists _, _, _; (split; [reflexivity |]); (split; [reflexivity |]);
    cbn [scalar_of entry_of NeuralTreeNode.zeros_like NeuralTreeNode.squared_error
         sub broadcast amap rbind matmul transpose add existsb String.eqb Ascii.eqb
         Bool.eqb orb andb];
    rewrite Hnth; (split; [| reflexivity]);
    first [ apply derivable_pt_lim_const
          | refine (derivable_pt_lim_ext _ _ _ _ _ Hpen);
            intros z; rewrite Nat.eqb_refl; simpl; ring ].
Qed.

Lemma dlossdw_witness :
  exists (l ds dw : loss_fn),
    NeuralTreeNode.get_activation_loss_function (special := real_special) "sigmoid" = Ok l /\
    NeuralTreeNode.get_activation_dloss_function (special := real_special) "sigmoid"
    = Ok (ds, dw) /\
    derivable_pt_lim (fun t => scalar_of (l (A1 (<[1%nat := t]> [1; 2])) (A0 3) (A0 1))) 2
                     (entry_of (dw (A1 [1; 2]) (A0 3) (A0 1)) 1) /\
    entry_of (dw (A1 [1; 2]) (A0 3) (A0 1)) 1 = 2 * 0.02.
Proof.
  apply (dlossdw_is_gradient_of_loss real_special "sigmoid" [1; 2] 3 1 1%nat 2).
  - simpl. tauto.
  - reflexivity.
Defined.

(** X7. For the two softmax kinds the loss is the relative entropy of the
    prediction and the target, both shifted by [cst]; where the two shifted
    values are positive, so that [rel_entr] and [log] are finite, the
    function the table gives for the prediction,
    [log(x + cst) - log(y + cst) + 1], is the derivative of the loss in the
    prediction. *)
Theorem kl_dloss_is_derivative (kind : string) (w : ndarray) (x y : R) :
  In kind ["softmax"; "softmax4"]%string ->
  0 < x + cst ->
  0 < y + cst ->
  exists (l ds dw : loss_fn),
    NeuralTreeNode.get_activation_loss_function (special := real_special) kind = Ok l /\
    NeuralTreeNode.get_activation_dloss_function (special := real_special) kind
    = Ok (ds, dw) /\
    scalar_of (ds w (A0 x) (A0 y)) = ln (x + cst) - ln (y + cst) + 1 /\
    derivable_pt_lim (fun t => scalar_of (l w (A0 t) (A0 y))) x
                     (scalar_of (ds w (A0 x) (A0 y))).
Proof.
  intros Hk Hx Hy. simpl in Hk.
  assert (Hd : derivable_pt_lim
                 (fun t => (t + cst) * ln ((t + cst) / (y + cst))) x
                 (ln (x + cst) - ln (y + cst) + 1)).
  { apply (derivable_pt_lim_locally_ext
             (fun t => (t + cst) * (ln (t + cst) - ln (y + cst))) _ x (- cst) (x + 1));
      [lra | |].
    - intros z Hz. unfold Rdiv.
      rewrite ln_mult; [| lra | apply Rinv_0_lt_compat; exact Hy].
      rewrite ln_Rinv by exact Hy. reflexivity.
    - replace (ln (x + cst) - ln (y + cst) + 1)
        with (1 * (ln (x + cst) - ln (y + cst)) + (x + cst) * (/ (x + cst) * 1 - 0)).
      2:{ field. lra. }
      apply (derivable_pt_lim_mult (fun t => t + cst) (fun t => ln (t + cst) - ln (y + cst))).
      + apply (derivable_pt_lim_ext (fun t => t * 1 + cst)); [intros z; ring |].
        apply linear_derivative.
      + apply (derivable_pt_lim_minus (fun t => ln (t + cst)) (fun _ => ln (y + cst))).
        * apply (derivable_pt_lim_comp (fun t => t + cst) ln).
          -- apply (derivable_pt_lim_ext (fun t => t * 1 + cst)); [intros z; ring |].
             apply linear_derivative.
          -- apply derivable_pt_lim_ln. exact Hx.
        * apply derivable_pt_lim_const. }
  destruct Hk as [<- | [<- | []]];
    eexists _, _, _; (split; [reflexivity |]); (split; [reflexivity |]);
    (split; [reflexivity |]); exact Hd.
Qed.

Lemma kl_dloss_witness :
  exists (l ds dw : loss_fn),
    NeuralTreeNode.get_activation_loss_function (special := real_special) "softmax" = Ok l /\
    NeuralTreeNode.get_activation_dloss_function (special := real_special) "softmax"
    = Ok (ds, dw) /\
    scalar_of (ds (A1 []) (A0 1) (A0 1)) = ln (1 + cst) - ln (1 + cst) + 1 /\
    derivable_pt_lim (fun t => scalar_of (l (A1 []) (A0 t) (A0 1))) 1
                     (scalar_of (ds (A1 []) (A0 1) (A0 1))).
Proof.
  assert (Hc : 0 < cst).
  { unfold cst. apply Rinv_0_lt_compat. apply IZR_lt. reflexivity. }
  apply (kl_dloss_is_derivative "softmax" (A1 []) 1 1).
  - simpl. tauto.
  - lra.
  - lra.
Defined.

End MoreDerivatives.

(** ** Construction of a unit *)

(** X8. Given a vector of weights (an array or a list), a bias and one of
    the nine names, the constructor returns a unit with one output whose
    coefficients are the bias followed by the weights; [input_weights] and
    [bias] give the two arguments back, [ndim] is the number of weights and
    [training_weights] the coefficients. *)
Theorem init_vector_weights (special : Special) (draws : nat -> R) (ws : list R)
        (b : R) (act : string) (id : Z) (tag : option string) :
  In act known_kinds ->
  exists n : NeuralTreeNode.t,
    NeuralTreeNode.__init__ draws (NeuralTreeNode.WArray (A1 ws))
      (Some (NeuralTreeNode.BScalar b)) act id tag = Ok n /\
    NeuralTreeNode.__init__ draws (NeuralTreeNode.WList ws)
      (Some (NeuralTreeNode.BScalar b)) act id tag = Ok n /\
    is_unit n act ws b id /\
    NeuralTreeNode.tag n = tag /\
    NeuralTreeNode.input_weights n = Ok (A1 ws) /\
    NeuralTreeNode.bias n = Ok (A0 b) /\
    NeuralTreeNode.ndim n = Ok (Z.of_nat (length ws)) /\
    NeuralTreeNode.training_weights n = b :: ws.
Proof.
  simpl. intros H.
  repeat (destruct H as [<- | H];
          [eexists; repeat (split; [reflexivity |]);
           (split; [repeat split |]); repeat (split; [reflexivity |]);
           (split; [| reflexivity]);
           unfold NeuralTreeNode.ndim; cbn [NeuralTreeNode.coef shape length];
           f_equal; lia |]).
  contradiction.
Qed.

Lemma init_vector_weights_witness :
  exists n : NeuralTreeNode.t,
    NeuralTreeNode.__init__ (special := real_special) (fun _ => 0%R)
      (NeuralTreeNode.WArray (A1 [1; 2]%R))
      (Some (NeuralTreeNode.BScalar 3)) "relu" 0 None = Ok n /\
    NeuralTreeNode.__init__ (special := real_special) (fun _ => 0%R)
      (NeuralTreeNode.WList [1; 2]%R)
      (Some (NeuralTreeNode.BScalar 3)) "relu" 0 None = Ok n /\
    is_unit n "relu" [1; 2]%R 3 0 /\
    NeuralTreeNode.tag n = None /\
    NeuralTreeNode.input_weights n = Ok (A1 [1; 2]%R) /\
    NeuralTreeNode.bias n = Ok (A0 3) /\
    NeuralTreeNode.ndim n = Ok 2%Z /\
    NeuralTreeNode.training_weights n = [3; 1; 2]%R.
Proof.
  apply (init_vector_weights real_special (fun _ => 0%R) [1; 2]%R 3 "relu" 0 None).
  simpl. tauto.
Defined.

Lemma drop_zip_with_cons (bs : list R) (rows : list (list R)) :
  length bs = length rows -> map (drop 1) (zip_with cons bs rows) = rows.
Proof.
  revert rows. induction bs as [|b bs IH]; intros [|r rows] H; simpl in *;
    try discriminate; [reflexivity |].
  rewrite drop_0. f_equal. apply IH. lia.
Qed.

Lemma column_zip_with_cons (bs : list R) (rows : list (list R)) :
  length bs = length rows -> column (zip_with cons bs rows) 0 = bs.
Proof.
  unfold column.
  revert rows. induction bs as [|b bs IH]; intros [|r rows] H; simpl in *;
    try discriminate; [reflexivity |].
  f_equal. apply IH. lia.
Qed.

Lemma known_tables (special : Special) (act : string) :
  In act known_kinds ->
  exists f g l ds dw,
    NeuralTreeNode.get_activation_function act = Ok f /\
    NeuralTreeNode.get_activation_gradient_function act = Ok g /\
    NeuralTreeNode.get_activation_loss_function act = Ok l /\
    NeuralTreeNode.get_activation_dloss_function act = Ok (ds, dw).
Proof.
  simpl. intros H.
  repeat (destruct H as [<- | H]; [eexists _, _, _, _, _; repeat split |]).
  contradiction.
Qed.

(** X9. Given a matrix of weights with [r] rows, [r] other than 1, a
    vector of [r] biases and one of the nine names, the constructor returns
    a unit with [r] outputs whose coefficient matrix has the bias of each
    output in column 0, followed by its weights; [input_weights] and [bias]
    give the two arguments back. [ndim], documented as the input
    dimension, is [r - 1]. A matrix with a single row is refused, whatever
    the bias and the name. *)
Theorem init_matrix_weights (special : Special) (draws : nat -> R) (nc : nat)
        (rows : list (list R)) (bs : list R) (act : string) (id : Z)
        (tag : option string) :
  (In act known_kinds ->
   length bs = length rows ->
   length rows <> 1 ->
   exists n : NeuralTreeNode.t,
     NeuralTreeNode.__init__ draws (NeuralTreeNode.WArray (A2 nc rows))
       (Some (NeuralTreeNode.BArray bs)) act id tag = Ok n /\
     NeuralTreeNode.n_outputs n = Z.of_nat (length rows) /\
     NeuralTreeNode.coef n = A2 (S nc) (zip_with cons bs rows) /\
     NeuralTreeNode.input_weights n = Ok (A2 nc rows) /\
     NeuralTreeNode.bias n = Ok (A1 bs) /\
     NeuralTreeNode.ndim n = Ok (Z.of_nat (length rows) - 1)%Z /\
     NeuralTreeNode.nodeid n = id /\
     NeuralTreeNode.activation n = act) /\
  (forall (row : list R) (bias : option NeuralTreeNode.bias_arg) (name : string),
      NeuralTreeNode.__init__ draws (NeuralTreeNode.WArray (A2 nc [row]))
        bias name id tag = Raise UnsqueezedWeights).
Proof.
  split; [| reflexivity].
  intros Hact Hlen Hrows.
  destruct (known_tables special act Hact) as (f & g & l & ds & dw & Hf & Hg & Hl & Hd).
  exists (NeuralTreeNode.mk tag (Z.of_nat (length rows))
            (A2 (S nc) (zip_with cons bs rows)) act id f g l ds dw).
  split.
  { unfold NeuralTreeNode.__init__. cbn [NeuralTreeNode.weights_array rbind].
    apply Nat.eqb_neq in Hrows as Hr. rewrite Hr.
    assert (Hbs : match bs with
                  | [b] => Ok (replicate (length rows) b)
                  | _ => if length bs =? length rows then Ok bs
                         else Raise NumpyValueError
                  end = Ok bs).
    { destruct bs as [|b [|b' bs]]; simpl in *.
      - rewrite <- Hlen. reflexivity.
      - congruence.
      - rewrite <- Hlen. simpl. rewrite Nat.eqb_refl. reflexivity. }
    rewrite Hbs. cbn [rbind]. rewrite Hf, Hg, Hl, Hd. reflexivity. }
  assert (Hone : (Z.of_nat (length rows) =? 1)%Z = false) by (apply Z.eqb_neq; lia).
  split; [reflexivity |]. split; [reflexivity |].
  split.
  { unfold NeuralTreeNode.input_weights. cbn [NeuralTreeNode.n_outputs NeuralTreeNode.coef].
    rewrite Hone. cbn [NeuralTreeNode.coef_cols_tail].
    rewrite (drop_zip_with_cons bs rows Hlen). do 2 f_equal. lia. }
  split.
  { unfold NeuralTreeNode.bias. cbn [NeuralTreeNode.n_outputs NeuralTreeNode.coef].
    rewrite Hone. cbn [NeuralTreeNode.coef_col0 Nat.eqb].
    rewrite (column_zip_with_cons bs rows Hlen). reflexivity. }
  split.
  { unfold NeuralTreeNode.ndim. cbn [NeuralTreeNode.coef shape].
    rewrite length_zip_with, Hlen, Nat.min_id. reflexivity. }
  split; reflexivity.
Qed.

(** X10. Given a number [n] of inputs instead of weights, and no bias, the
    constructor draws the coefficients: the unit has [n] inputs and one
    output, or two outputs when the name of the activation starts with
    [softmax], and [n + 1] coefficients per output. A negative [n] is
    refused. *)
Theorem init_from_width (special : Special) (draws : nat -> R) (n : Z)
        (act : string) (id : Z) (tag : option string) :
  (In act known_kinds ->
   (0 <= n)%Z ->
   exists u : NeuralTreeNode.t,
     NeuralTreeNode.__init__ draws (NeuralTreeNode.WInt n) None act id tag = Ok u /\
     input_width u = Ok (Z.to_nat n) /\
     NeuralTreeNode.n_outputs u = (if String.prefix "softmax" act then 2 else 1)%Z /\
     Z.of_nat (size_of (NeuralTreeNode.coef u)) = (NeuralTreeNode.n_outputs u * (n + 1))%Z /\
     length (NeuralTreeNode.training_weights u) = size_of (NeuralTreeNode.coef u)) /\
  ((n < 0)%Z -> raises (NeuralTreeNode.__init__ draws (NeuralTreeNode.WInt n) None act id tag)).
Proof.
  split.
  - simpl. intros H Hn.
    assert (Hneg : (n <? 0)%Z = false) by (apply Z.ltb_ge; lia).
    unfold NeuralTreeNode.__init__, NeuralTreeNode.weights_array. rewrite Hneg.
    repeat (destruct H as [<- | H];
            [eexists; (split; [reflexivity |]);
             unfold input_width, NeuralTreeNode.input_weights, NeuralTreeNode.training_weights,
               NeuralTreeNode.randn;
             cbn -[Z.mul Z.add Z.of_nat Nat.mul];
             change (Z.of_nat 2) with 2%Z; change (Z.of_nat 1) with 1%Z;
             cbn -[Z.mul Z.add Z.of_nat Nat.mul];
             rewrite ?Nat.sub_0_r, ?drop_0;
             repeat (rewrite ?length_map, ?length_seq, ?length_app; cbn [length]);
             repeat split; lia |]).
    contradiction.
  - intros Hn. apply Z.ltb_lt in Hn.
    unfold NeuralTreeNode.__init__, NeuralTreeNode.weights_array. rewrite Hn. exact I.
Qed.

(** ** Equality of units with one output *)

(** X12. On two units whose coefficients are vectors, [==] returns, and
    it returns [True] exactly when the two vectors are equal and the two
    activation names are equal; the result depends on nothing else:
    neither on the identifiers nor on the tags. *)
Theorem eq_on_single_output_units (self obj : NeuralTreeNode.t) (u v : list R) :
  NeuralTreeNode.coef self = A1 u ->
  NeuralTreeNode.coef obj = A1 v ->
  exists b : bool,
    NeuralTreeNode.__eq__ self obj = Ok b /\
    (b = true <-> u = v /\ NeuralTreeNode.activation self = NeuralTreeNode.activation obj) /\
    forall self' obj' : NeuralTreeNode.t,
      NeuralTreeNode.coef self' = NeuralTreeNode.coef self ->
      NeuralTreeNode.activation self' = NeuralTreeNode.activation self ->
      NeuralTreeNode.coef obj' = NeuralTreeNode.coef obj ->
      NeuralTreeNode.activation obj' = NeuralTreeNode.activation obj ->
      NeuralTreeNode.__eq__ self' obj' = Ok b.
Proof.
  intros Hu Hv.
  destruct (eq_single_output self obj u v Hu Hv) as (b & Hb & Hiff).
  exists b. split; [exact Hb |]. split; [exact Hiff |].
  intros self' obj' Hc Ha Hc' Ha'. rewrite <- Hb.
  unfold NeuralTreeNode.__eq__. rewrite Hc, Ha, Hc', Ha'. reflexivity.
Qed.

Lemma eq_on_single_output_units_witness :
  exists b : bool,
    NeuralTreeNode.__eq__ (identity_unit [1; 2]%R 0)
      (NeuralTreeNode.set_nodeid 5 (identity_unit [1; 2]%R 0)) = Ok b /\
    (b = true <-> [0; 1; 2]%R = [0; 1; 2]%R /\ "identity" = "identity") /\
    forall self' obj' : NeuralTreeNode.t,
      NeuralTreeNode.coef self' = A1 [0; 1; 2]%R ->
      NeuralTreeNode.activation self' = "identity" ->
      NeuralTreeNode.coef obj' = A1 [0; 1; 2]%R ->
      NeuralTreeNode.activation obj' = "identity" ->
      NeuralTreeNode.__eq__ self' obj' = Ok b.
Proof.
  apply (eq_on_single_output_units (identity_unit [1; 2]%R 0)
           (NeuralTreeNode.set_nodeid 5 (identity_unit [1; 2]%R 0))
           [0; 1; 2]%R [0; 1; 2]%R); reflexivity.
Defined.

(** ** The weights of a unit *)

Lemma bzip_same_length {A B C : Type} (f : A -> B -> C) (u : list A) (v : list B) :
  length u = length v -> bzip f u v = zip_with f u v.
Proof.
  intros H. unfold bzip. apply Nat.eqb_eq in H. rewrite H. reflexivity.
Qed.

Lemma chunks_rectangular (k nc : nat) (X : list R) :
  length X = k * nc -> Forall (fun r => length r = nc) (chunks k nc X).
Proof.
  revert X. induction k as [|k IH]; intros X HX; simpl; constructor.
  - rewrite length_take. lia.
  - apply IH. rewrite length_drop. lia.
Qed.

Lemma concat_zip_with (nc : nat) (rows rows' : list (list R)) :
  Forall (fun r => length r = nc) rows ->
  Forall (fun r => length r = nc) rows' ->
  length rows = length rows' ->
  concat (bzip (bzip Rplus) rows rows') = zip_with Rplus (concat rows) (concat rows').
Proof.
  intros H H' Hlen. rewrite bzip_same_length by exact Hlen.
  revert rows' H' Hlen. induction H as [|r rows Hr _ IH]; intros [|r' rows'] H' Hlen;
    simpl in *; try discriminate; [reflexivity |].
  inversion H' as [|? ? Hr' Hrows']; subst.
  rewrite bzip_same_length by congruence.
  rewrite IH by (assumption || lia).
  rewrite zip_with_app by congruence. reflexivity.
Qed.

Lemma updated_coef_add (c : ndarray) (X : list R) :
  rectangular c ->
  length X = size_of c ->
  exists c', (let* d := reshape_like c X in add c d) = Ok c' /\
             ravel c' = zip_with Rplus (ravel c) X /\ shape c' = shape c.
Proof.
  intros Hrect HX. unfold reshape_like.
  apply Nat.eqb_eq in HX as Hb. rewrite Hb. cbn [negb].
  destruct c as [x|v|nc rows]; cbn [rbind add broadcast amap ravel shape size_of] in *.
  - destruct X as [|y [|z X]]; try discriminate. eexists. repeat split.
  - unfold bdim. rewrite <- HX, Nat.eqb_refl. cbn [rbind].
    eexists. split; [reflexivity |]. split.
    + apply bzip_same_length. congruence.
    + cbn [shape]. rewrite bzip_same_length by congruence.
      rewrite length_zip_with. f_equal. lia.
  - unfold bdim. rewrite length_chunks, !Nat.eqb_refl. cbn [rbind].
    eexists. split; [reflexivity |]. split.
    + cbn [ravel]. rewrite (concat_zip_with nc).
      * rewrite concat_chunks by exact HX. reflexivity.
      * exact Hrect.
      * apply chunks_rectangular, HX.
      * rewrite length_chunks. reflexivity.
    + cbn [shape]. rewrite bzip_same_length by (rewrite length_chunks; reflexivity).
      rewrite length_zip_with, length_chunks, Nat.min_id. reflexivity.
Qed.

Lemma reshape_like_shape (a : ndarray) (X : list R) (c : ndarray) :
  reshape_like a X = Ok c -> shape c = shape a.
Proof.
  unfold reshape_like. destruct (length X =? size_of a) eqn:HX; [| discriminate].
  apply Nat.eqb_eq in HX. cbn [negb].
  destruct a as [x|v|nc rows]; intros [= <-]; cbn [shape size_of] in *.
  - reflexivity.
  - f_equal. exact HX.
  - rewrite length_chunks. reflexivity.
Qed.

(** X13. [update_training_weights] of a unit takes an array with as many
    values as the unit has coefficients, whatever its shape. With
    [add=False] the coefficients become these values, and
    [training_weights] returns them; with [add=True] each value is added
    to the coefficient of the same position. The shape of the coefficients
    and the rest of the unit are kept. An array of another size is refused
    and the unit is left as it was. *)
Theorem unit_update_training_weights (self : NeuralTreeNode.t) (X : ndarray) :
  rectangular (NeuralTreeNode.coef self) ->
  (length (ravel X) = size_of (NeuralTreeNode.coef self) ->
   exists c1 c2 : ndarray,
     NeuralTreeNodeState.update_training_weights X false self
     = (Ok tt, NeuralTreeNode.set_coef c1 self) /\
     NeuralTreeNode.training_weights (NeuralTreeNode.set_coef c1 self) = ravel X /\
     NeuralTreeNodeState.update_training_weights X true self
     = (Ok tt, NeuralTreeNode.set_coef c2 self) /\
     NeuralTreeNode.training_weights (NeuralTreeNode.set_coef c2 self)
     = zip_with Rplus (NeuralTreeNode.training_weights self) (ravel X) /\
     shape c1 = shape (NeuralTreeNode.coef self) /\
     shape c2 = shape (NeuralTreeNode.coef self)) /\
  (length (ravel X) <> size_of (NeuralTreeNode.coef self) ->
   forall add_ : bool,
     NeuralTreeNodeState.update_training_weights X add_ self
     = (Raise NumpyValueError, self)).
Proof.
  intros Hrect. split.
  - intros HX.
    destruct (reshape_like_ok (NeuralTreeNode.coef self) (ravel X) HX)
      as (c1 & Hc1 & Hr1 & _).
    destruct (updated_coef_add (NeuralTreeNode.coef self) (ravel X) Hrect HX)
      as (c2 & Hc2 & Hr2 & Hs2).
    exists c1, c2.
    unfold NeuralTreeNodeState.update_training_weights, bind, modify,
      NeuralTreeNode.updated_coef, NeuralTreeNode.training_weights.
    rewrite Hc2. rewrite Hc1. cbn [rbind NeuralTreeNode.set_coef NeuralTreeNode.coef].
    repeat split; try assumption.
    eapply reshape_like_shape, Hc1.
  - intros HX add_.
    unfold NeuralTreeNodeState.update_training_weights, bind,
      NeuralTreeNode.updated_coef, reshape_like.
    apply Nat.eqb_neq in HX. rewrite HX. reflexivity.
Qed.

Lemma unit_update_training_weights_witness :
  (length [7; 8; 9]%R = 3 ->
   exists c1 c2 : ndarray,
     NeuralTreeNodeState.update_training_weights (A1 [7; 8; 9]%R) false
       (identity_unit [1; 2]%R 0)
     = (Ok tt, NeuralTreeNode.set_coef c1 (identity_unit [1; 2]%R 0)) /\
     NeuralTreeNode.training_weights (NeuralTreeNode.set_coef c1 (identity_unit [1; 2]%R 0))
     = [7; 8; 9]%R /\
     NeuralTreeNodeState.update_training_weights (A1 [7; 8; 9]%R) true
       (identity_unit [1; 2]%R 0)
     = (Ok tt, NeuralTreeNode.set_coef c2 (identity_unit [1; 2]%R 0)) /\
     NeuralTreeNode.training_weights (NeuralTreeNode.set_coef c2 (identity_unit [1; 2]%R 0))
     = zip_with Rplus [0; 1; 2]%R [7; 8; 9]%R /\
     shape c1 = [3] /\
     shape c2 = [3]) /\
  (length [7; 8; 9]%R <> 3 ->
   forall add_ : bool,
     NeuralTreeNodeState.update_training_weights (A1 [7; 8; 9]%R) add_
       (identity_unit [1; 2]%R 0)
     = (Raise NumpyValueError, identity_unit [1; 2]%R 0)).
Proof.
  apply (unit_update_training_weights (identity_unit [1; 2]%R 0) (A1 [7; 8; 9]%R)).
  exact I.
Defined.

(** ** Prediction of a unit *)

Lemma predict_after_activation (n : NeuralTreeNode.t) (x : list R) :
  NeuralTreeNode.predict n (A1 x)
  = let* lX := NeuralTreeNode._predict n (A1 x) in NeuralTreeNode.activation_ n lX.
Proof.
  unfold NeuralTreeNode.predict, NeuralTreeNode._predict.
  destruct (NeuralTreeNode.n_outputs n =? 1)%Z.
  - destruct (NeuralTreeNode.coef_tail _) as [w|e]; [| reflexivity]. cbn [rbind].
    destruct (NeuralTreeNode.coef_head _) as [b|e]; [| reflexivity]. cbn [rbind].
    destruct (matmul _ _) as [p|e]; [| reflexivity]. cbn [rbind].
    destruct (add p b) as [s|e]; reflexivity.
  - cbn [rank Nat.eqb].
    destruct (NeuralTreeNode.coef_cols_tail _) as [w|e]; [| reflexivity]. cbn [rbind].
    destruct (NeuralTreeNode.coef_col0 _) as [b|e]; [| reflexivity]. cbn [rbind].
    destruct (matmul _ _) as [p|e]; [| reflexivity]. cbn [rbind].
    destruct (add p b) as [s|e]; reflexivity.
Qed.

Lemma getitem_head {A : Type} (b : A) (l : list A) : getitem (b :: l) 0 = Ok b.
Proof. apply getitem_nonneg; [lia | reflexivity]. Qed.

Lemma affine_predict (n : NeuralTreeNode.t) (act : string) (ws : list R) (b : R) (id : Z)
      (x : list R) :
  is_unit n act ws b id ->
  length x = length ws ->
  NeuralTreeNode._predict n (A1 x) = Ok (A0 (dot x ws + b)).
Proof.
  intros (Hc & _ & Ho & _) Hlen. unfold NeuralTreeNode._predict.
  rewrite Ho, Hc. cbn [Z.eqb Pos.eqb NeuralTreeNode.coef_tail NeuralTreeNode.coef_head rbind].
  rewrite getitem_head. cbn [rbind drop matmul]. rewrite drop_0.
  apply Nat.eqb_eq in Hlen. rewrite Hlen. reflexivity.
Qed.

(** X14. A unit with one output computes the activation of the scalar
    product of the sample and the weights plus the bias. A sample whose
    length is not the number of weights is refused; on a batch the unit
    returns the value of each row. *)
Theorem unit_predict_affine (n : NeuralTreeNode.t) (act : string) (ws : list R)
        (b : R) (id : Z) :
  is_unit n act ws b id ->
  (forall x : list R,
      length x = length ws ->
      NeuralTreeNode.predict n (A1 x) = NeuralTreeNode.activation_ n (A0 (dot x ws + b))) /\
  (forall x : list R,
      length x <> length ws ->
      NeuralTreeNode.predict n (A1 x) = Raise NumpyValueError) /\
  (forall rows : list (list R),
      NeuralTreeNode.predict n (A2 (length ws) rows)
      = NeuralTreeNode.activation_ n (A1 (map (fun r => (dot r ws + b)%R) rows))).
Proof.
  intros Hu. split; [| split].
  - intros x Hlen. rewrite predict_after_activation.
    rewrite (affine_predict n act ws b id x Hu Hlen). reflexivity.
  - intros x Hlen. destruct Hu as (Hc & _ & Ho & _).
    unfold NeuralTreeNode.predict. rewrite Ho, Hc.
    cbn [Z.eqb Pos.eqb NeuralTreeNode.coef_tail NeuralTreeNode.coef_head rbind].
    rewrite getitem_head. cbn [rbind drop matmul]. rewrite drop_0.
    apply Nat.eqb_neq in Hlen. rewrite Hlen. reflexivity.
  - intros rows. destruct Hu as (Hc & _ & Ho & _).
    unfold NeuralTreeNode.predict. rewrite Ho, Hc.
    cbn [Z.eqb Pos.eqb NeuralTreeNode.coef_tail NeuralTreeNode.coef_head rbind].
    rewrite getitem_head. cbn [rbind drop matmul]. rewrite drop_0.
    rewrite Nat.eqb_refl. cbn [rbind add broadcast amap]. rewrite map_map. reflexivity.
Qed.

Lemma unit_predict_affine_witness :
  (forall x : list R,
      length x = 2 ->
      NeuralTreeNode.predict (identity_unit [1; 1]%R 0) (A1 x)
      = Ok (A0 (dot x [1; 1]%R + 0))) /\
  (forall x : list R,
      length x <> 2 ->
      NeuralTreeNode.predict (identity_unit [1; 1]%R 0) (A1 x) = Raise NumpyValueError) /\
  (forall rows : list (list R),
      NeuralTreeNode.predict (identity_unit [1; 1]%R 0) (A2 2 rows)
      = Ok (A1 (map (fun r => (dot r [1; 1]%R + 0)%R) rows))).
Proof.
  apply (unit_predict_affine (identity_unit [1; 1]%R 0) "identity" [1; 1]%R 0 (-1)).
  repeat split.
Defined.

(** X15. The cache a unit fills for a sample holds, under [lX], what the
    unit computes before the activation and, under [aX], what [predict]
    returns; [loss], [dlossds] and [dlossdw] called with the cache return
    what they return without it. *)
Theorem unit_cache_is_transparent (n : NeuralTreeNode.t) (x : list R) (y : ndarray)
        (c : gmap string ndarray) :
  NeuralTreeNode.fill_cache n (A1 x) = Ok c ->
  exists lX aX : ndarray,
    c !! "lX" = Some lX /\
    c !! "aX" = Some aX /\
    NeuralTreeNode._predict n (A1 x) = Ok lX /\
    NeuralTreeNode.predict n (A1 x) = Ok aX /\
    NeuralTreeNode.loss n (A1 x) y (Some c) = NeuralTreeNode.loss n (A1 x) y None /\
    NeuralTreeNode.dlossds n (A1 x) y (Some c) = NeuralTreeNode.dlossds n (A1 x) y None /\
    NeuralTreeNode.dlossdw n (A1 x) y (Some c) = NeuralTreeNode.dlossdw n (A1 x) y None.
Proof.
  unfold NeuralTreeNode.fill_cache. intros H.
  apply rbind_ok in H as (lX & HlX & H).
  apply rbind_ok in H as (aX & HaX & H). injection H as <-.
  assert (Hp : NeuralTreeNode.predict n (A1 x) = Ok aX).
  { rewrite predict_after_activation, HlX. exact HaX. }
  exists lX, aX.
  split; [reflexivity |]. split; [reflexivity |].
  split; [exact HlX |]. split; [exact Hp |].
  unfold NeuralTreeNode.loss, NeuralTreeNode.dlossds, NeuralTreeNode.dlossdw,
    NeuralTreeNode._common_loss_dloss.
  rewrite lookup_insert_eq, Hp. repeat split.
Qed.

Lemma unit_cache_is_transparent_witness :
  exists lX aX : ndarray,
    (<["aX" := A0 (1 * 1 + (2 * 1 + 0) + 0)%R]> {["lX" := A0 (1 * 1 + (2 * 1 + 0) + 0)%R]}
       : gmap string ndarray) !! "lX" = Some lX /\
    (<["aX" := A0 (1 * 1 + (2 * 1 + 0) + 0)%R]> {["lX" := A0 (1 * 1 + (2 * 1 + 0) + 0)%R]}
       : gmap string ndarray) !! "aX" = Some aX /\
    NeuralTreeNode._predict (identity_unit [1; 1]%R 0) (A1 [1; 2]%R) = Ok lX /\
    NeuralTreeNode.predict (identity_unit [1; 1]%R 0) (A1 [1; 2]%R) = Ok aX /\
    NeuralTreeNode.loss (identity_unit [1; 1]%R 0) (A1 [1; 2]%R) (A0 0)
      (Some (<["aX" := A0 (1 * 1 + (2 * 1 + 0) + 0)%R]>
               {["lX" := A0 (1 * 1 + (2 * 1 + 0) + 0)%R]}))
    = NeuralTreeNode.loss (identity_unit [1; 1]%R 0) (A1 [1; 2]%R) (A0 0) None /\
    NeuralTreeNode.dlossds (identity_unit [1; 1]%R 0) (A1 [1; 2]%R) (A0 0)
      (Some (<["aX" := A0 (1 * 1 + (2 * 1 + 0) + 0)%R]>
               {["lX" := A0 (1 * 1 + (2 * 1 + 0) + 0)%R]}))
    = NeuralTreeNode.dlossds (identity_unit [1; 1]%R 0) (A1 [1; 2]%R) (A0 0) None /\
    NeuralTreeNode.dlossdw (identity_unit [1; 1]%R 0) (A1 [1; 2]%R) (A0 0)
      (Some (<["aX" := A0 (1 * 1 + (2 * 1 + 0) + 0)%R]>
               {["lX" := A0 (1 * 1 + (2 * 1 + 0) + 0)%R]}))
    = NeuralTreeNode.dlossdw (identity_unit [1; 1]%R 0) (A1 [1; 2]%R) (A0 0) None.
Proof.
  apply (unit_cache_is_transparent (identity_unit [1; 1]%R 0) [1; 2]%R (A0 0)).
  reflexivity.
Defined.

(** ** The gradient of a unit with one output *)

Lemma zip_with_second {A : Type} (u v : list A) :
  length u = length v -> zip_with (fun _ y => y) u v = v.
Proof.
  revert v. induction u as [|a u IH]; intros [|c v] H; simpl in *; try discriminate;
    [reflexivity |].
  f_equal. apply IH. lia.
Qed.

Lemma zip_with_map_l {A B C D : Type} (f : B -> C -> D) (g : A -> B) (u : list A) (v : list C) :
  zip_with f (map g u) v = zip_with (fun a c => f (g a) c) u v.
Proof.
  revert v. induction u as [|a u IH]; intros [|c v]; simpl; try reflexivity.
  f_equal. apply IH.
Qed.

Lemma zip_with_map_r {A B C D : Type} (f : A -> C -> D) (g : B -> C) (u : list A) (v : list B) :
  zip_with f u (map g v) = zip_with (fun a c => f a (g c)) u v.
Proof.
  revert v. induction u as [|a u IH]; intros [|c v]; simpl; try reflexivity.
  f_equal. apply IH.
Qed.

Section UnitGradient.
Local Open Scope R_scope.

(** The computation of [gradient] on a unit with one output whose
    activation [sigma], activation gradient [gamma] and weight penalty
    [rho] work entry by entry. *)
Lemma gradient_closed_form (n : NeuralTreeNode.t) (ws : list R) (b : R)
      (sigma gamma rho : R -> R) (x : list R) (y : R) :
  NeuralTreeNode.coef n = A1 (b :: ws) ->
  NeuralTreeNode.n_outputs n = 1%Z ->
  (forall z, NeuralTreeNode.activation_ n (A0 z) = Ok (A0 (sigma z))) ->
  (forall a, NeuralTreeNode.gradient_ n (A0 a) = Ok (A0 (gamma a))) ->
  NeuralTreeNode.dlossds_ n = NeuralTreeNode.dregdx ->
  (forall w p t, NeuralTreeNode.dlossdw_ n w p t = Ok (amap rho w)) ->
  length x = length ws ->
  let a := sigma (dot x ws + b) in
  let f := (a - y) * 2 * gamma a in
  gradient n (A1 x) (A0 y) false
  = Ok (A1 (zip_with (fun v c => v * f + rho c) (1 :: x) (b :: ws))) /\
  gradient n (A1 x) (A0 y) true = Ok (A1 (map (fun w => w * f) ws)).
Proof.
  intros Hc Ho Hact Hgrad Hds Hdw Hlen a f.
  assert (Hu : is_unit n (NeuralTreeNode.activation n) ws b (NeuralTreeNode.nodeid n))
    by (repeat split; assumption).
  assert (Hcache : NeuralTreeNode.fill_cache n (A1 x)
                   = Ok (<["aX" := A0 a]> {["lX" := A0 (dot x ws + b)]})).
  { unfold NeuralTreeNode.fill_cache.
    rewrite (affine_predict n _ ws b _ x Hu Hlen). cbn [rbind].
    rewrite Hact. reflexivity. }
  assert (Hbw : forall inputs,
    gradient n (A1 x) (A0 y) inputs
    = NeuralTreeNode.gradient_backward n (A0 ((a - y) * 2)) (A1 (map rho (b :: ws)))
        (A1 x) inputs (Some (<["aX" := A0 a]> {["lX" := A0 (dot x ws + b)]}))).
  { intros inputs. unfold gradient. cbn [shape length Nat.eqb negb].
    cbn [fill_cache dlossds dlossdw gradient_backward node_api].
    rewrite Hcache. cbn [rbind].
    unfold NeuralTreeNode.dlossds, NeuralTreeNode.dlossdw, NeuralTreeNode._common_loss_dloss.
    rewrite lookup_insert_eq. cbn [rbind]. rewrite Hds, Hdw, Hc.
    reflexivity. }
  rewrite !Hbw. unfold NeuralTreeNode.gradient_backward. cbn [rbind].
  rewrite lookup_insert_eq. cbn [of_option rbind]. rewrite Hgrad. cbn [rbind rank Nat.eqb].
  cbn [mul broadcast amap rbind]. rewrite Hc. cbn [rank Nat.eqb].
  fold f. split.
  - rewrite getitem_head. cbn [rbind drop]. rewrite drop_0.
    unfold assign, broadcast, bdim. rewrite Hlen, Nat.eqb_refl. cbn [rbind].
    rewrite bzip_same_length by congruence. rewrite zip_with_second by congruence.
    cbn [shape]. rewrite Hlen, (bool_decide_eq_true_2 _ eq_refl). cbn [rbind ravel].
    unfold imul, mul, broadcast. cbn [amap rbind shape].
    rewrite length_map. rewrite (bool_decide_eq_true_2 _ eq_refl). cbn [rbind].
    unfold reshape_like. cbn [ravel size_of]. rewrite !length_map. cbn [length].
    rewrite Hlen, Nat.eqb_refl. cbn [negb rbind].
    unfold add, broadcast, bdim. rewrite !length_map. cbn [length].
    rewrite Hlen, Nat.eqb_refl. cbn [rbind].
    rewrite bzip_same_length by (rewrite !length_map; cbn [length]; congruence).
    rewrite zip_with_map_l, zip_with_map_r. reflexivity.
  - cbn [NeuralTreeNode.coef_tail rbind drop]. rewrite drop_0.
    unfold assign, broadcast, bdim. cbn [amap]. rewrite length_map, Hlen, Nat.eqb_refl.
    cbn [rbind].
    rewrite bzip_same_length by (rewrite length_map; congruence).
    rewrite zip_with_second by (rewrite length_map; congruence).
    cbn [shape]. rewrite length_map, Hlen.
    rewrite (bool_decide_eq_true_2 _ eq_refl). cbn [rbind].
    unfold imul, mul, broadcast. cbn [amap rbind shape].
    rewrite length_map. rewrite (bool_decide_eq_true_2 _ eq_refl). reflexivity.
Qed.

Lemma dot_insert_r (x ws : list R) (i : nat) (xi wi t : R) :
  x !! i = Some xi -> ws !! i = Some wi ->
  dot x (<[i := t]> ws) = dot x ws + xi * (t - wi).
Proof.
  revert ws i. induction x as [|x0 x IH]; intros [|w ws] [|i] Hx Hw; simpl in *;
    try discriminate.
  - injection Hx as ->. injection Hw as ->. unfold dot. simpl. ring.
  - unfold dot in *. simpl. rewrite (IH ws i Hx Hw). ring.
Qed.

Lemma dot_insert_l (x ws : list R) (i : nat) (xi wi t : R) :
  x !! i = Some xi -> ws !! i = Some wi ->
  dot (<[i := t]> x) ws = dot x ws + (t - xi) * wi.
Proof.
  revert ws i. induction x as [|x0 x IH]; intros [|w ws] [|i] Hx Hw; simpl in *;
    try discriminate.
  - injection Hx as ->. injection Hw as ->. unfold dot. simpl. ring.
  - unfold dot in *. simpl. rewrite (IH ws i Hx Hw). ring.
Qed.

Lemma affine_square_derivative (a d t0 : R) :
  derivable_pt_lim (fun t => (t * a + d) ^ 2) t0 ((t0 * a + d) * 2 * a).
Proof.
  apply (derivable_pt_lim_ext (fun t => (t * a + d - 0) ^ 2 + 0)).
  { intros z. ring. }
  replace ((t0 * a + d) * 2 * a) with ((t0 * a + d - 0) * 2 * a) by ring.
  apply (derivable_pt_lim_comp (fun t => t * a + d) (fun u => (u - 0) ^ 2 + 0)).
  - apply linear_derivative.
  - apply square_derivative.
Qed.

Lemma identity_unit_fields (special : Special) (draws : nat -> R) (ws : list R) (b : R)
      (id : Z) (tag : option string) (n : NeuralTreeNode.t) :
  NeuralTreeNode.__init__ draws (NeuralTreeNode.WList ws)
    (Some (NeuralTreeNode.BScalar b)) "identity" id tag = Ok n ->
  n = NeuralTreeNode.mk tag 1 (A1 (b :: ws)) "identity" id
        (fun x => Ok x) (vectorize (fun _ => PyInt 1))
        (fun w x y => NeuralTreeNode.squared_error x y)
        NeuralTreeNode.dregdx NeuralTreeNode.zeros_like.
Proof. intros [= <-]. reflexivity. Qed.

Lemma identity_loss (tag : option string) (id : Z) (c x : list R) (b' y : R)
      (ws' : list R) :
  c = b' :: ws' ->
  length x = length ws' ->
  scalar_of
    (NeuralTreeNode.loss
       (NeuralTreeNode.mk tag 1 (A1 c) "identity" id
          (fun x => Ok x) (vectorize (fun _ => PyInt 1))
          (fun w x y => NeuralTreeNode.squared_error x y)
          NeuralTreeNode.dregdx NeuralTreeNode.zeros_like)
       (A1 x) (A0 y) None)
  = (dot x ws' + b' - y) ^ 2.
Proof.
  intros -> Hlen. unfold NeuralTreeNode.loss, NeuralTreeNode._common_loss_dloss.
  rewrite predict_after_activation.
  rewrite (affine_predict _ "identity" ws' b' id x) by (repeat split; assumption).
  reflexivity.
Qed.

(** X16. For a unit with the identity activation and a sample with as many
    values as the unit has weights, [gradient] returns the gradient of
    [loss]: with [inputs=False] its entry [j] is the derivative of the loss
    in the coefficient [j] (the bias, then the weights), with [inputs=True]
    its entry [j] is the derivative of the loss in the entry [j] of the
    sample. *)
Theorem identity_unit_gradient (special : Special) (draws : nat -> R) (ws : list R)
        (b : R) (id : Z) (tag : option string) (n : NeuralTreeNode.t)
        (x : list R) (y : R) :
  NeuralTreeNode.__init__ draws (NeuralTreeNode.WList ws)
    (Some (NeuralTreeNode.BScalar b)) "identity" id tag = Ok n ->
  length x = length ws ->
  exists g gx : list R,
    gradient n (A1 x) (A0 y) false = Ok (A1 g) /\
    gradient n (A1 x) (A0 y) true = Ok (A1 gx) /\
    length g = S (length ws) /\
    length gx = length ws /\
    (forall (j : nat) (cj : R),
        (b :: ws) !! j = Some cj ->
        derivable_pt_lim
          (fun t => scalar_of
                      (NeuralTreeNode.loss
                         (NeuralTreeNode.set_coef (A1 (<[j := t]> (b :: ws))) n)
                         (A1 x) (A0 y) None))
          cj (nth j g 0)) /\
    (forall (j : nat) (xj : R),
        x !! j = Some xj ->
        derivable_pt_lim
          (fun t => scalar_of (NeuralTreeNode.loss n (A1 (<[j := t]> x)) (A0 y) None))
          xj (nth j gx 0)).
Proof.
  intros Hinit Hlen. apply identity_unit_fields in Hinit. subst n.
  set (n := NeuralTreeNode.mk _ _ _ _ _ _ _ _ _ _).
  destruct (gradient_closed_form n ws b (fun z => z) (fun _ => 1) (fun _ => 0) x y)
    as [Hg Hgx]; try reflexivity; try exact Hlen.
  cbv zeta in Hg, Hgx.
  set (f := (dot x ws + b - y) * 2 * 1) in *.
  eexists _, _. split; [exact Hg |]. split; [exact Hgx |].
  split; [rewrite length_zip_with; cbn [length]; lia |].
  split; [apply length_map |].
  split.
  - intros [|i] cj Hj.
    + change ((b :: ws) !! 0%nat) with (Some b) in Hj.
      injection Hj as <-. cbn [zip_with nth].
      apply (derivable_pt_lim_ext (fun t => (t * 1 + (dot x ws - y)) ^ 2)).
      { intros z. unfold n, NeuralTreeNode.set_coef. cbn [NeuralTreeNode.tag
          NeuralTreeNode.n_outputs NeuralTreeNode.activation NeuralTreeNode.nodeid
          NeuralTreeNode.activation_ NeuralTreeNode.gradient_ NeuralTreeNode.loss_
          NeuralTreeNode.dlossds_ NeuralTreeNode.dlossdw_].
        change (<[0%nat := z]> (b :: ws)) with (z :: ws).
        rewrite (identity_loss tag id _ x z y ws eq_refl Hlen). ring. }
      replace (1 * f + 0) with ((b * 1 + (dot x ws - y)) * 2 * 1) by (unfold f; ring).
      apply affine_square_derivative.
    + change ((b :: ws) !! S i) with (ws !! i) in Hj.
      cbn [zip_with nth].
      destruct (lookup_lt_is_Some_2 x i) as [xi Hxi].
      { rewrite Hlen. eapply lookup_lt_Some, Hj. }
      apply (derivable_pt_lim_ext
               (fun t => (t * xi + (dot x ws - xi * cj + b - y)) ^ 2)).
      { intros z. unfold n, NeuralTreeNode.set_coef. cbn [NeuralTreeNode.tag
          NeuralTreeNode.n_outputs NeuralTreeNode.activation NeuralTreeNode.nodeid
          NeuralTreeNode.activation_ NeuralTreeNode.gradient_ NeuralTreeNode.loss_
          NeuralTreeNode.dlossds_ NeuralTreeNode.dlossdw_].
        change (<[S i := z]> (b :: ws)) with (b :: <[i := z]> ws).
        rewrite (identity_loss tag id _ x b y (<[i := z]> ws) eq_refl)
          by (rewrite length_insert; exact Hlen).
        rewrite (dot_insert_r x ws i xi cj z Hxi Hj). ring. }
      replace (nth i (zip_with (fun v c => v * f + 0) x ws) 0)
        with ((cj * xi + (dot x ws - xi * cj + b - y)) * 2 * xi).
      { apply affine_square_derivative. }
      symmetry. transitivity (xi * f + 0); [| unfold f; ring].
      apply nth_lookup_Some with (d := 0).
      rewrite lookup_zip_with, Hxi, Hj. reflexivity.
  - intros j xj Hj.
    destruct (lookup_lt_is_Some_2 ws j) as [wj Hwj].
    { rewrite <- Hlen. eapply lookup_lt_Some, Hj. }
    apply (derivable_pt_lim_ext
             (fun t => (t * wj + (dot x ws - xj * wj + b - y)) ^ 2)).
    { intros z. unfold n.
      rewrite (identity_loss tag id _ (<[j := z]> x) b y ws eq_refl)
        by (rewrite length_insert; exact Hlen).
      rewrite (dot_insert_l x ws j xj wj z Hj Hwj). ring. }
    replace (nth j (map (fun w => w * f) ws) 0)
      with ((xj * wj + (dot x ws - xj * wj + b - y)) * 2 * wj).
    { apply affine_square_derivative. }
    symmetry. transitivity (wj * f); [| unfold f; ring].
    apply nth_lookup_Some with (d := 0).
    rewrite list_lookup_fmap, Hwj. reflexivity.
Qed.

Lemma identity_unit_gradient_witness :
  exists g gx : list R,
    gradient (identity_unit [1; 1] 0) (A1 [1; 2]) (A0 0) false = Ok (A1 g) /\
    gradient (identity_unit [1; 1] 0) (A1 [1; 2]) (A0 0) true = Ok (A1 gx) /\
    length g = 3%nat /\
    length gx = 2%nat /\
    (forall (j : nat) (cj : R),
        [0; 1; 1] !! j = Some cj ->
        derivable_pt_lim
          (fun t => scalar_of
                      (NeuralTreeNode.loss
                         (NeuralTreeNode.set_coef (A1 (<[j := t]> [0; 1; 1]))
                            (identity_unit [1; 1] 0))
                         (A1 [1; 2]) (A0 0) None))
          cj (nth j g 0)) /\
    (forall (j : nat) (xj : R),
        [1; 2] !! j = Some xj ->
        derivable_pt_lim
          (fun t => scalar_of (NeuralTreeNode.loss (identity_unit [1; 1] 0)
                                 (A1 (<[j := t]> [1; 2])) (A0 0) None))
          xj (nth j gx 0)).
Proof.
  apply (identity_unit_gradient real_special (fun _ => 0) [1; 1] 0 (-1) None
           (identity_unit [1; 1] 0) [1; 2] 0); reflexivity.
Defined.

Lemma logistic_unit_fields (special : Special) (draws : nat -> R) (ws : list R) (b : R)
      (kind : string) (id : Z) (tag : option string) (n : NeuralTreeNode.t) :
  In kind NeuralTreeNode.logistic_names ->
  NeuralTreeNode.__init__ draws (NeuralTreeNode.WList ws)
    (Some (NeuralTreeNode.BScalar b)) kind id tag = Ok n ->
  n = NeuralTreeNode.mk tag 1 (A1 (b :: ws)) kind id
        (elementwise expit) (elementwise NeuralTreeNode._dsigmoid)
        (fun w x y =>
           let* e := NeuralTreeNode.squared_error x y in
           let* ww := matmul w (transpose w) in
           add e (amap (fun v => v * 0.01) ww))
        NeuralTreeNode.dregdx (fun w x y => Ok (amap (fun v => v * 0.02) w)).
Proof.
  simpl. intros [<- | [<- | [<- | []]]] [= <-]; reflexivity.
Qed.

(** X17. For a unit with the logistic activation ([logistic], [expit] or
    [sigmoid]) [gradient] multiplies the derivative of the loss in the
    prediction [a] by the logistic derivative taken at [a] itself, the
    output of the unit, where the derivative of the loss in the
    coefficients has the logistic derivative at the input of the
    activation, [a * (1 - a)]: the entry of the bias is
    [(a - y) * 2 * (expit(a) * (1 - expit(a))) + 0.02 * bias], and the
    derivative of the loss in the bias is
    [(a - y) * 2 * (a * (1 - a)) + 0.02 * bias]. *)
Theorem logistic_unit_gradient (special : Special) (draws : nat -> R) (ws : list R)
        (b : R) (kind : string) (id : Z) (tag : option string) (n : NeuralTreeNode.t)
        (x : list R) (y : R) :
  In kind NeuralTreeNode.logistic_names ->
  NeuralTreeNode.__init__ draws (NeuralTreeNode.WList ws)
    (Some (NeuralTreeNode.BScalar b)) kind id tag = Ok n ->
  length x = length ws ->
  let a := expit (dot x ws + b) in
  gradient n (A1 x) (A0 y) false
  = Ok (A1 (zip_with (fun v c => v * ((a - y) * 2 * (expit a * (1 - expit a))) + c * 0.02)
                     (1 :: x) (b :: ws))) /\
  gradient n (A1 x) (A0 y) true
  = Ok (A1 (map (fun w => w * ((a - y) * 2 * (expit a * (1 - expit a)))) ws)) /\
  derivable_pt_lim
    (fun t => scalar_of (NeuralTreeNode.loss (NeuralTreeNode.set_coef (A1 (t :: ws)) n)
                           (A1 x) (A0 y) None))
    b ((a - y) * 2 * (a * (1 - a)) + b * 0.02).
Proof.
  intros Hk Hinit Hlen a.
  apply (logistic_unit_fields special draws ws b kind id tag n Hk) in Hinit. subst n.
  set (n := NeuralTreeNode.mk _ _ _ _ _ _ _ _ _ _).
  destruct (gradient_closed_form n ws b expit NeuralTreeNode._dsigmoid
              (fun v => v * 0.02) x y) as [Hg Hgx]; try reflexivity; try exact Hlen.
  split; [exact Hg |]. split; [exact Hgx |].
  apply (derivable_pt_lim_ext
           (fun t => (expit (t * 1 + dot x ws) - y) ^ 2
                     + ((t * t) * 0.01 + dot ws ws * 0.01))).
  { intros z. unfold n, NeuralTreeNode.set_coef, NeuralTreeNode.loss,
      NeuralTreeNode._common_loss_dloss.
    cbn [NeuralTreeNode.tag NeuralTreeNode.n_outputs NeuralTreeNode.activation
         NeuralTreeNode.nodeid NeuralTreeNode.activation_ NeuralTreeNode.gradient_
         NeuralTreeNode.loss_ NeuralTreeNode.dlossds_ NeuralTreeNode.dlossdw_
         NeuralTreeNode.coef].
    rewrite predict_after_activation.
    rewrite (affine_predict _ kind ws z id x) by (repeat split; assumption).
    cbn [rbind elementwise amap NeuralTreeNode.squared_error sub broadcast matmul transpose
         NeuralTreeNode.activation_ NeuralTreeNode.loss_ NeuralTreeNode.coef].
    rewrite Nat.eqb_refl. cbn [rbind amap add broadcast scalar_of].
    replace (dot x ws + z) with (z * 1 + dot x ws) by ring.
    replace (dot (z :: ws) (z :: ws)) with (z * z + dot ws ws) by reflexivity.
    ring. }
  replace ((a - y) * 2 * (a * (1 - a)) + b * 0.02)
    with ((a - y) * 2 * (a * (1 - a) * 1) + ((1 * b + b * 1) * 0.01 + (b * b) * 0 + 0)).
  2:{ lra. }
  assert (Ha : a = expit (b * 1 + dot x ws)) by (unfold a; f_equal; ring).
  apply (derivable_pt_lim_plus (fun t => (expit (t * 1 + dot x ws) - y) ^ 2)
                               (fun t => (t * t) * 0.01 + dot ws ws * 0.01)).
  - apply (derivable_pt_lim_ext
             (fun t => (fun u => (u - y) ^ 2 + 0) (expit (t * 1 + dot x ws)))).
    { intros z. ring. }
    rewrite Ha.
    apply (derivable_pt_lim_comp (fun t => expit (t * 1 + dot x ws))
                                 (fun u => (u - y) ^ 2 + 0)).
    + apply (derivable_pt_lim_comp (fun t => t * 1 + dot x ws) expit).
      * apply linear_derivative.
      * apply expit_derivative.
    + apply square_derivative.
  - apply (derivable_pt_lim_plus (fun t => t * t * 0.01) (fun _ => _)).
    + apply (derivable_pt_lim_mult (fun t => t * t) (fun _ => 0.01)).
      * apply (derivable_pt_lim_mult Ranalysis1.id Ranalysis1.id); apply derivable_pt_lim_id.
      * apply derivable_pt_lim_const.
    + apply derivable_pt_lim_const.
Qed.

Lemma logistic_unit_gradient_witness :
  exists n : NeuralTreeNode.t,
    NeuralTreeNode.__init__ (special := real_special) (fun _ => 0)
      (NeuralTreeNode.WList [1; 1]) (Some (NeuralTreeNode.BScalar 0)) "sigmoid" 0 None
    = Ok n /\
    gradient n (A1 [1; 2]) (A0 0) false
    = Ok (A1 (zip_with (fun v c => v * ((expit (dot [1; 2] [1; 1] + 0) - 0) * 2
                                        * (expit (expit (dot [1; 2] [1; 1] + 0))
                                           * (1 - expit (expit (dot [1; 2] [1; 1] + 0)))))
                                   + c * 0.02)
                       [1; 1; 2] [0; 1; 1])).
Proof.
  eexists. split; [reflexivity |].
  apply (logistic_unit_gradient real_special (fun _ => 0) [1; 1] 0 "sigmoid" 0 None _
           [1; 2] 0).
  - simpl. tauto.
  - reflexivity.
  - reflexivity.
Defined.

End UnitGradient.

(** ** Pickling a unit *)

(** The function attributes of a unit the constructor returns are the
    ones the four tables give for its activation name. *)
Lemma init_functions (special : Special) (draws : nat -> R)
      (weights : NeuralTreeNode.weights_arg) (bias : option NeuralTreeNode.bias_arg)
      (act : string) (id : Z) (tag : option string) (u : NeuralTreeNode.t) :
  NeuralTreeNode.__init__ draws weights bias act id tag = Ok u ->
  NeuralTreeNode.get_activation_function (NeuralTreeNode.activation u)
  = Ok (NeuralTreeNode.activation_ u) /\
  NeuralTreeNode.get_activation_gradient_function (NeuralTreeNode.activation u)
  = Ok (NeuralTreeNode.gradient_ u) /\
  NeuralTreeNode.get_activation_loss_function (NeuralTreeNode.activation u)
  = Ok (NeuralTreeNode.loss_ u) /\
  NeuralTreeNode.get_activation_dloss_function (NeuralTreeNode.activation u)
  = Ok (NeuralTreeNode.dlossds_ u, NeuralTreeNode.dlossdw_ u).
Proof.
  unfold NeuralTreeNode.__init__. intros H.
  apply rbind_ok in H as ([w used] & _ & H).
  apply rbind_ok in H as ([n_out c] & _ & H).
  apply rbind_ok in H as (f & Hf & H).
  apply rbind_ok in H as (g & Hg & H).
  apply rbind_ok in H as (l & Hl & H).
  apply rbind_ok in H as ([ds dw] & Hd & H).
  injection H as <-. simpl. auto.
Qed.

Ltac run_state :=
  cbv beta iota zeta delta
    [NeuralTreeNodeState.__setstate__ NeuralTreeNodeState._set_fcts
     NeuralTreeNodeState.__getstate__ bind modify
     NeuralTreeNode.set_coef NeuralTreeNode.set_nodeid
     NeuralTreeNodeState.state_coef NeuralTreeNodeState.state_activation
     NeuralTreeNodeState.state_nodeid NeuralTreeNodeState.state_n_outputs
     NeuralTreeNodeState.state_tag NeuralTreeNode.tag NeuralTreeNode.n_outputs NeuralTreeNode.coef
         NeuralTreeNode.activation NeuralTreeNode.nodeid NeuralTreeNode.activation_
         NeuralTreeNode.gradient_ NeuralTreeNode.loss_ NeuralTreeNode.dlossds_
         NeuralTreeNode.dlossdw_].

(** X11. [__setstate__] applied to what [__getstate__] returns for a unit
    built by the constructor gives that unit back, whatever the object it
    is applied to. Applied to a state whose activation name is not one of
    the nine, it raises at the first lookup, after the five attributes of
    the state have been assigned: the object is left with the new
    coefficients and the new name, and with the functions it had. *)
Theorem setstate_getstate_roundtrip (special : Special) :
  (forall (draws : nat -> R) (weights : NeuralTreeNode.weights_arg)
          (bias : option NeuralTreeNode.bias_arg) (act : string) (id : Z)
          (tag : option string) (u v : NeuralTreeNode.t),
      NeuralTreeNode.__init__ draws weights bias act id tag = Ok u ->
      NeuralTreeNodeState.__setstate__ (NeuralTreeNodeState.__getstate__ u) v
      = (Ok tt, u)) /\
  (forall (st : NeuralTreeNodeState.state) (v : NeuralTreeNode.t),
      ~ In (NeuralTreeNodeState.state_activation st) known_kinds ->
      NeuralTreeNodeState.__setstate__ st v
      = (Raise (UnknownActivation (NeuralTreeNodeState.state_activation st)),
         NeuralTreeNode.mk (NeuralTreeNodeState.state_tag st)
           (NeuralTreeNodeState.state_n_outputs st)
           (NeuralTreeNodeState.state_coef st)
           (NeuralTreeNodeState.state_activation st)
           (NeuralTreeNodeState.state_nodeid st)
           (NeuralTreeNode.activation_ v) (NeuralTreeNode.gradient_ v)
           (NeuralTreeNode.loss_ v) (NeuralTreeNode.dlossds_ v)
           (NeuralTreeNode.dlossdw_ v))).
Proof.
  split.
  - intros draws weights bias act id tag u v Hinit.
    destruct (init_functions special draws weights bias act id tag u Hinit)
      as (Hf & Hg & Hl & Hd).
    clear Hinit. destruct u as [t0 no c a i f g l ds dw]. destruct v.
    cbn [NeuralTreeNode.tag NeuralTreeNode.n_outputs NeuralTreeNode.coef
         NeuralTreeNode.activation NeuralTreeNode.nodeid NeuralTreeNode.activation_
         NeuralTreeNode.gradient_ NeuralTreeNode.loss_ NeuralTreeNode.dlossds_
         NeuralTreeNode.dlossdw_] in Hf, Hg, Hl, Hd.
    run_state. rewrite Hf.
    run_state. rewrite Hg.
    run_state. rewrite Hl.
    run_state. rewrite Hd. reflexivity.
  - intros st v Hs. destruct v, st.
    cbn [NeuralTreeNodeState.state_activation] in Hs.
    run_state. rewrite (unknown_forward _ Hs). reflexivity.
Qed.

(** ** The layout of a network of units with one output *)

Lemma total_size_app (h : list NeuralTreeNode.t) (l1 l2 : list nat) :
  total_size h (l1 ++ l2) = total_size h l1 + total_size h l2.
Proof.
  unfold total_size. induction l1 as [|r l1 IH]; simpl; [reflexivity |].
  rewrite IH. lia.
Qed.

Lemma total_size_singleton (h : list NeuralTreeNode.t) (r : nat) (n : NeuralTreeNode.t) :
  h !! r = Some n -> total_size h [r] = size_of (NeuralTreeNode.coef n).
Proof.
  intros H. unfold total_size. cbn [map foldr]. rewrite H. lia.
Qed.

Lemma next_first_coef_total (w : NeuralTreeNet.world) :
  laid_out w ->
  NeuralTreeNet.next_first_coef (NeuralTreeNet.self w)
  = Z.of_nat (total_size (NeuralTreeNet.heap w) (NeuralTreeNet.nodes (NeuralTreeNet.self w))).
Proof.
  destruct w as [h [d ns attrs size o2n i2n]].
  unfold laid_out, unit_at, NeuralTreeNet.next_first_coef. simpl.
  intros (_ & Hlen & _ & _ & Hunits & _).
  destruct attrs as [|a0 attrs _] using rev_ind.
  - destruct ns; [reflexivity | discriminate].
  - rewrite last_snoc.
    destruct ns as [|r0 ns _] using rev_ind.
    { rewrite length_app in Hlen. simpl in Hlen. lia. }
    rewrite !length_app in Hlen. simpl in Hlen.
    assert (Hl : length ns = length attrs) by lia.
    destruct (Hunits (length ns) r0)
      as (n & a & b & ws & (_ & Ha & Hn) & _ & _ & Hc & _ & _ & Hcs & Hfc & _).
    { apply list_lookup_middle. reflexivity. }
    rewrite Hl, list_lookup_middle in Ha by reflexivity. injection Ha as <-.
    rewrite Hfc, Hcs, total_size_app, take_app_length.
    rewrite (total_size_singleton h r0 n Hn), Hc. cbn [size_of length]. lia.
Qed.

Lemma elem_of_take_full {A : Type} (x : A) (n : nat) (l : list A) :
  x ∈ take n l -> x ∈ l.
Proof.
  intros H. apply elem_of_take in H as (i & Hi & _).
  eapply list_elem_of_lookup_2, Hi.
Qed.

Lemma laid_out_unit_exists (w : NeuralTreeNet.world) (r : nat) :
  laid_out w ->
  r ∈ NeuralTreeNet.nodes (NeuralTreeNet.self w) ->
  is_Some (NeuralTreeNet.heap w !! r).
Proof.
  intros (_ & _ & _ & _ & Hunits & _) Hr.
  apply list_elem_of_lookup in Hr as (j & Hj).
  destruct (Hunits j r Hj) as (n & a & b & ws & (_ & _ & Hn) & _). eauto.
Qed.

Lemma single_output_weights (n : NeuralTreeNode.t) (b : R) (ws : list R) :
  NeuralTreeNode.n_outputs n = 1%Z ->
  NeuralTreeNode.coef n = A1 (b :: ws) ->
  NeuralTreeNode.input_weights n = Ok (A1 ws).
Proof.
  intros Ho Hc. apply (input_weights_unit n (NeuralTreeNode.activation n) ws b
                         (NeuralTreeNode.nodeid n)).
  repeat split; assumption.
Qed.

(** What a successful [append] of a unit with one output does. *)
Lemma append_single_ok (w w' : NeuralTreeNet.world) (node : nat)
      (inputs : NeuralTreeNet.inputs_arg) (n : NeuralTreeNode.t) (b : R) (ws : list R) :
  NeuralTreeNet.heap w !! node = Some n ->
  NeuralTreeNode.n_outputs n = 1%Z ->
  NeuralTreeNode.coef n = A1 (b :: ws) ->
  NeuralTreeNet.append node inputs w = (Ok tt, w') ->
  length ws = length (NeuralTreeNet.values inputs) /\
  w' = appended w node n
         (attr_for w n inputs
            (NeuralTreeNet.OInt (NeuralTreeNet.size_ (NeuralTreeNet.self w)))) 1.
Proof.
  intros Hn Ho Hc Happ.
  pose proof (single_output_weights n b ws Ho Hc) as Hiw.
  destruct (Nat.eq_dec (length ws) (length (NeuralTreeNet.values inputs))) as [Hlen|Hlen].
  - split; [exact Hlen |].
    rewrite (append_single_output w node n inputs ws Hn Hiw Hlen) in Happ.
    injection Happ as <-. reflexivity.
  - rewrite (append_width_mismatch w node n inputs (length ws)) in Happ;
      [discriminate | exact Hn | unfold input_width; rewrite Hiw; reflexivity | exact Hlen].
Qed.

(** The layout is an invariant of the states of [assembled]. *)
Lemma assembled_laid_out (w : NeuralTreeNet.world) : assembled w -> laid_out w.
Proof.
  induction 1 as [h d Hd | w n' _ IH | w w' node inputs n b ws _ IH Hn Ho Hc Hfresh Hin Happ].
  - unfold laid_out, unit_at. simpl.
    split; [exact Hd |]. split; [reflexivity |]. split; [lia |].
    split; [constructor |]. split.
    + intros j r Hj. rewrite lookup_nil in Hj. discriminate.
    + intros k [x Hx]. rewrite lookup_empty in Hx. discriminate.
  - pose proof IH as (Hd & Hlen & Hsize & Hnd & Hunits & Hkeys).
    unfold laid_out, unit_at in *. simpl.
    split; [exact Hd |]. split; [exact Hlen |]. split; [exact Hsize |].
    split; [exact Hnd |]. split; [| exact Hkeys].
    intros j r Hj.
    destruct (Hunits j r Hj)
      as (n & a & b & ws & (_ & Ha & Hn) & Hid & Ho & Hc & Hw & Hout & Hcs & Hfc & Hi & Hmap).
    exists n, a, b, ws.
    split; [split; [exact Hj | split; [exact Ha | apply lookup_app_l_Some, Hn]] |].
    repeat (split; [assumption |]).
    split; [| split; assumption].
    rewrite Hfc. f_equal. symmetry. apply total_size_agree.
    intros r' Hr'.
    destruct (laid_out_unit_exists w r' IH) as [n0 Hn0].
    { eapply elem_of_take_full, Hr'. }
    rewrite Hn0. apply lookup_app_l_Some, Hn0.
  - destruct (append_single_ok w w' node inputs n b ws Hn Ho Hc Happ) as [Hws ->].
    pose proof (next_first_coef_total w IH) as Hnext.
    pose proof IH as (Hd & Hlen & Hsize & Hnd & Hunits & Hkeys).
    destruct w as [h [d ns attrs size o2n i2n]].
    unfold laid_out, unit_at, appended, attr_for, NeuralTreeNet.register in *.
    cbn [NeuralTreeNet.heap NeuralTreeNet.self NeuralTreeNet.dim NeuralTreeNet.nodes
         NeuralTreeNet.nodes_attr NeuralTreeNet.size_ NeuralTreeNet.output_to_node_
         NeuralTreeNet.input_to_node_ NeuralTreeNet.output NeuralTreeNet.inputs
         NeuralTreeNet.coef_size NeuralTreeNet.first_coef NeuralTreeNet.slots foldl] in *.
    set (n1 := NeuralTreeNode.set_nodeid (Z.of_nat (length ns)) n).
    set (a1 := NeuralTreeNet.mk_attr _ _ _ _).
    assert (Hagree : forall r, r ∈ ns -> <[node := n1]> h !! r = h !! r).
    { intros r Hr. apply list_lookup_insert_ne. intros ->. contradiction. }
    split; [exact Hd |].
    split; [rewrite !length_app, Hlen; reflexivity |].
    split; [rewrite length_app; simpl; lia |].
    split.
    { apply NoDup_app. split; [exact Hnd |]. split; [| apply NoDup_singleton].
      intros r Hr Hr'. apply list_elem_of_singleton in Hr'. subst r. contradiction. }
    split.
    + intros j r Hj.
      destruct (Nat.lt_total j (length ns)) as [Hlt | [-> | Hgt]].
      * rewrite lookup_app_l in Hj by exact Hlt.
        destruct (Hunits j r Hj)
          as (n0 & a0 & b0 & ws0 & (_ & Ha0 & Hn0) & Hid & Ho0 & Hc0 & Hw0 & Hout & Hcs & Hfc & Hi & Hmap).
        assert (Hr : r ∈ ns) by (eapply list_elem_of_lookup_2, Hj).
        exists n0, a0, b0, ws0.
        split.
        { split; [apply lookup_app_l_Some, Hj |].
          split; [apply lookup_app_l_Some, Ha0 |].
          rewrite Hagree by exact Hr. exact Hn0. }
        repeat (split; [assumption |]).
        split.
        { rewrite Hfc. f_equal. rewrite take_app_le by lia. symmetry.
          apply total_size_agree. intros r' Hr'. apply Hagree.
          eapply elem_of_take_full, Hr'. }
        split; [exact Hi |].
        rewrite lookup_insert_ne by lia. exact Hmap.
      * rewrite list_lookup_middle in Hj by reflexivity. injection Hj as <-.
        exists n1, a1, b, ws.
        split.
        { split; [apply list_lookup_middle; reflexivity |].
          split; [apply list_lookup_middle; exact Hlen |].
          apply list_lookup_insert_eq. eapply lookup_lt_Some, Hn. }
        split; [reflexivity |]. split; [exact Ho |]. split; [exact Hc |].
        split; [unfold a1; cbn [NeuralTreeNet.inputs]; rewrite indices_numpy_array; exact Hws |].
        split; [unfold a1; cbn [NeuralTreeNet.output]; rewrite Hsize; reflexivity |].
        split; [unfold a1; cbn [NeuralTreeNet.coef_size]; rewrite Hc; reflexivity |].
        split.
        { unfold a1. cbn [NeuralTreeNet.first_coef]. rewrite Hnext. f_equal.
          rewrite take_app_length. symmetry. apply total_size_agree. exact Hagree. }
        split.
        { unfold a1. cbn [NeuralTreeNet.inputs]. rewrite indices_numpy_array.
          eapply Forall_impl; [exact Hin |]. simpl. intros i Hi. lia. }
        rewrite <- Hsize. apply lookup_insert_eq.
      * apply lookup_lt_Some in Hj. rewrite length_app in Hj. simpl in Hj. lia.
    + intros k Hk.
      destruct (decide (k = size)) as [-> | Hne]; [lia |].
      rewrite lookup_insert_ne in Hk by congruence.
      apply Hkeys in Hk. lia.
Qed.

Lemma passthrough_assembled : assembled passthrough_world.
Proof.
  apply (assembled_append
           (NeuralTreeNet.mk_world [identity_unit [1; 1]%R 0] (empty_net 2))
           passthrough_world 0 (NeuralTreeNet.PyList [0; 1]%Z)
           (identity_unit [1; 1]%R 0) 0%R [1; 1]%R).
  - apply assembled_empty. lia.
  - reflexivity.
  - reflexivity.
  - reflexivity.
  - simpl. apply not_elem_of_nil.
  - repeat constructor; simpl; lia.
  - reflexivity.
Defined.

(** X18. In a network assembled from units with one output, the unit of
    position [j] has the identifier [j] and writes the slot [dim + j];
    [size_] is [dim] plus the number of units; the inputs of a unit are
    slots before its own; [first_coef] is the number of coefficients of
    the units before it and [coef_size] the number of its coefficients;
    [self[j]] is the unit with its metadata, and [output_to_node_] maps the
    slot [dim + j] to them. *)
Theorem assembled_network_layout (w : NeuralTreeNet.world) :
  assembled w ->
  NeuralTreeNet.size_ (NeuralTreeNet.self w)
  = (NeuralTreeNet.dim (NeuralTreeNet.self w)
     + NeuralTreeNet.__len__ (NeuralTreeNet.self w))%Z /\
  length (NeuralTreeNet.nodes_attr (NeuralTreeNet.self w))
  = length (NeuralTreeNet.nodes (NeuralTreeNet.self w)) /\
  forall (j : nat) (r : nat) (n : NeuralTreeNode.t) (a : NeuralTreeNet.attr),
    unit_at w j r n a ->
    NeuralTreeNode.nodeid n = Z.of_nat j /\
    NeuralTreeNet.output a
    = NeuralTreeNet.OInt (NeuralTreeNet.dim (NeuralTreeNet.self w) + Z.of_nat j) /\
    Forall (fun i => (0 <= i < NeuralTreeNet.dim (NeuralTreeNet.self w) + Z.of_nat j)%Z)
           (NeuralTreeNet.indices (NeuralTreeNet.inputs a)) /\
    NeuralTreeNet.coef_size a = Z.of_nat (size_of (NeuralTreeNode.coef n)) /\
    NeuralTreeNet.first_coef a
    = Z.of_nat (total_size (NeuralTreeNet.heap w)
                  (take j (NeuralTreeNet.nodes (NeuralTreeNet.self w)))) /\
    NeuralTreeNet.__getitem__ (NeuralTreeNet.self w) (Z.of_nat j) = Ok (r, a) /\
    NeuralTreeNet.output_to_node_ (NeuralTreeNet.self w)
      !! (NeuralTreeNet.dim (NeuralTreeNet.self w) + Z.of_nat j)%Z = Some (r, a).
Proof.
  intros Hw. apply assembled_laid_out in Hw as (Hd & Hlen & Hsize & Hnd & Hunits & Hkeys).
  split; [exact Hsize |]. split; [symmetry; exact Hlen |].
  intros j r n a (Hr & Ha & Hn).
  destruct (Hunits j r Hr)
    as (n0 & a0 & b & ws & (_ & Ha0 & Hn0) & Hid & Ho & Hc & Hw0 & Hout & Hcs & Hfc & Hi & Hmap).
  assert (a0 = a) by congruence. assert (n0 = n) by congruence. subst a0 n0.
  split; [exact Hid |]. split; [exact Hout |]. split; [exact Hi |].
  split; [rewrite Hcs, Hc; reflexivity |]. split; [exact Hfc |].
  split; [| exact Hmap].
  unfold NeuralTreeNet.__getitem__.
  rewrite (getitem_nonneg _ (Z.of_nat j) r) by (lia || (rewrite Nat2Z.id; exact Hr)).
  rewrite (getitem_nonneg _ (Z.of_nat j) a) by (lia || (rewrite Nat2Z.id; exact Ha)).
  reflexivity.
Qed.

Lemma assembled_network_layout_witness :
  NeuralTreeNet.size_ (NeuralTreeNet.self passthrough_world)
  = (NeuralTreeNet.dim (NeuralTreeNet.self passthrough_world)
     + NeuralTreeNet.__len__ (NeuralTreeNet.self passthrough_world))%Z /\
  length (NeuralTreeNet.nodes_attr (NeuralTreeNet.self passthrough_world))
  = length (NeuralTreeNet.nodes (NeuralTreeNet.self passthrough_world)) /\
  forall (j : nat) (r : nat) (n : NeuralTreeNode.t) (a : NeuralTreeNet.attr),
    unit_at passthrough_world j r n a ->
    NeuralTreeNode.nodeid n = Z.of_nat j /\
    NeuralTreeNet.output a
    = NeuralTreeNet.OInt (NeuralTreeNet.dim (NeuralTreeNet.self passthrough_world)
                          + Z.of_nat j) /\
    Forall (fun i => (0 <= i < NeuralTreeNet.dim (NeuralTreeNet.self passthrough_world)
                               + Z.of_nat j)%Z)
           (NeuralTreeNet.indices (NeuralTreeNet.inputs a)) /\
    NeuralTreeNet.coef_size a = Z.of_nat (size_of (NeuralTreeNode.coef n)) /\
    NeuralTreeNet.first_coef a
    = Z.of_nat (total_size (NeuralTreeNet.heap passthrough_world)
                  (take j (NeuralTreeNet.nodes (NeuralTreeNet.self passthrough_world)))) /\
    NeuralTreeNet.__getitem__ (NeuralTreeNet.self passthrough_world) (Z.of_nat j)
    = Ok (r, a) /\
    NeuralTreeNet.output_to_node_ (NeuralTreeNet.self passthrough_world)
      !! (NeuralTreeNet.dim (NeuralTreeNet.self passthrough_world) + Z.of_nat j)%Z
    = Some (r, a).
Proof.
  apply (assembled_network_layout passthrough_world). exact passthrough_assembled.
Defined.

(** ** The unit the losses of a network are delegated to *)

Lemma range_last (k : Z) : range (k - 1) k = [(k - 1)%Z].
Proof.
  unfold range. replace (k - (k - 1))%Z with 1%Z by lia. simpl.
  f_equal. lia.
Qed.

(** X19. In a network assembled from [k] units with one output over [dim]
    inputs, [_get_output_node_attr(1)], which the three loss methods call,
    looks the identifier [k - 1] of the last unit up among the output
    slots: without units it raises [IndexError]; with [k <= dim] units it
    raises [KeyError]; with more units it returns the unit that writes the
    slot [k - 1], the unit of position [k - 1 - dim], which is the last
    unit only when [dim] is 0. *)
Theorem output_node_lookup (w : NeuralTreeNet.world) :
  assembled w ->
  let net := NeuralTreeNet.self w in
  let k := Z.of_nat (length (NeuralTreeNet.nodes net)) in
  let d := NeuralTreeNet.dim net in
  (k = 0%Z ->
   NeuralTreeNet._get_output_node_attr (NeuralTreeNet.heap w) net 1 = Raise IndexError) /\
  ((0 < k <= d)%Z ->
   NeuralTreeNet._get_output_node_attr (NeuralTreeNet.heap w) net 1
   = Raise (KeyError (k - 1))) /\
  ((d < k)%Z ->
   exists (r : nat) (a : NeuralTreeNet.attr),
     NeuralTreeNet.__getitem__ net (k - 1 - d) = Ok (r, a) /\
     NeuralTreeNet._get_output_node_attr (NeuralTreeNet.heap w) net 1 = Ok (r, a)).
Proof.
  intros Hw. apply assembled_laid_out in Hw as (Hd & Hlen & Hsize & Hnd & Hunits & Hkeys).
  cbv zeta. unfold NeuralTreeNet._get_output_node_attr.
  rewrite range_last. cbn [rmap].
  split; [| split].
  - intros Hk.
    destruct (NeuralTreeNet.nodes (NeuralTreeNet.self w)); [reflexivity | discriminate].
  - intros Hk.
    set (k := length (NeuralTreeNet.nodes (NeuralTreeNet.self w))) in *.
    destruct (lookup_lt_is_Some_2 (NeuralTreeNet.nodes (NeuralTreeNet.self w)) (k - 1))
      as [r Hr]; [unfold k in *; lia |].
    destruct (Hunits (k - 1) r Hr) as (n & a & b & ws & (_ & Ha & Hn) & Hid & _).
    rewrite (getitem_nonneg _ (Z.of_nat k - 1) r)
      by (lia || (replace (Z.to_nat (Z.of_nat k - 1)) with (k - 1) by lia; exact Hr)).
    cbn [rbind]. rewrite (deref_some _ _ _ Hn). cbn [rbind]. rewrite Hid.
    destruct (NeuralTreeNet.output_to_node_ (NeuralTreeNet.self w) !! Z.of_nat (k - 1))
      as [x|] eqn:Hx.
    + assert (His : is_Some (NeuralTreeNet.output_to_node_ (NeuralTreeNet.self w)
                               !! Z.of_nat (k - 1))) by (rewrite Hx; eauto).
      apply Hkeys in His. lia.
    + cbn [of_option rbind]. do 2 f_equal. lia.
  - intros Hk.
    set (k := length (NeuralTreeNet.nodes (NeuralTreeNet.self w))) in *.
    set (d := NeuralTreeNet.dim (NeuralTreeNet.self w)) in *.
    destruct (lookup_lt_is_Some_2 (NeuralTreeNet.nodes (NeuralTreeNet.self w)) (k - 1))
      as [r Hr]; [unfold k in *; lia |].
    destruct (Hunits (k - 1) r Hr) as (n & a & b & ws & (_ & Ha & Hn) & Hid & _).
    set (j := Z.to_nat (Z.of_nat k - 1 - d)).
    destruct (lookup_lt_is_Some_2 (NeuralTreeNet.nodes (NeuralTreeNet.self w)) j)
      as [rj Hrj]; [unfold k, j in *; lia |].
    destruct (Hunits j rj Hrj)
      as (nj & aj & bj & wsj & (_ & Haj & Hnj) & Hidj & _ & _ & _ & _ & _ & _ & _ & Hmap).
    assert (Hkey : (d + Z.of_nat j = Z.of_nat k - 1)%Z) by (unfold j; lia).
    rewrite Hkey in Hmap.
    exists rj, aj. split.
    { unfold NeuralTreeNet.__getitem__.
      rewrite (getitem_nonneg _ _ rj) by (lia || exact Hrj).
      rewrite (getitem_nonneg _ _ aj) by (lia || exact Haj). reflexivity. }
    rewrite (getitem_nonneg _ (Z.of_nat k - 1) r)
      by (lia || (replace (Z.to_nat (Z.of_nat k - 1)) with (k - 1) by lia; exact Hr)).
    cbn [rbind]. rewrite (deref_some _ _ _ Hn). cbn [rbind]. rewrite Hid.
    replace (Z.of_nat (k - 1)) with (Z.of_nat k - 1)%Z by lia.
    rewrite Hmap. cbn [of_option rbind]. rewrite (deref_some _ _ _ Hnj). cbn [rbind].
    rewrite (right_id_L ∅ (∪) _ : list_to_set [NeuralTreeNode.nodeid nj]
                                  = ({[NeuralTreeNode.nodeid nj]} : gset Z)).
    rewrite size_singleton. reflexivity.
Qed.

Lemma output_node_lookup_witness :
  (Z.of_nat (length (NeuralTreeNet.nodes (NeuralTreeNet.self passthrough_world))) = 0%Z ->
   NeuralTreeNet._get_output_node_attr (NeuralTreeNet.heap passthrough_world)
     (NeuralTreeNet.self passthrough_world) 1 = Raise IndexError) /\
  ((0 < Z.of_nat (length (NeuralTreeNet.nodes (NeuralTreeNet.self passthrough_world)))
    <= NeuralTreeNet.dim (NeuralTreeNet.self passthrough_world))%Z ->
   NeuralTreeNet._get_output_node_attr (NeuralTreeNet.heap passthrough_world)
     (NeuralTreeNet.self passthrough_world) 1
   = Raise (KeyError (Z.of_nat (length (NeuralTreeNet.nodes
                                          (NeuralTreeNet.self passthrough_world))) - 1))) /\
  ((NeuralTreeNet.dim (NeuralTreeNet.self passthrough_world)
    < Z.of_nat (length (NeuralTreeNet.nodes (NeuralTreeNet.self passthrough_world))))%Z ->
   exists (r : nat) (a : NeuralTreeNet.attr),
     NeuralTreeNet.__getitem__ (NeuralTreeNet.self passthrough_world)
       (Z.of_nat (length (NeuralTreeNet.nodes (NeuralTreeNet.self passthrough_world)))
        - 1 - NeuralTreeNet.dim (NeuralTreeNet.self passthrough_world)) = Ok (r, a) /\
     NeuralTreeNet._get_output_node_attr (NeuralTreeNet.heap passthrough_world)
       (NeuralTreeNet.self passthrough_world) 1 = Ok (r, a)).
Proof.
  apply (output_node_lookup passthrough_world). exact passthrough_assembled.
Defined.

(** ** The two ways of updating the members *)

Lemma register_all_fields (l : list (nat * NeuralTreeNet.attr)) :
  forall init init' : NeuralTreeNet.t,
    NeuralTreeNet.output_to_node_ init = NeuralTreeNet.output_to_node_ init' ->
    NeuralTreeNet.input_to_node_ init = NeuralTreeNet.input_to_node_ init' ->
    register_all init l
    = NeuralTreeNet.mk (NeuralTreeNet.dim init) (NeuralTreeNet.nodes init)
        (NeuralTreeNet.nodes_attr init) (NeuralTreeNet.size_ init)
        (NeuralTreeNet.output_to_node_ (register_all init' l))
        (NeuralTreeNet.input_to_node_ (register_all init' l)).
Proof.
  induction l as [|[r a] l IH]; intros init init' Ho Hi.
  - destruct init. simpl in *. subst. reflexivity.
  - cbn [register_all foldl]. fold (register_all (NeuralTreeNet.register r a init) l).
    fold (register_all (NeuralTreeNet.register r a init') l).
    rewrite (IH (NeuralTreeNet.register r a init) (NeuralTreeNet.register r a init')).
    + reflexivity.
    + simpl. rewrite Ho. reflexivity.
    + simpl. rewrite Hi. reflexivity.
Qed.

Lemma next_slot_snoc (attrs : list NeuralTreeNet.attr) (a : NeuralTreeNet.attr) (size : Z) :
  (attrs = [] \/ NeuralTreeNet.next_slot attrs = Ok size) ->
  NeuralTreeNet.output a = NeuralTreeNet.OInt size ->
  NeuralTreeNet.next_slot (attrs ++ [a]) = Ok (size + 1)%Z.
Proof.
  intros Hprev Ha. unfold NeuralTreeNet.next_slot in *.
  set (f := fun a0 : NeuralTreeNet.attr =>
              match NeuralTreeNet.output a0 with
              | NeuralTreeNet.OInt o => Ok o
              | NeuralTreeNet.OList _ => Raise TypeError
              end) in *.
  assert (Happ : forall l1 l2, rmap f (l1 ++ l2)
                               = let* x := rmap f l1 in let* y := rmap f l2 in Ok (x ++ y)).
  { induction l1 as [|x l1 IH]; intros l2; simpl.
    - destruct (rmap f l2); reflexivity.
    - destruct (f x); simpl; [| reflexivity]. rewrite IH.
      destruct (rmap f l1); simpl; [| reflexivity].
      destruct (rmap f l2); reflexivity. }
  rewrite Happ. cbn [rmap]. unfold f at 2. rewrite Ha. cbn [rbind].
  destruct Hprev as [-> | Hprev].
  - reflexivity.
  - destruct (rmap f attrs) as [os|e]; [| discriminate]. cbn [rbind] in *.
    destruct os as [|o os]; [discriminate |]. injection Hprev as Hmax.
    cbn [app]. rewrite fold_left_app. cbn [fold_left]. f_equal. lia.
Qed.

Lemma assembled_rebuilt (w : NeuralTreeNet.world) :
  assembled w ->
  length (NeuralTreeNet.nodes (NeuralTreeNet.self w))
  = length (NeuralTreeNet.nodes_attr (NeuralTreeNet.self w)) /\
  NeuralTreeNet.rebuilt (NeuralTreeNet.self w) = Ok (NeuralTreeNet.self w).
Proof.
  induction 1 as [h d Hd | w n' _ IH | w w' node inputs n b ws _ IH Hn Ho Hc Hfresh Hin Happ].
  - split; reflexivity.
  - exact IH.
  - destruct (append_single_ok w w' node inputs n b ws Hn Ho Hc Happ) as [Hws ->].
    destruct IH as [Hlen IH].
    destruct w as [h [d ns attrs size o2n i2n]].
    unfold appended, attr_for.
    cbn [NeuralTreeNet.heap NeuralTreeNet.self NeuralTreeNet.dim NeuralTreeNet.nodes
         NeuralTreeNet.nodes_attr NeuralTreeNet.size_ NeuralTreeNet.output_to_node_
         NeuralTreeNet.input_to_node_] in *.
    set (a := NeuralTreeNet.mk_attr _ _ _ _).
    split; [cbn; rewrite !length_app, Hlen; reflexivity |].
    unfold NeuralTreeNet.rebuilt in *.
    cbn [NeuralTreeNet.register NeuralTreeNet.dim NeuralTreeNet.nodes
         NeuralTreeNet.nodes_attr NeuralTreeNet.size_] in *.
    assert (Hex : exists s,
               (attrs = [] \/ NeuralTreeNet.next_slot attrs = Ok size) /\
               register_all (NeuralTreeNet.mk d ns attrs s ∅ ∅) (zip ns attrs)
               = NeuralTreeNet.mk d ns attrs size o2n i2n).
    { destruct attrs as [|a0 attrs].
      - exists d. cbn [rbind] in IH. injection IH as IH. split; [left; reflexivity | exact IH].
      - destruct (NeuralTreeNet.next_slot (a0 :: attrs)) as [s|e]; [| discriminate].
        cbn [rbind] in IH. injection IH as IH. exists s.
        fold (register_all (NeuralTreeNet.mk d ns (a0 :: attrs) s ∅ ∅)
                (zip ns (a0 :: attrs))) in IH.
        split; [right | exact IH].
        apply (f_equal NeuralTreeNet.size_) in IH.
        rewrite (register_all_fields _ _ (NeuralTreeNet.mk d ns (a0 :: attrs) s ∅ ∅)) in IH
          by reflexivity.
        cbn [NeuralTreeNet.size_] in IH. subst s. reflexivity. }
    destruct Hex as (s & Hprev & Hs).
    assert (Hsize : match attrs ++ [a] with
                    | [] => Ok d
                    | _ => NeuralTreeNet.next_slot (attrs ++ [a])
                    end = Ok (size + 1)%Z).
    { transitivity (NeuralTreeNet.next_slot (attrs ++ [a])).
      { destruct attrs; reflexivity. }
      apply next_slot_snoc; [exact Hprev | reflexivity]. }
    rewrite Hsize. cbn [rbind].
    assert (Hfold : register_all (NeuralTreeNet.mk d ns attrs size ∅ ∅) (zip ns attrs)
                    = NeuralTreeNet.mk d ns attrs size o2n i2n).
    { rewrite (register_all_fields _ _ (NeuralTreeNet.mk d ns attrs s ∅ ∅)) by reflexivity.
      rewrite Hs. reflexivity. }
    rewrite zip_with_app by exact Hlen.
    rewrite foldl_app. cbn [zip_with foldl].
    fold (register_all (NeuralTreeNet.mk d (ns ++ [node]) (attrs ++ [a]) (size + 1) ∅ ∅)
            (zip ns attrs)).
    rewrite (register_all_fields _ _ (NeuralTreeNet.mk d ns attrs size ∅ ∅)) by reflexivity.
    rewrite Hfold. reflexivity.
Qed.

(** X20. In a network assembled from units with one output the members
    [size_], [output_to_node_] and [input_to_node_], which [append] updates
    for the unit it adds, are what [_update_members()] computes from all
    the units: recomputing them changes nothing. *)
Theorem full_update_agrees_with_incremental (w : NeuralTreeNet.world) :
  assembled w ->
  NeuralTreeNet.rebuilt (NeuralTreeNet.self w) = Ok (NeuralTreeNet.self w) /\
  NeuralTreeNet._update_members None w = (Ok tt, w).
Proof.
  intros Hw. destruct (assembled_rebuilt w Hw) as [_ Hr].
  split; [exact Hr |].
  unfold NeuralTreeNet._update_members. rewrite Hr. destruct w. reflexivity.
Qed.

Lemma full_update_agrees_witness :
  NeuralTreeNet.rebuilt (NeuralTreeNet.self passthrough_world)
  = Ok (NeuralTreeNet.self passthrough_world) /\
  NeuralTreeNet._update_members None passthrough_world = (Ok tt, passthrough_world).
Proof.
  apply (full_update_agrees_with_incremental passthrough_world).
  exact passthrough_assembled.
Defined.

(** ** The forward pass of an assembled network *)

Lemma getitem_insert_ne (res : list R) (q : nat) (v : R) (i : Z) :
  (0 <= i)%Z -> Z.to_nat i <> q -> getitem (<[q := v]> res) i = getitem res i.
Proof.
  intros Hi Hne. unfold getitem, py_index. rewrite length_insert.
  destruct (0 <=? i)%Z eqn:H0; [| lia].
  destruct (i <? Z.of_nat (length res))%Z; [| reflexivity].
  rewrite list_lookup_insert_ne by congruence. reflexivity.
Qed.

Lemma take_at_insert (res : list R) (q : nat) (v : R) (idx : list Z) :
  Forall (fun i => (0 <= i < Z.of_nat q)%Z) idx ->
  take_at (<[q := v]> res) idx = take_at res idx.
Proof.
  unfold take_at. induction 1 as [|i idx Hi _ IH]; simpl; [reflexivity |].
  rewrite getitem_insert_ne by lia. rewrite IH. reflexivity.
Qed.

Lemma gather_insert (res : list R) (q : nat) (v : R) (idx : NeuralTreeNet.index_array) :
  Forall (fun i => (0 <= i < Z.of_nat q)%Z) (NeuralTreeNet.indices idx) ->
  NeuralTreeNet.gather (<[q := v]> res) idx = NeuralTreeNet.gather res idx.
Proof.
  intros H. unfold NeuralTreeNet.gather.
  destruct (NeuralTreeNet.integer_dtype idx); [apply take_at_insert, H | reflexivity].
Qed.

Lemma take_at_length (res : list R) (idx : list Z) (x : list R) :
  take_at res idx = Ok x -> length x = length idx.
Proof.
  unfold take_at. revert x. induction idx as [|i idx IH]; intros x H; simpl in H.
  - injection H as <-. reflexivity.
  - apply rbind_ok in H as (y & _ & H). apply rbind_ok in H as (ys & Hys & H).
    injection H as <-. simpl. f_equal. apply IH, Hys.
Qed.

Lemma take_at_in_range (res : list R) (idx : list Z) :
  Forall (fun i => (0 <= i < Z.of_nat (length res))%Z) idx ->
  exists x, take_at res idx = Ok x.
Proof.
  unfold take_at. induction 1 as [|i idx Hi _ [x IH]]; simpl; [eauto |].
  destruct (lookup_lt_is_Some_2 res (Z.to_nat i)) as [y Hy]; [lia |].
  rewrite (getitem_nonneg res i y) by (lia || exact Hy). cbn [rbind].
  rewrite IH. cbn [rbind]. eauto.
Qed.

(** One step of the loop of [_predict_one] for a unit that writes one
    slot. *)
Lemma evaluate_single (h : list NeuralTreeNode.t) (res res' : list R) (r : nat)
      (a : NeuralTreeNet.attr) (o : Z) :
  NeuralTreeNet.output a = NeuralTreeNet.OInt o ->
  (0 <= o)%Z ->
  NeuralTreeNet.evaluate h res (r, a) = Ok res' ->
  exists (n : NeuralTreeNode.t) (x : list R) (y : ndarray) (v : R),
    h !! r = Some n /\
    NeuralTreeNet.gather res (NeuralTreeNet.inputs a) = Ok x /\
    NeuralTreeNode.predict n (A1 x) = Ok y /\
    ravel y = [v] /\
    Z.to_nat o < length res /\
    res' = <[Z.to_nat o := v]> res.
Proof.
  intros Ho Hpos H. unfold NeuralTreeNet.evaluate in H. cbn [fst snd] in H.
  apply rbind_ok in H as (n & Hn & H).
  apply rbind_ok in H as (x & Hx & H).
  apply rbind_ok in H as (y & Hy & H).
  rewrite Ho in H. cbn [NeuralTreeNet.scatter] in H. unfold put_one in H.
  destruct (ravel y) as [|v [|v' l]] eqn:Hr; try discriminate.
  unfold setitem in H. destruct (py_index (length res) o) as [p|] eqn:Hp; [| discriminate].
  injection H as <-.
  assert (Hlt : p < length res).
  { unfold py_index in Hp. destruct (0 <=? o)%Z eqn:H0; [| lia].
    destruct (o <? Z.of_nat (length res))%Z eqn:H1; [| discriminate].
    injection Hp as <-. lia. }
  apply py_index_nonneg in Hp; [| exact Hpos]. subst p.
  exists n, x, y, v.
  unfold deref in Hn. destruct (h !! r) as [n0|]; [| discriminate]. injection Hn as ->.
  repeat split; assumption.
Qed.

(** The loop of [_predict_one] over units that each write the slot after
    the slots of the units before and read slots before their own: when it
    ends, every slot holds what its unit computes from the final buffer. *)
Lemma run_units_equations (h : list NeuralTreeNode.t) (d : Z)
      (units : list (nat * NeuralTreeNet.attr)) :
  (0 <= d)%Z ->
  (forall j u, units !! j = Some u ->
     NeuralTreeNet.output (snd u) = NeuralTreeNet.OInt (d + Z.of_nat j) /\
     Forall (fun i => (0 <= i < d + Z.of_nat j)%Z)
            (NeuralTreeNet.indices (NeuralTreeNet.inputs (snd u)))) ->
  forall res0 res : list R,
    rfold (NeuralTreeNet.evaluate h) units res0 = Ok res ->
    length res = length res0 /\
    forall j u, units !! j = Some u ->
      exists (n : NeuralTreeNode.t) (x : list R) (y : ndarray) (v : R),
        h !! fst u = Some n /\
        NeuralTreeNet.gather res (NeuralTreeNet.inputs (snd u)) = Ok x /\
        NeuralTreeNode.predict n (A1 x) = Ok y /\
        ravel y = [v] /\
        res !! Z.to_nat (d + Z.of_nat j) = Some v.
Proof.
  intros Hd. induction units as [|[r a] units IH] using rev_ind; intros Hunits res0 res Hrun.
  - injection Hrun as <-. split; [reflexivity |].
    intros j u Hj. rewrite lookup_nil in Hj. discriminate.
  - rewrite rfold_app in Hrun. apply rbind_ok in Hrun as (res1 & Hrun1 & Hlast).
    cbn [rfold] in Hlast. apply rbind_ok in Hlast as (res2 & Hlast & Heq).
    injection Heq as ->.
    destruct (IH (fun j u Hj => Hunits j u (lookup_app_l_Some _ _ _ _ Hj)) res0 res1 Hrun1)
      as [Hlen1 Heqs].
    destruct (Hunits (length units) (r, a)) as [Hout Hin];
      [apply list_lookup_middle; reflexivity |].
    cbn [snd] in Hout, Hin.
    destruct (evaluate_single h res1 res r a _ Hout ltac:(lia) Hlast)
      as (n & x & y & v & Hn & Hx & Hy & Hv & Hlt & ->).
    split; [rewrite length_insert; exact Hlen1 |].
    intros j u Hj.
    destruct (Nat.lt_total j (length units)) as [Hjlt | [-> | Hgt]].
    + rewrite lookup_app_l in Hj by exact Hjlt.
      destruct (Heqs j u Hj) as (n' & x' & y' & v' & Hn' & Hx' & Hy' & Hv' & Hres').
      destruct (Hunits j u (lookup_app_l_Some _ _ _ _ Hj)) as [_ Hin'].
      exists n', x', y', v'.
      split; [exact Hn' |]. split.
      { rewrite gather_insert; [exact Hx' |].
        eapply Forall_impl; [exact Hin' |]. simpl. intros i Hi. lia. }
      split; [exact Hy' |]. split; [exact Hv' |].
      rewrite list_lookup_insert_ne by lia. exact Hres'.
    + rewrite list_lookup_middle in Hj by reflexivity. injection Hj as <-.
      exists n, x, y, v. cbn [fst snd].
      split; [exact Hn |]. split.
      { rewrite gather_insert; [exact Hx |].
        eapply Forall_impl; [exact Hin |]. simpl. intros i Hi. lia. }
      split; [exact Hy |]. split; [exact Hv |].
      apply list_lookup_insert_eq. exact Hlt.
    + apply lookup_lt_Some in Hj. rewrite length_app in Hj. simpl in Hj. lia.
Qed.

Lemma gather_length (res : list R) (idx : NeuralTreeNet.index_array) (x : list R) :
  NeuralTreeNet.gather res idx = Ok x -> length x = length (NeuralTreeNet.indices idx).
Proof.
  unfold NeuralTreeNet.gather. destruct (NeuralTreeNet.integer_dtype idx); [| discriminate].
  apply take_at_length.
Qed.

Lemma laid_out_units (w : NeuralTreeNet.world) :
  laid_out w ->
  forall j u,
    zip (NeuralTreeNet.nodes (NeuralTreeNet.self w))
        (NeuralTreeNet.nodes_attr (NeuralTreeNet.self w)) !! j = Some u ->
    NeuralTreeNet.output (snd u)
    = NeuralTreeNet.OInt (NeuralTreeNet.dim (NeuralTreeNet.self w) + Z.of_nat j) /\
    Forall (fun i => (0 <= i < NeuralTreeNet.dim (NeuralTreeNet.self w) + Z.of_nat j)%Z)
           (NeuralTreeNet.indices (NeuralTreeNet.inputs (snd u))).
Proof.
  intros (_ & _ & _ & _ & Hunits & _) j u Hj.
  apply lookup_zip_with_Some in Hj as (r & a & -> & Hr & Ha).
  destruct (Hunits j r Hr) as (n & a' & b & ws & (_ & Ha' & _) & _ & _ & _ & _ & Hout & _ & _ & Hi & _).
  assert (a' = a) by congruence. subst a'. split; assumption.
Qed.

(** X21. The forward pass of a network assembled from units with one
    output, when it returns, returns a buffer of [size_] entries that
    satisfies the equations of the network: the first [dim] entries are the
    sample, and the entry [dim + j] is the activation of unit [j] applied
    to the scalar product of its weights and the entries at its input
    slots, plus its bias. *)
Theorem forward_pass_equations (w : NeuralTreeNet.world) (X : ndarray) (res : list R) :
  assembled w ->
  NeuralTreeNet._predict_one (NeuralTreeNet.heap w) (NeuralTreeNet.self w) X = Ok res ->
  length res = Z.to_nat (NeuralTreeNet.size_ (NeuralTreeNet.self w)) /\
  (forall x : list R,
      X = A1 x ->
      length x = Z.to_nat (NeuralTreeNet.dim (NeuralTreeNet.self w)) ->
      take (Z.to_nat (NeuralTreeNet.dim (NeuralTreeNet.self w))) res = x) /\
  (forall (j : nat) (r : nat) (n : NeuralTreeNode.t) (a : NeuralTreeNet.attr),
      unit_at w j r n a ->
      exists (x : list R) (b : R) (ws : list R) (y : ndarray) (v : R),
        NeuralTreeNet.gather res (NeuralTreeNet.inputs a) = Ok x /\
        NeuralTreeNode.coef n = A1 (b :: ws) /\
        length x = length ws /\
        NeuralTreeNode.activation_ n (A0 (dot x ws + b)) = Ok y /\
        ravel y = [v] /\
        res !! Z.to_nat (NeuralTreeNet.dim (NeuralTreeNet.self w) + Z.of_nat j) = Some v).
Proof.
  intros Hw Hrun. apply assembled_laid_out in Hw as Hlay.
  pose proof Hlay as (Hd & Hlen & Hsize & Hnd & Hunits & Hkeys).
  split; [eapply predict_one_length, Hrun |].
  split.
  { intros x -> Hx. eapply predict_one_seeds; [| exact Hx | | exact Hrun].
    - lia.
    - apply Forall_forall. intros a Ha.
      apply list_elem_of_lookup in Ha as (j & Hj).
      destruct (lookup_lt_is_Some_2 (NeuralTreeNet.nodes (NeuralTreeNet.self w)) j)
        as [r Hr]; [rewrite Hlen; eapply lookup_lt_Some, Hj |].
      destruct (Hunits j r Hr)
        as (n & a' & b & ws & (_ & Ha' & _) & _ & _ & _ & _ & Hout & _).
      assert (a' = a) by congruence. subst a'. rewrite Hout. simpl.
      constructor; [lia | constructor]. }
  intros j r n a (Hr & Ha & Hn).
  unfold NeuralTreeNet._predict_one in Hrun.
  apply rbind_ok in Hrun as (res0 & _ & Hrun).
  apply rbind_ok in Hrun as (res1 & _ & Hrun).
  destruct (run_units_equations (NeuralTreeNet.heap w) _ _ Hd (laid_out_units w Hlay)
              res1 res Hrun) as [_ Heqs].
  destruct (Heqs j (r, a)) as (n' & x & y & v & Hn' & Hx & Hy & Hv & Hres).
  { apply lookup_zip_with_Some. eauto. }
  cbn [fst snd] in *. assert (n' = n) by congruence. subst n'.
  destruct (Hunits j r Hr)
    as (n0 & a0 & b & ws & (_ & Ha0 & Hn0) & _ & Ho & Hc & Hws & _).
  assert (a0 = a) by congruence. assert (n0 = n) by congruence. subst a0 n0.
  assert (Hxl : length x = length ws) by (rewrite Hws; eapply gather_length, Hx).
  exists x, b, ws, y, v.
  split; [exact Hx |]. split; [exact Hc |]. split; [exact Hxl |].
  split; [| split; assumption].
  rewrite predict_after_activation in Hy.
  rewrite (affine_predict n (NeuralTreeNode.activation n) ws b (NeuralTreeNode.nodeid n) x)
    in Hy by (repeat split; assumption).
  exact Hy.
Qed.

Lemma passthrough_predict :
  NeuralTreeNet._predict_one (NeuralTreeNet.heap passthrough_world)
    (NeuralTreeNet.self passthrough_world) (A1 [1; 2]%R) = Ok [1; 2; 3]%R.
Proof.
  cbv. do 3 apply f_equal. apply (f_equal (fun x => [x])). lra.
Defined.

Lemma forward_pass_equations_witness :
  length [1; 2; 3]%R = Z.to_nat (NeuralTreeNet.size_ (NeuralTreeNet.self passthrough_world)) /\
  (forall x : list R,
      A1 [1; 2]%R = A1 x ->
      length x = Z.to_nat (NeuralTreeNet.dim (NeuralTreeNet.self passthrough_world)) ->
      take (Z.to_nat (NeuralTreeNet.dim (NeuralTreeNet.self passthrough_world)))
           [1; 2; 3]%R = x) /\
  (forall (j : nat) (r : nat) (n : NeuralTreeNode.t) (a : NeuralTreeNet.attr),
      unit_at passthrough_world j r n a ->
      exists (x : list R) (b : R) (ws : list R) (y : ndarray) (v : R),
        NeuralTreeNet.gather [1; 2; 3]%R (NeuralTreeNet.inputs a) = Ok x /\
        NeuralTreeNode.coef n = A1 (b :: ws) /\
        length x = length ws /\
        NeuralTreeNode.activation_ n (A0 (dot x ws + b)) = Ok y /\
        ravel y = [v] /\
        [1; 2; 3]%R !! Z.to_nat (NeuralTreeNet.dim (NeuralTreeNet.self passthrough_world)
                                 + Z.of_nat j) = Some v).
Proof.
  apply (forward_pass_equations passthrough_world (A1 [1; 2]%R) [1; 2; 3]%R).
  - exact passthrough_assembled.
  - exact passthrough_predict.
Defined.

(** On a scalar each of the nine activation functions returns a scalar. *)
Lemma known_activation_scalar (act : string) (f : act_fn) (z : R) :
  In act known_kinds ->
  NeuralTreeNode.get_activation_function act = Ok f ->
  exists v : R, f (A0 z) = Ok (A0 v).
Proof.
  simpl. intros H Hf.
  repeat (destruct H as [<- | H]; [injection Hf as <-; try (eexists; reflexivity) |]);
    try contradiction.
  - unfold vectorize, NeuralTreeNode._relu. cbn [ravel].
    destruct (Rlt_dec 0 z) as [Hz | Hz]; [eexists; reflexivity |].
    cbn [amap_result]. destruct (Rlt_dec 0 z); [contradiction |].
    eexists. reflexivity.
  - unfold vectorize, NeuralTreeNode._leakyrelu. cbn [ravel].
    destruct (Rlt_dec 0 z); eexists; reflexivity.
Qed.

Lemma evaluate_length (h : list NeuralTreeNode.t) (units : list (nat * NeuralTreeNet.attr)) :
  forall res0 res : list R,
    rfold (NeuralTreeNet.evaluate h) units res0 = Ok res -> length res = length res0.
Proof.
  intros res0 res.
  apply (rfold_invariant (fun r => length r = length res0)); [| reflexivity].
  intros s [node a] s' _ Hs Hstep. unfold NeuralTreeNet.evaluate in Hstep.
  apply rbind_ok in Hstep as (n & _ & Hstep).
  apply rbind_ok in Hstep as (x & _ & Hstep).
  apply rbind_ok in Hstep as (y & _ & Hstep).
  apply scatter_length in Hstep. lia.
Qed.

(** The loop of [_predict_one] runs to its end when every unit exists,
    has one output, as many weights as input slots, an activation that
    accepts scalars, and reads and writes slots of the buffer. *)
Lemma run_units_total (h : list NeuralTreeNode.t) (d : Z)
      (units : list (nat * NeuralTreeNet.attr)) :
  (0 <= d)%Z ->
  (forall j u, units !! j = Some u ->
     exists (n : NeuralTreeNode.t) (b : R) (ws : list R),
       h !! fst u = Some n /\
       NeuralTreeNode.n_outputs n = 1%Z /\
       NeuralTreeNode.coef n = A1 (b :: ws) /\
       length ws = length (NeuralTreeNet.indices (NeuralTreeNet.inputs (snd u))) /\
       NeuralTreeNet.integer_dtype (NeuralTreeNet.inputs (snd u)) = true /\
       (forall z, exists v, NeuralTreeNode.activation_ n (A0 z) = Ok (A0 v)) /\
       NeuralTreeNet.output (snd u) = NeuralTreeNet.OInt (d + Z.of_nat j) /\
       Forall (fun i => (0 <= i < d + Z.of_nat j)%Z)
              (NeuralTreeNet.indices (NeuralTreeNet.inputs (snd u)))) ->
  forall res0 : list R,
    (d + Z.of_nat (length units) <= Z.of_nat (length res0))%Z ->
    exists res, rfold (NeuralTreeNet.evaluate h) units res0 = Ok res.
Proof.
  intros Hd. induction units as [|[r a] units IH] using rev_ind; intros Hunits res0 Hlen.
  - exists res0. reflexivity.
  - rewrite length_app in Hlen. simpl in Hlen.
    destruct (IH (fun j u Hj => Hunits j u (lookup_app_l_Some _ _ _ _ Hj)) res0)
      as [res1 Hrun1]; [lia |].
    pose proof (evaluate_length h units res0 res1 Hrun1) as Hlen1.
    rewrite rfold_app, Hrun1. cbn [rbind rfold].
    destruct (Hunits (length units) (r, a))
      as (n & b & ws & Hn & Ho & Hc & Hws & Hint & Hact & Hout & Hin);
      [apply list_lookup_middle; reflexivity |].
    cbn [fst snd] in *.
    unfold NeuralTreeNet.evaluate. cbn [fst snd].
    rewrite (deref_some _ _ _ Hn). cbn [rbind].
    unfold NeuralTreeNet.gather. rewrite Hint.
    destruct (take_at_in_range res1 (NeuralTreeNet.indices (NeuralTreeNet.inputs a)))
      as [x Hx].
    { eapply Forall_impl; [exact Hin |]. simpl. intros i Hi. lia. }
    rewrite Hx. cbn [rbind].
    assert (Hxl : length x = length ws) by (rewrite Hws; eapply take_at_length, Hx).
    rewrite predict_after_activation.
    rewrite (affine_predict n (NeuralTreeNode.activation n) ws b (NeuralTreeNode.nodeid n) x)
      by (repeat split; assumption).
    cbn [rbind]. destruct (Hact (dot x ws + b)%R) as [v Hv]. rewrite Hv. cbn [rbind].
    rewrite Hout. cbn [NeuralTreeNet.scatter]. unfold put_one. cbn [ravel].
    destruct (setitem_in_range res1 (d + Z.of_nat (length units)) v) as (res & Hres & _);
      [lia |].
    rewrite Hres. cbn [rbind]. eauto.
Qed.

(** X22. The forward pass of a network assembled from units with one
    output returns for every sample with [dim] values, as soon as each unit
    has the activation function of one of the nine names and input slots
    held in an array of integers (what [numpy.array] makes of an integer
    array or of a list that is not empty). *)
Theorem forward_pass_succeeds (w : NeuralTreeNet.world) (x : list R) :
  assembled w ->
  length x = Z.to_nat (NeuralTreeNet.dim (NeuralTreeNet.self w)) ->
  (forall (j : nat) (r : nat) (n : NeuralTreeNode.t) (a : NeuralTreeNet.attr),
      unit_at w j r n a ->
      NeuralTreeNet.integer_dtype (NeuralTreeNet.inputs a) = true /\
      exists act : string,
        In act known_kinds /\
        NeuralTreeNode.get_activation_function act = Ok (NeuralTreeNode.activation_ n)) ->
  exists res : list R,
    NeuralTreeNet._predict_one (NeuralTreeNet.heap w) (NeuralTreeNet.self w) (A1 x) = Ok res /\
    NeuralTreeNet.predict (NeuralTreeNet.heap w) (NeuralTreeNet.self w) (A1 x) = Ok (A1 res).
Proof.
  intros Hw Hx Hgood. apply assembled_laid_out in Hw as Hlay.
  pose proof Hlay as (Hd & Hlen & Hsize & Hnd & Hunits & Hkeys).
  assert (Hex : exists res,
             NeuralTreeNet._predict_one (NeuralTreeNet.heap w) (NeuralTreeNet.self w) (A1 x)
             = Ok res).
  { unfold NeuralTreeNet._predict_one, NeuralTreeNet.zeros.
    destruct (NeuralTreeNet.size_ (NeuralTreeNet.self w) <? 0)%Z eqn:Hneg; [lia |].
    cbn [rbind].
    destruct (put_prefix (replicate (Z.to_nat (NeuralTreeNet.size_ (NeuralTreeNet.self w))) 0%R)
                (NeuralTreeNet.dim (NeuralTreeNet.self w)) (A1 x)) as [res1|e] eqn:Hput.
    2:{ exfalso. unfold put_prefix in Hput. rewrite length_replicate in Hput.
        assert (Hclip : clip (Z.to_nat (NeuralTreeNet.size_ (NeuralTreeNet.self w)))
                             (NeuralTreeNet.dim (NeuralTreeNet.self w)) = length x).
        { unfold clip.
          destruct (NeuralTreeNet.dim (NeuralTreeNet.self w) <? 0)%Z eqn:Hn; lia. }
        rewrite Hclip in Hput. unfold fits in Hput. rewrite Nat.eqb_refl in Hput.
        discriminate. }
    cbn [rbind]. apply put_prefix_length in Hput. rewrite length_replicate in Hput.
    apply (run_units_total (NeuralTreeNet.heap w) (NeuralTreeNet.dim (NeuralTreeNet.self w)));
      [exact Hd | | rewrite length_zip_with; lia].
    intros j u Hj. apply lookup_zip_with_Some in Hj as (r & a & -> & Hr & Ha).
    destruct (Hunits j r Hr)
      as (n & a' & b & ws & (_ & Ha' & Hn) & _ & Ho & Hc & Hws & Hout & _ & _ & Hi & _).
    assert (a' = a) by congruence. subst a'.
    destruct (Hgood j r n a) as (Hint & act & Hact & Hf); [repeat split; assumption |].
    exists n, b, ws. cbn [fst snd].
    repeat (split; [assumption |]).
    split; [| split; assumption].
    intros z. eapply known_activation_scalar; eassumption. }
  destruct Hex as [res Hres]. exists res. split; [exact Hres |].
  unfold NeuralTreeNet.predict. rewrite Hres. reflexivity.
Qed.

Lemma forward_pass_succeeds_witness :
  exists res : list R,
    NeuralTreeNet._predict_one (NeuralTreeNet.heap passthrough_world)
      (NeuralTreeNet.self passthrough_world) (A1 [5; 7]%R) = Ok res /\
    NeuralTreeNet.predict (NeuralTreeNet.heap passthrough_world)
      (NeuralTreeNet.self passthrough_world) (A1 [5; 7]%R) = Ok (A1 res).
Proof.
  apply (forward_pass_succeeds passthrough_world [5; 7]%R).
  - exact passthrough_assembled.
  - reflexivity.
  - intros j r n a (Hr & Ha & Hn).
    destruct j as [|j]; [| destruct j; discriminate Hr].
    injection Hr as <-. injection Ha as <-. injection Hn as <-.
    split; [reflexivity |]. exists "identity". split; [simpl; tauto | reflexivity].
Defined.

(** ** Training a network *)

(** X23. [gradient] never returns for a network: when the sample is a
    vector and the cache and the two derivatives of the loss have been
    computed, the last call, [gradient_backward], raises
    [NotImplementedError]. *)
Theorem network_gradient_never_returns (h : list NeuralTreeNode.t) (net : NeuralTreeNet.t)
        (X y : ndarray) (inputs : bool) :
  raises (gradient (h, net) X y inputs) /\
  forall (c : gmap Z NeuralTreeNet.cache_entry) (ds dw : ndarray),
    rank X = 1 ->
    NeuralTreeNet.fill_cache h net X = Ok c ->
    NeuralTreeNet.dlossds h net X y (Some c) = Ok ds ->
    NeuralTreeNet.dlossdw h net X y (Some c) = Ok dw ->
    gradient (h, net) X y inputs = Raise NotImplementedError.
Proof.
  split.
  - unfold gradient. destruct (negb _); [exact I |].
    apply raises_rbind. intros c. apply raises_rbind. intros ds.
    apply raises_rbind. intros dw. exact I.
  - intros c ds dw HX Hc Hds Hdw. unfold gradient.
    destruct X as [x|x|nc rows]; try discriminate HX.
    cbn [shape length Nat.eqb negb fill_cache dlossds dlossdw gradient_backward net_api
         fst snd].
    rewrite Hc. cbn [rbind]. rewrite Hds. cbn [rbind]. rewrite Hdw. reflexivity.
Qed.

(** ** The cache of a network *)

Lemma unit_cache_output (n : NeuralTreeNode.t) (x : list R) (c : gmap string ndarray) :
  NeuralTreeNode.fill_cache n (A1 x) = Ok c ->
  exists aX : ndarray, c !! "aX" = Some aX /\ NeuralTreeNode.predict n (A1 x) = Ok aX.
Proof.
  unfold NeuralTreeNode.fill_cache. intros H.
  apply rbind_ok in H as (lX & HlX & H).
  apply rbind_ok in H as (aX & HaX & H). injection H as <-.
  exists aX. split; [reflexivity |].
  rewrite predict_after_activation, HlX. exact HaX.
Qed.

(** The loop of [fill_cache] computes the buffer the loop of
    [_predict_one] computes. *)
Lemma cache_loop_buffer (h : list NeuralTreeNode.t) (units : list (nat * NeuralTreeNet.attr)) :
  forall (big0 big : gmap Z NeuralTreeNet.cache_entry) (res0 res : list R),
    rfold (fun '(big_cache, res) '(node, a) =>
             let* n := deref h node in
             let* x := NeuralTreeNet.gather res (NeuralTreeNet.inputs a) in
             let* cache := NeuralTreeNode.fill_cache n (A1 x) in
             let* aX := of_option TypeError (cache !! "aX") in
             let* res := NeuralTreeNet.scatter res (NeuralTreeNet.output a) aX in
             Ok (<[NeuralTreeNode.nodeid n := NeuralTreeNet.UnitCache cache]> big_cache, res))
          units (big0, res0) = Ok (big, res) ->
    rfold (NeuralTreeNet.evaluate h) units res0 = Ok res.
Proof.
  induction units as [|[node a] units IH]; intros big0 big res0 res H.
  - injection H as _ <-. reflexivity.
  - cbn [rfold] in H. apply rbind_ok in H as ([big1 res1] & Hstep & H).
    apply rbind_ok in Hstep as (n & Hn & Hstep).
    apply rbind_ok in Hstep as (x & Hx & Hstep).
    apply rbind_ok in Hstep as (cache & Hcache & Hstep).
    apply rbind_ok in Hstep as (aX & HaX & Hstep).
    apply rbind_ok in Hstep as (res' & Hres & Hstep).
    injection Hstep as _ <-.
    apply unit_cache_output in Hcache as (aX' & HaX' & Hpred).
    rewrite HaX' in HaX. injection HaX as ->.
    cbn [rfold]. unfold NeuralTreeNet.evaluate at 1. cbn [fst snd].
    rewrite Hn. cbn [rbind]. rewrite Hx. cbn [rbind]. rewrite Hpred. cbn [rbind].
    rewrite Hres. cbn [rbind]. exact (IH _ _ _ _ H).
Qed.

(** X24. The cache a network fills for a sample holds under [-1] the
    buffer [predict] returns for the sample, and [loss], [dlossds] and
    [dlossdw] called with the cache return what they return without it. *)
Theorem network_cache_is_transparent (h : list NeuralTreeNode.t) (net : NeuralTreeNet.t)
        (x : list R) (y : ndarray) (c : gmap Z NeuralTreeNet.cache_entry) :
  NeuralTreeNet.fill_cache h net (A1 x) = Ok c ->
  exists res : list R,
    c !! (-1)%Z = Some (NeuralTreeNet.StateBuffer (A1 res)) /\
    NeuralTreeNet.predict h net (A1 x) = Ok (A1 res) /\
    NeuralTreeNet.loss h net (A1 x) y (Some c) = NeuralTreeNet.loss h net (A1 x) y None /\
    NeuralTreeNet.dlossds h net (A1 x) y (Some c)
    = NeuralTreeNet.dlossds h net (A1 x) y None /\
    NeuralTreeNet.dlossdw h net (A1 x) y (Some c)
    = NeuralTreeNet.dlossdw h net (A1 x) y None.
Proof.
  unfold NeuralTreeNet.fill_cache. intros H.
  apply rbind_ok in H as (res0 & Hz & H).
  apply rbind_ok in H as (res1 & Hp & H).
  apply rbind_ok in H as ([big res] & Hloop & H). injection H as <-.
  apply cache_loop_buffer in Hloop.
  assert (Hpred : NeuralTreeNet.predict h net (A1 x) = Ok (A1 res)).
  { unfold NeuralTreeNet.predict, NeuralTreeNet._predict_one.
    rewrite Hz. cbn [rbind]. rewrite Hp. cbn [rbind]. rewrite Hloop. reflexivity. }
  exists res. split; [apply lookup_insert_eq |]. split; [exact Hpred |].
  assert (Hcommon :
            NeuralTreeNet._common_loss_dloss h net (A1 x) y
              (Some (<[(-1)%Z := NeuralTreeNet.StateBuffer (A1 res)]> big))
            = NeuralTreeNet._common_loss_dloss h net (A1 x) y None).
  { unfold NeuralTreeNet._common_loss_dloss. rewrite lookup_insert_eq, Hpred. reflexivity. }
  unfold NeuralTreeNet.loss, NeuralTreeNet.dlossds, NeuralTreeNet.dlossdw.
  rewrite Hcommon. repeat split.
Qed.

Lemma network_cache_is_transparent_witness :
  exists c : gmap Z NeuralTreeNet.cache_entry,
    NeuralTreeNet.fill_cache (NeuralTreeNet.heap passthrough_world)
      (NeuralTreeNet.self passthrough_world) (A1 [5; 7]%R) = Ok c /\
    exists res : list R,
      c !! (-1)%Z = Some (NeuralTreeNet.StateBuffer (A1 res)) /\
      NeuralTreeNet.predict (NeuralTreeNet.heap passthrough_world)
        (NeuralTreeNet.self passthrough_world) (A1 [5; 7]%R) = Ok (A1 res) /\
      NeuralTreeNet.loss (NeuralTreeNet.heap passthrough_world)
        (NeuralTreeNet.self passthrough_world) (A1 [5; 7]%R) (A0 1) (Some c)
      = NeuralTreeNet.loss (NeuralTreeNet.heap passthrough_world)
          (NeuralTreeNet.self passthrough_world) (A1 [5; 7]%R) (A0 1) None /\
      NeuralTreeNet.dlossds (NeuralTreeNet.heap passthrough_world)
        (NeuralTreeNet.self passthrough_world) (A1 [5; 7]%R) (A0 1) (Some c)
      = NeuralTreeNet.dlossds (NeuralTreeNet.heap passthrough_world)
          (NeuralTreeNet.self passthrough_world) (A1 [5; 7]%R) (A0 1) None /\
      NeuralTreeNet.dlossdw (NeuralTreeNet.heap passthrough_world)
        (NeuralTreeNet.self passthrough_world) (A1 [5; 7]%R) (A0 1) (Some c)
      = NeuralTreeNet.dlossdw (NeuralTreeNet.heap passthrough_world)
          (NeuralTreeNet.self passthrough_world) (A1 [5; 7]%R) (A0 1) None.
Proof.
  eexists. split; [reflexivity |].
  apply (network_cache_is_transparent (NeuralTreeNet.heap passthrough_world)
           (NeuralTreeNet.self passthrough_world) [5; 7]%R (A0 1)).
  reflexivity.
Defined.

(** ** The network the constructor fills *)

Lemma take_at_seq (res : list R) (n k : nat) :
  k + n <= length res ->
  take_at res (map (fun i => (0 + Z.of_nat i)%Z) (seq k n)) = Ok (take n (drop k res)).
Proof.
  unfold take_at. revert k. induction n as [|n IH]; intros k Hk; cbn [seq map rmap].
  - reflexivity.
  - change (0 + Z.of_nat k)%Z with (Z.of_nat k).
    destruct (lookup_lt_is_Some_2 res k) as [y Hy]; [lia |].
    rewrite (getitem_nonneg res (Z.of_nat k) y) by (lia || (rewrite Nat2Z.id; exact Hy)).
    cbn [rbind]. rewrite IH by lia. cbn [rbind].
    rewrite (drop_S res y k Hy). reflexivity.
Qed.

Lemma take_at_prefix (x l : list R) :
  take_at (x ++ l) (range 0 (Z.of_nat (length x))) = Ok x.
Proof.
  unfold range. rewrite Z.sub_0_r, Nat2Z.id.
  rewrite take_at_seq by (rewrite length_app; lia).
  rewrite drop_0, take_app_length. reflexivity.
Qed.

Lemma dot_ones (x : list R) : dot x (replicate (length x) 1%R) = rsum x.
Proof.
  unfold dot, rsum. induction x as [|a x IH]; simpl; [reflexivity |].
  rewrite IH. ring.
Qed.

Lemma seeded_buffer (x : list R) (d : Z) :
  length x = Z.to_nat d -> (0 <= d)%Z ->
  exists res0 : list R,
    NeuralTreeNet.zeros (d + 1) = Ok res0 /\ put_prefix res0 d (A1 x) = Ok (x ++ [0%R]).
Proof.
  intros Hx Hd. unfold NeuralTreeNet.zeros.
  destruct (d + 1 <? 0)%Z eqn:E; [lia |].
  eexists. split; [reflexivity |].
  replace (Z.to_nat (d + 1)) with (length x + 1) by lia.
  unfold put_prefix. rewrite length_replicate.
  assert (Hclip : clip (length x + 1) d = length x).
  { unfold clip. destruct (d <? 0)%Z eqn:E'; lia. }
  rewrite Hclip. unfold fits. rewrite Nat.eqb_refl. cbn [orb rbind].
  rewrite spread_all, drop_replicate.
  replace (length x + 1 - length x) with 1 by lia. reflexivity.
Qed.

Lemma take_at_inputs (x l : list R) (d : Z) :
  length x = Z.to_nat d -> (0 <= d)%Z -> take_at (x ++ l) (range 0 d) = Ok x.
Proof.
  intros Hx Hd. replace d with (Z.of_nat (length x)) by lia. apply take_at_prefix.
Qed.

Lemma setitem_end (x : list R) (a v : R) (d : Z) :
  length x = Z.to_nat d -> (0 <= d)%Z -> setitem (x ++ [a]) d v = Ok (x ++ [v]).
Proof.
  intros Hx Hd. unfold setitem, py_index. rewrite length_app. cbn [length].
  destruct (0 <=? d)%Z eqn:E0; [| lia].
  destruct (d <? Z.of_nat (length x + 1))%Z eqn:E1; [| apply Z.ltb_ge in E1; lia].
  replace (Z.to_nat d) with (length x + 0) by lia.
  rewrite insert_app_r. reflexivity.
Qed.

(** X25. [NeuralTreeNet(dim, empty=False)] is the empty network over
    [dim] inputs to which an identity unit with weights 1 and bias 0 has
    been appended on all the inputs: it has [dim + 1] slots and for a
    sample with [dim] values it returns the sample followed by the sum of
    its values. A negative [dim] is refused. *)
Theorem default_network_sums_inputs (special : Special) (d : Z)
        (h : list NeuralTreeNode.t) :
  ((d < 0)%Z -> NeuralTreeNet.__init__ d false h = (Raise NumpyValueError, h)) /\
  ((0 <= d)%Z ->
   let u := NeuralTreeNode.set_nodeid 0
              (identity_unit (replicate (Z.to_nat d) 1%R) 0) in
   let w := snd (NeuralTreeNet.append (length h) (NeuralTreeNet.IntArray (range 0 d))
                   (NeuralTreeNet.mk_world (h ++ [u]) (empty_net d))) in
   NeuralTreeNet.__init__ d false h = (Ok (NeuralTreeNet.self w), NeuralTreeNet.heap w) /\
   NeuralTreeNet.heap w = h ++ [u] /\
   NeuralTreeNet.nodes (NeuralTreeNet.self w) = [length h] /\
   NeuralTreeNet.size_ (NeuralTreeNet.self w) = (d + 1)%Z /\
   assembled w /\
   forall x : list R,
     length x = Z.to_nat d ->
     NeuralTreeNet._predict_one (NeuralTreeNet.heap w) (NeuralTreeNet.self w) (A1 x)
     = Ok (x ++ [rsum x])).
Proof.
  split.
  - intros Hd. unfold NeuralTreeNet.__init__, bind, alloc.
    destruct (d <? 0)%Z eqn:E; [reflexivity | lia].
  - intros Hd u w.
    assert (Hu : is_unit u "identity" (replicate (Z.to_nat d) 1%R) 0 0)
      by (repeat split).
    assert (Hlen : length (replicate (Z.to_nat d) 1%R)
                   = length (NeuralTreeNet.values (NeuralTreeNet.IntArray (range 0 d)))).
    { cbn [NeuralTreeNet.values]. rewrite length_replicate, length_range. f_equal. lia. }
    pose proof (append_fresh (NeuralTreeNet.mk_world h (empty_net d)) u
                  (NeuralTreeNet.IntArray (range 0 d)) "identity"
                  (replicate (Z.to_nat d) 1%R) 0 0 Hu Hlen) as Happ.
    cbn [NeuralTreeNet.heap NeuralTreeNet.self] in Happ.
    assert (Hw : w = emitted (NeuralTreeNet.mk_world h (empty_net d)) u
                       (NeuralTreeNet.IntArray (range 0 d))).
    { unfold w. rewrite Happ. reflexivity. }
    assert (Hheap : NeuralTreeNet.heap w = h ++ [u]) by (rewrite Hw; reflexivity).
    assert (Hinit : NeuralTreeNet.__init__ d false h
                    = (Ok (NeuralTreeNet.self w), NeuralTreeNet.heap w)).
    { rewrite Hheap, Hw. unfold NeuralTreeNet.__init__, bind, alloc.
      destruct (d <? 0)%Z eqn:E; [lia |].
      change (NeuralTreeNode.__init__ (λ _ : nat, 0%R)
                (NeuralTreeNode.WArray (A1 (replicate (Z.to_nat d) 1%R)))
                (Some (NeuralTreeNode.BScalar 0)) "identity" 0 None) with (Ok u).
      cbv iota beta. unfold deref. rewrite list_lookup_middle by reflexivity.
      cbn [of_option rbind]. reflexivity. }
    split; [exact Hinit |]. split; [exact Hheap |].
    split; [rewrite Hw; reflexivity |]. split; [rewrite Hw; reflexivity |].
    split.
    { apply (assembled_append (NeuralTreeNet.mk_world (h ++ [u]) (empty_net d)) w
               (length h) (NeuralTreeNet.IntArray (range 0 d)) u 0%R
               (replicate (Z.to_nat d) 1%R)).
      - apply (assembled_new_unit (NeuralTreeNet.mk_world h (empty_net d)) u).
        apply assembled_empty, Hd.
      - cbn [NeuralTreeNet.heap]. apply list_lookup_middle. reflexivity.
      - reflexivity.
      - reflexivity.
      - cbn [NeuralTreeNet.self empty_net NeuralTreeNet.nodes]. apply not_elem_of_nil.
      - cbn [NeuralTreeNet.values NeuralTreeNet.self empty_net NeuralTreeNet.size_].
        unfold range. apply Forall_forall. intros i Hi.
        apply list_elem_of_fmap in Hi as (j & -> & Hj).
        apply elem_of_seq in Hj. lia.
      - rewrite Happ, Hw. reflexivity. }
    intros x Hx. rewrite Hheap, Hw.
    unfold NeuralTreeNet._predict_one, emitted.
    cbn [NeuralTreeNet.self NeuralTreeNet.heap empty_net NeuralTreeNet.register
         NeuralTreeNet.size_ NeuralTreeNet.dim NeuralTreeNet.nodes NeuralTreeNet.nodes_attr
         app length].
    destruct (seeded_buffer x d Hx Hd) as (res0 & Hz & Hput).
    rewrite Hz. cbn [rbind]. rewrite Hput. cbn [rbind zip zip_with rfold].
    unfold NeuralTreeNet.evaluate. cbn [fst snd NeuralTreeNet.inputs NeuralTreeNet.output].
    unfold deref. rewrite list_lookup_middle by reflexivity. cbn [of_option rbind].
    unfold NeuralTreeNet.gather.
    cbn [NeuralTreeNet.numpy_array NeuralTreeNet.integer_dtype NeuralTreeNet.indices].
    rewrite (take_at_inputs x [0%R] d Hx Hd). cbn [rbind].
    rewrite predict_after_activation.
    rewrite (affine_predict _ "identity" (replicate (Z.to_nat d) 1%R) 0 0 x)
      by (repeat split || (rewrite length_replicate; exact Hx)).
    cbn [rbind NeuralTreeNet.scatter].
    unfold put_one.
    change (NeuralTreeNode.activation_ u) with (fun z : ndarray => Ok z).
    cbv beta. cbn [rbind ravel].
    rewrite (setitem_end x 0%R _ d Hx Hd). cbn [rbind].
    rewrite <- Hx, dot_ones. do 3 f_equal. ring.
Qed.

(** ** The length of a sample *)

Lemma spread_one (n : nat) (v : R) : spread n [v] = replicate n v.
Proof.
  unfold spread, bzip. rewrite length_seq. cbn [length].
  assert (Hmap : forall k, map (fun _ : nat => v) (seq k n) = replicate n v).
  { induction n as [|n IH]; intros k; simpl; [reflexivity |]. f_equal. apply IH. }
  destruct n as [|[|n]]; [reflexivity | reflexivity |].
  cbn [Nat.eqb]. cbn [seq]. cbn [seq] in Hmap. apply (Hmap 0).
Qed.

Lemma spread_replicate (n : nat) (v : R) : spread n (replicate n v) = replicate n v.
Proof.
  rewrite <- (length_replicate n v) at 1. apply spread_all.
Qed.

(** X26. The sample given to a network assembled from units with one
    output must have [dim] values or one value: any other length is
    refused with numpy's [ValueError]. A sample with one value, or a
    scalar, is accepted by a network of any dimension and gives what the
    sample that repeats the value [dim] times gives. *)
Theorem sample_length_checked (w : NeuralTreeNet.world) :
  assembled w ->
  (forall x : list R,
      length x <> Z.to_nat (NeuralTreeNet.dim (NeuralTreeNet.self w)) ->
      length x <> 1 ->
      NeuralTreeNet._predict_one (NeuralTreeNet.heap w) (NeuralTreeNet.self w) (A1 x)
      = Raise NumpyValueError) /\
  (forall v : R,
      NeuralTreeNet._predict_one (NeuralTreeNet.heap w) (NeuralTreeNet.self w) (A1 [v])
      = NeuralTreeNet._predict_one (NeuralTreeNet.heap w) (NeuralTreeNet.self w)
          (A1 (replicate (Z.to_nat (NeuralTreeNet.dim (NeuralTreeNet.self w))) v)) /\
      NeuralTreeNet._predict_one (NeuralTreeNet.heap w) (NeuralTreeNet.self w) (A0 v)
      = NeuralTreeNet._predict_one (NeuralTreeNet.heap w) (NeuralTreeNet.self w)
          (A1 (replicate (Z.to_nat (NeuralTreeNet.dim (NeuralTreeNet.self w))) v))).
Proof.
  intros Hw. apply assembled_laid_out in Hw as (Hd & Hlen & Hsize & _).
  set (d := NeuralTreeNet.dim (NeuralTreeNet.self w)) in *.
  assert (Hz : NeuralTreeNet.zeros (NeuralTreeNet.size_ (NeuralTreeNet.self w))
               = Ok (replicate (Z.to_nat (NeuralTreeNet.size_ (NeuralTreeNet.self w))) 0%R)).
  { unfold NeuralTreeNet.zeros.
    destruct (NeuralTreeNet.size_ (NeuralTreeNet.self w) <? 0)%Z eqn:E; [lia | reflexivity]. }
  assert (Hclip : clip (Z.to_nat (NeuralTreeNet.size_ (NeuralTreeNet.self w))) d
                  = Z.to_nat d).
  { unfold clip. destruct (d <? 0)%Z eqn:E; lia. }
  split.
  - intros x Hx1 Hx2. unfold NeuralTreeNet._predict_one. rewrite Hz. cbn [rbind].
    unfold put_prefix. rewrite length_replicate. fold d. rewrite Hclip.
    unfold fits. apply Nat.eqb_neq in Hx1, Hx2. rewrite Hx1, Hx2. reflexivity.
  - intros v. unfold NeuralTreeNet._predict_one. rewrite Hz. cbn [rbind].
    unfold put_prefix. rewrite length_replicate. fold d. rewrite Hclip.
    unfold fits. rewrite length_replicate, Nat.eqb_refl. cbn [length].
    rewrite Nat.eqb_refl, orb_true_r. cbn [orb rbind].
    rewrite spread_one, spread_replicate. split; reflexivity.
Qed.

Lemma sample_length_checked_witness :
  (forall x : list R,
      length x <> Z.to_nat (NeuralTreeNet.dim (NeuralTreeNet.self passthrough_world)) ->
      length x <> 1 ->
      NeuralTreeNet._predict_one (NeuralTreeNet.heap passthrough_world)
        (NeuralTreeNet.self passthrough_world) (A1 x)
      = Raise NumpyValueError) /\
  (forall v : R,
      NeuralTreeNet._predict_one (NeuralTreeNet.heap passthrough_world)
        (NeuralTreeNet.self passthrough_world) (A1 [v])
      = NeuralTreeNet._predict_one (NeuralTreeNet.heap passthrough_world)
          (NeuralTreeNet.self passthrough_world)
          (A1 (replicate
                 (Z.to_nat (NeuralTreeNet.dim (NeuralTreeNet.self passthrough_world))) v)) /\
      NeuralTreeNet._predict_one (NeuralTreeNet.heap passthrough_world)
        (NeuralTreeNet.self passthrough_world) (A0 v)
      = NeuralTreeNet._predict_one (NeuralTreeNet.heap passthrough_world)
          (NeuralTreeNet.self passthrough_world)
          (A1 (replicate
                 (Z.to_nat (NeuralTreeNet.dim (NeuralTreeNet.self passthrough_world))) v))).
Proof.
  apply (sample_length_checked passthrough_world). exact passthrough_assembled.
Defined.

(** ** What the units of a compiled tree compute *)

Lemma expit_half (z : R) : (1 / 2 < expit z <-> 0 < z)%R.
Proof.
  unfold expit.
  assert (Hpos : (0 < exp (- z))%R) by apply exp_pos.
  split; intros H.
  - assert (Hlt : (exp (- z) < 1)%R).
    { apply Rnot_le_lt. intros Hge.
      assert (Hle : (/ (1 + exp (- z)) <= / 2)%R)
        by (apply Rinv_le_contravar; lra).
      lra. }
    rewrite <- exp_0 in Hlt. apply exp_lt_inv in Hlt. lra.
  - assert (Hlt : (exp (- z) < 1)%R).
    { rewrite <- exp_0. apply exp_increasing. lra. }
    assert (Hinv : (/ 2 < / (1 + exp (- z)))%R)
      by (apply Rinv_lt_contravar; [nra | lra]).
    lra.
Qed.

Lemma dot_zeros (x : list R) (m : nat) : dot x (replicate m 0%R) = 0%R.
Proof.
  unfold dot, rsum. revert m. induction x as [|a x IH]; intros [|m]; simpl;
    try reflexivity.
  rewrite IH. ring.
Qed.

(** The scalar product with a vector that is zero but at position [f]. *)
Lemma dot_unit_vector (x : list R) (m f : nat) (c : R) :
  f < m -> length x = m ->
  dot x (<[f := c]> (replicate m 0%R)) = (nth f x 0%R * c)%R.
Proof.
  revert m f. induction x as [|a x IH]; intros m f Hf Hx; simpl in Hx.
  - lia.
  - destruct m as [|m]; [lia |]. destruct f as [|f]; cbn [replicate nth].
    + change (<[0 := c]> (0%R :: replicate m 0%R)) with (c :: replicate m 0%R).
      change (dot (a :: x) (c :: replicate m 0%R))
        with (a * c + dot x (replicate m 0%R))%R.
      rewrite dot_zeros. ring.
    + change (<[S f := c]> (0%R :: replicate m 0%R))
        with (0%R :: <[f := c]> (replicate m 0%R)).
      change (dot (a :: x) (0%R :: <[f := c]> (replicate m 0%R)))
        with (a * 0 + dot x (<[f := c]> (replicate m 0%R)))%R.
      rewrite (IH m f) by lia. ring.
Qed.

Lemma sigmoid4_unit_predict (special : Special) (ws : list R) (b : R)
      (tag : option string) (n : NeuralTreeNode.t) (id : Z) (x : list R) :
  NeuralTreeNet.unit_of (A1 ws) b "sigmoid4" tag = Ok n ->
  length x = length ws ->
  NeuralTreeNode.predict (NeuralTreeNode.set_nodeid id n) (A1 x)
  = Ok (A0 (expit ((dot x ws + b) * 4))).
Proof.
  intros [= <-] Hlen. rewrite predict_after_activation.
  rewrite (affine_predict _ "sigmoid4" ws b id x) by (repeat split || exact Hlen).
  reflexivity.
Qed.

Lemma identity_unit_predict (special : Special) (ws : list R) (b : R)
      (tag : option string) (n : NeuralTreeNode.t) (id : Z) (x : list R) :
  NeuralTreeNet.unit_of (A1 ws) b "identity" tag = Ok n ->
  length x = length ws ->
  NeuralTreeNode.predict (NeuralTreeNode.set_nodeid id n) (A1 x)
  = Ok (A0 (dot x ws + b)).
Proof.
  intros [= <-] Hlen. rewrite predict_after_activation.
  rewrite (affine_predict _ "identity" ws b id x) by (repeat split || exact Hlen).
  reflexivity.
Qed.

Lemma setitem_nonneg {A : Type} (l : list A) (i : Z) (x : A) :
  (0 <= i < Z.of_nat (length l))%Z -> setitem l i x = Ok (<[Z.to_nat i := x]> l).
Proof.
  intros Hi. unfold setitem, py_index.
  destruct (0 <=? i)%Z eqn:E0; [| lia].
  destruct (i <? Z.of_nat (length l))%Z eqn:E1; [reflexivity |].
  apply Z.ltb_ge in E1. lia.
Qed.

Section CompiledUnits.
Context {special : Special}.

(** The run of the loop body at an internal node without a recorded
    predecessor, with the units as the constructor returns them. *)
Lemma visit_root_run
      (tree : NeuralTreeNet.tree_t) (k : R) (output_class : list Z) (i : Z)
      (predecessor : gmap Z nat) (outputs : gmap Z (list nat))
      (w : NeuralTreeNet.world) (cl cr f : Z) (th : R) :
  getitem (NeuralTreeNet.children_left tree) i = Ok cl ->
  getitem (NeuralTreeNet.children_right tree) i = Ok cr ->
  cl <> cr ->
  getitem (NeuralTreeNet.feature tree) i = Ok f ->
  (- NeuralTreeNet.max_features_ tree <= f < NeuralTreeNet.max_features_ tree)%Z ->
  getitem (NeuralTreeNet.threshold tree) i = Ok th ->
  predecessor !! i = None ->
  length (NeuralTreeNet.nodes (NeuralTreeNet.self w))
  = length (NeuralTreeNet.nodes_attr (NeuralTreeNet.self w)) ->
  exists (coef : list R) (n_th n_false : NeuralTreeNode.t),
    let h0 := length (NeuralTreeNet.heap w) in
    let w1 := emitted w n_th
                (NeuralTreeNet.IntArray (range 0 (NeuralTreeNet.max_features_ tree))) in
    NeuralTreeNet.visit tree k output_class i (predecessor, outputs) w
    = (Ok (<[cr := h0 + 1]> (<[cl := h0]> predecessor), outputs),
       emitted w1 n_false
         (NeuralTreeNet.PyList [NeuralTreeNet.size_ (NeuralTreeNet.self w)])) /\
    setitem (replicate (Z.to_nat (NeuralTreeNet.max_features_ tree)) 0%R) f (- k)%R
    = Ok coef /\
    NeuralTreeNet.unit_of (A1 coef) (k * th) "sigmoid4" (NeuralTreeNet.tag_of i "-th")
    = Ok n_th /\
    NeuralTreeNet.unit_of (A1 [1 * -1]%R) 1 "identity" (NeuralTreeNet.tag_of i "-F")
    = Ok n_false.
Proof.
  intros Hcl Hcr Hne Hf Hfr Hth Hpred Hlen.
  set (mf := NeuralTreeNet.max_features_ tree) in *.
  destruct (setitem_in_range (replicate (Z.to_nat mf) 0%R) f (- k)%R)
    as (coef & Hcoef & Hcoef_len).
  { rewrite length_replicate. lia. }
  rewrite length_replicate in Hcoef_len.
  destruct (sigmoid4_unit_init special coef (k * th) (NeuralTreeNet.tag_of i "-th"))
    as (n_th & Hinit_th & Hunit_th & _).
  destruct (identity_unit_of special [1 * -1]%R 1 (NeuralTreeNet.tag_of i "-F"))
    as (n_false & Hinit_f & Hunit_f).
  exists coef, n_th, n_false. cbv zeta.
  set (w1 := emitted w n_th (NeuralTreeNet.IntArray (range 0 mf))).
  assert (Hreg_th : registered w1 (length (NeuralTreeNet.heap w))
                               (NeuralTreeNet.size_ (NeuralTreeNet.self w)))
    by (apply registered_new, Hlen).
  assert (Hreg_th' : registered
                       (NeuralTreeNet.mk_world (NeuralTreeNet.heap w1 ++ [n_false])
                                               (NeuralTreeNet.self w1))
                       (length (NeuralTreeNet.heap w))
                       (NeuralTreeNet.size_ (NeuralTreeNet.self w))).
  { destruct Hreg_th as (n & r & a & Hn & Hid & Hr & Ha & Ho).
    exists n, r, a. simpl. split; [apply lookup_app_l_Some, Hn |]. tauto. }
  destruct (attr_of_registered _ _ _ Hreg_th') as (attr2 & Hattr2 & Hout2).
  split; [| repeat split; assumption].
  unfold NeuralTreeNet.visit, bind, lift.
  rewrite Hcl, Hcr. apply Z.eqb_neq in Hne. rewrite Hne. cbn [negb].
  unfold NeuralTreeNet.zeros. fold mf.
  destruct (mf <? 0)%Z eqn:Hneg; [lia |].
  rewrite Hf, Hcoef, Hth, Hinit_th, new_node_ok.
  rewrite (append_fresh w n_th _ _ _ _ _ Hunit_th)
    by (simpl; rewrite length_range; lia).
  fold w1. rewrite Hpred, Hinit_f, new_node_ok. cbv beta iota.
  replace (length (NeuralTreeNet.heap w1) - 1) with (length (NeuralTreeNet.heap w))
    in * by (simpl; rewrite length_app; simpl; lia).
  rewrite Hattr2. simpl rmap. unfold NeuralTreeNet.output_slot. rewrite Hout2.
  simpl rbind. cbv beta iota.
  rewrite (append_fresh w1 n_false _ _ _ _ _ Hunit_f) by reflexivity.
  unfold ret. repeat f_equal; simpl; rewrite ?length_app; simpl; lia.
Qed.

(** X27. At an internal node without a recorded predecessor (the root)
    whose feature is a position of the input, the loop of the compiler
    creates two units and appends them: the threshold unit, which reads
    the sample and returns [expit(4 k (th - x[f]))], recorded as the
    predecessor of the left child, and a unit on the slot of the first
    which returns one minus its input, recorded as the predecessor of the
    right child. For a positive [k] the threshold unit returns more than
    1/2 exactly when [x[f] < th]. *)
Theorem visit_root_node
      (tree : NeuralTreeNet.tree_t) (k : R) (output_class : list Z) (i : Z)
      (predecessor : gmap Z nat) (outputs : gmap Z (list nat))
      (w : NeuralTreeNet.world) (cl cr f : Z) (th : R) :
  getitem (NeuralTreeNet.children_left tree) i = Ok cl ->
  getitem (NeuralTreeNet.children_right tree) i = Ok cr ->
  cl <> cr ->
  getitem (NeuralTreeNet.feature tree) i = Ok f ->
  (0 <= f < NeuralTreeNet.max_features_ tree)%Z ->
  getitem (NeuralTreeNet.threshold tree) i = Ok th ->
  predecessor !! i = None ->
  length (NeuralTreeNet.nodes (NeuralTreeNet.self w))
  = length (NeuralTreeNet.nodes_attr (NeuralTreeNet.self w)) ->
  exists (w' : NeuralTreeNet.world) (u_th u_neg : NeuralTreeNode.t)
         (a_th a_neg : NeuralTreeNet.attr),
    let h0 := length (NeuralTreeNet.heap w) in
    let slot := NeuralTreeNet.size_ (NeuralTreeNet.self w) in
    NeuralTreeNet.visit tree k output_class i (predecessor, outputs) w
    = (Ok (<[cr := h0 + 1]> (<[cl := h0]> predecessor), outputs), w') /\
    NeuralTreeNet.heap w' = NeuralTreeNet.heap w ++ [u_th; u_neg] /\
    NeuralTreeNet.nodes (NeuralTreeNet.self w')
    = NeuralTreeNet.nodes (NeuralTreeNet.self w) ++ [h0; h0 + 1] /\
    NeuralTreeNet.nodes_attr (NeuralTreeNet.self w')
    = NeuralTreeNet.nodes_attr (NeuralTreeNet.self w) ++ [a_th; a_neg] /\
    NeuralTreeNet.size_ (NeuralTreeNet.self w') = (slot + 2)%Z /\
    NeuralTreeNet.indices (NeuralTreeNet.inputs a_th)
    = range 0 (NeuralTreeNet.max_features_ tree) /\
    NeuralTreeNet.output a_th = NeuralTreeNet.OInt slot /\
    NeuralTreeNet.indices (NeuralTreeNet.inputs a_neg) = [slot] /\
    NeuralTreeNet.output a_neg = NeuralTreeNet.OInt (slot + 1) /\
    (forall x : list R,
        length x = Z.to_nat (NeuralTreeNet.max_features_ tree) ->
        NeuralTreeNode.predict u_th (A1 x)
        = Ok (A0 (expit (4 * k * (th - nth (Z.to_nat f) x 0%R))))) /\
    (forall p : R, NeuralTreeNode.predict u_neg (A1 [p]) = Ok (A0 (1 - p))) /\
    (forall x : list R,
        (0 < k)%R ->
        (1 / 2 < expit (4 * k * (th - nth (Z.to_nat f) x 0%R))
         <-> nth (Z.to_nat f) x 0%R < th)%R).
Proof.
  intros Hcl Hcr Hne Hf Hfr Hth Hpred Hlen.
  destruct (visit_root_run tree k output_class i predecessor outputs w cl cr f th
              Hcl Hcr Hne Hf ltac:(lia) Hth Hpred Hlen)
    as (coef & n_th & n_false & Hrun & Hcoef & Hinit_th & Hinit_f).
  cbv zeta in Hrun.
  rewrite (setitem_nonneg (replicate (Z.to_nat (NeuralTreeNet.max_features_ tree)) 0%R)
             f (- k)%R) in Hcoef by (rewrite length_replicate; lia).
  injection Hcoef as <-.
  eexists _, _, _, _, _. cbv zeta.
  split; [exact Hrun |].
  split.
  { cbn [emitted NeuralTreeNet.heap]. rewrite <- app_assoc. reflexivity. }
  split.
  { cbn [emitted NeuralTreeNet.self NeuralTreeNet.heap NeuralTreeNet.nodes
         NeuralTreeNet.register].
    rewrite length_app, <- app_assoc. reflexivity. }
  split.
  { cbn [emitted NeuralTreeNet.self NeuralTreeNet.heap NeuralTreeNet.nodes_attr
         NeuralTreeNet.register].
    rewrite <- app_assoc. reflexivity. }
  split.
  { cbn [emitted NeuralTreeNet.self NeuralTreeNet.size_ NeuralTreeNet.register]. lia. }
  split; [reflexivity |]. split; [reflexivity |].
  split; [reflexivity |]. split; [reflexivity |].
  split.
  { intros x Hx.
    rewrite (sigmoid4_unit_predict special _ _ _ n_th _ x Hinit_th)
      by (rewrite length_insert, length_replicate; exact Hx).
    rewrite dot_unit_vector by (lia || exact Hx).
    do 3 f_equal. ring. }
  split.
  { intros p.
    rewrite (identity_unit_predict special _ _ _ n_false _ [p] Hinit_f) by reflexivity.
    do 2 f_equal. unfold dot, rsum. simpl. ring. }
  intros x Hk. rewrite expit_half. split; intros H; nra.
Qed.

(** The run of the loop body at an internal node with a recorded
    predecessor, with the two combination units as the constructor
    returns them. *)
Lemma visit_with_predecessor_units
      (tree : NeuralTreeNet.tree_t) (k : R) (output_class : list Z) (i : Z)
      (predecessor : gmap Z nat) (outputs : gmap Z (list nat))
      (w : NeuralTreeNet.world) (cl cr f : Z) (th : R) (pred : nat) (o1 : Z) :
  getitem (NeuralTreeNet.children_left tree) i = Ok cl ->
  getitem (NeuralTreeNet.children_right tree) i = Ok cr ->
  cl <> cr ->
  getitem (NeuralTreeNet.feature tree) i = Ok f ->
  (- NeuralTreeNet.max_features_ tree <= f < NeuralTreeNet.max_features_ tree)%Z ->
  getitem (NeuralTreeNet.threshold tree) i = Ok th ->
  predecessor !! i = Some pred ->
  registered w pred o1 ->
  length (NeuralTreeNet.nodes (NeuralTreeNet.self w))
  = length (NeuralTreeNet.nodes_attr (NeuralTreeNet.self w)) ->
  exists (coef : list R) (n_th n_true n_false : NeuralTreeNode.t),
    let h0 := length (NeuralTreeNet.heap w) in
    let combined :=
      NeuralTreeNet.PyList [o1; NeuralTreeNet.size_ (NeuralTreeNet.self w)] in
    let w1 := emitted w n_th
                (NeuralTreeNet.IntArray (range 0 (NeuralTreeNet.max_features_ tree))) in
    NeuralTreeNet.visit tree k output_class i (predecessor, outputs) w
    = (Ok (<[cr := h0 + 2]> (<[cl := h0 + 1]> predecessor), outputs),
       emitted (emitted w1 n_true combined) n_false combined) /\
    is_unit n_th "sigmoid4" coef (k * th) (-1) /\
    length coef = Z.to_nat (NeuralTreeNet.max_features_ tree) /\
    NeuralTreeNet.unit_of (A1 [1 * k; 1 * k]%R) (- k * 1.5) "sigmoid4"
      (NeuralTreeNet.tag_of i "-T") = Ok n_true /\
    NeuralTreeNet.unit_of (A1 [k; - k]%R) (- k * 0.25) "sigmoid4"
      (NeuralTreeNet.tag_of i "-F") = Ok n_false.
Proof.
  intros Hcl Hcr Hne Hf Hfr Hth Hpred Hreg Hlen.
  set (mf := NeuralTreeNet.max_features_ tree) in *.
  assert (Hmf : (0 < mf)%Z) by lia.
  destruct (setitem_in_range (replicate (Z.to_nat mf) 0%R) f (- k)%R)
    as (coef & Hcoef & Hcoef_len).
  { rewrite length_replicate. lia. }
  rewrite length_replicate in Hcoef_len.
  destruct (sigmoid4_unit_init special coef (k * th) (NeuralTreeNet.tag_of i "-th"))
    as (n_th & Hinit_th & Hunit_th & _).
  destruct (sigmoid4_unit_init special [1 * k; 1 * k]%R (- k * 1.5)
              (NeuralTreeNet.tag_of i "-T")) as (n_true & Hinit_t & Hunit_t & _).
  destruct (sigmoid4_unit_init special [k; - k]%R (- k * 0.25)
              (NeuralTreeNet.tag_of i "-F")) as (n_false & Hinit_f & Hunit_f & _).
  exists coef, n_th, n_true, n_false. cbv zeta.
  set (w1 := emitted w n_th (NeuralTreeNet.IntArray (range 0 mf))).
  assert (Hreg1 : registered w1 pred o1) by (apply registered_emitted, Hreg).
  assert (Hreg_th : registered w1 (length (NeuralTreeNet.heap w))
                               (NeuralTreeNet.size_ (NeuralTreeNet.self w)))
    by (apply registered_new, Hlen).
  destruct (attr_of_registered _ _ _ Hreg1) as (attr1 & Hattr1 & Hout1).
  destruct (attr_of_registered _ _ _ Hreg_th) as (attr2 & Hattr2 & Hout2).
  split; [| repeat split; (assumption || apply Hunit_th)].
  unfold NeuralTreeNet.visit, bind, lift.
  rewrite Hcl, Hcr. apply Z.eqb_neq in Hne. rewrite Hne. cbn [negb].
  unfold NeuralTreeNet.zeros. fold mf.
  destruct (mf <? 0)%Z eqn:Hneg; [lia |].
  rewrite Hf, Hcoef, Hth, Hinit_th, new_node_ok.
  rewrite (append_fresh w n_th _ _ _ _ _ Hunit_th)
    by (simpl; rewrite length_range; lia).
  fold w1. rewrite Hpred, Hattr1, Hattr2, Hinit_t, new_node_ok.
  simpl rmap. unfold NeuralTreeNet.output_slot. rewrite Hout1, Hout2. simpl rbind.
  cbv beta iota.
  rewrite (append_fresh w1 n_true _ _ _ _ _ Hunit_t) by reflexivity.
  rewrite Hinit_f, new_node_ok. cbv beta iota.
  rewrite (append_fresh _ n_false _ _ _ _ _ Hunit_f) by reflexivity.
  unfold ret. repeat f_equal; simpl; rewrite ?length_app; simpl; lia.
Qed.


End CompiledUnits.

Lemma visit_root_node_witness :
  exists (w' : NeuralTreeNet.world) (u_th u_neg : NeuralTreeNode.t)
         (a_th a_neg : NeuralTreeNet.attr),
    NeuralTreeNet.visit (special := real_special) stump 1 [] 0 (∅, ∅)
      (NeuralTreeNet.mk_world [] (empty_net 2))
    = (Ok (<[2%Z := 0 + 1]> (<[1%Z := 0]> ∅), ∅), w') /\
    NeuralTreeNet.heap w' = [] ++ [u_th; u_neg] /\
    NeuralTreeNet.nodes (NeuralTreeNet.self w') = [] ++ [0; 0 + 1] /\
    NeuralTreeNet.nodes_attr (NeuralTreeNet.self w') = [] ++ [a_th; a_neg] /\
    NeuralTreeNet.size_ (NeuralTreeNet.self w') = (2 + 2)%Z /\
    NeuralTreeNet.indices (NeuralTreeNet.inputs a_th) = range 0 2 /\
    NeuralTreeNet.output a_th = NeuralTreeNet.OInt 2 /\
    NeuralTreeNet.indices (NeuralTreeNet.inputs a_neg) = [2%Z] /\
    NeuralTreeNet.output a_neg = NeuralTreeNet.OInt (2 + 1) /\
    (forall x : list R,
        length x = 2 ->
        NeuralTreeNode.predict u_th (A1 x)
        = Ok (A0 (expit (4 * 1 * (0.5 - nth 0 x 0%R))))) /\
    (forall p : R, NeuralTreeNode.predict u_neg (A1 [p]) = Ok (A0 (1 - p))) /\
    (forall x : list R,
        (0 < 1)%R ->
        (1 / 2 < expit (4 * 1 * (0.5 - nth 0 x 0%R)) <-> nth 0 x 0%R < 0.5)%R).
Proof.
  apply (visit_root_node (special := real_special) stump 1%R [] 0%Z ∅ ∅
           (NeuralTreeNet.mk_world [] (empty_net 2)) 1%Z 2%Z 0%Z 0.5%R).
  - reflexivity.
  - reflexivity.
  - lia.
  - reflexivity.
  - simpl. lia.
  - reflexivity.
  - reflexivity.
  - reflexivity.
Defined.


(** ** The network the loop of the compiler builds *)

(** A new unit with one output appended on slots that exist. *)
Lemma emitted_assembled (w : NeuralTreeNet.world) (n : NeuralTreeNode.t)
      (inputs : NeuralTreeNet.inputs_arg) (act : string) (ws : list R) (b : R) (id : Z) :
  assembled w ->
  is_unit n act ws b id ->
  length ws = length (NeuralTreeNet.values inputs) ->
  Forall (fun i => (0 <= i < NeuralTreeNet.size_ (NeuralTreeNet.self w))%Z)
         (NeuralTreeNet.values inputs) ->
  assembled (emitted w n inputs).
Proof.
  intros Hw Hu Hlen Hin.
  pose proof (assembled_laid_out w Hw) as (_ & _ & _ & _ & Hunits & _).
  apply (assembled_append
           (NeuralTreeNet.mk_world (NeuralTreeNet.heap w ++ [n]) (NeuralTreeNet.self w))
           (emitted w n inputs) (length (NeuralTreeNet.heap w)) inputs n b ws).
  - apply assembled_new_unit, Hw.
  - cbn [NeuralTreeNet.heap]. apply list_lookup_middle. reflexivity.
  - apply Hu.
  - apply Hu.
  - cbn [NeuralTreeNet.self]. intros Hin'.
    apply list_elem_of_lookup in Hin' as [j Hj].
    destruct (Hunits j _ Hj) as (n0 & a0 & _ & _ & (_ & _ & Hn0) & _).
    apply lookup_lt_Some in Hn0. lia.
  - exact Hin.
  - apply (append_fresh w n inputs act ws b id Hu Hlen).
Qed.

Lemma emitted_dim (w : NeuralTreeNet.world) (n : NeuralTreeNode.t)
      (inputs : NeuralTreeNet.inputs_arg) :
  NeuralTreeNet.dim (NeuralTreeNet.self (emitted w n inputs))
  = NeuralTreeNet.dim (NeuralTreeNet.self w).
Proof. reflexivity. Qed.

Lemma emitted_size (w : NeuralTreeNet.world) (n : NeuralTreeNode.t)
      (inputs : NeuralTreeNet.inputs_arg) :
  NeuralTreeNet.size_ (NeuralTreeNet.self (emitted w n inputs))
  = (NeuralTreeNet.size_ (NeuralTreeNet.self w) + 1)%Z.
Proof. reflexivity. Qed.

Lemma emitted_heap_prefix (w : NeuralTreeNet.world) (n : NeuralTreeNode.t)
      (inputs : NeuralTreeNet.inputs_arg) :
  NeuralTreeNet.heap w `prefix_of` NeuralTreeNet.heap (emitted w n inputs) /\
  NeuralTreeNet.nodes (NeuralTreeNet.self w)
    `prefix_of` NeuralTreeNet.nodes (NeuralTreeNet.self (emitted w n inputs)).
Proof. split; apply prefix_app_r; reflexivity. Qed.

(** The output slot of a unit of an assembled network is a slot of the
    buffer after the inputs. *)
Lemma registered_slot (w : NeuralTreeNet.world) (p : nat) (o : Z) :
  assembled w -> registered w p o ->
  (0 <= o < NeuralTreeNet.size_ (NeuralTreeNet.self w))%Z.
Proof.
  intros Hw (n & r & a & Hn & Hid & Hr & Ha & Ho).
  pose proof (assembled_laid_out w Hw) as (Hd & Hlen & Hsize & _ & Hunits & _).
  destruct (Hunits _ r Hr)
    as (n0 & a0 & b & ws & (_ & Ha0 & _) & _ & _ & _ & _ & Hout & _).
  assert (a0 = a) by congruence. subst a0.
  rewrite Ho in Hout. injection Hout as ->.
  apply lookup_lt_Some in Hr. lia.
Qed.

Lemma range_in_bounds (a b : Z) : Forall (fun i => (a <= i < b)%Z) (range a b).
Proof.
  unfold range. apply Forall_forall. intros i Hi.
  apply list_elem_of_fmap in Hi as (j & -> & Hj).
  apply elem_of_seq in Hj. lia.
Qed.

Section CompilerLoop.
Context {special : Special}.

(** One turn of the loop keeps the network assembled, keeps its units and
    keeps the invariant of the loop. *)
Lemma visit_assembled (tree : NeuralTreeNet.tree_t) (k : R) (output_class : list Z)
      (i : Z) (loc loc' : NeuralTreeNet.locals) (w w' : NeuralTreeNet.world) :
  node_ok tree i ->
  assembled w ->
  NeuralTreeNet.dim (NeuralTreeNet.self w) = NeuralTreeNet.max_features_ tree ->
  loop_invariant w (fst loc) ->
  NeuralTreeNet.visit tree k output_class i loc w = (Ok loc', w') ->
  assembled w' /\
  NeuralTreeNet.dim (NeuralTreeNet.self w') = NeuralTreeNet.max_features_ tree /\
  NeuralTreeNet.heap w `prefix_of` NeuralTreeNet.heap w' /\
  NeuralTreeNet.nodes (NeuralTreeNet.self w)
    `prefix_of` NeuralTreeNet.nodes (NeuralTreeNet.self w').
Proof.
  intros (cl & cr & f & th & Hcl & Hcr & Hf & Hth & Hfr) Hw Hdim [Hlen Hreg] Hrun.
  destruct loc as [predecessor outputs]. cbn [fst] in Hreg.
  pose proof (assembled_laid_out w Hw) as (Hd & _ & Hsize & _).
  set (mf := NeuralTreeNet.max_features_ tree) in *.
  assert (Hfeat : Forall (fun j => (0 <= j < NeuralTreeNet.size_ (NeuralTreeNet.self w))%Z)
                         (range 0 mf)).
  { eapply Forall_impl; [apply range_in_bounds |]. simpl. intros j Hj. lia. }
  destruct (Z.eq_dec cl cr) as [-> | Hne].
  - destruct (visit_leaf tree k output_class i predecessor outputs w cr Hcl Hcr)
      as [Hsame _].
    rewrite Hrun in Hsame. cbn [snd] in Hsame. subst w'.
    repeat split; try assumption; reflexivity.
  - specialize (Hfr Hne).
    destruct (predecessor !! i) as [pred|] eqn:Hpred.
    + destruct (Hreg i pred Hpred) as (o1 & Ho1).
      destruct (visit_with_predecessor_units tree k output_class i predecessor outputs
                  w cl cr f th pred o1 Hcl Hcr Hne Hf Hfr Hth Hpred Ho1 Hlen)
        as (coef & n_th & n_true & n_false & Hrun' & Hu_th & Hcoef & Hinit_t & Hinit_f).
      cbv zeta in Hrun'. rewrite Hrun' in Hrun. injection Hrun as _ <-.
      destruct (sigmoid4_unit_init special [1 * k; 1 * k]%R (- k * 1.5)
                  (NeuralTreeNet.tag_of i "-T")) as (n1 & Hn1 & Hu_t & _).
      destruct (sigmoid4_unit_init special [k; - k]%R (- k * 0.25)
                  (NeuralTreeNet.tag_of i "-F")) as (n2 & Hn2 & Hu_f & _).
      assert (n1 = n_true) by congruence. assert (n2 = n_false) by congruence.
      subst n1 n2.
      pose proof (registered_slot w pred o1 Hw Ho1) as Ho1r.
      set (w1 := emitted w n_th (NeuralTreeNet.IntArray (range 0 mf))).
      set (combined := NeuralTreeNet.PyList [o1; NeuralTreeNet.size_ (NeuralTreeNet.self w)]).
      assert (Hw1 : assembled w1).
      { apply (emitted_assembled w n_th _ "sigmoid4" coef (k * th) (-1) Hw Hu_th);
          [cbn [NeuralTreeNet.values]; rewrite length_range; lia | exact Hfeat]. }
      assert (Hw2 : assembled (emitted w1 n_true combined)).
      { apply (emitted_assembled w1 n_true _ "sigmoid4" _ _ _ Hw1 Hu_t); [reflexivity |].
        cbn [NeuralTreeNet.values combined]. unfold w1. rewrite emitted_size.
        repeat apply List.Forall_cons; try apply List.Forall_nil; lia. }
      assert (Hw3 : assembled (emitted (emitted w1 n_true combined) n_false combined)).
      { apply (emitted_assembled _ n_false _ "sigmoid4" _ _ _ Hw2 Hu_f); [reflexivity |].
        cbn [NeuralTreeNet.values combined]. unfold w1. rewrite !emitted_size.
        repeat apply List.Forall_cons; try apply List.Forall_nil; lia. }
      split; [exact Hw3 |]. split; [exact Hdim |].
      split.
      * etransitivity; [apply (emitted_heap_prefix w n_th) |].
        etransitivity; [apply (emitted_heap_prefix w1 n_true combined) |].
        apply emitted_heap_prefix.
      * etransitivity; [apply (emitted_heap_prefix w n_th) |].
        etransitivity; [apply (emitted_heap_prefix w1 n_true combined) |].
        apply emitted_heap_prefix.
    + destruct (visit_root_run tree k output_class i predecessor outputs w cl cr f th
                  Hcl Hcr Hne Hf Hfr Hth Hpred Hlen)
        as (coef & n_th & n_false & Hrun' & Hcoef & Hinit_th & Hinit_f).
      cbv zeta in Hrun'. rewrite Hrun' in Hrun. injection Hrun as _ <-.
      destruct (sigmoid4_unit_init special coef (k * th) (NeuralTreeNet.tag_of i "-th"))
        as (n1 & Hn1 & Hu_th & _).
      destruct (identity_unit_of special [1 * -1]%R 1 (NeuralTreeNet.tag_of i "-F"))
        as (n2 & Hn2 & Hu_f).
      assert (n1 = n_th) by congruence. assert (n2 = n_false) by congruence.
      subst n1 n2.
      apply setitem_length in Hcoef. rewrite length_replicate in Hcoef.
      set (w1 := emitted w n_th (NeuralTreeNet.IntArray (range 0 mf))).
      assert (Hw1 : assembled w1).
      { apply (emitted_assembled w n_th _ "sigmoid4" coef (k * th) (-1) Hw Hu_th);
          [cbn [NeuralTreeNet.values]; rewrite length_range; lia | exact Hfeat]. }
      assert (Hw2 : assembled
                      (emitted w1 n_false
                         (NeuralTreeNet.PyList
                            [NeuralTreeNet.size_ (NeuralTreeNet.self w)]))).
      { apply (emitted_assembled w1 n_false _ "identity" _ _ _ Hw1 Hu_f); [reflexivity |].
        cbn [NeuralTreeNet.values]. unfold w1. rewrite emitted_size.
        repeat apply List.Forall_cons; try apply List.Forall_nil; lia. }
      split; [exact Hw2 |]. split; [exact Hdim |].
      split.
      * etransitivity; [apply (emitted_heap_prefix w n_th) |]. apply emitted_heap_prefix.
      * etransitivity; [apply (emitted_heap_prefix w n_th) |]. apply emitted_heap_prefix.
Qed.

(** X29. The loop of the compiler over the nodes of a tree, started in a
    network assembled from units with one output over [max_features_]
    inputs (the empty network [create_from_tree] starts from is one),
    ends in such a network: the units that were there are kept, in their
    order, every unit added has one output and reads slots that come
    before its own, and every recorded predecessor is a unit of the
    network. *)
Theorem compiler_loop_keeps_assembled (tree : NeuralTreeNet.tree_t) (k : R)
        (output_class : list Z) (l : list Z)
        (loc loc' : NeuralTreeNet.locals) (w w' : NeuralTreeNet.world) :
  Forall (node_ok tree) l ->
  assembled w ->
  NeuralTreeNet.dim (NeuralTreeNet.self w) = NeuralTreeNet.max_features_ tree ->
  loop_invariant w (fst loc) ->
  NeuralTreeNet.visit_all tree k output_class l loc w = (Ok loc', w') ->
  assembled w' /\
  NeuralTreeNet.dim (NeuralTreeNet.self w') = NeuralTreeNet.max_features_ tree /\
  NeuralTreeNet.heap w `prefix_of` NeuralTreeNet.heap w' /\
  NeuralTreeNet.nodes (NeuralTreeNet.self w)
    `prefix_of` NeuralTreeNet.nodes (NeuralTreeNet.self w') /\
  (forall (j : Z) (p : nat),
      fst loc' !! j = Some p -> exists o : Z, registered w' p o).
Proof.
  intros Hl. revert loc w.
  induction Hl as [|i l Hi _ IH]; intros loc w Hw Hdim Hinv Hrun.
  - injection Hrun as <- <-.
    repeat split; try assumption; try reflexivity. apply Hinv.
  - cbn [NeuralTreeNet.visit_all] in Hrun. unfold bind in Hrun.
    destruct (NeuralTreeNet.visit tree k output_class i loc w) as [[loc1|e] w1] eqn:Hvisit;
      [| discriminate].
    destruct (visit_assembled tree k output_class i loc loc1 w w1 Hi Hw Hdim Hinv Hvisit)
      as (Hw1 & Hdim1 & Hheap1 & Hnodes1).
    pose proof (visit_invariant tree k output_class i loc loc1 w w1 Hi Hinv Hvisit)
      as Hinv1.
    destruct (IH loc1 w1 Hw1 Hdim1 Hinv1 Hrun) as (Hw' & Hdim' & Hheap' & Hnodes' & Hreg').
    split; [exact Hw' |]. split; [exact Hdim' |].
    split; [etransitivity; eassumption |].
    split; [etransitivity; eassumption | exact Hreg'].
Qed.

(** At a leaf with a recorded predecessor, the predecessor joins the
    bucket of the class of the leaf. *)
Lemma visit_leaf_run (tree : NeuralTreeNet.tree_t) (k : R) (output_class : list Z) (i : Z)
      (predecessor : gmap Z nat) (outputs : gmap Z (list nat))
      (w : NeuralTreeNet.world) (c cls : Z) (pred : nat) (bucket : list nat) :
  getitem (NeuralTreeNet.children_left tree) i = Ok c ->
  getitem (NeuralTreeNet.children_right tree) i = Ok c ->
  predecessor !! i = Some pred ->
  getitem output_class i = Ok cls ->
  outputs !! cls = Some bucket ->
  NeuralTreeNet.visit tree k output_class i (predecessor, outputs) w
  = (Ok (predecessor, <[cls := bucket ++ [pred]]> outputs), w).
Proof.
  intros Hcl Hcr Hpred Hcls Hb. unfold NeuralTreeNet.visit, bind, lift.
  rewrite Hcl, Hcr, Z.eqb_refl. cbn [negb]. rewrite Hpred, Hcls.
  cbn [of_option]. rewrite Hb. reflexivity.
Qed.

End CompilerLoop.

Lemma stump_loop_run :
  exists (loc' : NeuralTreeNet.locals) (w' : NeuralTreeNet.world),
    NeuralTreeNet.visit_all (special := real_special) stump 1 [0; 0; 1]%Z [0; 1; 2]%Z
      (∅, {[0%Z := []; 1%Z := []]}) (NeuralTreeNet.mk_world [] (empty_net 2))
    = (Ok loc', w').
Proof.
  destruct (visit_root_run (special := real_special) stump 1%R [0; 0; 1]%Z 0%Z ∅
              {[0%Z := []; 1%Z := []]} (NeuralTreeNet.mk_world [] (empty_net 2))
              1%Z 2%Z 0%Z 0.5%R)
    as (coef & n_th & n_false & Hrun & _);
    [reflexivity | reflexivity | lia | reflexivity | simpl; lia | reflexivity
     | reflexivity | reflexivity |].
  cbv zeta in Hrun.
  eexists _, _. cbn [NeuralTreeNet.visit_all]. unfold bind. rewrite Hrun.
  rewrite (visit_leaf_run (special := real_special) stump 1%R [0; 0; 1]%Z 1%Z _ _ _
             (-1)%Z 0%Z 0 []);
    [| reflexivity | reflexivity | vm_compute; reflexivity | reflexivity
     | vm_compute; reflexivity].
  rewrite (visit_leaf_run (special := real_special) stump 1%R [0; 0; 1]%Z 2%Z _ _ _
             (-1)%Z 1%Z 1 []);
    [| reflexivity | reflexivity | vm_compute; reflexivity | reflexivity
     | vm_compute; reflexivity].
  reflexivity.
Defined.

Lemma compiler_loop_keeps_assembled_witness :
  exists (loc' : NeuralTreeNet.locals) (w' : NeuralTreeNet.world),
    NeuralTreeNet.visit_all (special := real_special) stump 1 [0; 0; 1]%Z [0; 1; 2]%Z
      (∅, {[0%Z := []; 1%Z := []]}) (NeuralTreeNet.mk_world [] (empty_net 2))
    = (Ok loc', w') /\
    assembled w' /\
    NeuralTreeNet.dim (NeuralTreeNet.self w') = 2%Z /\
    [] `prefix_of` NeuralTreeNet.heap w' /\
    [] `prefix_of` NeuralTreeNet.nodes (NeuralTreeNet.self w') /\
    (forall (j : Z) (p : nat),
        fst loc' !! j = Some p -> exists o : Z, registered w' p o).
Proof.
  destruct stump_loop_run as (loc' & w' & Hrun).
  exists loc', w'. split; [exact Hrun |].
  apply (compiler_loop_keeps_assembled (special := real_special) stump 1%R [0; 0; 1]%Z
           [0; 1; 2]%Z (∅, {[0%Z := []; 1%Z := []]}) loc'
           (NeuralTreeNet.mk_world [] (empty_net 2)) w').
  - exact stump_nodes_ok.
  - apply assembled_empty. lia.
  - reflexivity.
  - apply loop_invariant_start.
  - exact Hrun.
Defined.

(** ** The gradient of the softmax *)

Section SoftmaxGradient.
Local Open Scope R_scope.

Lemma rsum_nonneg (l : list R) : Forall (fun v => 0 <= v) l -> 0 <= rsum l.
Proof.
  unfold rsum. induction 1 as [|a l Ha _ IH]; simpl; lra.
Qed.

Lemma rsum_bounds_entry (l : list R) (i : nat) :
  Forall (fun v => 0 <= v) l -> nth i l 0 <= rsum l.
Proof.
  intros H. revert i. induction H as [|a l Ha Hl IH]; intros [|i]; simpl; try lra.
  - pose proof (rsum_nonneg l Hl). unfold rsum in *. lra.
  - specialize (IH i). unfold rsum in *. lra.
Qed.

Lemma rsum_bounds_two_entries (l : list R) (i j : nat) :
  Forall (fun v => 0 <= v) l -> i <> j -> nth i l 0 + nth j l 0 <= rsum l.
Proof.
  intros H. revert i j. induction H as [|a l Ha Hl IH]; intros [|i] [|j] Hne; simpl;
    try lra; try congruence.
  - pose proof (rsum_bounds_entry l j Hl). unfold rsum in *. lra.
  - pose proof (rsum_bounds_entry l i Hl). unfold rsum in *. lra.
  - specialize (IH i j ltac:(congruence)). unfold rsum in *. lra.
Qed.

Lemma rsum_exp_insert (x : list R) (j : nat) (t : R) :
  (j < length x)%nat ->
  rsum (map exp (<[j := t]> x)) = rsum (map exp x) - exp (nth j x 0) + exp t.
Proof.
  unfold rsum. revert j. induction x as [|a x IH]; intros [|j] Hj; simpl in *; try lia.
  - ring.
  - rewrite IH by lia. ring.
Qed.

Lemma rsum_exp_pos (x : list R) (j : nat) :
  (j < length x)%nat -> 0 < rsum (map exp x).
Proof.
  intros Hj.
  assert (Hall : Forall (fun v => 0 <= v) (map exp x)).
  { apply Forall_forall. intros v Hv. apply list_elem_of_fmap in Hv as (y & -> & _).
    left. apply exp_pos. }
  pose proof (rsum_bounds_entry (map exp x) j Hall) as Hle.
  rewrite (nth_indep _ 0 (exp 0)) in Hle by (rewrite length_map; exact Hj).
  rewrite map_nth in Hle. pose proof (exp_pos (nth j x 0)). lra.
Qed.

Lemma rsum_exp_others (x : list R) (j : nat) :
  (j < length x)%nat -> 0 <= rsum (map exp x) - exp (nth j x 0).
Proof.
  intros Hj.
  assert (Hall : Forall (fun v => 0 <= v) (map exp x)).
  { apply Forall_forall. intros v Hv. apply list_elem_of_fmap in Hv as (y & -> & _).
    left. apply exp_pos. }
  pose proof (rsum_bounds_entry (map exp x) j Hall) as Hle.
  rewrite (nth_indep _ 0 (exp 0)) in Hle by (rewrite length_map; exact Hj).
  rewrite map_nth in Hle. lra.
Qed.

(** The softmax of a vector with entries. *)
Lemma softmax_vector (x : list R) :
  x <> [] -> softmax (A1 x) = Ok (A1 (map (fun v => exp v / rsum (map exp x)) x)).
Proof. destruct x; [congruence | reflexivity]. Qed.

(** A vector without entries is refused, by the softmax and by its
    gradient. *)
Lemma dsoftmax_refuses_empty :
  softmax (A1 []) = Raise NumpyValueError /\
  NeuralTreeNode._softmax (A1 []) = Raise NumpyValueError /\
  NeuralTreeNode._dsoftmax (A1 []) = Raise NumpyValueError.
Proof. repeat split; reflexivity. Qed.

(** Entry [i] of the softmax of a vector. *)
Lemma softmax_entry (x : list R) (i : nat) :
  (i < length x)%nat ->
  entry_of (softmax (A1 x)) i = exp (nth i x 0) / rsum (map exp x).
Proof.
  intros Hi. rewrite softmax_vector by (destruct x; simpl in Hi; [lia | congruence]).
  cbn [entry_of].
  rewrite (nth_indep _ 0 ((fun v => exp v / rsum (map exp x)) 0))
    by (rewrite length_map; exact Hi).
  rewrite (map_nth (fun v => exp v / rsum (map exp x))). reflexivity.
Qed.

Lemma nth_insert_eq (x : list R) (j : nat) (t : R) :
  (j < length x)%nat -> nth j (<[j := t]> x) 0 = t.
Proof.
  intros Hj. rewrite nth_lookup, list_lookup_insert_eq by exact Hj. reflexivity.
Qed.

Lemma nth_insert_ne (x : list R) (i j : nat) (t : R) :
  i <> j -> nth i (<[j := t]> x) 0 = nth i x 0.
Proof.
  intros Hne. rewrite !nth_lookup, list_lookup_insert_ne by congruence. reflexivity.
Qed.

(** The derivative of [t |-> a / (c + exp t)]. *)
Lemma quotient_derivative (a c t0 : R) :
  0 <= c ->
  derivable_pt_lim (fun t => a / (c + exp t)) t0
    (- (a * exp t0) / ((c + exp t0) * (c + exp t0))).
Proof.
  intros Hc. pose proof (exp_pos t0) as Hpos.
  assert (Hden : derivable_pt_lim (fun t => c + exp t) t0 (0 + exp t0)).
  { apply (derivable_pt_lim_plus (fun _ => c) exp).
    - apply derivable_pt_lim_const.
    - apply derivable_pt_lim_exp. }
  assert (Hdiv : derivable_pt_lim (fun t => a / (c + exp t)) t0
                   ((0 * (c + exp t0) - (0 + exp t0) * a) / Rsqr (c + exp t0))).
  { apply (derivable_pt_lim_div (fun _ => a) (fun t => c + exp t)).
    - apply derivable_pt_lim_const.
    - exact Hden.
    - lra. }
  replace (- (a * exp t0) / ((c + exp t0) * (c + exp t0)))
    with ((0 * (c + exp t0) - (0 + exp t0) * a) / Rsqr (c + exp t0));
    [exact Hdiv |].
  unfold Rsqr. field. lra.
Qed.

(** The derivative of [t |-> exp t / (c + exp t)]. *)
Lemma own_quotient_derivative (c t0 : R) :
  0 <= c ->
  derivable_pt_lim (fun t => exp t / (c + exp t)) t0
    (exp t0 / (c + exp t0) - exp t0 / (c + exp t0) * (exp t0 / (c + exp t0))).
Proof.
  intros Hc. pose proof (exp_pos t0) as Hpos.
  assert (Hden : derivable_pt_lim (fun t => c + exp t) t0 (0 + exp t0)).
  { apply (derivable_pt_lim_plus (fun _ => c) exp).
    - apply derivable_pt_lim_const.
    - apply derivable_pt_lim_exp. }
  assert (Hdiv : derivable_pt_lim (fun t => exp t / (c + exp t)) t0
                   ((exp t0 * (c + exp t0) - (0 + exp t0) * exp t0) / Rsqr (c + exp t0))).
  { apply (derivable_pt_lim_div exp (fun t => c + exp t)).
    - apply derivable_pt_lim_exp.
    - exact Hden.
    - lra. }
  replace (exp t0 / (c + exp t0) - exp t0 / (c + exp t0) * (exp t0 / (c + exp t0)))
    with ((exp t0 * (c + exp t0) - (0 + exp t0) * exp t0) / Rsqr (c + exp t0));
    [exact Hdiv |].
  unfold Rsqr. field. lra.
Qed.

(** The Jacobian of the softmax: the derivative of output [i] in input
    [j] is [s i * (delta i j - s j)]. *)
Lemma softmax_jacobian (x : list R) (i j : nat) :
  (i < length x)%nat -> (j < length x)%nat ->
  derivable_pt_lim (fun t => entry_of (softmax (A1 (<[j := t]> x))) i) (nth j x 0)
    ((if (i =? j)%nat then entry_of (softmax (A1 x)) i else 0)
     - entry_of (softmax (A1 x)) i * entry_of (softmax (A1 x)) j).
Proof.
  intros Hi Hj.
  set (c := rsum (map exp x) - exp (nth j x 0)).
  assert (Hc : 0 <= c) by (apply rsum_exp_others, Hj).
  assert (Hsum : rsum (map exp x) = c + exp (nth j x 0)) by (unfold c; ring).
  pose proof (exp_pos (nth j x 0)) as Hpos.
  rewrite !softmax_entry by assumption. rewrite Hsum.
  destruct (Nat.eqb_spec i j) as [-> | Hne].
  - apply (derivable_pt_lim_ext (fun t => exp t / (c + exp t))).
    + intros t. rewrite softmax_entry by (rewrite length_insert; exact Hj).
      rewrite rsum_exp_insert, nth_insert_eq by exact Hj. fold c. reflexivity.
    + apply own_quotient_derivative, Hc.
  - apply (derivable_pt_lim_ext (fun t => exp (nth i x 0) / (c + exp t))).
    + intros t. rewrite softmax_entry by (rewrite length_insert; exact Hi).
      rewrite rsum_exp_insert by exact Hj. rewrite nth_insert_ne by exact Hne.
      fold c. reflexivity.
    + replace (0 - exp (nth i x 0) / (c + exp (nth j x 0))
                   * (exp (nth j x 0) / (c + exp (nth j x 0))))
        with (- (exp (nth i x 0) * exp (nth j x 0))
              / ((c + exp (nth j x 0)) * (c + exp (nth j x 0))))
        by (field; lra).
      apply quotient_derivative, Hc.
Qed.

Lemma dot_opp (s : list R) : dot (map Ropp s) s = - dot s s.
Proof.
  unfold dot, rsum. induction s as [|a s IH]; simpl; [ring |]. rewrite IH. ring.
Qed.

Lemma dot_self_squares (s : list R) : dot s s = rsum (map (fun v => v * v) s).
Proof.
  unfold dot, rsum. induction s as [|a s IH]; simpl; [reflexivity |]. rewrite IH.
  reflexivity.
Qed.

(** X30. On a vector with at least one entry [_dsoftmax] returns the
    diagonal matrix of the softmax [s] from every entry of which the number
    [sum(s ** 2)] is subtracted: [-soft @ soft.T] is a scalar product there,
    not an outer product. The Jacobian of the softmax has
    [s i * (delta i j - s j)] at [(i, j)]; away from the diagonal the entry
    the code returns is smaller than the entry of the Jacobian. *)
Theorem dsoftmax_on_vectors (x : list R) :
  x <> [] ->
  exists (s : list R) (rows : list (list R)),
    softmax (A1 x) = Ok (A1 s) /\
    length s = length x /\
    NeuralTreeNode._dsoftmax (A1 x) = Ok (A2 (length x) rows) /\
    length rows = length x /\
    forall i j : nat,
      (i < length x)%nat -> (j < length x)%nat ->
      nth j (nth i rows []) 0
      = (if (i =? j)%nat then nth i s 0 else 0) - dot s s /\
      derivable_pt_lim (fun t => entry_of (softmax (A1 (<[j := t]> x))) i)
        (nth j x 0)
        ((if (i =? j)%nat then nth i s 0 else 0) - nth i s 0 * nth j s 0) /\
      (i <> j -> nth j (nth i rows []) 0 < 0 - nth i s 0 * nth j s 0).
Proof.
  intros Hx.
  set (s := map (fun v => exp v / rsum (map exp x)) x).
  assert (Hs : softmax (A1 x) = Ok (A1 s)) by (apply softmax_vector, Hx).
  assert (Hslen : length s = length x) by apply length_map.
  assert (Hnth : forall k, nth k s 0 = entry_of (softmax (A1 x)) k).
  { intros k. rewrite Hs. reflexivity. }
  exists s. eexists. split; [exact Hs |]. split; [exact Hslen |]. split.
  { unfold NeuralTreeNode._dsoftmax. rewrite Hs. cbn [rbind].
    cbn [amap transpose matmul]. rewrite length_map, Nat.eqb_refl.
    cbn [rbind diag add broadcast amap]. rewrite Hslen. reflexivity. }
  split.
  { rewrite length_map, length_imap. exact Hslen. }
  intros i j Hi Hj. cbv zeta.
  assert (Hentry :
            nth j (nth i (map (map (fun v => v + dot (map Ropp s) s))
                            (imap (fun i0 x0 =>
                                     map (fun j0 => if (i0 =? j0)%nat then x0 else 0)
                                         (seq 0 (length x))) s)) []) 0
            = (if (i =? j)%nat then nth i s 0 else 0) - dot s s).
  { destruct (lookup_lt_is_Some_2 s i) as [si Hsi]; [lia |].
    change (@nil R) with (map (fun v => v + dot (map Ropp s) s) []) at 1.
    rewrite (map_nth (map (fun v => v + dot (map Ropp s) s))).
    rewrite (nth_lookup _ i), list_lookup_imap, Hsi.
    cbn [fmap option_fmap option_map default]. unfold Datatypes.id.
    rewrite (nth_indep _ 0 ((fun v => v + dot (map Ropp s) s) 0))
      by (rewrite !length_map, length_seq; exact Hj).
    rewrite (map_nth (fun v => v + dot (map Ropp s) s)).
    rewrite (nth_indep _ 0 ((fun j0 => if (i =? j0)%nat then si else 0) 0%nat))
      by (rewrite length_map, length_seq; exact Hj).
    rewrite (map_nth (fun j0 => if (i =? j0)%nat then si else 0)).
    rewrite seq_nth by exact Hj. cbn [Nat.add].
    rewrite (nth_lookup s i), Hsi. cbn [default]. rewrite dot_opp.
    unfold Datatypes.id. destruct (i =? j)%nat; ring. }
  split; [exact Hentry |].
  split; [rewrite !Hnth; apply softmax_jacobian; assumption |].
  intros Hne. rewrite Hentry.
  apply Nat.eqb_neq in Hne as Hne'. rewrite Hne'.
  assert (Hpos : forall k, (k < length x)%nat -> 0 < nth k s 0).
  { intros k Hk. rewrite Hnth, softmax_entry by exact Hk.
    apply Rdiv_lt_0_compat; [apply exp_pos | apply (rsum_exp_pos x k Hk)]. }
  pose proof (Hpos i Hi) as Hpi. pose proof (Hpos j Hj) as Hpj.
  assert (Hsq : Forall (fun v => 0 <= v) (map (fun v => v * v) s)).
  { apply Forall_forall. intros v Hv. apply list_elem_of_fmap in Hv as (y & -> & _). nra. }
  pose proof (rsum_bounds_two_entries _ i j Hsq Hne) as Hle.
  rewrite !(nth_indep (map (fun v => v * v) s) 0 ((fun v => v * v) 0)) in Hle
    by (rewrite length_map; lia).
  rewrite !(map_nth (fun v => v * v)) in Hle.
  rewrite dot_self_squares.
  pose proof (Rle_0_sqr (nth i s 0 - nth j s 0)) as Hsqr. unfold Rsqr in Hsqr.
  pose proof (Rmult_lt_0_compat _ _ Hpi Hpj) as Hprod.
  lra.
Qed.

Lemma dsoftmax_on_vectors_witness :
  [0; 0] <> [] /\
  exists (s : list R) (rows : list (list R)),
    softmax (A1 [0; 0]) = Ok (A1 s) /\
    length s = 2%nat /\
    NeuralTreeNode._dsoftmax (A1 [0; 0]) = Ok (A2 2 rows) /\
    length rows = 2%nat /\
    forall i j : nat,
      (i < 2)%nat -> (j < 2)%nat ->
      nth j (nth i rows []) 0
      = (if (i =? j)%nat then nth i s 0 else 0) - dot s s /\
      derivable_pt_lim (fun t => entry_of (softmax (A1 (<[j := t]> [0; 0]))) i)
        (nth j [0; 0] 0)
        ((if (i =? j)%nat then nth i s 0 else 0) - nth i s 0 * nth j s 0) /\
      (i <> j -> nth j (nth i rows []) 0 < 0 - nth i s 0 * nth j s 0).
Proof.
  split; [discriminate |].
  apply (dsoftmax_on_vectors [0; 0]). discriminate.
Defined.

End SoftmaxGradient.

(** ** The compiled network *)

Lemma extends_refl (w : NeuralTreeNet.world) : extends w w.
Proof. repeat split; reflexivity. Qed.

Lemma extends_trans (w1 w2 w3 : NeuralTreeNet.world) :
  extends w1 w2 -> extends w2 w3 -> extends w1 w3.
Proof.
  intros (H1 & H2 & H3) (H4 & H5 & H6).
  repeat split; etransitivity; eassumption.
Qed.

Lemma emitted_extends (w : NeuralTreeNet.world) (n : NeuralTreeNode.t)
      (inputs : NeuralTreeNet.inputs_arg) :
  extends w (emitted w n inputs).
Proof. repeat split; apply prefix_app_r; reflexivity. Qed.

Lemma registered_extends (w w' : NeuralTreeNet.world) (p : nat) (o : Z) :
  extends w w' -> registered w p o -> registered w' p o.
Proof.
  intros (Hh & Hn & Ha) (n & r & a & H1 & H2 & H3 & H4 & H5).
  exists n, r, a.
  split; [eapply prefix_lookup_Some; eassumption |]. split; [exact H2 |].
  split; [eapply prefix_lookup_Some; eassumption |].
  split; [eapply prefix_lookup_Some; eassumption | exact H5].
Qed.

Lemma buckets_extends (w w' : NeuralTreeNet.world) (outputs : gmap Z (list nat)) :
  extends w w' -> buckets_ok w outputs -> buckets_ok w' outputs.
Proof.
  intros He (b0 & b1 & H0 & H1 & Hall). exists b0, b1.
  split; [exact H0 |]. split; [exact H1 |].
  intros p Hp. destruct (Hall p Hp) as (o & Ho). exists o.
  eapply registered_extends; eassumption.
Qed.

Lemma getitem_in_range {A : Type} (l : list A) (i : Z) :
  (0 <= i < Z.of_nat (length l))%Z ->
  exists x, getitem l i = Ok x /\ l !! Z.to_nat i = Some x.
Proof.
  intros Hi. destruct (lookup_lt_is_Some_2 l (Z.to_nat i)) as [x Hx]; [lia |].
  exists x. split; [apply getitem_nonneg; [lia | exact Hx] | exact Hx].
Qed.

Lemma map_seq_from (c : Z) (s n : nat) :
  map (fun j => (c + Z.of_nat j)%Z) (seq s n)
  = map (fun j => (c + Z.of_nat s + Z.of_nat j)%Z) (seq 0 n).
Proof.
  revert c s. induction n as [|n IH]; intros c s; simpl; [reflexivity |].
  f_equal; [lia |]. rewrite (IH c (S s)), (IH (c + Z.of_nat s)%Z 1).
  apply map_ext. intros j. lia.
Qed.

Lemma range_split (i n : Z) :
  (0 <= i < n)%Z -> range 0 n = range 0 i ++ i :: range (i + 1) n.
Proof.
  intros Hi. unfold range.
  replace (Z.to_nat (n - 0)) with (Z.to_nat (i - 0) + S (Z.to_nat (n - (i + 1)))) by lia.
  rewrite seq_app, map_app. f_equal. cbn [seq map]. f_equal; [lia |].
  rewrite map_seq_from. apply map_ext. intros j. lia.
Qed.

Section CompiledNetwork.
Context {special : Special}.

Lemma visit_all_app (tree : NeuralTreeNet.tree_t) (k : R) (oc : list Z) (l1 l2 : list Z) :
  forall (loc : NeuralTreeNet.locals) (w : NeuralTreeNet.world),
    NeuralTreeNet.visit_all tree k oc (l1 ++ l2) loc w
    = bind (NeuralTreeNet.visit_all tree k oc l1 loc)
           (fun loc' => NeuralTreeNet.visit_all tree k oc l2 loc') w.
Proof.
  induction l1 as [|i l1 IH]; intros loc w; [reflexivity |].
  cbn [app NeuralTreeNet.visit_all]. unfold bind in *.
  destruct (NeuralTreeNet.visit tree k oc i loc w) as [[loc1|e] w1]; [| reflexivity].
  apply IH.
Qed.

(** An internal node whose feature is not a position of the input stops
    the compiler. *)
Lemma visit_feature_out_of_range (tree : NeuralTreeNet.tree_t) (k : R) (oc : list Z)
      (i : Z) (loc : NeuralTreeNet.locals) (w : NeuralTreeNet.world) (cl cr f : Z) :
  getitem (NeuralTreeNet.children_left tree) i = Ok cl ->
  getitem (NeuralTreeNet.children_right tree) i = Ok cr ->
  cl <> cr ->
  getitem (NeuralTreeNet.feature tree) i = Ok f ->
  (0 <= NeuralTreeNet.max_features_ tree)%Z ->
  ~ (- NeuralTreeNet.max_features_ tree <= f < NeuralTreeNet.max_features_ tree)%Z ->
  NeuralTreeNet.visit tree k oc i loc w = (Raise IndexError, w).
Proof.
  intros Hcl Hcr Hne Hf Hmf Hout. destruct loc as [predecessor outputs].
  unfold NeuralTreeNet.visit, bind, lift.
  rewrite Hcl, Hcr. apply Z.eqb_neq in Hne. rewrite Hne. cbn [negb].
  unfold NeuralTreeNet.zeros.
  destruct (NeuralTreeNet.max_features_ tree <? 0)%Z eqn:Hneg;
    [apply Z.ltb_lt in Hneg; lia |].
  rewrite Hf. unfold setitem, py_index. rewrite length_replicate.
  destruct (0 <=? f)%Z eqn:H0.
  - destruct (f <? Z.of_nat (Z.to_nat (NeuralTreeNet.max_features_ tree)))%Z eqn:H1;
      [| reflexivity].
    apply Z.leb_le in H0. apply Z.ltb_lt in H1. lia.
  - destruct (- Z.of_nat (Z.to_nat (NeuralTreeNet.max_features_ tree)) <=? f)%Z eqn:H1;
      [| reflexivity].
    apply Z.leb_gt in H0. apply Z.leb_le in H1. lia.
Qed.

(** One turn of the loop on a node of a binary tree succeeds and keeps
    what the loop relies on. *)
Lemma visit_step (tree : NeuralTreeNet.tree_t) (k : R) (oc : list Z) (i : Z)
      (loc : NeuralTreeNet.locals) (w : NeuralTreeNet.world) :
  node_ok tree i ->
  (0 <= i < Z.of_nat (length oc))%Z ->
  Forall (fun c => c = 0%Z \/ c = 1%Z) oc ->
  loop_invariant w (fst loc) ->
  buckets_ok w (snd loc) ->
  exists loc' w',
    NeuralTreeNet.visit tree k oc i loc w = (Ok loc', w') /\
    loop_invariant w' (fst loc') /\
    buckets_ok w' (snd loc') /\
    extends w w'.
Proof.
  intros Hok Hi Hoc Hinv Hb.
  pose proof Hok as (cl & cr & f & th & Hcl & Hcr & Hf & Hth & Hfr).
  destruct loc as [predecessor outputs]. cbn [fst snd] in *.
  destruct Hinv as [Hlen Hreg].
  destruct (Z.eq_dec cl cr) as [-> | Hne].
  - destruct (predecessor !! i) as [pred|] eqn:Hpred.
    + destruct (getitem_in_range oc i Hi) as (c & Hc & Hc').
      assert (Hc01 : c = 0%Z \/ c = 1%Z).
      { rewrite Forall_forall in Hoc. apply Hoc.
        eapply list_elem_of_lookup_2, Hc'. }
      destruct Hb as (b0 & b1 & H0 & H1 & Hall).
      destruct (Hreg i pred Hpred) as (o & Ho).
      destruct Hc01 as [-> | ->].
      * exists (predecessor, <[0%Z := b0 ++ [pred]]> outputs), w.
        split; [apply (visit_leaf_run tree k oc i predecessor outputs w cr 0%Z pred b0);
                assumption |].
        split; [split; assumption |]. split; [| apply extends_refl].
        cbn [snd]. exists (b0 ++ [pred]), b1. split; [apply lookup_insert_eq |].
        split; [rewrite lookup_insert_ne by lia; exact H1 |].
        intros p Hp. rewrite !elem_of_app in Hp.
        destruct Hp as [[Hp | Hp] | Hp].
        -- apply Hall. apply elem_of_app. left. exact Hp.
        -- apply list_elem_of_singleton in Hp as ->. exists o. exact Ho.
        -- apply Hall. apply elem_of_app. right. exact Hp.
      * exists (predecessor, <[1%Z := b1 ++ [pred]]> outputs), w.
        split; [apply (visit_leaf_run tree k oc i predecessor outputs w cr 1%Z pred b1);
                assumption |].
        split; [split; assumption |]. split; [| apply extends_refl].
        cbn [snd]. exists b0, (b1 ++ [pred]).
        split; [rewrite lookup_insert_ne by lia; exact H0 |].
        split; [apply lookup_insert_eq |].
        intros p Hp. rewrite !elem_of_app in Hp.
        destruct Hp as [Hp | [Hp | Hp]].
        -- apply Hall. apply elem_of_app. left. exact Hp.
        -- apply Hall. apply elem_of_app. right. exact Hp.
        -- apply list_elem_of_singleton in Hp as ->. exists o. exact Ho.
    + exists (predecessor, outputs), w.
      split.
      { unfold NeuralTreeNet.visit, bind, lift.
        rewrite Hcl, Hcr, Z.eqb_refl. cbn [negb]. rewrite Hpred. reflexivity. }
      split; [split; assumption |]. split; [exact Hb | apply extends_refl].
  - specialize (Hfr Hne).
    destruct (predecessor !! i) as [pred|] eqn:Hpred.
    + destruct (Hreg i pred Hpred) as (o1 & Ho1).
      destruct (visit_with_predecessor_run tree k oc i predecessor outputs
                  w cl cr f th pred o1 Hcl Hcr Hne Hf Hfr Hth Hpred Ho1 Hlen)
        as (n_th & n_true & n_false & Hrun & _).
      cbv zeta in Hrun. eexists _, _. split; [exact Hrun |].
      split.
      { apply (visit_invariant tree k oc i (predecessor, outputs) _ w _ Hok);
          [split; assumption | exact Hrun]. }
      assert (Hext : extends w
                (emitted (emitted (emitted w n_th
                   (NeuralTreeNet.IntArray (range 0 (NeuralTreeNet.max_features_ tree))))
                   n_true (NeuralTreeNet.PyList [o1; NeuralTreeNet.size_ (NeuralTreeNet.self w)]))
                   n_false (NeuralTreeNet.PyList [o1; NeuralTreeNet.size_ (NeuralTreeNet.self w)]))).
      { eapply extends_trans; [apply emitted_extends |].
        eapply extends_trans; apply emitted_extends. }
      split; [| exact Hext].
      cbn [snd]. eapply buckets_extends; eassumption.
    + destruct (visit_internal_node_without_predecessor tree k oc i
                  predecessor outputs w cl cr f th Hcl Hcr Hne Hf Hfr Hth Hpred Hlen)
        as (n_th & n_false & Hrun & _).
      cbv zeta in Hrun. eexists _, _. split; [exact Hrun |].
      split.
      { apply (visit_invariant tree k oc i (predecessor, outputs) _ w _ Hok);
          [split; assumption | exact Hrun]. }
      assert (Hext : extends w
                (emitted (emitted w n_th
                   (NeuralTreeNet.IntArray (range 0 (NeuralTreeNet.max_features_ tree))))
                   n_false (NeuralTreeNet.PyList [NeuralTreeNet.size_ (NeuralTreeNet.self w)]))).
      { eapply extends_trans; apply emitted_extends. }
      split; [| exact Hext].
      cbn [snd]. eapply buckets_extends; eassumption.
Qed.

(** The loop over nodes of a binary tree succeeds. *)
Lemma visit_all_total (tree : NeuralTreeNet.tree_t) (k : R) (oc : list Z) (l : list Z) :
  Forall (fun i => node_ok tree i /\ (0 <= i < Z.of_nat (length oc))%Z) l ->
  Forall (fun c => c = 0%Z \/ c = 1%Z) oc ->
  forall (loc : NeuralTreeNet.locals) (w : NeuralTreeNet.world),
    loop_invariant w (fst loc) ->
    buckets_ok w (snd loc) ->
    exists loc' w',
      NeuralTreeNet.visit_all tree k oc l loc w = (Ok loc', w') /\
      loop_invariant w' (fst loc') /\
      buckets_ok w' (snd loc') /\
      extends w w'.
Proof.
  intros Hl Hoc. induction Hl as [|i l [Hok Hi] _ IH]; intros loc w Hinv Hb.
  - exists loc, w. split; [reflexivity |]. split; [exact Hinv |].
    split; [exact Hb | apply extends_refl].
  - destruct (visit_step tree k oc i loc w Hok Hi Hoc Hinv Hb)
      as (loc1 & w1 & Hrun1 & Hinv1 & Hb1 & Hext1).
    destruct (IH loc1 w1 Hinv1 Hb1) as (loc' & w' & Hrun & Hinv' & Hb' & Hext).
    exists loc', w'. split.
    { cbn [NeuralTreeNet.visit_all]. unfold bind. rewrite Hrun1. exact Hrun. }
    split; [exact Hinv' |]. split; [exact Hb' |].
    eapply extends_trans; eassumption.
Qed.


Lemma put_slice_one (res : list R) (a b : Z) (x : R) :
  exists res', put_slice res a b [x] = Ok res'.
Proof.
  unfold put_slice. cbv zeta. unfold fits. cbn [length].
  rewrite Nat.eqb_refl, orb_true_r. cbn [negb]. eexists. reflexivity.
Qed.

Lemma block_weights_two (k : R) (a b c : Z) (m : nat) :
  exists r0 r1, NeuralTreeNet.block_weights 2 k [a; b; c] 2 m = Ok [r0; r1].
Proof.
  unfold NeuralTreeNet.block_weights. change (range 0 2) with [0; 1]%Z.
  cbn [rfold replicate].
  change (getitem [a; b; c] 0%Z) with (Ok a).
  change (getitem [a; b; c] (0 + 1)%Z) with (Ok b).
  change (getitem [replicate m 0%R; replicate m 0%R] 0%Z) with (Ok (replicate m 0%R)).
  cbn [rbind].
  destruct (put_slice_one (replicate m 0%R) a b k) as [r0 Hr0]. rewrite Hr0.
  cbn [rbind].
  change (setitem [replicate m 0%R; replicate m 0%R] 0%Z r0)
    with (Ok [r0; replicate m 0%R]).
  cbn [rbind].
  change (getitem [a; b; c] 1%Z) with (Ok b).
  change (getitem [a; b; c] (1 + 1)%Z) with (Ok c).
  change (getitem [r0; replicate m 0%R] 1%Z) with (Ok (replicate m 0%R)).
  cbn [rbind].
  destruct (put_slice_one (replicate m 0%R) b c k) as [r1 Hr1]. rewrite Hr1.
  cbn [rbind]. exists r0, r1. reflexivity.
Qed.

Lemma gather_leaves_two (outputs : gmap Z (list nat)) (b0 b1 : list nat) :
  outputs !! 0%Z = Some b0 -> outputs !! 1%Z = Some b1 ->
  NeuralTreeNet.gather_leaves 2 outputs
  = Ok (b0 ++ b1,
        [0; Z.of_nat (length b0) + 0; Z.of_nat (length b1) + (Z.of_nat (length b0) + 0)]%Z,
        [Z.of_nat (length b0); Z.of_nat (length b1)]).
Proof.
  intros H0 H1. unfold NeuralTreeNet.gather_leaves. change (range 0 2) with [0; 1]%Z.
  cbn [rfold]. rewrite H0. cbn [of_option rbind].
  change (getitem [0%Z] (-1)) with (Ok 0%Z). cbn [rbind app].
  rewrite H1. cbn [of_option rbind].
  change (getitem [0%Z; (Z.of_nat (length b0) + 0)%Z] (-1))
    with (Ok (Z.of_nat (length b0) + 0)%Z).
  reflexivity.
Qed.

(** The slots of the units of the buckets. *)
Lemma feat_of_registered (w : NeuralTreeNet.world) (l : list nat) :
  (forall p, p ∈ l -> exists o, registered w p o) ->
  exists feat, output_slots l w = (Ok feat, w) /\ length feat = length l.
Proof.
  induction l as [|p l IH]; intros Hall.
  - exists []. split; reflexivity.
  - destruct IH as (feat & Hfeat & Hlen).
    { intros q Hq. apply Hall. right. exact Hq. }
    destruct (Hall p ltac:(left)) as (o & Ho).
    destruct (attr_of_registered w p o Ho) as (a & Ha & Hout).
    exists (o :: feat). split; [| simpl; rewrite Hlen; reflexivity].
    change (output_slots (p :: l) w)
      with (bind (NeuralTreeNet.attr_of p)
              (fun a => bind (lift (NeuralTreeNet.output_slot a))
                          (fun o => bind (output_slots l) (fun os => ret (o :: os)))) w).
    unfold bind at 1. rewrite Ha.
    assert (Hslot : NeuralTreeNet.output_slot a = Ok o)
      by (unfold NeuralTreeNet.output_slot; rewrite Hout; reflexivity).
    unfold bind at 1. unfold lift at 1. rewrite Hslot.
    unfold bind at 1. rewrite Hfeat. reflexivity.
Qed.

Lemma final_unit_init (m : nat) (r0 r1 : list R) (b : R) :
  exists n,
    NeuralTreeNet.unit_of (A2 m [r0; r1]) b "softmax4" (Some "Nfinal") = Ok n /\
    NeuralTreeNode.input_weights n = Ok (A2 (S m - 1) [drop 1 (b :: r0); drop 1 (b :: r1)]).
Proof.
  eexists. split; reflexivity.
Qed.

(** The final part of the compiler succeeds and keeps the units. *)
Lemma final_node_total (tree : NeuralTreeNet.tree_t) (k : R)
      (outputs : gmap Z (list nat)) (w : NeuralTreeNet.world) :
  NeuralTreeNet.n_classes_ tree = 2%Z ->
  buckets_ok w outputs ->
  exists w', NeuralTreeNet.final_node tree k outputs w = (Ok tt, w') /\ extends w w'.
Proof.
  intros Hnc (b0 & b1 & H0 & H1 & Hall).
  unfold NeuralTreeNet.final_node. rewrite Hnc.
  unfold bind at 1. unfold lift at 1.
  rewrite (gather_leaves_two outputs b0 b1 H0 H1). cbv beta iota.
  unfold bind at 1. unfold lift at 1. cbn [length].
  destruct (block_weights_two k 0%Z (Z.of_nat (length b0) + 0)%Z
              (Z.of_nat (length b1) + (Z.of_nat (length b0) + 0))%Z
              (length (b0 ++ b1))) as (r0 & r1 & Hbw).
  rewrite Hbw. cbv beta iota.
  destruct (feat_of_registered w (b0 ++ b1) Hall) as (feat & Hfeat & Hlen).
  unfold bind at 1. rewrite Hfeat.
  destruct (final_unit_init (length (b0 ++ b1)) r0 r1 (- k / 2)) as (n & Hinit & Hiw).
  unfold bind at 1. rewrite Hinit, new_node_ok.
  rewrite (append_multi_output _ (length (NeuralTreeNet.heap w)) n
             (NeuralTreeNet.PyList feat) (S (length (b0 ++ b1)) - 1)
             [drop 1 ((- k / 2)%R :: r0); drop 1 ((- k / 2)%R :: r1)]);
    [| unfold heap_lookup_ok; cbn [NeuralTreeNet.heap]; apply list_lookup_middle; reflexivity
     | exact Hiw
     | cbn [NeuralTreeNet.values]; lia].
  eexists. split; [reflexivity |].
  unfold appended. cbn [NeuralTreeNet.heap NeuralTreeNet.self]. rewrite insert_last.
  repeat split; cbn; apply prefix_app_r; reflexivity.
Qed.


Lemma classes_of_binary (ps : list (R * R)) :
  Forall (fun c => c = 0%Z \/ c = 1%Z) (NeuralTreeNet.classes_of ps) /\
  length (NeuralTreeNet.classes_of ps) = length ps.
Proof.
  unfold NeuralTreeNet.classes_of. split; [| apply length_map].
  apply Forall_forall. intros c Hc. apply list_elem_of_fmap in Hc as ([v0 v1] & -> & _).
  destruct (Rlt_dec v0 v1); [right | left]; reflexivity.
Qed.

(** [create_from_tree] on a tree with two classes is its loop followed
    by its final part, from the empty network. *)
Lemma create_from_tree_run (tree : NeuralTreeNet.tree_t) (k : R) (h : list NeuralTreeNode.t)
      (ps : list (R * R)) (loc : NeuralTreeNet.locals) (w w' : NeuralTreeNet.world) :
  NeuralTreeNet.n_classes_ tree = 2%Z ->
  NeuralTreeNet.pairs (NeuralTreeNet.value tree) = Ok ps ->
  NeuralTreeNet.visit_all tree k (NeuralTreeNet.classes_of ps)
    (range 0 (NeuralTreeNet.node_count tree))
    (∅, list_to_map (map (fun i => (i, [])) (range 0 2)))
    (NeuralTreeNet.mk_world h (empty_net (NeuralTreeNet.max_features_ tree)))
  = (Ok loc, w) ->
  NeuralTreeNet.final_node tree k (snd loc) w = (Ok tt, w') ->
  NeuralTreeNet.create_from_tree tree k h
  = (Ok (NeuralTreeNet.self w'), NeuralTreeNet.heap w').
Proof.
  intros Hnc Hps Hloop Hfinal. unfold NeuralTreeNet.create_from_tree.
  rewrite Hnc. change (2 <? 2)%Z with false. cbv iota.
  unfold bind at 1. unfold lift at 1. rewrite Hps.
  unfold bind at 1.
  change (NeuralTreeNet.__init__ (NeuralTreeNet.max_features_ tree) true h)
    with (Ok (empty_net (NeuralTreeNet.max_features_ tree)), h).
  cbv beta iota. unfold bind at 1. rewrite Hloop, Hfinal. reflexivity.
Qed.

Lemma buckets_start (w : NeuralTreeNet.world) :
  buckets_ok w (list_to_map (map (fun i : Z => (i, @nil nat)) (range 0 2))).
Proof.
  exists [], []. split; [reflexivity |]. split; [reflexivity |].
  intros p Hp. apply elem_of_nil in Hp. contradiction.
Qed.

(** C9, amended. For every binary decision tree whose internal nodes split
    on a position of an input of [max_features_] entries, and every
    steepness [k], [create_from_tree] returns a network. When its loop
    reaches an internal node [i] (the two children differ) whose
    predecessor [pred] is recorded, the turn of the loop at [i] creates the
    threshold unit and then exactly two more units: the AND-unit with
    weights [k, k] and bias [-1.5 k] and the DIFFERENCE-unit with weights
    [k, -k] and bias [-0.25 k]. Both use the steepened sigmoid and read the
    output slot of the predecessor followed by the output slot of the
    threshold unit; the first is recorded as the predecessor of the left
    child and the second as the predecessor of the right child; and both
    are units of the network returned, at the places the loop gave them. *)
Theorem create_from_tree_combination_units
        (tree : NeuralTreeNet.tree_t) (k : R) (h : list NeuralTreeNode.t) :
  binary_tree tree ->
  exists (ps : list (R * R)) (net : NeuralTreeNet.t) (h' : list NeuralTreeNode.t),
    NeuralTreeNet.pairs (NeuralTreeNet.value tree) = Ok ps /\
    NeuralTreeNet.create_from_tree tree k h = (Ok net, h') /\
    forall (i cl cr : Z),
      (0 <= i < NeuralTreeNet.node_count tree)%Z ->
      getitem (NeuralTreeNet.children_left tree) i = Ok cl ->
      getitem (NeuralTreeNet.children_right tree) i = Ok cr ->
      cl <> cr ->
      exists (predecessor : gmap Z nat) (outputs : gmap Z (list nat))
             (w : NeuralTreeNet.world),
        NeuralTreeNet.visit_all tree k (NeuralTreeNet.classes_of ps) (range 0 i)
          (∅, list_to_map (map (fun c => (c, [])) (range 0 (NeuralTreeNet.n_classes_ tree))))
          (NeuralTreeNet.mk_world h (empty_net (NeuralTreeNet.max_features_ tree)))
        = (Ok (predecessor, outputs), w) /\
        forall pred : nat,
          predecessor !! i = Some pred ->
          exists (o1 : Z) (n_th n_true n_false : NeuralTreeNode.t)
                 (a_true a_false : NeuralTreeNet.attr),
            let h0 := length (NeuralTreeNet.heap w) in
            let n0 := length (NeuralTreeNet.nodes (NeuralTreeNet.self w)) in
            let slot_th := NeuralTreeNet.size_ (NeuralTreeNet.self w) in
            let combined := NeuralTreeNet.PyList [o1; slot_th] in
            let w1 := emitted w n_th
                        (NeuralTreeNet.IntArray
                           (range 0 (NeuralTreeNet.max_features_ tree))) in
            registered w pred o1 /\
            NeuralTreeNet.visit tree k (NeuralTreeNet.classes_of ps) i
              (predecessor, outputs) w
            = (Ok (<[cr := h0 + 2]> (<[cl := h0 + 1]> predecessor), outputs),
               emitted (emitted w1 n_true combined) n_false combined) /\
            is_unit n_true "sigmoid4" [k; k]%R (-1.5 * k)%R (-1) /\
            is_unit n_false "sigmoid4" [k; - k]%R (-0.25 * k)%R (-1) /\
            (<[cr := h0 + 2]> (<[cl := h0 + 1]> predecessor)) !! cl = Some (h0 + 1) /\
            (<[cr := h0 + 2]> (<[cl := h0 + 1]> predecessor)) !! cr = Some (h0 + 2) /\
            h' !! (h0 + 1) = Some (NeuralTreeNode.set_nodeid (Z.of_nat n0 + 1) n_true) /\
            h' !! (h0 + 2) = Some (NeuralTreeNode.set_nodeid (Z.of_nat n0 + 2) n_false) /\
            NeuralTreeNet.nodes net !! (n0 + 1) = Some (h0 + 1) /\
            NeuralTreeNet.nodes net !! (n0 + 2) = Some (h0 + 2) /\
            NeuralTreeNet.nodes_attr net !! (n0 + 1) = Some a_true /\
            NeuralTreeNet.nodes_attr net !! (n0 + 2) = Some a_false /\
            NeuralTreeNet.indices (NeuralTreeNet.inputs a_true) = [o1; slot_th] /\
            NeuralTreeNet.indices (NeuralTreeNet.inputs a_false) = [o1; slot_th] /\
            NeuralTreeNet.output a_true = NeuralTreeNet.OInt (slot_th + 1) /\
            NeuralTreeNet.output a_false = NeuralTreeNet.OInt (slot_th + 2).
Proof.
  intros (Hnc & Hnodes & ps & Hps & Hcount).
  set (oc := NeuralTreeNet.classes_of ps).
  set (w0 := NeuralTreeNet.mk_world h (empty_net (NeuralTreeNet.max_features_ tree))).
  rewrite Hnc.
  set (loc0 := ((∅ : gmap Z nat),
                (list_to_map (map (fun c : Z => (c, @nil nat)) (range 0 2))
                 : gmap Z (list nat)))).
  destruct (classes_of_binary ps) as [Hoc Hoclen]. fold oc in Hoc, Hoclen.
  assert (Hall : forall l, Forall (fun i => (0 <= i < NeuralTreeNet.node_count tree)%Z) l ->
                 Forall (fun i => node_ok tree i /\ (0 <= i < Z.of_nat (length oc))%Z) l).
  { intros l Hl. apply Forall_forall. intros i Hi.
    rewrite Forall_forall in Hl. specialize (Hl i Hi). split; [| lia].
    rewrite Forall_forall in Hnodes. apply Hnodes. apply elem_of_range. exact Hl. }
  assert (Hinv0 : loop_invariant w0 (fst loc0)) by apply loop_invariant_start.
  assert (Hb0 : buckets_ok w0 (snd loc0)) by apply buckets_start.
  destruct (visit_all_total tree k oc (range 0 (NeuralTreeNet.node_count tree))
              (Hall _ (range_in_bounds _ _)) Hoc loc0 w0 Hinv0 Hb0)
    as (loc_end & w_end & Hrun_all & Hinv_end & Hb_end & Hext_end).
  destruct (final_node_total tree k (snd loc_end) w_end Hnc Hb_end)
    as (w' & Hfinal & Hext').
  exists ps, (NeuralTreeNet.self w'), (NeuralTreeNet.heap w').
  split; [exact Hps |].
  split; [apply (create_from_tree_run tree k h ps loc_end w_end w' Hnc Hps Hrun_all Hfinal) |].
  intros i cl cr Hi Hcl Hcr Hne.
  rewrite (range_split i _ Hi) in Hrun_all.
  assert (Hpre : Forall (fun j => (0 <= j < NeuralTreeNet.node_count tree)%Z) (range 0 i)).
  { eapply Forall_impl; [apply range_in_bounds |]. simpl. intros j Hj. lia. }
  assert (Hpost : Forall (fun j => (0 <= j < NeuralTreeNet.node_count tree)%Z)
                         (range (i + 1) (NeuralTreeNet.node_count tree))).
  { eapply Forall_impl; [apply range_in_bounds |]. simpl. intros j Hj. lia. }
  destruct (visit_all_total tree k oc (range 0 i) (Hall _ Hpre) Hoc loc0 w0 Hinv0 Hb0)
    as ([predecessor outputs] & w & Hrun_i & Hinv_i & Hb_i & _).
  exists predecessor, outputs, w. split; [exact Hrun_i |].
  intros pred Hpred.
  assert (Hoki : node_ok tree i).
  { rewrite Forall_forall in Hnodes. apply Hnodes. apply elem_of_range. exact Hi. }
  pose proof Hoki as (cl' & cr' & f & th & Hcl' & Hcr' & Hf & Hth & Hfr).
  assert (cl' = cl) by congruence. assert (cr' = cr) by congruence. subst cl' cr'.
  specialize (Hfr Hne). cbn [fst snd] in Hinv_i, Hb_i.
  destruct (visit_internal_node_with_predecessor tree k oc i predecessor outputs w
              cl cr f th pred Hcl Hcr Hne Hf Hfr Hth Hpred Hinv_i)
    as (o1 & n_th & n_true & n_false & Hreg & Hvisit & Hu_t & Hu_f & Hpl & Hpr
        & Hheap & Hnds & _ & _).
  cbv zeta in Hvisit, Hpl, Hpr, Hheap, Hnds.
  set (I := NeuralTreeNet.IntArray (range 0 (NeuralTreeNet.max_features_ tree))) in *.
  set (C := NeuralTreeNet.PyList [o1; NeuralTreeNet.size_ (NeuralTreeNet.self w)]) in *.
  set (w3 := emitted (emitted (emitted w n_th I) n_true C) n_false C) in *.
  (* the rest of the run starts from [w3] *)
  destruct (visit_step tree k oc i (predecessor, outputs) w Hoki
              (proj2 (proj1 (Forall_forall _ _) (Hall _ (range_in_bounds 0 _)) i
                        (proj2 (elem_of_range _ _ _) Hi)))
              Hoc Hinv_i Hb_i)
    as (loc1 & w1 & Hstep & Hinv1 & Hb1 & _).
  rewrite Hvisit in Hstep. injection Hstep as <- <-.
  destruct (visit_all_total tree k oc _ (Hall _ Hpost) Hoc _ w3 Hinv1 Hb1)
    as (loc2 & w2 & Hrun_tail & _ & _ & Hext_tail).
  rewrite visit_all_app in Hrun_all. unfold bind in Hrun_all.
  rewrite Hrun_i in Hrun_all. cbn [NeuralTreeNet.visit_all] in Hrun_all.
  unfold bind in Hrun_all. rewrite Hvisit, Hrun_tail in Hrun_all.
  injection Hrun_all as _ <-.
  assert (Hext : extends w3 w') by (eapply extends_trans; eassumption).
  destruct Hext as (Hext_h & Hext_n & Hext_a).
  destruct Hinv_i as [Hlen _].
  exists o1, n_th, n_true, n_false.
  exists (attr_for (emitted w n_th I) n_true C
            (NeuralTreeNet.OInt (NeuralTreeNet.size_ (NeuralTreeNet.self w) + 1))),
         (attr_for (emitted (emitted w n_th I) n_true C) n_false C
            (NeuralTreeNet.OInt (NeuralTreeNet.size_ (NeuralTreeNet.self w) + 1 + 1))).
  cbv zeta.
  split; [exact Hreg |]. split; [exact Hvisit |].
  split; [exact Hu_t |]. split; [exact Hu_f |].
  split; [exact Hpl |]. split; [exact Hpr |].
  split.
  { eapply prefix_lookup_Some; [| exact Hext_h]. rewrite Hheap.
    rewrite lookup_app_r by lia.
    replace (length (NeuralTreeNet.heap w) + 1 - length (NeuralTreeNet.heap w)) with 1 by lia.
    reflexivity. }
  split.
  { eapply prefix_lookup_Some; [| exact Hext_h]. rewrite Hheap.
    rewrite lookup_app_r by lia.
    replace (length (NeuralTreeNet.heap w) + 2 - length (NeuralTreeNet.heap w)) with 2 by lia.
    reflexivity. }
  split.
  { eapply prefix_lookup_Some; [| exact Hext_n]. rewrite Hnds.
    rewrite lookup_app_r by lia.
    replace (length (NeuralTreeNet.nodes (NeuralTreeNet.self w)) + 1
             - length (NeuralTreeNet.nodes (NeuralTreeNet.self w))) with 1 by lia.
    reflexivity. }
  split.
  { eapply prefix_lookup_Some; [| exact Hext_n]. rewrite Hnds.
    rewrite lookup_app_r by lia.
    replace (length (NeuralTreeNet.nodes (NeuralTreeNet.self w)) + 2
             - length (NeuralTreeNet.nodes (NeuralTreeNet.self w))) with 2 by lia.
    reflexivity. }
  split.
  { eapply prefix_lookup_Some; [| exact Hext_a].
    change (NeuralTreeNet.nodes_attr (NeuralTreeNet.self w3))
      with (((NeuralTreeNet.nodes_attr (NeuralTreeNet.self w)
              ++ [attr_for w n_th I
                    (NeuralTreeNet.OInt (NeuralTreeNet.size_ (NeuralTreeNet.self w)))])
             ++ [attr_for (emitted w n_th I) n_true C
                   (NeuralTreeNet.OInt (NeuralTreeNet.size_ (NeuralTreeNet.self w) + 1))])
            ++ [attr_for (emitted (emitted w n_th I) n_true C) n_false C
                  (NeuralTreeNet.OInt (NeuralTreeNet.size_ (NeuralTreeNet.self w) + 1 + 1))]).
    apply lookup_app_l_Some. apply list_lookup_middle.
    rewrite length_app, Hlen. reflexivity. }
  split.
  { eapply prefix_lookup_Some; [| exact Hext_a].
    change (NeuralTreeNet.nodes_attr (NeuralTreeNet.self w3))
      with (((NeuralTreeNet.nodes_attr (NeuralTreeNet.self w)
              ++ [attr_for w n_th I
                    (NeuralTreeNet.OInt (NeuralTreeNet.size_ (NeuralTreeNet.self w)))])
             ++ [attr_for (emitted w n_th I) n_true C
                   (NeuralTreeNet.OInt (NeuralTreeNet.size_ (NeuralTreeNet.self w) + 1))])
            ++ [attr_for (emitted (emitted w n_th I) n_true C) n_false C
                  (NeuralTreeNet.OInt (NeuralTreeNet.size_ (NeuralTreeNet.self w) + 1 + 1))]).
    apply list_lookup_middle.
    rewrite !length_app, Hlen. simpl. lia. }
  split; [reflexivity |]. split; [reflexivity |]. split; [reflexivity |].
  cbn [NeuralTreeNet.output attr_for]. f_equal. lia.
Qed.

End CompiledNetwork.

(** [create_from_tree] stops where its loop stops. *)
Lemma create_from_tree_raises (special : Special) (tree : NeuralTreeNet.tree_t) (k : R)
      (h : list NeuralTreeNode.t) (ps : list (R * R)) (e : exn) (w : NeuralTreeNet.world) :
  NeuralTreeNet.n_classes_ tree = 2%Z ->
  NeuralTreeNet.pairs (NeuralTreeNet.value tree) = Ok ps ->
  NeuralTreeNet.visit_all tree k (NeuralTreeNet.classes_of ps)
    (range 0 (NeuralTreeNet.node_count tree))
    (∅, list_to_map (map (fun i => (i, [])) (range 0 2)))
    (NeuralTreeNet.mk_world h (empty_net (NeuralTreeNet.max_features_ tree)))
  = (Raise e, w) ->
  NeuralTreeNet.create_from_tree tree k h = (Raise e, NeuralTreeNet.heap w).
Proof.
  intros Hnc Hps Hloop. unfold NeuralTreeNet.create_from_tree.
  rewrite Hnc. change (2 <? 2)%Z with false. cbv iota.
  unfold bind at 1. unfold lift at 1. rewrite Hps.
  unfold bind at 1.
  change (NeuralTreeNet.__init__ (NeuralTreeNet.max_features_ tree) true h)
    with (Ok (empty_net (NeuralTreeNet.max_features_ tree)), h).
  cbv beta iota. unfold bind at 1. rewrite Hloop. reflexivity.
Qed.

(** The turn of the loop at the root of the two trees. *)
Lemma sapling_root_run (mf : Z) (tree : NeuralTreeNet.tree_t) (oc : list Z) :
  tree = NeuralTreeNet.mk_tree 2 5 [1; 2; -1; -1; -1]%Z [4; 3; -1; -1; -1]%Z
           [0; 1; -2; -2; -2]%Z [0.5; 0.5; -2; -2; -2]%R
           [5; 5; 3; 2; 3; 0; 0; 2; 2; 3]%R mf ->
  (0 < mf)%Z ->
  exists (n_th n_false : NeuralTreeNode.t),
    let w0 := NeuralTreeNet.mk_world [] (empty_net mf) in
    NeuralTreeNet.visit_all (special := real_special) tree 1 oc [0%Z]
      (∅, list_to_map (map (fun i => (i, [])) (range 0 2))) w0
    = (Ok (<[4%Z := 1]> (<[1%Z := 0]> ∅),
           list_to_map (map (fun i => (i, [])) (range 0 2))),
       emitted (emitted w0 n_th (NeuralTreeNet.IntArray (range 0 mf))) n_false
         (NeuralTreeNet.PyList [mf])).
Proof.
  intros -> Hmf.
  destruct (visit_root_run (special := real_special)
              (NeuralTreeNet.mk_tree 2 5 [1; 2; -1; -1; -1]%Z [4; 3; -1; -1; -1]%Z
                 [0; 1; -2; -2; -2]%Z [0.5; 0.5; -2; -2; -2]%R
                 [5; 5; 3; 2; 3; 0; 0; 2; 2; 3]%R mf)
              1%R oc 0%Z ∅
              (list_to_map (map (fun i : Z => (i, @nil nat)) (range 0 2)))
              (NeuralTreeNet.mk_world [] (empty_net mf))
              1%Z 4%Z 0%Z 0.5%R)
    as (coef & n_th & n_false & Hrun & _);
    [reflexivity | reflexivity | lia | reflexivity | simpl; lia | reflexivity
     | reflexivity | reflexivity |].
  cbv zeta in Hrun. exists n_th, n_false. cbv zeta.
  cbn [NeuralTreeNet.visit_all]. unfold bind. rewrite Hrun. reflexivity.
Defined.

(** C9, as stated, fails on a binary tree fitted with [max_features=1]
    over two features: node 1 is internal, its predecessor is recorded
    when the loop reaches it, and it splits on feature 1, which is not a
    position of an input of [max_features_ = 1] entries. The turn of the
    loop at node 1 raises [IndexError] before any unit is appended, and so
    does [create_from_tree]. *)
Lemma combination_units_counterexample :
  NeuralTreeNet.n_classes_ narrow_sapling = 2%Z /\
  NeuralTreeNet.max_features_ narrow_sapling = 1%Z /\
  getitem (NeuralTreeNet.children_left narrow_sapling) 1 = Ok 2%Z /\
  getitem (NeuralTreeNet.children_right narrow_sapling) 1 = Ok 3%Z /\
  getitem (NeuralTreeNet.feature narrow_sapling) 1 = Ok 1%Z /\
  NeuralTreeNet.pairs (NeuralTreeNet.value narrow_sapling)
  = Ok [(5, 5); (3, 2); (3, 0); (0, 2); (2, 3)]%R /\
  (exists (predecessor : gmap Z nat) (outputs : gmap Z (list nat))
          (w : NeuralTreeNet.world),
      NeuralTreeNet.visit_all (special := real_special) narrow_sapling 1
        (NeuralTreeNet.classes_of [(5, 5); (3, 2); (3, 0); (0, 2); (2, 3)]%R) (range 0 1)
        (∅, list_to_map (map (fun i => (i, []))
                             (range 0 (NeuralTreeNet.n_classes_ narrow_sapling))))
        (NeuralTreeNet.mk_world [] (empty_net 1))
      = (Ok (predecessor, outputs), w) /\
      predecessor !! 1%Z = Some 0 /\
      NeuralTreeNet.visit (special := real_special) narrow_sapling 1
        (NeuralTreeNet.classes_of [(5, 5); (3, 2); (3, 0); (0, 2); (2, 3)]%R) 1
        (predecessor, outputs) w
      = (Raise IndexError, w)) /\
  fst (NeuralTreeNet.create_from_tree (special := real_special) narrow_sapling 1 [])
  = Raise IndexError.
Proof.
  split; [reflexivity |]. split; [reflexivity |]. split; [reflexivity |].
  split; [reflexivity |]. split; [reflexivity |]. split; [reflexivity |].
  set (oc := NeuralTreeNet.classes_of [(5, 5); (3, 2); (3, 0); (0, 2); (2, 3)]%R).
  destruct (sapling_root_run 1 narrow_sapling oc eq_refl ltac:(lia))
    as (n_th & n_false & Hroot).
  cbv zeta in Hroot.
  set (w := emitted (emitted (NeuralTreeNet.mk_world [] (empty_net 1)) n_th
                       (NeuralTreeNet.IntArray (range 0 1))) n_false
              (NeuralTreeNet.PyList [1%Z])) in *.
  set (loc := (<[4%Z := 1]> (<[1%Z := 0]> (∅ : gmap Z nat)),
               (list_to_map (map (fun i : Z => (i, @nil nat)) (range 0 2))
                : gmap Z (list nat)))) in *.
  assert (Hraise : NeuralTreeNet.visit (special := real_special) narrow_sapling 1 oc 1 loc w
                   = (Raise IndexError, w)).
  { apply (visit_feature_out_of_range narrow_sapling 1%R oc 1%Z loc w 2%Z 3%Z 1%Z);
      [reflexivity | reflexivity | lia | reflexivity | simpl; lia | simpl; lia]. }
  split.
  - exists (fst loc), (snd loc), w.
    split; [exact Hroot |]. split; [vm_compute; reflexivity | exact Hraise].
  - rewrite (create_from_tree_raises real_special narrow_sapling 1%R []
               [(5, 5); (3, 2); (3, 0); (0, 2); (2, 3)]%R IndexError w);
      [reflexivity | reflexivity | reflexivity |].
    change (range 0 (NeuralTreeNet.node_count narrow_sapling))
      with ([0%Z] ++ [1; 2; 3; 4]%Z).
    rewrite visit_all_app. unfold bind at 1.
    change (NeuralTreeNet.max_features_ narrow_sapling) with 1%Z.
    fold oc. rewrite Hroot. fold loc.
    cbn [NeuralTreeNet.visit_all]. unfold bind at 1. rewrite Hraise. reflexivity.
Qed.

Lemma sapling_binary : binary_tree sapling.
Proof.
  split; [reflexivity |]. split.
  - change (range 0 (NeuralTreeNet.node_count sapling)) with [0; 1; 2; 3; 4]%Z.
    apply List.Forall_cons.
    { exists 1%Z, 4%Z, 0%Z, 0.5%R. do 4 (split; [reflexivity |]). intros _. simpl. lia. }
    apply List.Forall_cons.
    { exists 2%Z, 3%Z, 1%Z, 0.5%R. do 4 (split; [reflexivity |]). intros _. simpl. lia. }
    repeat (apply List.Forall_cons;
            [exists (-1)%Z, (-1)%Z, (-2)%Z, (-2)%R; do 4 (split; [reflexivity |]);
             intros _; simpl; lia |]).
    apply List.Forall_nil.
  - exists [(5, 5); (3, 2); (3, 0); (0, 2); (2, 3)]%R. split; [reflexivity | simpl; lia].
Defined.

Lemma create_from_tree_combination_units_witness :
  binary_tree sapling /\
  exists (net : NeuralTreeNet.t) (h' : list NeuralTreeNode.t)
         (n_true n_false : NeuralTreeNode.t) (a_true a_false : NeuralTreeNet.attr),
    NeuralTreeNet.create_from_tree (special := real_special) sapling 1 [] = (Ok net, h') /\
    is_unit n_true "sigmoid4" [1; 1]%R (-1.5 * 1)%R (-1) /\
    is_unit n_false "sigmoid4" [1; - (1)]%R (-0.25 * 1)%R (-1) /\
    h' !! 3 = Some (NeuralTreeNode.set_nodeid 3 n_true) /\
    h' !! 4 = Some (NeuralTreeNode.set_nodeid 4 n_false) /\
    NeuralTreeNet.nodes net !! 3 = Some 3 /\
    NeuralTreeNet.nodes net !! 4 = Some 4 /\
    NeuralTreeNet.nodes_attr net !! 3 = Some a_true /\
    NeuralTreeNet.nodes_attr net !! 4 = Some a_false /\
    NeuralTreeNet.indices (NeuralTreeNet.inputs a_true) = [2; 4]%Z /\
    NeuralTreeNet.indices (NeuralTreeNet.inputs a_false) = [2; 4]%Z /\
    NeuralTreeNet.output a_true = NeuralTreeNet.OInt 5 /\
    NeuralTreeNet.output a_false = NeuralTreeNet.OInt 6.
Proof.
  split; [exact sapling_binary |].
  destruct (create_from_tree_combination_units (special := real_special) sapling 1%R []
              sapling_binary)
    as (ps & net & h' & Hps & Hrun & Hnodes).
  change (NeuralTreeNet.pairs (NeuralTreeNet.value sapling))
    with (Ok [(5, 5); (3, 2); (3, 0); (0, 2); (2, 3)]%R) in Hps.
  injection Hps as <-.
  destruct (Hnodes 1%Z 2%Z 3%Z ltac:(simpl; lia) eq_refl eq_refl ltac:(lia))
    as (predecessor & outputs & w & Hloop & Hunits).
  destruct (sapling_root_run 2 sapling
              (NeuralTreeNet.classes_of [(5, 5); (3, 2); (3, 0); (0, 2); (2, 3)]%R)
              eq_refl ltac:(lia))
    as (n_th0 & n_false0 & Hroot).
  cbv zeta in Hroot.
  pose proof (eq_trans (eq_sym Hroot) Hloop) as E.
  injection E as Hp Ho Hw. subst predecessor outputs w.
  destruct (Hunits 0 ltac:(vm_compute; reflexivity))
    as (o1 & n_th & n_true & n_false & a_true & a_false & Hreg & _ & Hu_t & Hu_f
        & _ & _ & Hh1 & Hh2 & Hn1 & Hn2 & Ha1 & Ha2 & Hi1 & Hi2 & Ho1 & Ho2).
  cbv zeta in Hreg, Hh1, Hh2, Hn1, Hn2, Ha1, Ha2, Hi1, Hi2, Ho1, Ho2.
  assert (Eo : o1 = 2%Z).
  { destruct Hreg as (n & r & a & Hn & Hid & Hr & Ha & Hout).
    change (Some (NeuralTreeNode.set_nodeid 0 n_th0) = Some n) in Hn.
    injection Hn as <-.
    change (NeuralTreeNet.nodes_attr _ !! _)
      with (Some (attr_for (NeuralTreeNet.mk_world [] (empty_net 2)) n_th0
                    (NeuralTreeNet.IntArray (range 0 2)) (NeuralTreeNet.OInt 2))) in Ha.
    injection Ha as <-. injection Hout as <-. reflexivity. }
  subst o1.
  exists net, h', n_true, n_false, a_true, a_false.
  split; [exact Hrun |]. split; [exact Hu_t |]. split; [exact Hu_f |].
  split; [exact Hh1 |]. split; [exact Hh2 |]. split; [exact Hn1 |]. split; [exact Hn2 |].
  split; [exact Ha1 |]. split; [exact Ha2 |]. split; [exact Hi1 |]. split; [exact Hi2 |].
  split; [exact Ho1 | exact Ho2].
Defined.
